(* ===== verification/_CoqProject ===== *)
-Q . S2P
Prelude.v
Logic.v
Types.v
Strings.v
Ulib.v
Printf.v
Grep.v
Uprog.v
Umalloc.v
Shell.v
Runcmd.v
Utils.v
Spinlock.v
Mmu.v
Hw.v
Mp.v
Apic.v
Kalloc.v
Boot.v
X86vm.v
Umem.v
Vspace.v
Frame.v
Sched.v
Console.v
Tty.v
Cpuid.v
Kbd.v
Sleeplock.v
Ide.v
Memide.v
Bio.v
Fs.v
Elf.v
Mkfs.v
File.v
Pipe.v
Proc.v
Syscall.v
Asm.v
Diskread.v
Main.v
Invariant.v
Maintain.v
MaintainProc.v
System.v
