(* ===== verification/Prelude.v ===== *)
(** * xk: a verification development of the xk teaching kernel

    xk is a small x86-64 kernel for one processor ([src/kernel], [src/inc])
    with a handful of user programs ([src/user]).  This library translates the
    C code into Rocq functions and proves what the parts promise one another.

    ** How C becomes Rocq

    A C integer is a [Z] that is reduced to its width where the C type says so
    ([u8] ... [i64] below); the kernel is compiled with [-fwrapv].  Kernel code
    runs in the monad [M kstate] (written [K]) of this file: a call returns,
    panics, does something undefined ([Fault]), spins ([Diverge]) or gives up
    the processor in [swtch] ([Block], with the rest of the thread).  The
    kernel's globals are one record, [kstate] ([Types.v]).  A pointer into a
    table is an index ([struct proc *], [struct buf *], [struct file_info *],
    [struct inode *]); memory from [kalloc] is named by its kernel virtual
    address and its contents are frames keyed by physical page number.  User
    memory is reached through the page table in [cr3] ([Umem.v]).  A lock is a
    [lockref], a place in the state with laws ([LockLaws] of [Spinlock.v]).

    User programs have a state of their own, [ustate] ([Ulib.v]): bytes of
    memory, a table of open descriptors with the reads that each will give, and
    what the kernel will answer to their other system calls.  They are
    compiled without [-fwrapv], so a signed overflow there is a fault.

    Code that programs devices runs on a state of its own too, [hw] ([Hw.v]):
    bytes of memory, the variables that the code keeps, and the trace of every
    access to a port or a device register.  What a device answers is a function
    of that trace (the class [devices]), so what is assumed of a device are
    hypotheses on its answers.

    ** The files, in dependency order

    - [Prelude]: widths, the kernel monad, list facts.  [Logic]: a logic of
      invariants for threads that give up the processor.
    - [Types]: the structures of [inc/*.h] and the globals, at power-on.
    - [Strings]: [kernel/string.c] over bytes of memory.
    - [Spinlock]: [kernel/spinlock.c].  [Mmu]: the macros of [inc/mmu.h].
    - [Hw]: the machine below the kernel.  [Mp]: [kernel/mp.c].  [Apic]:
      [kernel/lapic.c], [kernel/ioapic.c], [kernel/picirq.c].
    - [Boot]: the loop of [kernel/bootasm.S] that asks the BIOS for the memory
      map, [kernel/bootmain.c], and [e820_init] of [kernel/e820.c].
    - [Kalloc]: [kernel/kalloc.c].  [X86vm]: [kernel/x86_64vm.c].
      [Umem]: loads and stores through the page table.
      [Vspace]: [kernel/vspace.c].  [Elf]: its loader and its dumps.
    - [Frame]: the functions above leave the kernel's tables alone.
    - [Sched]: scheduling, sleeping and waking of [kernel/proc.c].
    - [Console], [Kbd]: [kernel/console.c], [kernel/uart.c], [kernel/kbd.c].
      [Tty]: the console as a line editor, no code of its own.
      [Cpuid]: [kernel/cpuid.c].
    - [Sleeplock], [Ide], [Bio], [Fs]: [kernel/sleeplock.c], [kernel/ide.c],
      [kernel/bio.c], [kernel/fs.c].  [Memide]: [kernel/memide.c], a disk in
      memory that can take the place of [Ide].
    - [Mkfs]: [mkfs.c], the program that builds the image of the file system.
    - [File]: [kernel/file.c], with pipes.  [Pipe]: facts about pipes as
      queues and about user memory, no code of its own.  [Proc]: fork, exit and wait of
      [kernel/proc.c].  [Syscall]: [kernel/syscall.c], [kernel/sysfile.c],
      [kernel/sysproc.c], [kernel/exec.c], [kernel/trap.c].
      [Main]: [kernel/main.c] and the report of [kernel/e820.c].
    - [Asm]: [kernel/vectors.S], [kernel/trapasm.S], [kernel/swtch.S] and
      [user/lib/usys.S] as instructions of a machine with registers and memory,
      with the descriptor tables of [tvinit] and [seginit].
    - [Diskread]: reading a file through the cache, the disk driver and the
      scheduler, no code of its own.
    - [Invariant], [Maintain], [MaintainProc]: the invariant of the whole
      kernel and the proof that every operation maintains it.
    - [Ulib]: [user/lib/ulib.c] over bytes of memory, and what a user program
      sees of the system calls.  [Printf]: [user/lib/printf.c].
      [Umalloc]: [user/lib/umalloc.c].  [Grep]: [user/grep.c].
      [Uprog]: [user/wc.c], [user/cat.c], [user/echo.c].
      [Shell]: the parser of [user/sh.c].  [Runcmd]: its [runcmd], with the
      system calls an interface whose failures are arguments.
      [Utils]: the other programs of [src/user] (ls, init, kill, ln, rm,
      sysinfo, zombie, stressfs, lab3init), [main] of grep and of the shell, and
      [gets] and [stat] of [ulib.c].
    - [System]: the machine as a step relation over the threads of all
      processes and the scheduler.

    ** What the theorems show

    - Whole machine ([System]): a boot that reaches the scheduler
      establishes the kernel's invariant, and it holds in every configuration
      that any sequence of traps, interrupts and context switches can reach;
      process numbers are distinct until their counter wraps around.
    - Locks ([Spinlock], [Sched]): interrupt nesting is matched, a critical
      section leaves no trace, [sleep] hands its lock over and gets
      it back after a [wakeup] (the order of the two lock operations inside
      [sleep] is not observable here: nothing interleaves between switches).
      [Sleeplock]: a held sleep lock is not taken, and one that is given back
      wakes a process that waits for it, which gets it if it is still free
      when the scheduler resumes it.
    - Processes ([Proc]): an [exit] is not missed by a parent in [wait]; it
      closes the files and hands the children to the first process, and [wait]
      collects the first child that ended.
    - Descriptors ([File]): [file_dup] installs the smallest unused descriptor
      and returns it for a file; for an end of a pipe it returns 0.
      [Pipe]: a pipe is a queue of bytes as long as no block crosses the end of
      its ring buffer; one that does is written past the buffer, and a read
      with no writer left ignores the size it was given.
    - [Mkfs]: the image has a directory, inodes and a bitmap that the kernel's
      decoding of superblock, inodes and entries reads as the files given.
    - Files ([Diskread]): while one process runs, [readi] returns the bytes of
      the file on the disk, whichever blocks are cached; each block that is not
      takes it through [sleep], the disk's interrupt and the scheduler.  What
      mkfs puts into an image is read back from it.
    - Before the kernel ([Boot]): the loader puts the kernel where its header
      says, and [e820_init] reads exactly the map that the BIOS reported; a BIOS
      that ends the map with the carry flag makes it panic.
    - Devices ([Mp], [Apic], [Memide]): [mpinit] records the processors of every
      well formed table, and never ends on an entry that it does not know; after
      the initialisation exactly the interrupts of the drivers are open, at the
      vectors that [trap] expects, and the 8259A controllers are initialised,
      whatever state they were in; [cpunum] inverts the table; [cmostime] reads
      the clock in both encodings.  The disk in memory keeps a buffer and its
      block equal, or panics in one of four cases.
    - Into the kernel and out ([Asm]): every vector builds the frame that [trap]
      expects, and [trapret] resumes what the frame says; a system-call stub is a
      function call; [swtch] is a pair of coroutine calls, and a new process
      starts where its frame says.  The I/O map of the task state segment is not
      where [seginit] means it to be, so user programs may use the disk's ports.
    - Console ([Tty]): what is typed goes through a reference line editor,
      control-P asks for the process listing, and a reader gets the next line.  [Cpuid]: exactly the features that the
      processor reports are printed.
    - System call arguments ([Syscall]): the check of a pointer is exact unless
      the end of the block wraps around, and then it accepts kernel memory.
    - Memory ([Kalloc], [Mmu], [X86vm]): the allocator's invariant and the round
      trip of [kalloc] and [kfree]; address arithmetic is inverse to itself;
      [mappages] refines the update of a finite map from pages to entries.
    - [Strings]: the routines agree with list functions on every branch.
    - [Grep]: the matcher decides the language of its pattern, and the loop
      over the buffer prints the matching lines of a file; a line that comes in
      two pieces is lost, and so is what follows a NUL.  [Uprog]: wc counts as a reference definition does and
      cat copies files, each through the smallest free descriptor, for every way
      the input is split into reads.  [Printf]: what
      [%d] prints [atoi] reads back, and [%ld] drops the high half.
    - [Umalloc]: the free list stays a sorted circle without touching blocks,
      and blocks in use never overlap; a call of [sbrk] is assumed to hand out
      fresh memory.  The [sbrk] of this kernel is a stub that does not: on it the
      first [malloc] writes to address 0.
    - [Shell]: the parser ends on every line, its commands are well formed, and
      it reads back every command tree from its text.  [Runcmd]: such a command
      starts each program with the files and pipe ends its place says, and
      leaks no descriptor whichever calls fail, and its assertions hold; for a
      pipe this needs a [dup] that answers as documented, and with the one of
      this kernel every pipe hangs.
      [Utils]: a session of the shell, from the pieces in which its input is
      read to the programs that each line starts.

    A loop or a branch of a function that is a definition of its own here is
    part of the translation of that function; its comment says which part.

    ** Bounds and fuel

    Recursion that is not structural takes fuel.  Where the code's loop is
    bounded by its data, the fuel is computed from the data (pages of a range,
    length of a path, length of the core map for chains of pages) and the
    theorems show that it suffices.  A loop around [sleep] has no bound in the
    code; the model lets it be woken [WAKEUPS] (1000) times and as many times more
    as [env_wakeups] of the state says, and calls further rounds [Diverge].
    Nothing in the code changes [env_wakeups] and no theorem restricts it, so
    that every finite execution is one of the model.  [scheduler_round] is one round of the endless loop of
    [scheduler]; [System.v] repeats it without bound.

    ** Not modelled

    Interrupts arrive in user mode and while the scheduler is idle, not in the
    middle of kernel code, although the gate of system calls leaves them enabled.  The devices behind the ports are modelled by what
    the drivers rely on.  Left out are the assembly that switches the processor's
    mode and paging at power-on ([entry.S], the rest of [bootasm.S]), which would
    need a model of those modes, the [pcs] that [acquire] records for debugging
    (what [getcallerpcs] finds for [procdump] is [env_callers] of the state), and
    the lab tests, which are
    test programs and no part of the system.  In [kstate] a context switch is the
    [Block] of the monad and a trap frame a record; that the instructions of
    [Asm] implement the two is shown on the machine of [Asm], without a proof that
    relates the memories of the two models.  [main] takes the memory map as an
    argument, and the devices of [Hw] are not part of [kstate]: the kernel proper
    does not read the controllers' registers, [cpunum] is 0 and [lapiceoi] has no
    effect there. *)

From Stdlib Require Export ZArith Lia.
From stdpp Require Export base numbers option strings gmap list.

#[global] Open Scope Z_scope.

(** ** Machine integers

    The kernel is compiled with [-fwrapv] for an LP64 target, so every C
    integer operation is the mathematical one followed by a reduction to the
    width of its type.  A C integer is a [Z]; the reductions are these. *)

Definition u8 (z : Z) : Z := z mod 2 ^ 8.
Definition u16 (z : Z) : Z := z mod 2 ^ 16.
Definition u32 (z : Z) : Z := z mod 2 ^ 32.
Definition u64 (z : Z) : Z := z mod 2 ^ 64.
Definition i16 (z : Z) : Z := (z + 2 ^ 15) mod 2 ^ 16 - 2 ^ 15.
Definition i32 (z : Z) : Z := (z + 2 ^ 31) mod 2 ^ 32 - 2 ^ 31.
Definition i64 (z : Z) : Z := (z + 2 ^ 63) mod 2 ^ 64 - 2 ^ 63.

#[global] Arguments u8 : simpl never.
#[global] Arguments u16 : simpl never.
#[global] Arguments u32 : simpl never.
#[global] Arguments u64 : simpl never.
#[global] Arguments i16 : simpl never.
#[global] Arguments i32 : simpl never.
#[global] Arguments i64 : simpl never.

(** C's truth value of an integer. *)
Definition truthy (z : Z) : bool := negb (z =? 0).

(** Linear arithmetic with division and modulo by constants. *)
Ltac dlia := Z.to_euclidean_division_equations; lia.

(** Goals about the width reductions. *)
Ltac word := unfold u8, u16, u32, u64, i16, i32, i64 in *; dlia.

(** Turn boolean tests on integers into propositions, in the whole context. *)
Ltac bprop :=
  repeat match goal with
  | H : (_ && _)%bool = true |- _ => apply andb_prop in H as [? ?]
  | H : (_ || _)%bool = false |- _ => apply orb_false_elim in H as [? ?]
  | H : (_ <? _) = true |- _ => apply Z.ltb_lt in H
  | H : (_ <? _) = false |- _ => apply Z.ltb_ge in H
  | H : (_ <=? _) = true |- _ => apply Z.leb_le in H
  | H : (_ <=? _) = false |- _ => apply Z.leb_gt in H
  | H : (_ =? _) = true |- _ => apply Z.eqb_eq in H
  | H : (_ =? _) = false |- _ => apply Z.eqb_neq in H
  | H : negb _ = true |- _ => apply negb_true_iff in H
  | H : negb _ = false |- _ => apply negb_false_iff in H
  end.

Create HintDb words.
Create Rewrite HintDb words.

Lemma u64_range z : 0 <= u64 z < 2 ^ 64.
Proof. word. Qed.

Lemma u64_small z : 0 <= z < 2 ^ 64 -> u64 z = z.
Proof. intros; word. Qed.

Lemma u32_range z : 0 <= u32 z < 2 ^ 32.
Proof. word. Qed.

Lemma u32_small z : 0 <= z < 2 ^ 32 -> u32 z = z.
Proof. intros; word. Qed.

Lemma u8_range z : 0 <= u8 z < 2 ^ 8.
Proof. word. Qed.

Lemma u8_small z : 0 <= z < 2 ^ 8 -> u8 z = z.
Proof. intros; word. Qed.

Lemma i32_range z : - 2 ^ 31 <= i32 z < 2 ^ 31.
Proof. word. Qed.

Lemma i32_small z : - 2 ^ 31 <= z < 2 ^ 31 -> i32 z = z.
Proof. intros; word. Qed.

Lemma u64_add_l a b : u64 (u64 a + b) = u64 (a + b).
Proof. word. Qed.

Lemma u64_add_r a b : u64 (a + u64 b) = u64 (a + b).
Proof. word. Qed.

Lemma u64_sub_l a b : u64 (u64 a - b) = u64 (a - b).
Proof. word. Qed.

Lemma u64_idem a : u64 (u64 a) = u64 a.
Proof. word. Qed.

Lemma i32_idem a : i32 (i32 a) = i32 a.
Proof. word. Qed.

#[export] Hint Rewrite u64_add_l u64_add_r u64_sub_l u64_idem i32_idem : words.
#[export] Hint Resolve u64_range u32_range u8_range i32_range : words.

(** ** The kernel monad

    A run of kernel code from a state ends in one of five ways: it returns a
    value; it calls [panic]; it does something C leaves undefined (a null or
    wild pointer, an index out of an array); it spins forever; or it switches
    to the scheduler with [swtch], in which case the rest of the kernel
    thread is a function of the state the thread is resumed in. *)

Inductive res (S A : Type) : Type :=
| Done (a : A) (s : S)
| Panic (msg : string)
| Fault (msg : string)
| Diverge
| Block (s : S) (k : S -> res S A).
Arguments Done {S A} a s.
Arguments Panic {S A} msg.
Arguments Fault {S A} msg.
Arguments Diverge {S A}.
Arguments Block {S A} s k.

Definition M (S A : Type) : Type := S -> res S A.

Section monad.
Context {S : Type}.

Fixpoint bindr {A B} (r : res S A) (k : A -> M S B) : res S B :=
  match r with
  | Done a s => k a s
  | Panic m => Panic m
  | Fault m => Fault m
  | Diverge => Diverge
  | Block s f => Block s (fun s' => bindr (f s') k)
  end.

Definition bind {A B} (m : M S A) (k : A -> M S B) : M S B :=
  fun s => bindr (m s) k.
Definition ret {A} (a : A) : M S A := fun s => Done a s.
Definition gets {A} (f : S -> A) : M S A := fun s => Done (f s) s.
Definition modify (f : S -> S) : M S unit := fun s => Done tt (f s).
Definition panic {A} (msg : string) : M S A := fun _ => Panic msg.
Definition fault {A} (msg : string) : M S A := fun _ => Fault msg.
Definition diverge {A} : M S A := fun _ => Diverge.

(** [assertm(x, msg)] of [inc/defs.h]. *)
Definition assertm (b : bool) (msg : string) : M S unit :=
  if b then ret tt else panic msg.

(** Dereference something that may not be there. *)
Definition deref {A} (msg : string) (o : option A) : M S A :=
  match o with Some a => ret a | None => fault msg end.

(** [for] over a list of values of the loop variable. *)
Fixpoint mfor {A} (l : list A) (f : A -> M S unit) : M S unit :=
  match l with
  | [] => ret tt
  | x :: l => bind (f x) (fun _ => mfor l f)
  end.

(** Run a thread while it blocks: each element of [env] is what the rest of
    the machine does to the state before the thread is resumed once. *)
Fixpoint drive {A} (env : list (S -> S)) (r : res S A) : res S A :=
  match env, r with
  | e :: env', Block s k => drive env' (k (e s))
  | _, _ => r
  end.
End monad.

Declare Scope kernel_scope.
Delimit Scope kernel_scope with kernel.
Notation "x <- m ;; k" := (bind m (fun x => k))
  (at level 100, m at next level, right associativity,
   format "x  <-  m ;; '//' k") : kernel_scope.
Notation "'let*' p := m 'in' k" := (bind m (fun x => match x with p => k end))
  (at level 100, p strict pattern, m at level 99, k at level 200, right associativity,
   format "'let*'  p  :=  m  'in' '//' k") : kernel_scope.
Notation "m ;; k" := (bind m (fun _ => k))
  (at level 100, k at level 200, right associativity) : kernel_scope.
#[global] Open Scope kernel_scope.

#[global] Arguments bind : simpl never.

Section monad_facts.
Context {S : Type}.

Lemma bind_done {A B} (m : M S A) (k : A -> M S B) s a s' :
  m s = Done a s' -> bind m k s = k a s'.
Proof. unfold bind. by intros ->. Qed.

(** A sequence that returns went through both parts. *)
Lemma bind_block {A B} (m : M S A) (k : A -> M S B) s s1 r :
  m s = Block s1 r -> bind m k s = Block s1 (fun s2 => bindr (r s2) k).
Proof. unfold bind. by intros ->. Qed.

Lemma bind_inv {A B} (m : M S A) (k : A -> M S B) s b s'' :
  bind m k s = Done b s'' ->
  exists a s', m s = Done a s' /\ k a s' = Done b s''.
Proof. unfold bind. destruct (m s); cbn; intros H; try done. eauto. Qed.

Lemma bind_panic {A B} (m : M S A) (k : A -> M S B) s msg :
  m s = Panic msg -> bind m k s = Panic msg.
Proof. unfold bind. by intros ->. Qed.

Lemma bind_fault {A B} (m : M S A) (k : A -> M S B) s msg :
  m s = Fault msg -> bind m k s = Fault msg.
Proof. unfold bind. by intros ->. Qed.

Lemma bind_ret {A B} (a : A) (k : A -> M S B) s : bind (ret a) k s = k a s.
Proof. done. Qed.

Lemma bind_gets {A B} (f : S -> A) (k : A -> M S B) s : bind (gets f) k s = k (f s) s.
Proof. done. Qed.

Lemma bind_modify {B} (f : S -> S) (k : unit -> M S B) s : bind (modify f) k s = k tt (f s).
Proof. done. Qed.

Lemma bind_deref {A B} msg (a : A) (k : A -> M S B) s :
  bind (deref msg (Some a)) k s = k a s.
Proof. done. Qed.

Lemma bind_assertm {B} msg (k : unit -> M S B) s :
  bind (assertm true msg) k s = k tt s.
Proof. done. Qed.

Lemma bind_panic' {A B} msg (k : A -> M S B) s : bind (panic msg) k s = Panic msg.
Proof. done. Qed.

Lemma bind_fault' {A B} msg (k : A -> M S B) s : bind (fault msg) k s = Fault msg.
Proof. done. Qed.

Lemma drive_done {A} env (a : A) (s : S) : drive env (Done a s) = Done a s.
Proof. by destruct env. Qed.
End monad_facts.

(** Evaluate the primitive steps of a monadic program. *)
Ltac msimp :=
  repeat first
    [ rewrite bind_ret | rewrite bind_gets | rewrite bind_modify | rewrite bind_deref
    | rewrite bind_panic' | rewrite bind_fault' | rewrite bind_assertm ];
  cbv beta.

(** Use the known result of the first call of the goal's program. *)
Tactic Notation "mstep" uconstr(H) := erewrite bind_done; [|eapply H]; cbv beta iota.

(** Split a hypothesis that says a program returned. *)
Ltac minv :=
  repeat match goal with
  | H : bind _ _ _ = Done _ _ |- _ =>
      let a := fresh "a" in let s := fresh "s" in
      let E := fresh "E" in
      apply bind_inv in H as (a & s & E & H); cbv beta in H
  | H : ret _ _ = Done _ _ |- _ => unfold ret in H; simplify_eq
  | H : gets _ _ = Done _ _ |- _ => unfold gets in H; simplify_eq
  | H : modify _ _ = Done _ _ |- _ => unfold modify in H; simplify_eq
  | H : panic _ _ = Done _ _ |- _ => discriminate H
  | H : fault _ _ = Done _ _ |- _ => discriminate H
  | H : diverge _ = Done _ _ |- _ => discriminate H
  end.

(** ** Lists *)

(** How many elements satisfy a test. *)
Fixpoint count {A} (p : A -> bool) (l : list A) : Z :=
  match l with
  | [] => 0
  | x :: l => Z.b2z (p x) + count p l
  end.

Section count.
Context {A : Type} (p : A -> bool).

Lemma count_nonneg l : 0 <= count p l.
Proof. induction l as [|x l IH]; cbn; [lia|]. destruct (p x); cbn; lia. Qed.

Lemma count_le l : count p l <= Z.of_nat (length l).
Proof. induction l as [|x l IH]; cbn [count length]; [lia|]. destruct (p x); cbn; lia. Qed.

Lemma count_app l k : count p (l ++ k) = count p l + count p k.
Proof. induction l as [|x l IH]; cbn; lia. Qed.

Lemma count_alter f (l : list A) i x :
  l !! i = Some x ->
  count p (alter f i l) = count p l - Z.b2z (p x) + Z.b2z (p (f x)).
Proof.
  revert i. induction l as [|y l IH]; intros [|i] H; simplify_eq/=; [lia|].
  rewrite (IH i) by done. lia.
Qed.

Lemma count_insert (l : list A) i x y :
  l !! i = Some x ->
  count p (<[i := y]> l) = count p l - Z.b2z (p x) + Z.b2z (p y).
Proof. intros H. rewrite list_insert_alter. by erewrite count_alter. Qed.

Lemma count_replicate n x : count p (replicate n x) = if p x then Z.of_nat n else 0.
Proof. induction n as [|n IH]; cbn [count replicate]; rewrite ?IH; destruct (p x); cbn; lia. Qed.

Lemma count_pos l i x : l !! i = Some x -> p x = true -> 0 < count p l.
Proof.
  revert i. induction l as [|y l IH]; intros [|i] H Hp; simplify_eq/=.
  - rewrite Hp. pose proof (count_nonneg l). cbn; lia.
  - specialize (IH i H Hp). destruct (p y); cbn; lia.
Qed.

Lemma count_zero l : count p l = 0 <-> (forall i x, l !! i = Some x -> p x = false).
Proof.
  split.
  - intros H i x Hx. destruct (p x) eqn:E; [|done]. pose proof (count_pos l i x Hx E). lia.
  - intros H. induction l as [|y l IH]; cbn; [done|].
    rewrite (H 0%nat y) by done. cbn. apply IH. intros i x Hx. by apply (H (S i)).
Qed.
End count.

Lemma alter_insert {A} (f : A -> A) (l : list A) i x :
  l !! i = Some x -> <[i := f x]> l = alter f i l.
Proof. intros H. rewrite list_insert_alter. apply list_alter_ext; [|done]. congruence. Qed.

Lemma alter_alter {A} (f g : A -> A) (l : list A) i : alter f i (alter g i l) = alter (fun x => f (g x)) i l.
Proof. revert i. induction l as [|x l IH]; intros [|i]; cbn; [done..|]. f_equal. apply IH. Qed.

Lemma alter_same {A} (f : A -> A) (l : list A) i :
  (forall x, l !! i = Some x -> f x = x) -> alter f i l = l.
Proof.
  revert i. induction l as [|x l IH]; intros [|i] H; cbn; [done..| |]; f_equal.
  - by apply H.
  - by apply IH.
Qed.

(** ** Overwriting a part of a list *)

(** [b] with [bs] from place [off] on. *)
Definition blit {A} (off : nat) (bs b : list A) : list A := take off b ++ bs ++ drop (off + length bs) b.

Lemma lookup_blit {A} off (bs b : list A) i :
  (off + length bs <= length b)%nat ->
  blit off bs b !! i = if decide (off <= i < off + length bs)%nat then bs !! (i - off)%nat else b !! i.
Proof.
  intros Hl. unfold blit. assert (length (take off b) = off) as Ht by (rewrite length_take; lia).
  destruct (decide (i < off)%nat).
  { rewrite decide_False by lia. rewrite lookup_app_l by lia. by apply lookup_take_lt. }
  rewrite lookup_app_r, Ht by lia. case_decide.
  - by rewrite lookup_app_l by lia.
  - rewrite lookup_app_r by lia. rewrite lookup_drop. f_equal. lia.
Qed.

Lemma length_blit {A} off (bs b : list A) : (off + length bs <= length b)%nat -> length (blit off bs b) = length b.
Proof. intros H. unfold blit. rewrite !length_app, length_take, length_drop. lia. Qed.

Lemma blit_nil {A} k (l : list A) : blit k [] l = l.
Proof. unfold blit. cbn. rewrite Nat.add_0_r. apply take_drop. Qed.

Lemma blit_cons {A} k x (xs l : list A) :
  (k < length l)%nat -> blit k (x :: xs) l = blit (S k) xs (<[k := x]> l).
Proof.
  intros Hk. unfold blit. rewrite (take_S_r _ _ x) by (by apply list_lookup_insert_eq).
  rewrite take_insert_ge, drop_insert_lt by lia. rewrite <- app_assoc. cbn [app length].
  by replace (k + S (length xs))%nat with (S k + length xs)%nat by lia.
Qed.

(** A test of one bit. *)
Lemma land_pow2 v n : 0 <= n -> Z.land v (2 ^ n) = if Z.testbit v n then 2 ^ n else 0.
Proof.
  intros Hn. apply Z.bits_inj'. intros i Hi. rewrite Z.land_spec, Z.pow2_bits_eqb by done.
  destruct (Z.testbit v n) eqn:E, (Z.eqb_spec n i) as [<-|Hne];
    rewrite ?Z.bits_0, ?Z.pow2_bits_true, ?Z.pow2_bits_false, ?E by done; by rewrite ?andb_false_r.
Qed.

Lemma truthy_bit v n : 0 <= n -> truthy (Z.land v (2 ^ n)) = Z.testbit v n.
Proof.
  intros Hn. rewrite land_pow2 by done. pose proof (Z.pow_pos_nonneg 2 n ltac:(lia) Hn).
  unfold truthy. by destruct (Z.testbit v n), (Z.eqb_spec (2 ^ n) 0); try lia.
Qed.
