(* ===== verification/Logic.v ===== *)
(** * A logic for kernel threads

    A thread is judged against three predicates on the kernel state.  [I] is
    what it guarantees whenever it gives the processor up, [R] is what it may
    assume whenever it gets the processor back, and [J] is what it maintains
    while it runs.  [hoare P m Q] is partial correctness with respect to [I]
    and [R]; [gives J m Q] says that [m] maintains [J] and returns only
    results that satisfy [Q].  A thread that panics, faults or spins stops
    there. *)

From S2P Require Import Prelude.

Section logic.
Context {S : Type} (I R : S -> Prop).

Fixpoint runs {A} (Q : A -> S -> Prop) (r : res S A) : Prop :=
  match r with
  | Done a s => Q a s
  | Panic _ | Fault _ | Diverge => True
  | Block s k => I s /\ forall s', R s' -> runs Q (k s')
  end.

Definition hoare {A} (P : S -> Prop) (m : M S A) (Q : A -> S -> Prop) : Prop :=
  forall s, P s -> runs Q (m s).

Definition gives {A} (J : S -> Prop) (m : M S A) (Q : A -> Prop) : Prop :=
  hoare J m (fun a s => J s /\ Q a).

Lemma runs_mono {A} (Q Q' : A -> S -> Prop) r :
  (forall a s, Q a s -> Q' a s) -> runs Q r -> runs Q' r.
Proof. intros H. induction r; cbn; try done; [by apply H|]. intros [? ?]. auto. Qed.

Lemma runs_bind {A B} (Q : A -> S -> Prop) (Q' : B -> S -> Prop) r k :
  runs Q r -> (forall a s, Q a s -> runs Q' (k a s)) -> runs Q' (bindr r k).
Proof. intros H Hk. induction r; cbn in *; try done; [by apply Hk|]. destruct H. auto. Qed.

Lemma hoare_bind {A B} P (m : M S A) (k : A -> M S B) Q Q' :
  hoare P m Q -> (forall a, hoare (Q a) (k a) Q') -> hoare P (bind m k) Q'.
Proof. intros Hm Hk s Hs. eapply runs_bind; [by apply Hm|]. intros a s' H. by apply Hk. Qed.

Lemma hoare_cons {A} (P P' : S -> Prop) (m : M S A) (Q Q' : A -> S -> Prop) :
  hoare P m Q -> (forall s, P' s -> P s) -> (forall a s, Q a s -> Q' a s) -> hoare P' m Q'.
Proof. intros H HP HQ s Hs. eapply runs_mono; [by apply HQ|]. auto. Qed.

Lemma hoare_pre {A} (P P' : S -> Prop) (m : M S A) (Q : A -> S -> Prop) :
  hoare P m Q -> (forall s, P' s -> P s) -> hoare P' m Q.
Proof. intros H HP s Hs. auto. Qed.

(** A fact in the precondition that is not about the state. *)
Lemma hoare_pure {A} (P : S -> Prop) (F : Prop) (m : M S A) Q :
  (F -> hoare P m Q) -> hoare (fun s => P s /\ F) m Q.
Proof. intros H s [Hs HF]. by apply H. Qed.

Lemma hoare_gets {A B} P (f : S -> A) (k : A -> M S B) Q :
  (forall a, hoare (fun s => P s /\ f s = a) (k a) Q) -> hoare P (bind (gets f) k) Q.
Proof. intros H s Hs. by apply (H (f s)). Qed.

Section maintain.
Context (J : S -> Prop).

Lemma gives_bind {A B} (m : M S A) (k : A -> M S B) Q Q' :
  gives J m Q -> (forall a, Q a -> gives J (k a) Q') -> gives J (bind m k) Q'.
Proof. intros Hm Hk. eapply hoare_bind; [done|]. intros a. by apply hoare_pure, Hk. Qed.

Lemma gives_mono {A} (m : M S A) (Q Q' : A -> Prop) :
  gives J m Q -> (forall a, Q a -> Q' a) -> gives J m Q'.
Proof. intros Hm H. eapply hoare_cons; [done|done|]. cbn. intros a s [Hs HQ]. auto. Qed.

Lemma gives_intro {A} (m : M S A) (Q : A -> Prop) :
  (forall s, J s -> runs (fun a s' => J s' /\ Q a) (m s)) -> gives J m Q.
Proof. done. Qed.

Lemma gives_elim {A} (m : M S A) (Q : A -> Prop) s :
  gives J m Q -> J s -> runs (fun a s' => J s' /\ Q a) (m s).
Proof. intros H. apply H. Qed.

Lemma hoare_gives {A} (m : M S A) (Q : A -> Prop) : gives J m Q -> hoare J m (fun _ => J).
Proof. intros H s Hs. eapply runs_mono; [|by apply H]. by intros a s' [? _]. Qed.

Lemma hoare_gives_bind {A B} (m : M S A) (k : A -> M S B) (Q : A -> Prop) Q' :
  gives J m Q -> (forall a, Q a -> hoare J (k a) Q') -> hoare J (bind m k) Q'.
Proof. intros Hm Hk. eapply hoare_bind; [exact Hm|]. intros a. by apply hoare_pure, Hk. Qed.

Lemma gives_any {A} (m : M S A) Q : gives J m Q -> gives J m (fun _ => True).
Proof. intros H. by eapply gives_mono. Qed.

Lemma gives_ret {A} (a : A) (Q : A -> Prop) : Q a -> gives J (ret a) Q.
Proof. by intros H s Hs. Qed.

Lemma gives_gets {A} (f : S -> A) (Q : A -> Prop) :
  (forall s, J s -> Q (f s)) -> gives J (gets f) Q.
Proof. intros H s Hs. split; [done|]. by apply H. Qed.

Lemma gives_modify (f : S -> S) :
  (forall s, J s -> J (f s)) -> gives J (modify f) (fun _ => True).
Proof. intros H s Hs. split; [|done]. by apply H. Qed.

Lemma gives_panic {A} msg (Q : A -> Prop) : gives J (panic msg) Q.
Proof. done. Qed.

Lemma gives_fault {A} msg (Q : A -> Prop) : gives J (fault msg) Q.
Proof. done. Qed.

Lemma gives_diverge {A} (Q : A -> Prop) : gives J diverge Q.
Proof. done. Qed.

Lemma gives_assertm b msg : gives J (assertm b msg) (fun _ => b = true).
Proof. by intros s Hs; destruct b. Qed.

Lemma gives_deref {A} msg (o : option A) : gives J (deref msg o) (fun a => o = Some a).
Proof. by intros s Hs; destruct o. Qed.

Lemma gives_mfor {A} (l : list A) (f : A -> M S unit) :
  (forall x, gives J (f x) (fun _ => True)) -> gives J (mfor l f) (fun _ => True).
Proof.
  intros H. induction l as [|x l IH]; [by apply gives_ret|].
  eapply gives_bind; [apply H|]. by intros ? _.
Qed.

(** A switch to the scheduler. *)
Lemma gives_block :
  (forall s, J s -> I s) -> (forall s, R s -> J s) ->
  gives J (fun s => Block s (fun s' => Done tt s')) (fun _ => True).
Proof. intros HI HR s Hs. split; [by apply HI|]. intros s' Hs'. split; [|done]. by apply HR. Qed.
End maintain.
End logic.

Create HintDb keeps.
#[export] Hint Resolve gives_assertm gives_deref gives_panic gives_fault gives_diverge : keeps.

#[global] Opaque gives.

(** Prove [gives I R J m Q] along the structure of [m]: calls are in the hint
    database [keeps], tests are split, and what is left are facts about
    results. *)
Ltac kcall := solve [eauto 3 with keeps nocore].

Ltac kstep :=
  lazymatch goal with
  | |- gives _ _ _ (bind _ _) _ =>
      first
        [ simple eapply gives_bind; [kcall|cbv beta; intros ? ?]
        | simple eapply (gives_bind _ _ _ _ _ (fun _ => True)); [|cbv beta; intros ? _] ]
  | |- gives _ _ _ (ret _) _ => apply gives_ret
  | |- gives _ _ _ (panic _) _ => apply gives_panic
  | |- gives _ _ _ (fault _) _ => apply gives_fault
  | |- gives _ _ _ diverge _ => apply gives_diverge
  | |- gives _ _ _ (gets _) _ => apply gives_gets; intros ? ?
  | |- gives _ _ _ (mfor _ _) (fun _ => True) => apply gives_mfor; intros ?
  | |- gives _ _ _ (let _ := _ in _) _ => cbv zeta
  | |- gives _ _ _ (match ?x with _ => _ end) _ => destruct x eqn:?
  | |- gives _ _ _ _ _ =>
      first [ kcall
            | simple eapply gives_any; kcall
            | simple eapply gives_mono; [kcall|cbv beta; intros ? ?] ]
  end.

(** One call of a [hoare] goal that maintains the precondition. *)
Ltac hstep :=
  first
    [ simple eapply hoare_gives_bind; [kcall|cbv beta; intros ? ?]
    | simple eapply (hoare_gives_bind _ _ _ _ _ (fun _ => True)); [|cbv beta; intros ? _] ].

Ltac kauto := repeat kstep; try done.
