(* ===== verification/Types.v ===== *)
(** * The kernel's data

    The structures of [src/inc], one [Record] per C [struct] with the struct's
    fields, and the whole kernel state [kstate] that the C globals make up.
    A pointer to memory obtained from [kalloc] is its 64-bit address; a
    pointer into one of the kernel's fixed tables (the process table, the
    global file table, the inode cache, the buffer cache) is an index into
    that table, with [None] for the null pointer.  Fields that only serve
    debugging output (lock names, saved call stacks) are left out.

    [set_f v r] is the record [r] with field [f] replaced by [v]. *)

From S2P Require Import Prelude.

(** ** Constants of [inc/param.h], [inc/mmu.h], [inc/memlayout.h], [inc/fs.h] *)

Definition NPROC : nat := 64.
Definition NOFILE : nat := 16.
Definition NFILE : nat := 100.
Definition NINODE : nat := 50.
Definition NDEV : Z := 10.
Definition ROOTDEV : Z := 1.
Definition NBUF : nat := 30.
Definition FSSIZE : Z := 50000.
Definition PGSIZE : Z := 4096.
Definition PT_SHIFT : Z := 12.
Definition KSTACKSIZE : Z := 4096.
Definition EXTMEM : Z := 0x100000.
Definition DEVSPACE : Z := 0xFFFFFFFFFE000000.
Definition KERNBASE : Z := 0xFFFFFFFF80000000.
Definition KERNLINK : Z := KERNBASE + EXTMEM.
Definition BSIZE : Z := 512.
Definition DIRSIZ : nat := 14.
Definition PIPE_BUFFER_SIZE : Z := 2048.
Definition NREGIONS : nat := 3.
Definition VPIPPAGE : nat := 169.
Definition INPUT_BUF : Z := 128.
Definition O_RDONLY : Z := 0x000.
Definition O_WRONLY : Z := 0x001.
Definition O_RDWR : Z := 0x002.
Definition O_CREATE : Z := 0x200.
Definition T_DIR : Z := 1.
Definition T_FILE : Z := 2.
Definition T_DEV : Z := 3.

(** Vectors and interrupt lines of [inc/trap.h]. *)
Definition TRAP_PF : Z := 14.
Definition TRAP_IRQ0 : Z := 32.
Definition TRAP_SYSCALL : Z := 64.
Definition IRQ_TIMER : Z := 0.
Definition IRQ_KBD : Z := 1.
Definition IRQ_COM1 : Z := 4.
Definition IRQ_IDE : Z := 14.
Definition IRQ_ERROR : Z := 19.
Definition IRQ_SPURIOUS : Z := 31.

(** ** Locks and the processor *)

(** [struct spinlock]: [sl_cpu] says whether [lk->cpu] is the (only) cpu. *)
Record spinlock := mk_spinlock {
  sl_locked : Z;
  sl_cpu : bool
}.
Definition set_sl_locked (v : Z) (r : spinlock) : spinlock :=
  mk_spinlock v (sl_cpu r).
Definition set_sl_cpu (v : bool) (r : spinlock) : spinlock :=
  mk_spinlock (sl_locked r) v.

(** [struct sleeplock]. *)
Record sleeplock := mk_sleeplock {
  slp_locked : Z;
  slp_lk : spinlock;
  slp_pid : Z
}.
Definition set_slp_locked (v : Z) (r : sleeplock) : sleeplock :=
  mk_sleeplock v (slp_lk r) (slp_pid r).
Definition set_slp_lk (v : spinlock) (r : sleeplock) : sleeplock :=
  mk_sleeplock (slp_locked r) v (slp_pid r).
Definition set_slp_pid (v : Z) (r : sleeplock) : sleeplock :=
  mk_sleeplock (slp_locked r) (slp_lk r) v.

(** [struct cpu], of which there is one ([mycpu] returns [&cpus[0]]), with the
    interrupt flag of EFLAGS, the page-table register and the TSS stack slot. *)
Record cpu := mk_cpu {
  ncli : Z;
  intena : bool;
  eflags_if : bool;
  c_proc : option nat;
  rsp0 : Z;
  cr3 : Z
}.
Definition set_ncli (v : Z) (r : cpu) : cpu :=
  mk_cpu v (intena r) (eflags_if r) (c_proc r) (rsp0 r) (cr3 r).
Definition set_intena (v : bool) (r : cpu) : cpu :=
  mk_cpu (ncli r) v (eflags_if r) (c_proc r) (rsp0 r) (cr3 r).
Definition set_eflags_if (v : bool) (r : cpu) : cpu :=
  mk_cpu (ncli r) (intena r) v (c_proc r) (rsp0 r) (cr3 r).
Definition set_c_proc (v : option nat) (r : cpu) : cpu :=
  mk_cpu (ncli r) (intena r) (eflags_if r) v (rsp0 r) (cr3 r).
Definition set_rsp0 (v : Z) (r : cpu) : cpu :=
  mk_cpu (ncli r) (intena r) (eflags_if r) (c_proc r) v (cr3 r).
Definition set_cr3 (v : Z) (r : cpu) : cpu :=
  mk_cpu (ncli r) (intena r) (eflags_if r) (c_proc r) (rsp0 r) v.

(** What a process can sleep on: the distinct objects whose addresses the
    kernel passes to [sleep] and [wakeup]. *)
Inductive chan :=
| ch_proc (i : nat)
| ch_notFull (p : Z)
| ch_notEmpty (p : Z)
| ch_ticks
| ch_input
| ch_buf (i : nat)
| ch_buflock (i : nat)
| ch_inodelock (i : nat)
| ch_inodefilelock.
#[global] Instance chan_eq_dec : EqDecision chan.
Proof. solve_decision. Defined.

(** ** Physical memory *)

(** [struct core_map_entry] of [inc/mmu.h]. *)
Record core_map_entry := mk_core_map_entry {
  available : Z;
  user : Z;
  cm_va : Z
}.
Definition set_available (v : Z) (r : core_map_entry) : core_map_entry :=
  mk_core_map_entry v (user r) (cm_va r).
Definition set_user (v : Z) (r : core_map_entry) : core_map_entry :=
  mk_core_map_entry (available r) v (cm_va r).
Definition set_cm_va (v : Z) (r : core_map_entry) : core_map_entry :=
  mk_core_map_entry (available r) (user r) v.

(** The globals of [kernel/kalloc.c]; [k_end] and [k_data] are the
    linker's [_end] and [data]. *)
Record kmem := mk_kmem {
  kmem_lock : spinlock;
  use_lock : bool;
  npages : Z;
  pages_in_use : Z;
  pages_in_swap : Z;
  free_pages : Z;
  core_map : list core_map_entry;
  k_next : Z;
  k_end : Z;
  k_data : Z
}.
Definition set_kmem_lock (v : spinlock) (r : kmem) : kmem :=
  mk_kmem v (use_lock r) (npages r) (pages_in_use r) (pages_in_swap r) (free_pages r) (core_map r) (k_next r) (k_end r) (k_data r).
Definition set_use_lock (v : bool) (r : kmem) : kmem :=
  mk_kmem (kmem_lock r) v (npages r) (pages_in_use r) (pages_in_swap r) (free_pages r) (core_map r) (k_next r) (k_end r) (k_data r).
Definition set_npages (v : Z) (r : kmem) : kmem :=
  mk_kmem (kmem_lock r) (use_lock r) v (pages_in_use r) (pages_in_swap r) (free_pages r) (core_map r) (k_next r) (k_end r) (k_data r).
Definition set_pages_in_use (v : Z) (r : kmem) : kmem :=
  mk_kmem (kmem_lock r) (use_lock r) (npages r) v (pages_in_swap r) (free_pages r) (core_map r) (k_next r) (k_end r) (k_data r).
Definition set_pages_in_swap (v : Z) (r : kmem) : kmem :=
  mk_kmem (kmem_lock r) (use_lock r) (npages r) (pages_in_use r) v (free_pages r) (core_map r) (k_next r) (k_end r) (k_data r).
Definition set_free_pages (v : Z) (r : kmem) : kmem :=
  mk_kmem (kmem_lock r) (use_lock r) (npages r) (pages_in_use r) (pages_in_swap r) v (core_map r) (k_next r) (k_end r) (k_data r).
Definition set_core_map (v : list core_map_entry) (r : kmem) : kmem :=
  mk_kmem (kmem_lock r) (use_lock r) (npages r) (pages_in_use r) (pages_in_swap r) (free_pages r) v (k_next r) (k_end r) (k_data r).
Definition set_k_next (v : Z) (r : kmem) : kmem :=
  mk_kmem (kmem_lock r) (use_lock r) (npages r) (pages_in_use r) (pages_in_swap r) (free_pages r) (core_map r) v (k_end r) (k_data r).
Definition set_k_end (v : Z) (r : kmem) : kmem :=
  mk_kmem (kmem_lock r) (use_lock r) (npages r) (pages_in_use r) (pages_in_swap r) (free_pages r) (core_map r) (k_next r) v (k_data r).
Definition set_k_data (v : Z) (r : kmem) : kmem :=
  mk_kmem (kmem_lock r) (use_lock r) (npages r) (pages_in_use r) (pages_in_swap r) (free_pages r) (core_map r) (k_next r) (k_end r) v.

(** [struct vpage_info] of [inc/vspace.h]. *)
Record vpage_info := mk_vpage_info {
  used : Z;
  ppn : Z;
  present : Z;
  writable : Z
}.
Definition set_used (v : Z) (r : vpage_info) : vpage_info :=
  mk_vpage_info v (ppn r) (present r) (writable r).
Definition set_ppn (v : Z) (r : vpage_info) : vpage_info :=
  mk_vpage_info (used r) v (present r) (writable r).
Definition set_present (v : Z) (r : vpage_info) : vpage_info :=
  mk_vpage_info (used r) (ppn r) v (writable r).
Definition set_writable (v : Z) (r : vpage_info) : vpage_info :=
  mk_vpage_info (used r) (ppn r) (present r) v.

(** [struct vpi_page]. *)
Record vpi_page := mk_vpi_page {
  infos : list vpage_info;
  vp_next : Z
}.
Definition set_infos (v : list vpage_info) (r : vpi_page) : vpi_page :=
  mk_vpi_page v (vp_next r).
Definition set_vp_next (v : Z) (r : vpi_page) : vpi_page :=
  mk_vpi_page (infos r) v.

(** [struct vregion]. *)
Record vregion := mk_vregion {
  dir : Z;
  va_base : Z;
  vr_size : Z;
  pages : Z
}.
Definition set_dir (v : Z) (r : vregion) : vregion :=
  mk_vregion v (va_base r) (vr_size r) (pages r).
Definition set_va_base (v : Z) (r : vregion) : vregion :=
  mk_vregion (dir r) v (vr_size r) (pages r).
Definition set_vr_size (v : Z) (r : vregion) : vregion :=
  mk_vregion (dir r) (va_base r) v (pages r).
Definition set_pages (v : Z) (r : vregion) : vregion :=
  mk_vregion (dir r) (va_base r) (vr_size r) v.

(** [struct vspace]. *)
Record vspace := mk_vspace {
  regions : list vregion;
  pgtbl : Z
}.
Definition set_regions (v : list vregion) (r : vspace) : vspace :=
  mk_vspace v (pgtbl r).
Definition set_pgtbl (v : Z) (r : vspace) : vspace :=
  mk_vspace (regions r) v.

Definition VRDIR_UP : Z := 0.
Definition VRDIR_DOWN : Z := 1.
Definition VR_CODE : nat := 0.
Definition VR_HEAP : nat := 1.
Definition VR_USTACK : nat := 2.
Definition VPI_PRESENT : Z := 1.
Definition VPI_WRITABLE : Z := 1.
Definition VPI_READONLY : Z := 0.

(** [struct pipe] of [inc/file.h]; its condition variables are only addresses. *)
Record pipe := mk_pipe {
  read_count : Z;
  write_count : Z;
  read_offset : Z;
  write_offset : Z;
  p_lock : spinlock;
  p_buffer : list Z
}.
Definition set_read_count (v : Z) (r : pipe) : pipe :=
  mk_pipe v (write_count r) (read_offset r) (write_offset r) (p_lock r) (p_buffer r).
Definition set_write_count (v : Z) (r : pipe) : pipe :=
  mk_pipe (read_count r) v (read_offset r) (write_offset r) (p_lock r) (p_buffer r).
Definition set_read_offset (v : Z) (r : pipe) : pipe :=
  mk_pipe (read_count r) (write_count r) v (write_offset r) (p_lock r) (p_buffer r).
Definition set_write_offset (v : Z) (r : pipe) : pipe :=
  mk_pipe (read_count r) (write_count r) (read_offset r) v (p_lock r) (p_buffer r).
Definition set_p_lock (v : spinlock) (r : pipe) : pipe :=
  mk_pipe (read_count r) (write_count r) (read_offset r) (write_offset r) v (p_buffer r).
Definition set_p_buffer (v : list Z) (r : pipe) : pipe :=
  mk_pipe (read_count r) (write_count r) (read_offset r) (write_offset r) (p_lock r) v.

(** The contents of a page frame: plain bytes, or one of the structures the
    kernel lays out in a page.  A page table has 512 entries; an entry that is
    not in the map is zero. *)
Inductive frame :=
| FBytes (bs : list Z)
| FTable (t : gmap Z Z)
| FVpi (p : vpi_page)
| FPipe (p : pipe).

(** ** Processes *)

Inductive procstate := UNUSED | EMBRYO | SLEEPING | RUNNABLE | RUNNING | ZOMBIE.
#[global] Instance procstate_eq_dec : EqDecision procstate.
Proof. solve_decision. Defined.

(** [struct trap_frame] of [inc/trap.h]. *)
Record trap_frame := mk_trap_frame {
  tf_rax : Z;
  tf_rbx : Z;
  tf_rcx : Z;
  tf_rdx : Z;
  tf_rbp : Z;
  tf_rsi : Z;
  tf_rdi : Z;
  tf_r8 : Z;
  tf_r9 : Z;
  tf_r10 : Z;
  tf_r11 : Z;
  tf_r12 : Z;
  tf_r13 : Z;
  tf_r14 : Z;
  tf_r15 : Z;
  tf_trapno : Z;
  tf_err : Z;
  tf_rip : Z;
  tf_cs : Z;
  tf_rflags : Z;
  tf_rsp : Z;
  tf_ss : Z
}.
Definition set_tf_rax (v : Z) (r : trap_frame) : trap_frame :=
  mk_trap_frame v (tf_rbx r) (tf_rcx r) (tf_rdx r) (tf_rbp r) (tf_rsi r) (tf_rdi r) (tf_r8 r) (tf_r9 r) (tf_r10 r) (tf_r11 r) (tf_r12 r) (tf_r13 r) (tf_r14 r) (tf_r15 r) (tf_trapno r) (tf_err r) (tf_rip r) (tf_cs r) (tf_rflags r) (tf_rsp r) (tf_ss r).

(** The places of the kernel text where a saved context resumes: the zero of a
    cleared context, the entry of [forkret], and the return from [swtch] in
    [sched]. *)
Inductive klabel := at_zero | at_forkret | at_sched.

(** [struct context] of [inc/proc.h]. *)
Record context := mk_context {
  cx_r15 : Z;
  cx_r14 : Z;
  cx_r13 : Z;
  cx_r12 : Z;
  cx_r11 : Z;
  cx_rbx : Z;
  cx_rbp : Z;
  cx_rip : klabel
}.
Definition set_cx_rip (v : klabel) (r : context) : context :=
  mk_context (cx_r15 r) (cx_r14 r) (cx_r13 r) (cx_r12 r) (cx_r11 r) (cx_rbx r) (cx_rbp r) v.

(** [struct proc]. *)
Record proc := mk_proc {
  p_vspace : vspace;
  kstack : Z;
  p_state : procstate;
  p_pid : Z;
  parent : option nat;
  p_tf : trap_frame;
  p_context : context;
  p_chan : option chan;
  killed : Z;
  p_name : list Z;
  files : list (option nat)
}.
Definition set_p_vspace (v : vspace) (r : proc) : proc :=
  mk_proc v (kstack r) (p_state r) (p_pid r) (parent r) (p_tf r) (p_context r) (p_chan r) (killed r) (p_name r) (files r).
Definition set_kstack (v : Z) (r : proc) : proc :=
  mk_proc (p_vspace r) v (p_state r) (p_pid r) (parent r) (p_tf r) (p_context r) (p_chan r) (killed r) (p_name r) (files r).
Definition set_p_state (v : procstate) (r : proc) : proc :=
  mk_proc (p_vspace r) (kstack r) v (p_pid r) (parent r) (p_tf r) (p_context r) (p_chan r) (killed r) (p_name r) (files r).
Definition set_p_pid (v : Z) (r : proc) : proc :=
  mk_proc (p_vspace r) (kstack r) (p_state r) v (parent r) (p_tf r) (p_context r) (p_chan r) (killed r) (p_name r) (files r).
Definition set_parent (v : option nat) (r : proc) : proc :=
  mk_proc (p_vspace r) (kstack r) (p_state r) (p_pid r) v (p_tf r) (p_context r) (p_chan r) (killed r) (p_name r) (files r).
Definition set_p_tf (v : trap_frame) (r : proc) : proc :=
  mk_proc (p_vspace r) (kstack r) (p_state r) (p_pid r) (parent r) v (p_context r) (p_chan r) (killed r) (p_name r) (files r).
Definition set_p_context (v : context) (r : proc) : proc :=
  mk_proc (p_vspace r) (kstack r) (p_state r) (p_pid r) (parent r) (p_tf r) v (p_chan r) (killed r) (p_name r) (files r).
Definition set_p_chan (v : option chan) (r : proc) : proc :=
  mk_proc (p_vspace r) (kstack r) (p_state r) (p_pid r) (parent r) (p_tf r) (p_context r) v (killed r) (p_name r) (files r).
Definition set_killed (v : Z) (r : proc) : proc :=
  mk_proc (p_vspace r) (kstack r) (p_state r) (p_pid r) (parent r) (p_tf r) (p_context r) (p_chan r) v (p_name r) (files r).
Definition set_p_name (v : list Z) (r : proc) : proc :=
  mk_proc (p_vspace r) (kstack r) (p_state r) (p_pid r) (parent r) (p_tf r) (p_context r) (p_chan r) (killed r) v (files r).
Definition set_files (v : list (option nat)) (r : proc) : proc :=
  mk_proc (p_vspace r) (kstack r) (p_state r) (p_pid r) (parent r) (p_tf r) (p_context r) (p_chan r) (killed r) (p_name r) v.

(** The globals of [kernel/proc.c]; [first] is the static of [forkret]. *)
Record ptable := mk_ptable {
  pt_lock : spinlock;
  pt_proc : list proc;
  initproc : option nat;
  nextpid : Z;
  pt_first : bool
}.
Definition set_pt_lock (v : spinlock) (r : ptable) : ptable :=
  mk_ptable v (pt_proc r) (initproc r) (nextpid r) (pt_first r).
Definition set_pt_proc (v : list proc) (r : ptable) : ptable :=
  mk_ptable (pt_lock r) v (initproc r) (nextpid r) (pt_first r).
Definition set_initproc (v : option nat) (r : ptable) : ptable :=
  mk_ptable (pt_lock r) (pt_proc r) v (nextpid r) (pt_first r).
Definition set_nextpid (v : Z) (r : ptable) : ptable :=
  mk_ptable (pt_lock r) (pt_proc r) (initproc r) v (pt_first r).
Definition set_pt_first (v : bool) (r : ptable) : ptable :=
  mk_ptable (pt_lock r) (pt_proc r) (initproc r) (nextpid r) v.

(** ** Files *)

(** [struct extent]. *)
Record extent := mk_extent {
  startblkno : Z;
  nblocks : Z
}.

(** [struct inode] of [inc/file.h]. *)
Record inode := mk_inode {
  i_dev : Z;
  i_inum : Z;
  i_ref : Z;
  i_valid : Z;
  i_lock : sleeplock;
  i_type : Z;
  i_devid : Z;
  i_size : Z;
  i_data : extent
}.
Definition set_i_dev (v : Z) (r : inode) : inode :=
  mk_inode v (i_inum r) (i_ref r) (i_valid r) (i_lock r) (i_type r) (i_devid r) (i_size r) (i_data r).
Definition set_i_inum (v : Z) (r : inode) : inode :=
  mk_inode (i_dev r) v (i_ref r) (i_valid r) (i_lock r) (i_type r) (i_devid r) (i_size r) (i_data r).
Definition set_i_ref (v : Z) (r : inode) : inode :=
  mk_inode (i_dev r) (i_inum r) v (i_valid r) (i_lock r) (i_type r) (i_devid r) (i_size r) (i_data r).
Definition set_i_valid (v : Z) (r : inode) : inode :=
  mk_inode (i_dev r) (i_inum r) (i_ref r) v (i_lock r) (i_type r) (i_devid r) (i_size r) (i_data r).
Definition set_i_lock (v : sleeplock) (r : inode) : inode :=
  mk_inode (i_dev r) (i_inum r) (i_ref r) (i_valid r) v (i_type r) (i_devid r) (i_size r) (i_data r).
Definition set_i_type (v : Z) (r : inode) : inode :=
  mk_inode (i_dev r) (i_inum r) (i_ref r) (i_valid r) (i_lock r) v (i_devid r) (i_size r) (i_data r).
Definition set_i_devid (v : Z) (r : inode) : inode :=
  mk_inode (i_dev r) (i_inum r) (i_ref r) (i_valid r) (i_lock r) (i_type r) v (i_size r) (i_data r).
Definition set_i_size (v : Z) (r : inode) : inode :=
  mk_inode (i_dev r) (i_inum r) (i_ref r) (i_valid r) (i_lock r) (i_type r) (i_devid r) v (i_data r).
Definition set_i_data (v : extent) (r : inode) : inode :=
  mk_inode (i_dev r) (i_inum r) (i_ref r) (i_valid r) (i_lock r) (i_type r) (i_devid r) (i_size r) v.

(** A [struct inode *]: an entry of [icache.inode] or [icache.inodefile]. *)
Inductive iptr := ip_cache (i : nat) | ip_inodefile.
#[global] Instance iptr_eq_dec : EqDecision iptr.
Proof. solve_decision. Defined.

(** [icache] of [kernel/fs.c]. *)
Record icache := mk_icache {
  ic_lock : spinlock;
  ic_inode : list inode;
  ic_inodefile : inode
}.
Definition set_ic_lock (v : spinlock) (r : icache) : icache :=
  mk_icache v (ic_inode r) (ic_inodefile r).
Definition set_ic_inode (v : list inode) (r : icache) : icache :=
  mk_icache (ic_lock r) v (ic_inodefile r).
Definition set_ic_inodefile (v : inode) (r : icache) : icache :=
  mk_icache (ic_lock r) (ic_inode r) v.

(** [struct superblock] of [inc/fs.h]. *)
Record superblock := mk_superblock {
  sb_size : Z;
  sb_nblocks : Z;
  sb_bmapstart : Z;
  sb_inodestart : Z
}.

(** [struct dinode] (its padding left out). *)
Record dinode := mk_dinode {
  d_type : Z;
  d_devid : Z;
  d_size : Z;
  d_data : extent
}.

(** [struct dirent]. *)
Record dirent := mk_dirent {
  de_inum : Z;
  de_name : list Z
}.

(** [struct stat]. *)
Record stat := mk_stat {
  st_type : Z;
  st_dev : Z;
  st_ino : Z;
  st_size : Z
}.

(** [struct file_info]; [fi_path] keeps only the address. *)
Record file_info := mk_file_info {
  fi_node : option iptr;
  fi_pipe : Z;
  isPipe : Z;
  fi_offset : Z;
  mode : Z;
  ref_count : Z;
  fi_path : Z;
  gfd : Z
}.
Definition set_fi_node (v : option iptr) (r : file_info) : file_info :=
  mk_file_info v (fi_pipe r) (isPipe r) (fi_offset r) (mode r) (ref_count r) (fi_path r) (gfd r).
Definition set_fi_pipe (v : Z) (r : file_info) : file_info :=
  mk_file_info (fi_node r) v (isPipe r) (fi_offset r) (mode r) (ref_count r) (fi_path r) (gfd r).
Definition set_isPipe (v : Z) (r : file_info) : file_info :=
  mk_file_info (fi_node r) (fi_pipe r) v (fi_offset r) (mode r) (ref_count r) (fi_path r) (gfd r).
Definition set_fi_offset (v : Z) (r : file_info) : file_info :=
  mk_file_info (fi_node r) (fi_pipe r) (isPipe r) v (mode r) (ref_count r) (fi_path r) (gfd r).
Definition set_mode (v : Z) (r : file_info) : file_info :=
  mk_file_info (fi_node r) (fi_pipe r) (isPipe r) (fi_offset r) v (ref_count r) (fi_path r) (gfd r).
Definition set_ref_count (v : Z) (r : file_info) : file_info :=
  mk_file_info (fi_node r) (fi_pipe r) (isPipe r) (fi_offset r) (mode r) v (fi_path r) (gfd r).
Definition set_fi_path (v : Z) (r : file_info) : file_info :=
  mk_file_info (fi_node r) (fi_pipe r) (isPipe r) (fi_offset r) (mode r) (ref_count r) v (gfd r).
Definition set_gfd (v : Z) (r : file_info) : file_info :=
  mk_file_info (fi_node r) (fi_pipe r) (isPipe r) (fi_offset r) (mode r) (ref_count r) (fi_path r) v.

(** The globals of [kernel/file.c]. *)
Record ftable := mk_ftable {
  ft_lock : spinlock;
  file_table : list file_info
}.
Definition set_ft_lock (v : spinlock) (r : ftable) : ftable :=
  mk_ftable v (file_table r).
Definition set_file_table (v : list file_info) (r : ftable) : ftable :=
  mk_ftable (ft_lock r) v.

(** ** Disk buffers *)

(** [struct buf] of [inc/buf.h]; [b_prev] and [b_next] are indices into the
    buffer table, whose last entry is [bcache.head]. *)
Record buf := mk_buf {
  b_flags : Z;
  b_dev : Z;
  b_blockno : Z;
  b_lock : sleeplock;
  b_refcnt : Z;
  b_prev : nat;
  b_next : nat;
  b_qnext : option nat;
  b_data : list Z
}.
Definition set_b_flags (v : Z) (r : buf) : buf :=
  mk_buf v (b_dev r) (b_blockno r) (b_lock r) (b_refcnt r) (b_prev r) (b_next r) (b_qnext r) (b_data r).
Definition set_b_dev (v : Z) (r : buf) : buf :=
  mk_buf (b_flags r) v (b_blockno r) (b_lock r) (b_refcnt r) (b_prev r) (b_next r) (b_qnext r) (b_data r).
Definition set_b_blockno (v : Z) (r : buf) : buf :=
  mk_buf (b_flags r) (b_dev r) v (b_lock r) (b_refcnt r) (b_prev r) (b_next r) (b_qnext r) (b_data r).
Definition set_b_lock (v : sleeplock) (r : buf) : buf :=
  mk_buf (b_flags r) (b_dev r) (b_blockno r) v (b_refcnt r) (b_prev r) (b_next r) (b_qnext r) (b_data r).
Definition set_b_refcnt (v : Z) (r : buf) : buf :=
  mk_buf (b_flags r) (b_dev r) (b_blockno r) (b_lock r) v (b_prev r) (b_next r) (b_qnext r) (b_data r).
Definition set_b_prev (v : nat) (r : buf) : buf :=
  mk_buf (b_flags r) (b_dev r) (b_blockno r) (b_lock r) (b_refcnt r) v (b_next r) (b_qnext r) (b_data r).
Definition set_b_next (v : nat) (r : buf) : buf :=
  mk_buf (b_flags r) (b_dev r) (b_blockno r) (b_lock r) (b_refcnt r) (b_prev r) v (b_qnext r) (b_data r).
Definition set_b_qnext (v : option nat) (r : buf) : buf :=
  mk_buf (b_flags r) (b_dev r) (b_blockno r) (b_lock r) (b_refcnt r) (b_prev r) (b_next r) v (b_data r).
Definition set_b_data (v : list Z) (r : buf) : buf :=
  mk_buf (b_flags r) (b_dev r) (b_blockno r) (b_lock r) (b_refcnt r) (b_prev r) (b_next r) (b_qnext r) v.

(** The globals of [kernel/bio.c]: [bc_buf] is [bcache.buf] followed by
    [bcache.head]. *)
Record bcache := mk_bcache {
  bc_lock : spinlock;
  bc_buf : list buf;
  num_disk_reads : Z;
  crashn_enable : Z;
  crashn : Z
}.
Definition set_bc_lock (v : spinlock) (r : bcache) : bcache :=
  mk_bcache v (bc_buf r) (num_disk_reads r) (crashn_enable r) (crashn r).
Definition set_bc_buf (v : list buf) (r : bcache) : bcache :=
  mk_bcache (bc_lock r) v (num_disk_reads r) (crashn_enable r) (crashn r).
Definition set_num_disk_reads (v : Z) (r : bcache) : bcache :=
  mk_bcache (bc_lock r) (bc_buf r) v (crashn_enable r) (crashn r).
Definition set_crashn_enable (v : Z) (r : bcache) : bcache :=
  mk_bcache (bc_lock r) (bc_buf r) (num_disk_reads r) v (crashn r).
Definition set_crashn (v : Z) (r : bcache) : bcache :=
  mk_bcache (bc_lock r) (bc_buf r) (num_disk_reads r) (crashn_enable r) v.

(** The globals of [kernel/ide.c], and the controller and disks behind them:
    [d_req] is the drive and sector of the last command, [d_blocks] the sectors
    of each drive. *)
Record ide := mk_ide {
  idelock : spinlock;
  idequeue : option nat;
  havedisk1 : bool;
  d_req : option (Z * Z);
  d_blocks : gmap (Z * Z) (list Z)
}.
Definition set_idelock (v : spinlock) (r : ide) : ide :=
  mk_ide v (idequeue r) (havedisk1 r) (d_req r) (d_blocks r).
Definition set_idequeue (v : option nat) (r : ide) : ide :=
  mk_ide (idelock r) v (havedisk1 r) (d_req r) (d_blocks r).
Definition set_havedisk1 (v : bool) (r : ide) : ide :=
  mk_ide (idelock r) (idequeue r) v (d_req r) (d_blocks r).
Definition set_d_req (v : option (Z * Z)) (r : ide) : ide :=
  mk_ide (idelock r) (idequeue r) (havedisk1 r) v (d_blocks r).
Definition set_d_blocks (v : gmap (Z * Z) (list Z)) (r : ide) : ide :=
  mk_ide (idelock r) (idequeue r) (havedisk1 r) (d_req r) v.

(** ** Console *)

(** [input] of [kernel/console.c]. *)
Record input_t := mk_input_t {
  in_buf : list Z;
  in_r : Z;
  in_w : Z;
  in_e : Z
}.
Definition set_in_buf (v : list Z) (r : input_t) : input_t :=
  mk_input_t v (in_r r) (in_w r) (in_e r).
Definition set_in_r (v : Z) (r : input_t) : input_t :=
  mk_input_t (in_buf r) v (in_w r) (in_e r).
Definition set_in_w (v : Z) (r : input_t) : input_t :=
  mk_input_t (in_buf r) (in_r r) v (in_e r).
Definition set_in_e (v : Z) (r : input_t) : input_t :=
  mk_input_t (in_buf r) (in_r r) (in_w r) v.

(** The globals of [kernel/console.c], [kernel/uart.c] and [kernel/kbd.c], and
    the devices behind them: [c_out] is what was sent to the serial port, oldest
    first, [crt] and [cursor] the text screen, [kbd_data] and [uart_data] the
    bytes that wait to be read. *)
Record console := mk_console {
  cons_lock : spinlock;
  locking : bool;
  panicked : bool;
  input : input_t;
  uart : bool;
  c_out : list Z;
  crt : list Z;
  cursor : Z;
  kbd_shift : Z;
  kbd_data : list Z;
  uart_data : list Z
}.
Definition set_cons_lock (v : spinlock) (r : console) : console :=
  mk_console v (locking r) (panicked r) (input r) (uart r) (c_out r) (crt r) (cursor r) (kbd_shift r) (kbd_data r) (uart_data r).
Definition set_locking (v : bool) (r : console) : console :=
  mk_console (cons_lock r) v (panicked r) (input r) (uart r) (c_out r) (crt r) (cursor r) (kbd_shift r) (kbd_data r) (uart_data r).
Definition set_panicked (v : bool) (r : console) : console :=
  mk_console (cons_lock r) (locking r) v (input r) (uart r) (c_out r) (crt r) (cursor r) (kbd_shift r) (kbd_data r) (uart_data r).
Definition set_input (v : input_t) (r : console) : console :=
  mk_console (cons_lock r) (locking r) (panicked r) v (uart r) (c_out r) (crt r) (cursor r) (kbd_shift r) (kbd_data r) (uart_data r).
Definition set_uart (v : bool) (r : console) : console :=
  mk_console (cons_lock r) (locking r) (panicked r) (input r) v (c_out r) (crt r) (cursor r) (kbd_shift r) (kbd_data r) (uart_data r).
Definition set_c_out (v : list Z) (r : console) : console :=
  mk_console (cons_lock r) (locking r) (panicked r) (input r) (uart r) v (crt r) (cursor r) (kbd_shift r) (kbd_data r) (uart_data r).
Definition set_crt (v : list Z) (r : console) : console :=
  mk_console (cons_lock r) (locking r) (panicked r) (input r) (uart r) (c_out r) v (cursor r) (kbd_shift r) (kbd_data r) (uart_data r).
Definition set_cursor (v : Z) (r : console) : console :=
  mk_console (cons_lock r) (locking r) (panicked r) (input r) (uart r) (c_out r) (crt r) v (kbd_shift r) (kbd_data r) (uart_data r).
Definition set_kbd_shift (v : Z) (r : console) : console :=
  mk_console (cons_lock r) (locking r) (panicked r) (input r) (uart r) (c_out r) (crt r) (cursor r) v (kbd_data r) (uart_data r).
Definition set_kbd_data (v : list Z) (r : console) : console :=
  mk_console (cons_lock r) (locking r) (panicked r) (input r) (uart r) (c_out r) (crt r) (cursor r) (kbd_shift r) v (uart_data r).
Definition set_uart_data (v : list Z) (r : console) : console :=
  mk_console (cons_lock r) (locking r) (panicked r) (input r) (uart r) (c_out r) (crt r) (cursor r) (kbd_shift r) (kbd_data r) v.

(** [devsw]: which driver a device number selects. *)
Inductive driver := drv_console.

(** [tickslock], [ticks] and [num_page_faults] of [kernel/trap.c]. *)
Record ktime := mk_ktime {
  tickslock : spinlock;
  ticks : Z;
  num_page_faults : Z
}.
Definition set_tickslock (v : spinlock) (r : ktime) : ktime :=
  mk_ktime v (ticks r) (num_page_faults r).
Definition set_ticks (v : Z) (r : ktime) : ktime :=
  mk_ktime (tickslock r) v (num_page_faults r).
Definition set_num_page_faults (v : Z) (r : ktime) : ktime :=
  mk_ktime (tickslock r) (ticks r) v.

(** What the model takes as given, for every value of which the theorems hold:
    how many more times than [WAKEUPS] it follows a loop around [sleep] that is
    woken in vain, and the return addresses on the stack that [getcallerpcs]
    finds when it is called for a process listing. *)
Record kenv := mk_kenv {
  env_wakeups : nat;
  env_callers : list Z
}.

(** The whole kernel. *)
Record kstate := mk_kstate {
  k_cpu : cpu;
  k_kmem : kmem;
  k_frames : gmap Z frame;
  k_pt : ptable;
  k_ft : ftable;
  k_ic : icache;
  k_sb : superblock;
  k_bc : bcache;
  k_ide : ide;
  k_cons : console;
  k_devsw : list (option driver);
  k_time : ktime;
  kpml4 : Z;
  k_env : kenv
}.
Definition set_k_cpu (v : cpu) (r : kstate) : kstate :=
  mk_kstate v (k_kmem r) (k_frames r) (k_pt r) (k_ft r) (k_ic r) (k_sb r) (k_bc r) (k_ide r) (k_cons r) (k_devsw r) (k_time r) (kpml4 r) (k_env r).
Definition set_k_kmem (v : kmem) (r : kstate) : kstate :=
  mk_kstate (k_cpu r) v (k_frames r) (k_pt r) (k_ft r) (k_ic r) (k_sb r) (k_bc r) (k_ide r) (k_cons r) (k_devsw r) (k_time r) (kpml4 r) (k_env r).
Definition set_k_frames (v : gmap Z frame) (r : kstate) : kstate :=
  mk_kstate (k_cpu r) (k_kmem r) v (k_pt r) (k_ft r) (k_ic r) (k_sb r) (k_bc r) (k_ide r) (k_cons r) (k_devsw r) (k_time r) (kpml4 r) (k_env r).
Definition set_k_pt (v : ptable) (r : kstate) : kstate :=
  mk_kstate (k_cpu r) (k_kmem r) (k_frames r) v (k_ft r) (k_ic r) (k_sb r) (k_bc r) (k_ide r) (k_cons r) (k_devsw r) (k_time r) (kpml4 r) (k_env r).
Definition set_k_ft (v : ftable) (r : kstate) : kstate :=
  mk_kstate (k_cpu r) (k_kmem r) (k_frames r) (k_pt r) v (k_ic r) (k_sb r) (k_bc r) (k_ide r) (k_cons r) (k_devsw r) (k_time r) (kpml4 r) (k_env r).
Definition set_k_ic (v : icache) (r : kstate) : kstate :=
  mk_kstate (k_cpu r) (k_kmem r) (k_frames r) (k_pt r) (k_ft r) v (k_sb r) (k_bc r) (k_ide r) (k_cons r) (k_devsw r) (k_time r) (kpml4 r) (k_env r).
Definition set_k_sb (v : superblock) (r : kstate) : kstate :=
  mk_kstate (k_cpu r) (k_kmem r) (k_frames r) (k_pt r) (k_ft r) (k_ic r) v (k_bc r) (k_ide r) (k_cons r) (k_devsw r) (k_time r) (kpml4 r) (k_env r).
Definition set_k_bc (v : bcache) (r : kstate) : kstate :=
  mk_kstate (k_cpu r) (k_kmem r) (k_frames r) (k_pt r) (k_ft r) (k_ic r) (k_sb r) v (k_ide r) (k_cons r) (k_devsw r) (k_time r) (kpml4 r) (k_env r).
Definition set_k_ide (v : ide) (r : kstate) : kstate :=
  mk_kstate (k_cpu r) (k_kmem r) (k_frames r) (k_pt r) (k_ft r) (k_ic r) (k_sb r) (k_bc r) v (k_cons r) (k_devsw r) (k_time r) (kpml4 r) (k_env r).
Definition set_k_cons (v : console) (r : kstate) : kstate :=
  mk_kstate (k_cpu r) (k_kmem r) (k_frames r) (k_pt r) (k_ft r) (k_ic r) (k_sb r) (k_bc r) (k_ide r) v (k_devsw r) (k_time r) (kpml4 r) (k_env r).
Definition set_k_devsw (v : list (option driver)) (r : kstate) : kstate :=
  mk_kstate (k_cpu r) (k_kmem r) (k_frames r) (k_pt r) (k_ft r) (k_ic r) (k_sb r) (k_bc r) (k_ide r) (k_cons r) v (k_time r) (kpml4 r) (k_env r).
Definition set_k_time (v : ktime) (r : kstate) : kstate :=
  mk_kstate (k_cpu r) (k_kmem r) (k_frames r) (k_pt r) (k_ft r) (k_ic r) (k_sb r) (k_bc r) (k_ide r) (k_cons r) (k_devsw r) v (kpml4 r) (k_env r).
Definition set_kpml4 (v : Z) (r : kstate) : kstate :=
  mk_kstate (k_cpu r) (k_kmem r) (k_frames r) (k_pt r) (k_ft r) (k_ic r) (k_sb r) (k_bc r) (k_ide r) (k_cons r) (k_devsw r) (k_time r) v (k_env r).
Definition set_k_env (v : kenv) (r : kstate) : kstate :=
  mk_kstate (k_cpu r) (k_kmem r) (k_frames r) (k_pt r) (k_ft r) (k_ic r) (k_sb r) (k_bc r) (k_ide r) (k_cons r) (k_devsw r) (k_time r) (kpml4 r) v.

Abbreviation K := (M kstate).

(** ** The state at power-on

    C initialises the kernel's globals to zero except where a declaration says
    otherwise; [end] is where the linker put the end of the image and [disk]
    is the contents of the file-system disk. *)

Definition zero_lock : spinlock := mk_spinlock 0 false.
Definition zero_sleeplock : sleeplock := mk_sleeplock 0 zero_lock 0.
Definition zero_cpu : cpu := mk_cpu 0 false false None 0 0.
Definition zero_kmem (end_ : Z) : kmem := mk_kmem zero_lock false 0 0 0 0 [] 1 end_ end_.
Definition zero_vpi : vpage_info := mk_vpage_info 0 0 0 0.
Definition zero_vregion : vregion := mk_vregion 0 0 0 0.
Definition zero_vspace : vspace := mk_vspace (replicate NREGIONS zero_vregion) 0.
Definition zero_tf : trap_frame := mk_trap_frame 0 0 0 0 0 0 0 0 0 0 0 0 0 0 0 0 0 0 0 0 0 0.
Definition zero_context : context := mk_context 0 0 0 0 0 0 0 at_zero.
Definition zero_proc : proc :=
  mk_proc zero_vspace 0 UNUSED 0 None zero_tf zero_context None 0 (replicate 16 0)
    (replicate NOFILE None).
Definition zero_ptable : ptable := mk_ptable zero_lock (replicate NPROC zero_proc) None 1 true.
Definition zero_inode : inode := mk_inode 0 0 0 0 zero_sleeplock 0 0 0 (mk_extent 0 0).
Definition zero_file : file_info := mk_file_info None 0 0 0 0 0 0 0.
Definition zero_buf : buf := mk_buf 0 0 0 zero_sleeplock 0 0 0 None (replicate 512 0).
Definition zero_state (end_ : Z) (disk : gmap (Z * Z) (list Z)) : kstate :=
  mk_kstate zero_cpu (zero_kmem end_) ∅ zero_ptable
    (mk_ftable zero_lock (replicate NFILE zero_file))
    (mk_icache zero_lock (replicate NINODE zero_inode) zero_inode)
    (mk_superblock 0 0 0 0)
    (mk_bcache zero_lock (replicate (S NBUF) zero_buf) 0 0 0)
    (mk_ide zero_lock None false None disk)
    (mk_console zero_lock false false (mk_input_t (replicate 128 0) 0 0 0)
       false [] (replicate 2000 0) 0 0 [] [])
    (replicate 10 None)
    (mk_ktime zero_lock 0 0) 0 (mk_kenv 0 []).
