(* ===== verification/Strings.v ===== *)
(** * Memory and strings: [kernel/string.c]

    The byte routines over a memory of addressable bytes; a byte is an integer
    in [0, 256).  Reading or writing an address that is not mapped is a
    [Fault].  Each routine is related to the list operation the rest of the
    kernel uses it for. *)

From S2P Require Import Prelude.

Abbreviation mem := (gmap Z Z).

Definition ld (a : Z) : M mem Z :=
  o <- gets (fun m : mem => m !! a) ;;
  deref "load" o.

Definition st (a v : Z) : M mem unit :=
  o <- gets (fun m : mem => m !! a) ;;
  match o with
  | Some _ => modify (<[a := v]>)
  | None => fault "store"
  end.

(** ** The routines *)

(** [stosb] and [stosl] of [inc/x86_64.h]. *)
Fixpoint stosb (cnt : nat) (addr data : Z) : M mem unit :=
  match cnt with
  | O => ret tt
  | S cnt => st addr (u8 data) ;; stosb cnt (addr + 1) data
  end.

Fixpoint stosl (cnt : nat) (addr data : Z) : M mem unit :=
  match cnt with
  | O => ret tt
  | S cnt =>
      st addr (u8 data) ;; st (addr + 1) (u8 (Z.shiftr data 8)) ;;
      st (addr + 2) (u8 (Z.shiftr data 16)) ;; st (addr + 3) (u8 (Z.shiftr data 24)) ;;
      stosl cnt (addr + 4) data
  end.

Definition memset (dst c n : Z) : M mem Z :=
  (if (i64 dst mod 4 =? 0) && (n mod 4 =? 0) then
     let c := Z.land c 0xFF in
     stosl (Z.to_nat (n / 4)) dst
       (i32 (Z.lor (Z.lor (Z.lor (Z.shiftl c 24) (Z.shiftl c 16)) (Z.shiftl c 8)) c))
   else stosb (Z.to_nat n) dst c) ;;
  ret dst.

Fixpoint memcmp_loop (n : nat) (s1 s2 : Z) : M mem Z :=
  match n with
  | O => ret 0
  | S n =>
      c1 <- ld s1 ;;
      c2 <- ld s2 ;;
      if negb (c1 =? c2) then ret (c1 - c2) else memcmp_loop n (s1 + 1) (s2 + 1)
  end.

Definition memcmp (v1 v2 n : Z) : M mem Z := memcmp_loop (Z.to_nat n) v1 v2.

Fixpoint move_down (n : nat) (d s : Z) : M mem unit :=
  match n with
  | O => ret tt
  | S n => c <- ld (s - 1) ;; st (d - 1) c ;; move_down n (d - 1) (s - 1)
  end.

Fixpoint move_up (n : nat) (d s : Z) : M mem unit :=
  match n with
  | O => ret tt
  | S n => c <- ld s ;; st d c ;; move_up n (d + 1) (s + 1)
  end.

Definition memmove (dst src n : Z) : M mem Z :=
  (if (src <? dst) && (dst <? src + n)
   then move_down (Z.to_nat n) (dst + n) (src + n)
   else move_up (Z.to_nat n) dst src) ;;
  ret dst.

Definition memcpy (dst src n : Z) : M mem Z := memmove dst src n.

Fixpoint strncmp_loop (n : nat) (p q : Z) : M mem Z :=
  match n with
  | O => ret 0
  | S n =>
      a <- ld p ;;
      if a =? 0 then b <- ld q ;; ret (u8 a - u8 b) else
      b <- ld q ;;
      if a =? b then strncmp_loop n (p + 1) (q + 1) else ret (u8 a - u8 b)
  end.

Definition strncmp (p q n : Z) : M mem Z := strncmp_loop (Z.to_nat n) p q.

(** The second loop of [strncpy]. *)
Fixpoint pad_loop (n : nat) (s : Z) : M mem unit :=
  match n with
  | O => ret tt
  | S n => st s 0 ;; pad_loop n (s + 1)
  end.

Fixpoint strncpy_loop (n : nat) (s t : Z) : M mem unit :=
  match n with
  | O => ret tt
  | S n =>
      c <- ld t ;;
      st s c ;;
      if c =? 0 then pad_loop n (s + 1) else strncpy_loop n (s + 1) (t + 1)
  end.

Definition strncpy (s t n : Z) : M mem Z := strncpy_loop (Z.to_nat n) s t ;; ret s.

(** The loop of [safestrcpy]; [n] is the value of [n - 1] before it. *)
Fixpoint safestrcpy_loop (n : nat) (s t : Z) : M mem unit :=
  match n with
  | O => st s 0
  | S n =>
      c <- ld t ;;
      st s c ;;
      if c =? 0 then st (s + 1) 0 else safestrcpy_loop n (s + 1) (t + 1)
  end.

Definition safestrcpy (s t n : Z) : M mem Z :=
  if n <=? 0 then ret s else
  safestrcpy_loop (Z.to_nat (n - 1)) s t ;;
  ret s.

(** A string ends within the mapped memory, or the scan faults. *)
Fixpoint strlen_loop (fuel : nat) (s n : Z) : M mem Z :=
  match fuel with
  | O => diverge
  | S fuel => c <- ld (s + n) ;; if c =? 0 then ret n else strlen_loop fuel s (i32 (n + 1))
  end.

Definition strlen (s : Z) : M mem Z :=
  sz <- gets (fun m : mem => size m) ;;
  strlen_loop (S sz) s 0.

(** ** Facts *)

(** The [n] bytes from [a] are mapped. *)
Definition valid (m : mem) (a n : Z) : Prop := forall x, a <= x < a + n -> is_Some (m !! x).

Definition within (a n x : Z) : bool := (a <=? x) && (x <? a + n).

Lemma within_spec a n x : BoolSpec (a <= x < a + n) (~ a <= x < a + n) (within a n x).
Proof. unfold within. destruct (Z.leb_spec a x), (Z.ltb_spec x (a + n)); constructor; lia. Qed.

Lemma ld_eq m a v : m !! a = Some v -> ld a m = Done v m.
Proof. intros H. unfold ld; msimp. by rewrite H. Qed.

Lemma st_eq m a v : is_Some (m !! a) -> st a v m = Done tt (<[a := v]> m).
Proof. intros [w H]. unfold st; msimp. by rewrite H. Qed.

Lemma valid_insert m a n b v : valid m a n -> valid (<[b := v]> m) a n.
Proof. intros H x Hx. apply lookup_insert_is_Some'. right. by apply H. Qed.

Lemma valid_le m a n b k : valid m a n -> a <= b -> b + k <= a + n -> valid m b k.
Proof. intros H ?? x Hx. apply H. lia. Qed.

Lemma stosb_spec n a d m :
  valid m a (Z.of_nat n) ->
  exists m', stosb n a d m = Done tt m' /\
    forall x, m' !! x = if within a (Z.of_nat n) x then Some (u8 d) else m !! x.
Proof.
  revert a m. induction n as [|n IH]; intros a m Hv.
  { exists m. split; [done|]. intros x. destruct (within_spec a (Z.of_nat 0) x); [lia|done]. }
  cbn [stosb]. mstep st_eq; [|apply Hv; lia].
  destruct (IH (a + 1) (<[a := u8 d]> m)) as (m' & E & H).
  { apply valid_insert. eapply valid_le; [done|lia|lia]. }
  exists m'. split; [done|]. intros x. rewrite H.
  destruct (within_spec (a + 1) (Z.of_nat n) x), (within_spec a (Z.of_nat (S n)) x); try lia; [done| |].
  - assert (x = a) as -> by lia. by rewrite lookup_insert_eq.
  - by rewrite lookup_insert_ne by lia.
Qed.

Lemma bind_st_cong {B} b v (k1 k2 : unit -> M mem B) m :
  k1 tt (<[b := v]> m) = k2 tt (<[b := v]> m) -> bind (st b v) k1 m = bind (st b v) k2 m.
Proof. unfold st, bind; cbn. by destruct (m !! b). Qed.

(** The byte routine done four bytes at a time. *)
Lemma stosl_stosb n a d m :
  u8 (Z.shiftr d 8) = u8 d -> u8 (Z.shiftr d 16) = u8 d -> u8 (Z.shiftr d 24) = u8 d ->
  stosl n a d m = stosb (4 * n) a d m.
Proof.
  intros H1 H2 H3. revert a m. induction n as [|n IH]; intros a m; [done|].
  replace (4 * S n)%nat with (S (S (S (S (4 * n))))) by lia. cbn [stosl stosb].
  rewrite H1, H2, H3.
  replace (a + 1 + 1 + 1 + 1) with (a + 4) by lia. replace (a + 1 + 1 + 1) with (a + 3) by lia.
  replace (a + 1 + 1) with (a + 2) by lia.
  do 4 apply bind_st_cong. apply IH.
Qed.

Lemma repeat_byte c :
  0 <= c < 256 ->
  let d := i32 (Z.lor (Z.lor (Z.lor (Z.shiftl c 24) (Z.shiftl c 16)) (Z.shiftl c 8)) c) in
  u8 d = c /\ u8 (Z.shiftr d 8) = c /\ u8 (Z.shiftr d 16) = c /\ u8 (Z.shiftr d 24) = c.
Proof.
  intros Hc d.
  assert (forallb (fun c =>
    let d := i32 (Z.lor (Z.lor (Z.lor (Z.shiftl c 24) (Z.shiftl c 16)) (Z.shiftl c 8)) c) in
    (u8 d =? c) && (u8 (Z.shiftr d 8) =? c) && (u8 (Z.shiftr d 16) =? c)
      && (u8 (Z.shiftr d 24) =? c)) (seqZ 0 256) = true) as H by (vm_compute; reflexivity).
  rewrite forallb_forall in H. specialize (H c). cbv zeta in H. bprop.
  assert (Hin : In c (seqZ 0 256)) by (apply list_elem_of_In, elem_of_seqZ; lia).
  apply H in Hin. bprop. done.
Qed.

Lemma move_up_spec n d s m :
  valid m d (Z.of_nat n) -> valid m s (Z.of_nat n) -> d <= s \/ s + Z.of_nat n <= d ->
  exists m', move_up n d s m = Done tt m' /\
    forall x, m' !! x = if within d (Z.of_nat n) x then m !! (s + (x - d)) else m !! x.
Proof.
  revert d s m. induction n as [|n IH]; intros d s m Hd Hs Ho.
  { exists m. split; [done|]. intros x. destruct (within_spec d (Z.of_nat 0) x); [lia|done]. }
  destruct (Hs s) as [c Hc]; [lia|]. cbn [move_up]. mstep (ld_eq m s c Hc).
  mstep st_eq; [|apply Hd; lia].
  destruct (IH (d + 1) (s + 1) (<[d := c]> m)) as (m' & E & H).
  { apply valid_insert. apply (valid_le _ _ _ _ _ Hd); lia. }
  { apply valid_insert. apply (valid_le _ _ _ _ _ Hs); lia. }
  { lia. }
  exists m'. split; [done|]. intros x. rewrite H.
  destruct (within_spec (d + 1) (Z.of_nat n) x), (within_spec d (Z.of_nat (S n)) x); try lia.
  - rewrite lookup_insert_ne by lia. f_equal. lia.
  - assert (x = d) as -> by lia. rewrite lookup_insert_eq, <- Hc. f_equal. lia.
  - by rewrite lookup_insert_ne by lia.
Qed.

Lemma move_down_spec n d s m :
  valid m d (Z.of_nat n) -> valid m s (Z.of_nat n) -> s <= d ->
  exists m', move_down n (d + Z.of_nat n) (s + Z.of_nat n) m = Done tt m' /\
    forall x, m' !! x = if within d (Z.of_nat n) x then m !! (s + (x - d)) else m !! x.
Proof.
  revert m. induction n as [|n IH]; intros m Hd Hs Ho.
  { exists m. split; [done|]. intros x. destruct (within_spec d (Z.of_nat 0) x); [lia|done]. }
  replace (d + Z.of_nat (S n)) with (d + Z.of_nat n + 1) by lia.
  replace (s + Z.of_nat (S n)) with (s + Z.of_nat n + 1) by lia. cbn [move_down].
  rewrite !Z.add_simpl_r.
  destruct (Hs (s + Z.of_nat n)) as [c Hc]; [lia|]. mstep (ld_eq m _ c Hc).
  mstep st_eq; [|apply Hd; lia].
  destruct (IH (<[d + Z.of_nat n := c]> m)) as (m' & E & H); [| |done|].
  { apply valid_insert. apply (valid_le _ _ _ _ _ Hd); lia. }
  { apply valid_insert. apply (valid_le _ _ _ _ _ Hs); lia. }
  exists m'. split; [done|]. intros x. rewrite H.
  destruct (within_spec d (Z.of_nat n) x), (within_spec d (Z.of_nat (S n)) x); try lia.
  - by rewrite lookup_insert_ne by lia.
  - assert (x = d + Z.of_nat n) as -> by lia. rewrite lookup_insert_eq, <- Hc. f_equal. lia.
  - by rewrite lookup_insert_ne by lia.
Qed.

(** *** Strings as lists *)

(** The bytes [l] are in memory from [a]. *)
Definition bytes_at (m : mem) (a : Z) (l : list Z) : Prop :=
  forall i c, l !! i = Some c -> m !! (a + Z.of_nat i) = Some c.

Lemma bytes_at_cons m a c l : bytes_at m a (c :: l) <-> m !! a = Some c /\ bytes_at m (a + 1) l.
Proof.
  split.
  - intros H. split; [rewrite <- (Z.add_0_r a); by apply (H 0%nat)|].
    intros i x Hx. replace (a + 1 + Z.of_nat i) with (a + Z.of_nat (S i)) by lia. by apply H.
  - intros [H1 H2] [|i] x Hx; simplify_eq/=; [by rewrite Z.add_0_r|].
    replace (a + Z.of_nat (S i)) with (a + 1 + Z.of_nat i) by lia. by apply H2.
Qed.

(** The C string at the front of a list of bytes: up to the first NUL. *)
Fixpoint cstr (l : list Z) : list Z :=
  match l with
  | [] => []
  | c :: l => if c =? 0 then [] else c :: cstr l
  end.

(** [strncmp] on lists; the end of a list counts as a NUL. *)
Fixpoint strncmp_list (n : nat) (p q : list Z) : Z :=
  match n with
  | O => 0
  | S n =>
      let a := hd 0 p in let b := hd 0 q in
      if a =? 0 then u8 a - u8 b else
      if a =? b then strncmp_list n (tl p) (tl q) else u8 a - u8 b
  end.

(** [strncpy(s, t, n)] on lists: the [n] bytes written. *)
Definition strncpy_list (t : list Z) (n : nat) : list Z :=
  let c := take n (cstr t) in c ++ replicate (n - length c) 0.

(** [safestrcpy(s, t, n)] on lists: the array [old] after it. *)
Definition safestrcpy_list (old t : list Z) (n : nat) : list Z :=
  let c := take (n - 1) (cstr t) in
  let w := c ++ 0 :: (if (length c <? n - 1)%nat then [0] else []) in
  w ++ drop (length w) old.

Definition is_byte (c : Z) : Prop := 0 <= c < 256.

Lemma strncmp_list_zero n p q :
  Forall is_byte p -> Forall is_byte q ->
  strncmp_list n p q = 0 <-> take n (cstr p) = take n (cstr q).
Proof.
  revert p q. induction n as [|n IH]; intros p q Hp Hq; [done|]. cbn [strncmp_list].
  destruct p as [|a p], q as [|b q]; try (inversion Hp as [|?? Ha Hp']; subst);
    try (inversion Hq as [|?? Hb Hq']; subst); unfold is_byte in *; cbn.
  - done.
  - rewrite !u8_small by lia. destruct (Z.eqb_spec b 0); [subst; done|].
    split; [lia|discriminate].
  - rewrite !u8_small by lia. destruct (Z.eqb_spec a 0); [subst; done|]. split; [lia|discriminate].
  - destruct (Z.eqb_spec a 0) as [->|Ha0].
    + rewrite !u8_small by lia. destruct (Z.eqb_spec b 0); [subst; done|]. split; [lia|discriminate].
    + destruct (Z.eqb_spec a b) as [->|Hab].
      * destruct (Z.eqb_spec b 0); [lia|]. cbn. rewrite IH by done. split; [by intros ->|by intros [=]].
      * rewrite !u8_small by lia. destruct (Z.eqb_spec b 0); cbn; (split; [lia|]); [discriminate|].
        by intros [=].
Qed.

(** A list of bytes that holds a whole C string, or at least [n] bytes. *)
Definition long_enough (n : nat) (l : list Z) : Prop := (n <= length l)%nat \/ (0 ∈ l).

Lemma long_enough_cons n c l : long_enough (S n) (c :: l) -> c <> 0 -> long_enough n l.
Proof.
  intros [H|H] Hc; [left; cbn in H; lia|]. right. by inversion H; subst.
Qed.

Lemma strncmp_loop_list n p q lp lq m :
  bytes_at m p lp -> bytes_at m q lq -> long_enough n lp -> long_enough n lq ->
  strncmp_loop n p q m = Done (strncmp_list n lp lq) m.
Proof.
  revert p q lp lq. induction n as [|n IH]; intros p q lp lq Hp Hq Lp Lq; [done|].
  destruct lp as [|a lp]; [destruct Lp as [H|H]; [cbn in H; lia|by apply not_elem_of_nil in H]|].
  destruct lq as [|b lq]; [destruct Lq as [H|H]; [cbn in H; lia|by apply not_elem_of_nil in H]|].
  apply bytes_at_cons in Hp as [Ha Hp], Hq as [Hb Hq].
  cbn [strncmp_loop strncmp_list hd tl]. mstep (ld_eq m p a Ha).
  destruct (Z.eqb_spec a 0) as [->|Ha0]; mstep (ld_eq m q b Hb); [done|].
  destruct (Z.eqb_spec a b) as [->|]; [|done].
  apply IH; eauto using long_enough_cons.
Qed.

Lemma bytes_at_insert m a l b v :
  bytes_at m a l -> b < a \/ a + Z.of_nat (length l) <= b -> bytes_at (<[b := v]> m) a l.
Proof.
  intros H Hb i c Hi. pose proof (lookup_lt_Some _ _ _ Hi).
  rewrite lookup_insert_ne by lia. by apply H.
Qed.

Lemma safestrcpy_loop_spec n s t lt m :
  valid m s (Z.of_nat n + 1) -> bytes_at m t lt -> long_enough n lt ->
  t + Z.of_nat (length lt) <= s \/ s + Z.of_nat n + 1 <= t ->
  exists m', safestrcpy_loop n s t m = Done tt m' /\
    bytes_at m' s (take n (cstr lt) ++ [0]) /\
    forall x, within s (Z.of_nat n + 1) x = false -> m' !! x = m !! x.
Proof.
  revert s t lt m. induction n as [|n IH]; intros s t lt m Hv Ht Hl Ho.
  { cbn [safestrcpy_loop]. eexists. split; [apply st_eq, Hv; lia|]. split.
    - rewrite take_0. apply bytes_at_cons. split; [by rewrite lookup_insert_eq|]. by intros i c Hi.
    - intros x. destruct (within_spec s (Z.of_nat 0 + 1) x); [done|]. intros _.
      by rewrite lookup_insert_ne by lia. }
  destruct lt as [|c lt]; [destruct Hl as [H|H]; [cbn in H; lia|by apply not_elem_of_nil in H]|].
  apply bytes_at_cons in Ht as [Hc Ht]. cbn [length] in Ho. cbn [safestrcpy_loop].
  mstep (ld_eq m t c Hc). mstep st_eq; [|apply Hv; lia]. cbn [cstr].
  destruct (Z.eqb_spec c 0) as [->|Hc0].
  - eexists. split; [apply st_eq; apply valid_insert with (n := Z.of_nat (S n) + 1) (a := s); [done|lia]|].
    split.
    + cbn. apply bytes_at_cons. split; [|by intros i c Hi].
      by rewrite lookup_insert_ne, lookup_insert_eq by lia.
    + intros x. destruct (within_spec s (Z.of_nat (S n) + 1) x); [done|]. intros _.
      by rewrite !lookup_insert_ne by lia.
  - destruct (IH (s + 1) (t + 1) lt (<[s := c]> m)) as (m' & E & Hb & Hf).
    { apply valid_insert. apply (valid_le _ _ _ _ _ Hv); lia. }
    { apply bytes_at_insert; [done|lia]. }
    { by eapply long_enough_cons. }
    { lia. }
    exists m'. split; [done|]. split.
    + cbn [take app]. apply bytes_at_cons. split; [|done]. rewrite Hf, lookup_insert_eq; [done|].
      destruct (within_spec (s + 1) (Z.of_nat n + 1) s); [lia|done].
    + intros x. destruct (within_spec s (Z.of_nat (S n) + 1) x); [done|]. intros _.
      rewrite Hf; [by rewrite lookup_insert_ne by lia|].
      destruct (within_spec (s + 1) (Z.of_nat n + 1) x); [lia|done].
Qed.

(** ** Properties *)

(** C13: [memset] and [memmove] do what their names say on every branch.
    [memset] fills exactly its [n] bytes with the low byte of [c], whether it
    goes word by word or byte by byte; [memmove] copies [n] bytes as if through
    a temporary, also when the two areas overlap, and changes nothing else. *)
Theorem memset_memmove_correct (m : mem) (dst src c n : Z)
    (Hn : 0 <= n) (Hd : valid m dst n) (Hs : valid m src n) :
  (exists m', memset dst c n m = Done dst m' /\
     forall x, m' !! x = if within dst n x then Some (u8 c) else m !! x) /\
  (exists m', memmove dst src n m = Done dst m' /\
     forall x, m' !! x = if within dst n x then m !! (src + (x - dst)) else m !! x).
Proof.
  assert (Hz : Z.of_nat (Z.to_nat n) = n) by lia. split.
  - unfold memset. destruct ((i64 dst mod 4 =? 0) && (n mod 4 =? 0)) eqn:E.
    + apply andb_prop in E as [_ E]. apply Z.eqb_eq in E.
      assert (Hc : Z.land c 0xFF = u8 c) by (change 0xFF with (Z.ones 8); by rewrite Z.land_ones).
      destruct (repeat_byte (u8 c)) as (H0 & H1 & H2 & H3); [apply u8_range|].
      cbv zeta. rewrite Hc.
      set (d := i32 _) in *. assert (Hd' : valid m dst (Z.of_nat (4 * Z.to_nat (n / 4))))
        by (replace (Z.of_nat _) with n by dlia; done).
      destruct (stosb_spec (4 * Z.to_nat (n / 4)) dst d m Hd') as (m' & E1 & H).
      exists m'. split; [|intros x; rewrite H, H0; by replace (Z.of_nat _) with n by dlia].
      rewrite <- (stosl_stosb (Z.to_nat (n / 4)) dst d m) in E1 by congruence. by mstep E1.
    + destruct (stosb_spec (Z.to_nat n) dst c m) as (m' & E1 & H); [by rewrite Hz|].
      exists m'. rewrite Hz in H. split; [by mstep E1|done].
  - unfold memmove. rewrite <- Hz in Hd, Hs.
    destruct ((src <? dst) && (dst <? src + n)) eqn:E.
    + destruct (move_down_spec (Z.to_nat n) dst src m Hd Hs) as (m' & E1 & H); [lia|].
      exists m'. rewrite Hz in E1, H. split; [by mstep E1|done].
    + destruct (move_up_spec (Z.to_nat n) dst src m Hd Hs) as (m' & E1 & H); [lia|].
      exists m'. rewrite Hz in H. split; [by mstep E1|done].
Qed.

(** the string routines keep their promises.  [strncmp] returns 0 exactly
    when the two strings agree up to their end or to [n] bytes; [safestrcpy]
    always writes a terminated string of at most [n] bytes, the longest prefix
    of the source that fits, and touches nothing outside the destination. *)
Theorem strncmp_safestrcpy_correct (m : mem) (p q n : Z) (lp lq : list Z)
    (Hn : 0 < n) (Hp : bytes_at m p lp) (Hq : bytes_at m q lq)
    (Bp : Forall is_byte lp) (Bq : Forall is_byte lq)
    (Lp : long_enough (Z.to_nat n) lp) (Lq : long_enough (Z.to_nat n) lq)
    (d : Z) (Hd : valid m d n) (Ho : q + Z.of_nat (length lq) <= d \/ d + n <= q) :
  (exists r, strncmp p q n m = Done r m /\
     (r = 0 <-> take (Z.to_nat n) (cstr lp) = take (Z.to_nat n) (cstr lq))) /\
  (exists m', safestrcpy d q n m = Done d m' /\
     bytes_at m' d (take (Z.to_nat (n - 1)) (cstr lq) ++ [0]) /\
     forall x, within d n x = false -> m' !! x = m !! x).
Proof.
  split.
  - exists (strncmp_list (Z.to_nat n) lp lq). split; [by apply strncmp_loop_list|].
    by apply strncmp_list_zero.
  - assert (Hz : Z.of_nat (Z.to_nat (n - 1)) + 1 = n) by lia.
    destruct (safestrcpy_loop_spec (Z.to_nat (n - 1)) d q lq m) as (m' & E & Hb & Hf);
      [by rewrite Hz|done| |lia|].
    { destruct Lq; [left; lia|by right]. }
    rewrite Hz in Hf. exists m'. split; [|done]. unfold safestrcpy.
    destruct (Z.leb_spec n 0); [lia|]. by mstep E.
Qed.

(** A memory of [n] zero bytes from address 0. *)
Definition zero_mem (n : Z) : mem := list_to_map ((fun a => (a, 0)) <$> seqZ 0 n).

Lemma zero_mem_valid n x : 0 <= x < n -> is_Some (zero_mem n !! x).
Proof.
  intros Hx. exists 0. unfold zero_mem. apply elem_of_list_to_map_1.
  - rewrite <- list_fmap_compose, (list_fmap_ext _ id) by done. rewrite list_fmap_id. apply NoDup_seqZ.
  - apply list_elem_of_fmap. exists x. split; [done|]. apply elem_of_seqZ. lia.
Qed.

Lemma memset_memmove_correct_witness :
  exists m', memmove 2 1 3 (<[1 := 7]> (zero_mem 8)) = Done 2 m' /\ m' !! 2 = Some 7.
Proof.
  destruct (memset_memmove_correct (<[1 := 7]> (zero_mem 8)) 2 1 0 3) as (_ & m' & H1 & H2).
  - lia.
  - intros x Hx. assert (x = 2 \/ x = 3 \/ x = 4) as [->|[->| ->]] by lia; vm_compute; eauto.
  - intros x Hx. assert (x = 1 \/ x = 2 \/ x = 3) as [->|[->| ->]] by lia; vm_compute; eauto.
  - exists m'. split; [exact H1|]. rewrite H2. reflexivity.
Defined.

Lemma strncmp_safestrcpy_correct_witness :
  exists m', safestrcpy 4 1 3 (<[1 := 7]> (zero_mem 8)) = Done 4 m' /\
    bytes_at m' 4 [7; 0].
Proof.
  destruct (strncmp_safestrcpy_correct (<[1 := 7]> (zero_mem 8)) 1 1 3 [7; 0] [7; 0]) with (d := 4)
    as (_ & m' & H1 & H2 & _).
  - lia.
  - intros [|[|i]] c Hi; inversion Hi; reflexivity.
  - intros [|[|i]] c Hi; inversion Hi; reflexivity.
  - repeat constructor; lia.
  - repeat constructor; lia.
  - right. apply list_elem_of_further, list_elem_of_here.
  - right. apply list_elem_of_further, list_elem_of_here.
  - intros x Hx. assert (x = 4 \/ x = 5 \/ x = 6) as [->|[->| ->]] by lia; vm_compute; eauto.
  - left. cbn. lia.
  - exists m'. split; [exact H1|exact H2].
Defined.
