(* ===== verification/Ulib.v ===== *)
(** * The user library: [user/lib/ulib.c]

    The string routines that user programs link, over the byte memory of
    [Strings].  A scan runs until it finds a NUL, so its fuel is the size of
    the memory: a string that ends lies in distinct mapped bytes, and one that
    does not end makes the scan leave the memory and fault.  Then what a program
    sees of [read], [write], [open] and [close]: [open] takes the smallest
    descriptor that is not open, a read of one that is not open fails, and a
    file is given in the pieces that the reads return. *)

From S2P Require Import Prelude Types Strings.

(** ** The routines *)

(** User code is compiled without [-fwrapv]: a signed operation whose result
    does not fit an [int] is undefined, which is a fault here. *)
Definition int_result {S} (z : Z) : M S Z :=
  if (- 2 ^ 31 <=? z) && (z <? 2 ^ 31) then ret z else fault "signed overflow".

Fixpoint strcpy_loop (fuel : nat) (s t : Z) : M mem unit :=
  match fuel with
  | O => diverge
  | S fuel =>
      c <- ld t ;;
      st s c ;;
      if c =? 0 then ret tt else strcpy_loop fuel (s + 1) (t + 1)
  end.

Definition strcpy (s t : Z) : M mem Z :=
  sz <- gets (fun m : mem => size m) ;;
  strcpy_loop (S sz) s t ;;
  ret s.

Fixpoint strcmp_loop (fuel : nat) (p q : Z) : M mem Z :=
  match fuel with
  | O => diverge
  | S fuel =>
      a <- ld p ;;
      b <- ld q ;;
      if truthy a && (a =? b) then strcmp_loop fuel (p + 1) (q + 1)
      else ret (u8 a - u8 b)
  end.

Definition strcmp (p q : Z) : M mem Z :=
  sz <- gets (fun m : mem => size m) ;;
  strcmp_loop (S sz) p q.

(** The result of [strlen] is unsigned, its counter is not. *)
Fixpoint ustrlen_loop (fuel : nat) (s n : Z) : M mem Z :=
  match fuel with
  | O => diverge
  | S fuel =>
      c <- ld (s + n) ;;
      if c =? 0 then ret n else n <- int_result (n + 1) ;; ustrlen_loop fuel s n
  end.

Definition strlen (s : Z) : M mem Z :=
  sz <- gets (fun m : mem => size m) ;;
  n <- ustrlen_loop (S sz) s 0 ;;
  ret (u32 n).

Definition memset (dst c n : Z) : M mem Z :=
  stosb (Z.to_nat n) dst c ;;
  ret dst.

(** The address of the first [c], or 0. *)
Fixpoint strchr_loop (fuel : nat) (s c : Z) : M mem Z :=
  match fuel with
  | O => diverge
  | S fuel =>
      x <- ld s ;;
      if x =? 0 then ret 0 else
      if x =? c then ret s else strchr_loop fuel (s + 1) c
  end.

Definition strchr (s c : Z) : M mem Z :=
  sz <- gets (fun m : mem => size m) ;;
  strchr_loop (S sz) s c.

(** [n = n * 10 + *s++ - '0'], three operations on an [int]. *)
Fixpoint atoi_loop (fuel : nat) (s n : Z) : M mem Z :=
  match fuel with
  | O => diverge
  | S fuel =>
      c <- ld s ;;
      if (48 <=? c) && (c <=? 57) then
        x <- int_result (n * 10) ;;
        y <- int_result (x + c) ;;
        z <- int_result (y - 48) ;;
        atoi_loop fuel (s + 1) z
      else ret n
  end.

Definition atoi (s : Z) : M mem Z :=
  sz <- gets (fun m : mem => size m) ;;
  atoi_loop (S sz) s 0.

(** Unlike the kernel's, this [memmove] always copies upwards. *)
Definition memmove (dst src n : Z) : M mem Z :=
  move_up (Z.to_nat n) dst src ;;
  ret dst.

(** ** C strings in memory *)

(** The C string [l] is at [a]. *)
Definition cstring (m : mem) (a : Z) (l : list Z) : Prop :=
  bytes_at m a (l ++ [0]) /\ Forall (fun c => c <> 0) l.

Lemma cstring_nil m a : cstring m a [] <-> m !! a = Some 0.
Proof.
  unfold cstring. cbn. rewrite bytes_at_cons. split; [by intros [[? _] _]|].
  intros H. split_and!; [done| |constructor]. by intros i c.
Qed.

Lemma cstring_cons m a c l : cstring m a (c :: l) <-> m !! a = Some c /\ c <> 0 /\ cstring m (a + 1) l.
Proof. unfold cstring. cbn. rewrite bytes_at_cons, Forall_cons. naive_solver. Qed.

(** A string and its NUL are distinct mapped bytes. *)
Lemma cstring_size m a l : cstring m a l -> (length l < size m)%nat.
Proof.
  intros [H _].
  assert (Hs : list_to_set ((fun i => a + Z.of_nat i) <$> seq 0 (S (length l))) ⊆ dom m).
  { intros x Hx. apply elem_of_list_to_set, list_elem_of_fmap in Hx as (i & -> & Hi).
    apply elem_of_seq in Hi. apply elem_of_dom.
    destruct (lookup_lt_is_Some_2 (l ++ [0]) i) as [c Hc]; [rewrite length_app; cbn; lia|].
    exists c. by apply H. }
  apply subseteq_size in Hs. rewrite size_dom in Hs.
  rewrite size_list_to_set in Hs; [rewrite length_fmap, length_seq in Hs; lia|].
  apply NoDup_fmap_2; [intros ???; lia|apply NoDup_seq].
Qed.

Lemma cstring_lookup m a l i c : cstring m a l -> l !! i = Some c -> m !! (a + Z.of_nat i) = Some c.
Proof. intros [H _] Hc. apply H. by apply lookup_app_l_Some. Qed.

Lemma bytes_at_app m a l k :
  bytes_at m a (l ++ k) <-> bytes_at m a l /\ bytes_at m (a + Z.of_nat (length l)) k.
Proof.
  revert a. induction l as [|c l IH]; intros a; cbn.
  - rewrite Z.add_0_r. split; [|by intros [_ ?]]. intros H. split; [by intros i x|done].
  - rewrite !bytes_at_cons, IH. replace (a + 1 + Z.of_nat (length l)) with (a + Z.of_nat (S (length l))) by lia.
    naive_solver.
Qed.

Lemma bytes_at_same m m' a l :
  bytes_at m a l -> (forall x, a <= x < a + Z.of_nat (length l) -> m' !! x = m !! x) -> bytes_at m' a l.
Proof. intros H Hs i c Hc. pose proof (lookup_lt_Some _ _ _ Hc). rewrite Hs by lia. by apply H. Qed.

Lemma bytes_at_valid m a l : bytes_at m a l -> valid m a (Z.of_nat (length l)).
Proof.
  intros H x Hx. destruct (lookup_lt_is_Some_2 l (Z.to_nat (x - a))) as [c Hc]; [lia|].
  exists c. rewrite <- (H _ _ Hc). f_equal. lia.
Qed.

Lemma cstring_same m m' a l :
  cstring m a l -> (forall x, a <= x <= a + Z.of_nat (length l) -> m' !! x = m !! x) -> cstring m' a l.
Proof.
  intros [H ?] Hs. split; [|done]. apply (bytes_at_same m); [done|].
  intros x. rewrite length_app. cbn. intros. apply Hs. lia.
Qed.

(** Cutting a string in two with a NUL, and its second part. *)
Lemma cstring_take m a l i :
  cstring m a l -> (i < length l)%nat -> cstring (<[a + Z.of_nat i := 0]> m) a (take i l).
Proof.
  intros [H Hl] Hi. split; [|by apply Forall_take]. apply bytes_at_app. split.
  - intros j c Hc. pose proof (lookup_lt_Some _ _ _ Hc) as Hj. rewrite length_take in Hj.
    rewrite lookup_insert_ne by lia. apply H. apply lookup_app_l_Some. by apply lookup_take_Some in Hc as [? _].
  - rewrite length_take, Nat.min_l by lia. apply bytes_at_cons. split; [apply lookup_insert_eq|by intros j c].
Qed.

Lemma cstring_drop m a l i :
  cstring m a l -> (i <= length l)%nat -> cstring m (a + Z.of_nat i) (drop i l).
Proof.
  intros [H Hl] Hi. split; [|by apply Forall_drop].
  rewrite <- (take_drop i l), <- app_assoc in H. apply bytes_at_app in H as [_ H].
  by rewrite length_take, Nat.min_l in H by lia.
Qed.

(** ** What the routines compute *)

Lemma int_result_eq {S} z (s : S) : - 2 ^ 31 <= z < 2 ^ 31 -> int_result z s = Done z s.
Proof. intros Hz. unfold int_result. destruct (Z.leb_spec (- 2 ^ 31) z), (Z.ltb_spec z (2 ^ 31)); done || lia. Qed.

(** [strcmp] on lists. *)
Fixpoint strcmp_list (p q : list Z) : Z :=
  match p, q with
  | a :: p, b :: q => if a =? b then strcmp_list p q else u8 a - u8 b
  | p, q => u8 (hd 0 p) - u8 (hd 0 q)
  end.

Lemma strcmp_loop_list fuel m p q lp lq :
  cstring m p lp -> cstring m q lq -> (length lp < fuel)%nat ->
  strcmp_loop fuel p q m = Done (strcmp_list lp lq) m.
Proof.
  revert p q lp lq. induction fuel as [|fuel IH]; intros p q lp lq Hp Hq Hf; [lia|]. cbn [strcmp_loop].
  destruct lp as [|a lp], lq as [|b lq];
    rewrite ?cstring_nil, ?cstring_cons in Hp; rewrite ?cstring_nil, ?cstring_cons in Hq;
    destruct_and?; do 2 (mstep ld_eq; [|eassumption]); cbn; try done.
  - destruct (Z.eqb_spec a 0); [done|]. by rewrite andb_false_r.
  - unfold truthy. destruct (Z.eqb_spec a 0); [done|]. cbn.
    destruct (a =? b); [|done]. apply IH; [done..|cbn in Hf; lia].
Qed.

Lemma strcmp_list_zero p q :
  Forall is_byte p -> Forall is_byte q -> Forall (fun c => c <> 0) p -> Forall (fun c => c <> 0) q ->
  strcmp_list p q = 0 <-> p = q.
Proof.
  unfold is_byte. revert q. induction p as [|a p IH]; intros [|b q] H1 H2 H3 H4; cbn; [done| | |];
    inv H1 || idtac; inv H2 || idtac; inv H3 || idtac; inv H4 || idtac.
  - rewrite (u8_small b) by lia. change (u8 0) with 0. split; [lia|done].
  - rewrite (u8_small a) by lia. change (u8 0) with 0. split; [lia|done].
  - destruct (Z.eqb_spec a b) as [->|Hne]; [rewrite IH by done; naive_solver|].
    rewrite !u8_small by lia. split; [lia|naive_solver].
Qed.

(** The index of the first [c] in a list. *)
Definition index_of (c : Z) (l : list Z) : option nat := fst <$> list_find (fun x => x = c) l.

Lemma index_of_cons c x l :
  index_of c (x :: l) = if decide (x = c) then Some O else S <$> index_of c l.
Proof. unfold index_of. cbn. case_decide; [done|]. by destruct (list_find _ l) as [[]|]. Qed.

Lemma strchr_loop_list fuel m s c l :
  cstring m s l -> (length l < fuel)%nat ->
  strchr_loop fuel s c m =
    Done (match index_of c l with Some i => s + Z.of_nat i | None => 0 end) m.
Proof.
  revert s l. induction fuel as [|fuel IH]; intros s l Hs Hf; [lia|]. cbn [strchr_loop].
  destruct l as [|x l]; rewrite ?cstring_nil, ?cstring_cons in Hs.
  { by mstep ld_eq; [|eassumption]. }
  destruct Hs as (Hx & Hx0 & Hs). mstep ld_eq; [|eassumption].
  destruct (Z.eqb_spec x 0); [done|]. rewrite index_of_cons.
  destruct (Z.eqb_spec x c); case_decide; try done; [by rewrite Z.add_0_r|].
  rewrite (IH (s + 1) l) by (done || (cbn in Hf; lia)).
  destruct (index_of c l); cbn; [|done]. f_equal. lia.
Qed.

Lemma strchr_list m s c l :
  cstring m s l ->
  strchr s c m = Done (match index_of c l with Some i => s + Z.of_nat i | None => 0 end) m.
Proof.
  intros H. unfold strchr. msimp. apply strchr_loop_list; [done|].
  pose proof (cstring_size _ _ _ H). lia.
Qed.

(** ** A user program and its system calls

    What a program can see of the kernel: reading a descriptor gives the next
    piece of what the kernel has for it (the kernel chooses the pieces), an
    error, or nothing at the end; a write is accepted in full unless the next
    element of [u_wres] says how much of it is.  The descriptors that are open
    are those of [u_in]: [open] takes the smallest of the [NOFILE] that is not,
    as [file_open] in [kernel/file.c] does, [close] gives it back, and reading
    one that is not open fails.  [u_open] is what the reads of a file, opened
    afresh, will give, and nothing for a name that cannot be opened.  A program
    that calls [exit] has returned from its [main]. *)

Inductive piece := Data (l : list Z) | ReadError.

Record ustate := mk_ustate {
  u_mem : mem;
  u_in : gmap Z (list piece);
  u_wres : list Z;
  u_out : list (Z * list Z);
  u_open : list Z -> option (list piece)
}.

Abbreviation U := (M ustate).

Definition set_u_mem (m : mem) (s : ustate) : ustate :=
  mk_ustate m (u_in s) (u_wres s) (u_out s) (u_open s).
Definition set_u_in (i : gmap Z (list piece)) (s : ustate) : ustate :=
  mk_ustate (u_mem s) i (u_wres s) (u_out s) (u_open s).
Definition set_u_wres (l : list Z) (s : ustate) : ustate :=
  mk_ustate (u_mem s) (u_in s) l (u_out s) (u_open s).
Definition put_out (fd : Z) (l : list Z) (s : ustate) : ustate :=
  mk_ustate (u_mem s) (u_in s) (u_wres s) (u_out s ++ [(fd, l)]) (u_open s).

(** A computation on the program's memory. *)
Definition lift {A} (m : M mem A) : U A := fun s =>
  match m (u_mem s) with
  | Done a m' => Done a (set_u_mem m' s)
  | Panic e => Panic e
  | Fault e => Fault e
  | Diverge | Block _ _ => Diverge
  end.

Fixpoint store (a : Z) (l : list Z) : M mem unit :=
  match l with
  | [] => ret tt
  | c :: l => st a c ;; store (a + 1) l
  end.

Fixpoint load_bytes (n : nat) (a : Z) : M mem (list Z) :=
  match n with
  | O => ret []
  | S n => c <- ld a ;; l <- load_bytes n (a + 1) ;; ret (c :: l)
  end.

(** What a read of [n] bytes gives, and what is left for the next. *)
Definition next_piece (n : nat) (ps : list piece) : option (list Z) * list piece :=
  match ps with
  | [] => (Some [], [])
  | ReadError :: ps => (None, ps)
  | Data l :: ps => (Some (take n l), if (length l <=? n)%nat then ps else Data (drop n l) :: ps)
  end.

Definition read (fd a n : Z) : U Z :=
  t <- gets u_in ;;
  match t !! fd with
  | None => ret (-1)
  | Some ps =>
      let '(o, ps') := next_piece (Z.to_nat n) ps in
      modify (fun s => set_u_in (<[fd := ps']> (u_in s)) s) ;;
      match o with
      | None => ret (-1)
      | Some l => lift (store a l) ;; ret (Z.of_nat (length l))
      end
  end.

(** Every read but the last takes a byte or a piece. *)
Definition reads_left (ps : list piece) : nat :=
  sum_list_with (fun p => match p with Data l => S (length l) | ReadError => 1%nat end) ps.

(** The smallest descriptor that is not open. *)
Definition free_fd (t : gmap Z (list piece)) : option Z :=
  head (filter (fun fd => t !! fd = None) (seqZ 0 (Z.of_nat NOFILE))).

(** [open] and [close]. *)
Definition open (name : list Z) : U Z :=
  o <- gets (fun s => u_open s name) ;;
  t <- gets u_in ;;
  match o, free_fd t with
  | Some ps, Some fd => modify (set_u_in (<[fd := ps]> t)) ;; ret fd
  | _, _ => ret (-1)
  end.
Definition close (fd : Z) : U unit := modify (fun s => set_u_in (delete fd (u_in s)) s).

(** The kernel's side of a write. *)
Definition write_bytes (fd : Z) (l : list Z) : U Z :=
  let n := Z.of_nat (length l) in
  w <- gets u_wres ;;
  match w with
  | [] => modify (put_out fd l) ;; ret n
  | r :: w =>
      modify (set_u_wres w) ;;
      if r <? 0 then ret (-1) else
      let k := Z.min r n in
      modify (put_out fd (take (Z.to_nat k) l)) ;; ret k
  end.

Definition write (fd a n : Z) : U Z :=
  l <- lift (load_bytes (Z.to_nat n) a) ;;
  write_bytes fd l.

Lemma lift_done {A} (f : M mem A) a m' s : f (u_mem s) = Done a m' -> lift f s = Done a (set_u_mem m' s).
Proof. unfold lift. by intros ->. Qed.

Lemma set_u_mem_id s : set_u_mem (u_mem s) s = s.
Proof. by destruct s. Qed.

Lemma load_bytes_eq m a l : bytes_at m a l -> load_bytes (length l) a m = Done l m.
Proof.
  revert a. induction l as [|c l IH]; intros a H; [done|]. apply bytes_at_cons in H as [Hc H].
  cbn [length load_bytes]. mstep ld_eq; [|done]. mstep (IH (a + 1)); [|done]. done.
Qed.

Lemma store_eq m a l :
  valid m a (Z.of_nat (length l)) ->
  exists m', store a l m = Done tt m' /\ bytes_at m' a l /\
    (forall x, ~ a <= x < a + Z.of_nat (length l) -> m' !! x = m !! x).
Proof.
  revert a m. induction l as [|c l IH]; intros a m Hv.
  { exists m. split_and!; [done|by intros i x|done]. }
  cbn [length] in *. cbn [store]. mstep st_eq; [|apply Hv; lia].
  destruct (IH (a + 1) (<[a := c]> m)) as (m' & E & Hb & Hf).
  { apply valid_insert. apply (valid_le _ _ _ _ _ Hv); lia. }
  exists m'. split_and!; [done| |].
  - apply bytes_at_cons. split; [|done]. by rewrite Hf, lookup_insert_eq by lia.
  - intros x Hx. rewrite Hf by lia. by rewrite lookup_insert_ne by lia.
Qed.

Lemma write_bytes_eq s fd l :
  u_wres s = [] -> write_bytes fd l s = Done (Z.of_nat (length l)) (put_out fd l s).
Proof. intros Hw. unfold write_bytes. msimp. by rewrite Hw. Qed.

Lemma write_eq s fd a l :
  bytes_at (u_mem s) a l -> u_wres s = [] ->
  write fd a (Z.of_nat (length l)) s = Done (Z.of_nat (length l)) (put_out fd l s).
Proof.
  intros Hb Hw. unfold write. rewrite Nat2Z.id.
  mstep lift_done; [|by apply load_bytes_eq]. rewrite set_u_mem_id. by apply write_bytes_eq.
Qed.

(** The memory changed at most in [n] bytes from [a], and is as large. *)
Definition only_in (a n : Z) (m m' : mem) : Prop :=
  (forall x, ~ a <= x < a + n -> m' !! x = m !! x) /\ (forall x, is_Some (m !! x) -> is_Some (m' !! x)).

Lemma only_in_refl a n m : only_in a n m m.
Proof. by split. Qed.

Lemma only_in_trans a n b k m1 m2 m3 :
  only_in b k m1 m2 -> only_in a n m2 m3 -> a <= b -> b + k <= a + n -> only_in a n m1 m3.
Proof. intros [H1 H2] [H3 H4] ??. split; [|by auto]. intros x Hx. rewrite H3, H1 by lia. done. Qed.

Lemma only_in_widen a n b k m m' : only_in b k m m' -> a <= b -> b + k <= a + n -> only_in a n m m'.
Proof. intros H ??. eapply only_in_trans; [exact H|apply only_in_refl|lia..]. Qed.

Lemma only_in_insert a n m x v : a <= x < a + n -> only_in a n m (<[x := v]> m).
Proof.
  intros Hx. split; [intros y Hy; by rewrite lookup_insert_ne by lia|].
  intros y Hy. apply lookup_insert_is_Some'. by right.
Qed.

Lemma only_in_cstring a n m m' p l :
  only_in a n m m' -> cstring m p l -> p + Z.of_nat (length l) < a \/ a + n <= p -> cstring m' p l.
Proof. intros [H _] Hl Hd. apply (cstring_same m); [done|]. intros x Hx. apply H. lia. Qed.

(** A read that the next piece answers. *)
Lemma read_next s fd a n ps x ps' :
  u_in s !! fd = Some ps -> next_piece (Z.to_nat n) ps = (Some x, ps') -> Z.of_nat (length x) <= n ->
  valid (u_mem s) a n ->
  exists m', read fd a n s =
      Done (Z.of_nat (length x)) (set_u_mem m' (set_u_in (<[fd := ps']> (u_in s)) s)) /\
    bytes_at m' a x /\ only_in a n (u_mem s) m'.
Proof.
  intros Hfd E Hl Hv. destruct (store_eq (u_mem s) a x) as (m' & E' & Hb & Ho); [apply (valid_le _ _ _ _ _ Hv); lia|].
  exists m'. split_and!; [|done|].
  - unfold read. msimp. rewrite Hfd, E. msimp. by mstep lift_done; [|exact E'].
  - split; [intros y Hy; apply Ho; lia|]. intros y Hy.
    destruct (within_spec a (Z.of_nat (length x)) y); [by eapply bytes_at_valid|by rewrite Ho].
Qed.

Lemma memset_eq m dst c n :
  valid m dst (Z.of_nat n) ->
  exists m', memset dst c (Z.of_nat n) m = Done dst m' /\
    forall x, m' !! x = if within dst (Z.of_nat n) x then Some (u8 c) else m !! x.
Proof.
  intros Hv. destruct (stosb_spec n dst c m Hv) as (m' & E & H). exists m'. split; [|done].
  unfold memset. rewrite Nat2Z.id. by mstep E.
Qed.

Lemma memmove_eq m dst src n :
  valid m dst (Z.of_nat n) -> valid m src (Z.of_nat n) -> dst <= src \/ src + Z.of_nat n <= dst ->
  exists m', memmove dst src (Z.of_nat n) m = Done dst m' /\
    forall x, m' !! x = if within dst (Z.of_nat n) x then m !! (src + (x - dst)) else m !! x.
Proof.
  intros Hd Hs Ho. destruct (move_up_spec n dst src m Hd Hs Ho) as (m' & E & H). exists m'. split; [|done].
  unfold memmove. rewrite Nat2Z.id. by mstep E.
Qed.

(** Moving bytes down, as programs do with the rest of a buffer. *)
Lemma memmove_down m d s l :
  bytes_at m s l -> valid m d (Z.of_nat (length l)) -> d <= s ->
  exists m', memmove d s (Z.of_nat (length l)) m = Done d m' /\ bytes_at m' d l /\
    only_in d (Z.of_nat (length l)) m m'.
Proof.
  intros Hl Hv Hds. destruct (memmove_eq m d s (length l) Hv (bytes_at_valid _ _ _ Hl)) as (m' & E & H); [by left|].
  exists m'. split_and!; [done| |split].
  - intros i c Hc. pose proof (lookup_lt_Some _ _ _ Hc). rewrite H.
    destruct (within_spec d (Z.of_nat (length l)) (d + Z.of_nat i)); [|lia].
    rewrite <- (Hl _ _ Hc). f_equal. lia.
  - intros x Hx. rewrite H. by destruct (within_spec d (Z.of_nat (length l)) x).
  - intros x Hx. rewrite H. destruct (within_spec d (Z.of_nat (length l)) x); [|done].
    apply (bytes_at_valid _ _ _ Hl). lia.
Qed.

(** Reading a descriptor that never fails, in whatever pieces it comes. *)
Definition flowing (ps : list piece) : Prop := Forall (fun p => exists l, p = Data l /\ l <> []) ps.
Definition contents (ps : list piece) : list Z :=
  concat ((fun p => match p with Data l => l | ReadError => [] end) <$> ps).

Lemma read_flowing s fd a n ps :
  u_in s !! fd = Some ps -> flowing ps -> 0 < n -> valid (u_mem s) a n ->
  exists x m' ps', read fd a n s =
      Done (Z.of_nat (length x)) (set_u_mem m' (set_u_in (<[fd := ps']> (u_in s)) s)) /\
    contents ps = x ++ contents ps' /\ flowing ps' /\
    (x = [] -> contents ps = []) /\ Z.of_nat (length x) <= n /\
    (x <> [] -> reads_left ps' < reads_left ps)%nat /\
    bytes_at m' a x /\ only_in a n (u_mem s) m'.
Proof.
  intros Hfd Hf Hn Hv.
  assert (exists x ps', next_piece (Z.to_nat n) ps = (Some x, ps') /\ contents ps = x ++ contents ps' /\ flowing ps' /\
    (x = [] -> contents ps = []) /\ Z.of_nat (length x) <= n /\ (x <> [] -> reads_left ps' < reads_left ps)%nat)
    as (x & ps' & E & Hc & Hf' & Hx & Hl & Hr).
  { destruct Hf as [|p ps0 (l & -> & Hl) Hf]; [exists [], []; split_and!; try done; [constructor|cbn; lia]|]. cbn [next_piece].
    exists (take (Z.to_nat n) l). destruct (Nat.leb_spec (length l) (Z.to_nat n)).
    - exists ps0. rewrite take_ge by lia. split_and!; [done|done|done|done|lia|]. intros _. unfold reads_left. cbn. lia.
    - exists (Data (drop (Z.to_nat n) l) :: ps0). unfold contents. cbn.
      rewrite app_assoc, take_drop. split_and!; [done|done| | | |].
      + constructor; [|done]. exists (drop (Z.to_nat n) l). split; [done|].
        intros E%(f_equal length). rewrite length_drop in E. cbn in E. lia.
      + intros E%(f_equal length). rewrite length_take in E. cbn in E. lia.
      + rewrite length_take. lia.
      + intros _. unfold reads_left. cbn. rewrite length_drop. lia. }
  destruct (read_next s fd a n ps x ps' Hfd E Hl Hv) as (m' & E' & Hb & Ho). by exists x, m', ps'.
Qed.

(** Opening a file that is there, with a descriptor to spare, and closing it. *)
Lemma free_fd_free t fd : free_fd t = Some fd -> t !! fd = None /\ 0 <= fd < Z.of_nat NOFILE.
Proof.
  intros H%head_Some_elem_of. apply list_elem_of_filter in H as [? H%elem_of_seqZ]. split; [done|lia].
Qed.

Lemma open_eq s name ps fd :
  u_open s name = Some ps -> free_fd (u_in s) = Some fd ->
  open name s = Done fd (set_u_in (<[fd := ps]> (u_in s)) s).
Proof. intros Ho Hf. unfold open. msimp. by rewrite Ho, Hf. Qed.
