(* ===== verification/Printf.v ===== *)
(** * Formatted output of user programs: [user/lib/printf.c]

    A character is written with a system call of its own.  The arguments are
    machine registers or strings; a format that asks for an argument that is
    not there reads garbage, which is a fault here. *)

From S2P Require Import Prelude Strings Ulib.

(** ** The code *)

(** The characters of a string literal. *)
Definition str (s : string) : list Z :=
  (fun a => Z.of_N (Ascii.N_of_ascii a)) <$> String.list_ascii_of_string s.

Definition putc (fd c : Z) : U unit :=
  write_bytes fd [c] ;;
  ret tt.

Fixpoint puts (fd : Z) (l : list Z) : U unit :=
  match l with
  | [] => ret tt
  | c :: l => putc fd c ;; puts fd l
  end.

Definition lower (d : Z) : Z := if d <? 10 then 48 + d else 87 + d.
Definition upper (d : Z) : Z := if d <? 10 then 48 + d else 55 + d.

(** [do buf[i++] = digits[x % base]; while ((x /= base) != 0);], the digits from
    the last to the first. *)
Fixpoint digits_loop (fuel : nat) (digit : Z -> Z) (base x : Z) : list Z :=
  match fuel with
  | O => []
  | S fuel => digit (x mod base) :: (if x / base =? 0 then [] else digits_loop fuel digit base (x / base))
  end.

(** The parameter of [printint64] is an [int]. *)
Definition printint64 (fd xx base : Z) (sgn : bool) : U unit :=
  let xx := i32 xx in
  let neg := sgn && (xx <? 0) in
  x <- (if neg then int_result (- xx) else ret xx) ;;
  puts fd (reverse (digits_loop 64 lower base (u64 x) ++ if neg then [45] else [])).

Definition printint (fd xx base : Z) (sgn : bool) : U unit :=
  let neg := sgn && (xx <? 0) in
  x <- (if neg then int_result (- xx) else ret xx) ;;
  puts fd (reverse (digits_loop 32 upper base (u32 x) ++ if neg then [45] else [])).

(** A variable argument: a register, or a string (none for a null pointer). *)
Inductive arg := AInt (z : Z) | AStr (o : option (list Z)).

(** [va_arg(valist, int)] and [va_arg(valist, int64_t)]. *)
Definition arg_int (args : list arg) : U (Z * list arg) :=
  match args with AInt z :: args => ret (i32 z, args) | _ => fault "va_arg" end.
Definition arg_int64 (args : list arg) : U (Z * list arg) :=
  match args with AInt z :: args => ret (i64 z, args) | _ => fault "va_arg" end.

Definition null_text : list Z := [40; 110; 117; 108; 108; 41].

(** The state of the loop: outside a conversion, or in one with its [lflag]. *)
Fixpoint printf_loop (fd : Z) (fmt : list Z) (state : option bool) (args : list arg) : U unit :=
  match fmt with
  | [] => ret tt
  | c :: fmt =>
      match state with
      | None =>
          if c =? 37 then printf_loop fd fmt (Some false) args
          else putc fd c ;; printf_loop fd fmt None args
      | Some lflag =>
          if c =? 108 then printf_loop fd fmt (Some true) args else
          if c =? 100 then
            let* (z, args) := (if lflag then arg_int64 args else arg_int args) in
            (if lflag then printint64 fd z 10 true else printint fd z 10 true) ;;
            printf_loop fd fmt None args
          else if (c =? 120) || (c =? 112) then
            let* (z, args) := (if lflag then arg_int64 args else arg_int args) in
            (if lflag then printint64 fd z 16 false else printint fd z 16 false) ;;
            printf_loop fd fmt None args
          else if c =? 115 then
            match args with
            | AStr o :: args => puts fd (default null_text o) ;; printf_loop fd fmt None args
            | _ => fault "va_arg"
            end
          else if c =? 37 then putc fd c ;; printf_loop fd fmt None args
          else putc fd 37 ;; putc fd c ;; printf_loop fd fmt None args
      end
  end.

Definition printf (fd : Z) (fmt : list Z) (args : list arg) : U unit :=
  printf_loop fd fmt None args.

(** ** What is printed *)

(** The bytes written to a descriptor. *)
Definition sent (fd : Z) (s : ustate) : list Z :=
  concat (snd <$> filter (fun w => w.1 = fd) (u_out s)).

(** Some bytes have been written, one at a time. *)
Definition sends (fd : Z) (l : list Z) (s : ustate) : ustate :=
  mk_ustate (u_mem s) (u_in s) (u_wres s) (u_out s ++ ((fun c => (fd, [c])) <$> l)) (u_open s).

Lemma sent_sends fd l s : sent fd (sends fd l s) = sent fd s ++ l.
Proof.
  unfold sent, sends. cbn [u_out]. rewrite filter_app, fmap_app, concat_app. f_equal.
  induction l as [|c l IH]; [done|]. cbn [fmap list_fmap]. by rewrite filter_cons_True by done; cbn; f_equal.
Qed.

Lemma sends_sends fd a b s : sends fd b (sends fd a s) = sends fd (a ++ b) s.
Proof. unfold sends. cbn. by rewrite fmap_app, app_assoc. Qed.

Lemma sends_nil fd s : sends fd [] s = s.
Proof. unfold sends. rewrite fmap_nil, app_nil_r. by destruct s. Qed.

Lemma putc_eq fd c s : u_wres s = [] -> putc fd c s = Done tt (sends fd [c] s).
Proof. intros Hw. unfold putc. by mstep (write_bytes_eq s fd [c] Hw). Qed.

Lemma puts_eq fd l s : u_wres s = [] -> puts fd l s = Done tt (sends fd l s).
Proof.
  revert s. induction l as [|c l IH]; intros s Hw; [by rewrite sends_nil|].
  cbn [puts]. mstep (putc_eq fd c s Hw). by rewrite IH, sends_sends.
Qed.

(** A format without conversions is written as it is. *)
Lemma printf_plain fd fmt args s :
  Forall (fun c => c <> 37) fmt -> u_wres s = [] -> printf fd fmt args s = Done tt (sends fd fmt s).
Proof.
  intros Hf. revert s. unfold printf. induction Hf as [|c fmt Hc _ IH]; intros s Hw; [by rewrite sends_nil|].
  cbn [printf_loop]. destruct (Z.eqb_spec c 37); [done|]. mstep (putc_eq fd c s Hw). by rewrite IH, sends_sends.
Qed.

(** The number that decimal digits spell, after [n]. *)
Definition dec (n : Z) (l : list Z) : Z := fold_left (fun n c => n * 10 + c - 48) l n.

Lemma dec_app n l k : dec n (l ++ k) = dec (dec n l) k.
Proof. apply fold_left_app. Qed.

Lemma dec_digits fuel x : 0 <= x < 10 ^ Z.of_nat fuel -> dec 0 (reverse (digits_loop fuel upper 10 x)) = x.
Proof.
  revert x. induction fuel as [|fuel IH]; intros x Hx; [cbn in *; lia|].
  rewrite Nat2Z.inj_succ, Z.pow_succ_r in Hx by lia. cbn [digits_loop]. rewrite reverse_cons, dec_app.
  assert (Hd : dec 0 (reverse (if x / 10 =? 0 then [] else digits_loop fuel upper 10 (x / 10))) = x / 10).
  { destruct (Z.eqb_spec (x / 10) 0) as [->|]; [done|]. apply IH. dlia. }
  rewrite Hd. cbn. unfold upper. destruct (Z.ltb_spec (x mod 10) 10); dlia.
Qed.

Definition is_digit (c : Z) : Prop := 48 <= c <= 57.

Lemma digits_digits fuel x : 0 <= x -> Forall is_digit (digits_loop fuel upper 10 x).
Proof.
  revert x. induction fuel as [|fuel IH]; intros x Hx; [constructor|]. cbn [digits_loop]. constructor.
  - unfold is_digit, upper. destruct (Z.ltb_spec (x mod 10) 10); dlia.
  - destruct (x / 10 =? 0); [constructor|]. apply IH. dlia.
Qed.

Lemma digits_length fuel x n :
  0 <= x < 10 ^ Z.of_nat (S n) -> (length (digits_loop fuel upper 10 x) <= S n)%nat.
Proof.
  revert x n. induction fuel as [|fuel IH]; intros x n Hx; cbn [digits_loop length]; [lia|].
  destruct (Z.eqb_spec (x / 10) 0); [cbn; lia|]. destruct n as [|n].
  - exfalso. apply n0. apply Z.div_small. cbn in *. lia.
  - rewrite (Nat2Z.inj_succ (S n)), Z.pow_succ_r in Hx by lia. apply le_n_S, IH. dlia.
Qed.

Lemma dec_ge n l : 0 <= n -> Forall is_digit l -> n <= dec n l.
Proof.
  revert n. induction l as [|c l IH]; intros n Hn Hl; [cbn; lia|]. inv Hl. unfold is_digit in *.
  cbn [dec fold_left]. etransitivity; [|apply IH; [lia|done]]. lia.
Qed.

(** [atoi] reads the digits of a string up to its end. *)
Lemma atoi_loop_dec fuel m a l n :
  cstring m a l -> Forall is_digit l -> 0 <= n -> dec n l < 2 ^ 31 - 48 -> (length l < fuel)%nat ->
  atoi_loop fuel a n m = Done (dec n l) m.
Proof.
  revert a l n. induction fuel as [|fuel IH]; intros a l n Hc Hl Hn Hd Hf; [lia|]. cbn [atoi_loop].
  destruct l as [|c l]; rewrite ?cstring_nil, ?cstring_cons in Hc.
  { by mstep ld_eq; [|eassumption]. }
  destruct Hc as (Hx & _ & Hc). inv Hl. unfold is_digit in *. mstep ld_eq; [|eassumption].
  destruct (Z.leb_spec 48 c), (Z.leb_spec c 57); try lia. cbn [andb].
  assert (Hge : n * 10 + c - 48 <= dec n (c :: l)) by (apply (dec_ge (n * 10 + c - 48)); [lia|done]).
  do 3 (mstep int_result_eq; [|lia]).
  apply (IH (a + 1) l); [done|done|lia|done|cbn in Hf; lia].
Qed.

Lemma printint_nonneg fd x s :
  u_wres s = [] -> 0 <= x < 2 ^ 31 ->
  printint fd x 10 true s = Done tt (sends fd (reverse (digits_loop 32 upper 10 x)) s).
Proof.
  intros Hw Hx. unfold printint. destruct (Z.ltb_spec x 0); [lia|]. cbn [andb].
  msimp. rewrite u32_small, app_nil_r by lia. by apply puts_eq.
Qed.

(** ** Properties *)

(** [printf] and [atoi] are inverse on decimal numbers.  If every write is
    accepted, printing a nonnegative number with [%d] returns and sends at most
    ten digits; wherever these lie in memory as a string, [atoi] reads the same
    number back.  The last 48 numbers below 2^31 are excluded: [atoi] adds the
    digit's character code before it subtracts the code of 0, which overflows
    there. *)
Theorem printf_atoi_roundtrip (s : ustate) (fd x : Z) (Hw : u_wres s = []) (Hx : 0 <= x < 2 ^ 31 - 48) :
  exists l s', printf fd [37; 100] [AInt x] s = Done tt s' /\ sent fd s' = sent fd s ++ l /\
    (length l <= 10)%nat /\ forall m a, cstring m a l -> atoi a m = Done x m.
Proof.
  set (l := reverse (digits_loop 32 upper 10 x)). exists l, (sends fd l s).
  assert (Hdig : Forall is_digit l) by (apply Forall_reverse, digits_digits; lia).
  assert (Hdec : dec 0 l = x) by (apply dec_digits; cbn; lia).
  split_and!.
  - unfold printf. cbn [printf_loop]. cbn [Z.eqb Pos.eqb]. unfold arg_int. msimp.
    rewrite (i32_small x) by lia. mstep printint_nonneg; [done|done|lia].
  - apply sent_sends.
  - unfold l. rewrite length_reverse. apply digits_length. cbn. lia.
  - intros m a Hm. unfold atoi. msimp. pose proof (cstring_size _ _ _ Hm).
    rewrite <- Hdec. apply atoi_loop_dec; [done|done|lia|lia|lia].
Qed.

Lemma printf_atoi_roundtrip_witness :
  exists l s', printf 1 [37; 100] [AInt 480] (mk_ustate ∅ ∅ [] [] (fun _ => None)) = Done tt s' /\ sent 1 s' = l.
Proof.
  destruct (printf_atoi_roundtrip (mk_ustate ∅ ∅ [] [] (fun _ => None)) 1 480) as (l & s' & E & H & _);
    [reflexivity|lia|]. by exists l, s'.
Defined.

(** [%ld] prints only the low 32 bits of its argument, because
    [printint64] takes an [int]: numbers that agree modulo 2^32 print alike,
    and 2^32 prints as 0. *)
Theorem printf_ld_truncates (fd x y : Z) (s : ustate) :
  (x mod 2 ^ 32 = y mod 2 ^ 32 -> printf fd [37; 108; 100] [AInt x] s = printf fd [37; 108; 100] [AInt y] s) /\
  (u_wres s = [] -> exists s', printf fd [37; 108; 100] [AInt (2 ^ 32)] s = Done tt s' /\ sent fd s' = sent fd s ++ [48]).
Proof.
  assert (E : forall z, printf fd [37; 108; 100] [AInt z] s = (printint64 fd (i32 z) 10 true ;; ret tt) s).
  { intros z. unfold printf. cbn [printf_loop]. cbn [Z.eqb Pos.eqb]. unfold arg_int64. msimp.
    unfold printint64. by replace (i32 (i64 z)) with (i32 (i32 z)) by word. }
  split.
  { intros Hxy. rewrite !E. replace (i32 x) with (i32 y); [done|].
    unfold i32. by rewrite <- (Zplus_mod_idemp_l x), Hxy, Zplus_mod_idemp_l. }
  intros Hw. exists (sends fd [48] s). split; [|apply sent_sends].
  rewrite E. change (printint64 fd (i32 (2 ^ 32)) 10 true) with (ret 0 ;; puts fd [48]).
  msimp. by mstep puts_eq.
Qed.

Lemma printf_ld_truncates_witness :
  let s := mk_ustate ∅ ∅ [] [] (fun _ => None) in
  printf 1 [37; 108; 100] [AInt (2 ^ 32 + 7)] s = printf 1 [37; 108; 100] [AInt 7] s /\
  exists s', printf 1 [37; 108; 100] [AInt (2 ^ 32)] s = Done tt s' /\ sent 1 s' = sent 1 s ++ [48].
Proof.
  intros s. split; [apply (printf_ld_truncates 1 (2 ^ 32 + 7) 7 s); reflexivity|].
  apply (printf_ld_truncates 1 0 0 s); reflexivity.
Defined.
