(* ===== verification/Grep.v ===== *)
(** * grep: [user/grep.c]

    [match], [matchhere] and [matchstar] over C strings in memory, what they
    compute on lists, and the language a pattern denotes; and the loop that
    reads a descriptor through a buffer of 1024 bytes and prints the lines that
    match. *)

From S2P Require Import Prelude Strings Ulib.

(** ** The code *)

(** A call descends one character of the pattern or of the text, so the fuel is
    the depth of the recursion. *)
Fixpoint matchhere (fuel : nat) (re text : Z) : M mem bool :=
  match fuel with
  | O => diverge
  | S fuel =>
      c <- ld re ;;
      if c =? 0 then ret true else
      d <- ld (re + 1) ;;
      if d =? 42 then matchstar fuel c (re + 2) text else
      if (c =? 36) && (d =? 0) then x <- ld text ;; ret (x =? 0) else
      x <- ld text ;;
      if truthy x && ((c =? 46) || (c =? x)) then matchhere fuel (re + 1) (text + 1)
      else ret false
  end
with matchstar (fuel : nat) (c re text : Z) : M mem bool :=
  match fuel with
  | O => diverge
  | S fuel =>
      b <- matchhere fuel re text ;;
      if (b : bool) then ret true else
      x <- ld text ;;
      if truthy x && ((x =? c) || (c =? 46)) then matchstar fuel c re (text + 1)
      else ret false
  end.

(** The [do ... while] of [match]: every suffix of the text, the empty one
    included. *)
Fixpoint match_loop (fuel n : nat) (re text : Z) : M mem bool :=
  match n with
  | O => diverge
  | S n =>
      b <- matchhere fuel re text ;;
      if (b : bool) then ret true else
      x <- ld text ;;
      if x =? 0 then ret false else match_loop fuel n re (text + 1)
  end.

Definition match_ (re text : Z) : M mem bool :=
  sz <- gets (fun m : mem => size m) ;;
  c <- ld re ;;
  if c =? 94 then matchhere (2 * sz) (re + 1) text
  else match_loop (2 * sz) (S sz) re text.

(** ** The program *)

Section program.
Variable buf : Z.

(** The loop over the complete lines of the buffer; it gives back [p]. *)
Fixpoint grep_lines (fuel : nat) (pattern p : Z) : U Z :=
  match fuel with
  | O => diverge
  | S fuel =>
      q <- lift (strchr p 10) ;;
      if q =? 0 then ret p else
      lift (st q 0) ;;
      b <- lift (match_ pattern p) ;;
      (if (b : bool) then lift (st q 10) ;; write 1 p (q + 1 - p) ;; ret tt else ret tt) ;;
      grep_lines fuel pattern (q + 1)
  end.

(** [while ((n = read(fd, buf + m, sizeof(buf) - m - 1)) > 0)]. *)
Fixpoint grep_loop (fuel : nat) (pattern fd m : Z) : U unit :=
  match fuel with
  | O => diverge
  | S fuel =>
      n <- read fd (buf + m) (1024 - m - 1) ;;
      if n <=? 0 then ret tt else
      let m := m + n in
      lift (st (buf + m) 0) ;;
      p <- grep_lines 1024 pattern buf ;;
      let m := if p =? buf then 0 else m in
      if 0 <? m then
        let m := m - (p - buf) in
        lift (memmove buf p m) ;;
        grep_loop fuel pattern fd m
      else grep_loop fuel pattern fd m
  end.

Definition grep (pattern fd : Z) : U unit :=
  ps <- gets (fun s => default [] (u_in s !! fd)) ;;
  grep_loop (S (reads_left ps)) pattern fd 0.
End program.

(** ** On lists *)

(** [c*re] at the beginning of the text, given what [re] matches. *)
Fixpoint star_list (here : list Z -> bool) (c : Z) (text : list Z) : bool :=
  here text ||
  match text with
  | x :: text => ((x =? c) || (c =? 46)) && star_list here c text
  | [] => false
  end.

Fixpoint here_list (re text : list Z) : bool :=
  match re with
  | [] => true
  | c :: re1 =>
      let plain :=
        match text with
        | x :: text => ((c =? 46) || (c =? x)) && here_list re1 text
        | [] => false
        end in
      match re1 with
      | [] => if c =? 36 then bool_decide (text = []) else plain
      | d :: re2 => if d =? 42 then star_list (here_list re2) c text else plain
      end
  end.

Fixpoint any_suffix (f : list Z -> bool) (text : list Z) : bool :=
  f text || match text with _ :: text => any_suffix f text | [] => false end.

Definition match_list (re text : list Z) : bool :=
  match re with
  | c :: re1 => if c =? 94 then here_list re1 text else any_suffix (here_list re) text
  | [] => any_suffix (here_list []) text
  end.

(** ** What a pattern means *)

Inductive item := One (c : Z) | Many (c : Z).

(** A pattern without its [^]: its items, and whether it ends in [$]. *)
Fixpoint parse (re : list Z) : list item * bool :=
  match re with
  | [] => ([], false)
  | c :: re1 =>
      let plain := let '(l, e) := parse re1 in (One c :: l, e) in
      match re1 with
      | [] => if c =? 36 then ([], true) else plain
      | d :: re2 => if d =? 42 then let '(l, e) := parse re2 in (Many c :: l, e) else plain
      end
  end.

(** The characters that [c] stands for. *)
Definition fits (c x : Z) : Prop := c = 46 \/ c = x.

(** The texts that a list of items denotes. *)
Inductive lang : list item -> list Z -> Prop :=
| lang_nil : lang [] []
| lang_one c x l t : fits c x -> lang l t -> lang (One c :: l) (x :: t)
| lang_many c u l t : Forall (fits c) u -> lang l t -> lang (Many c :: l) (u ++ t).

(** The text contains a string of the pattern's language, at the places its
    anchors ask for. *)
Definition matches (re text : list Z) : Prop :=
  let start := bool_decide (hd 0 re = 94) in
  let '(l, e) := parse (if start then tl re else re) in
  exists a b c, text = a ++ b ++ c /\ lang l b /\ (start = true -> a = []) /\ (e = true -> c = []).

(** ** The code computes the list functions *)

Lemma matchhere_matchstar_list m fuel :
  (forall re text lre lt, cstring m re lre -> cstring m text lt -> (length lre + length lt < fuel)%nat ->
     matchhere fuel re text m = Done (here_list lre lt) m) /\
  (forall c re text lre lt, cstring m re lre -> cstring m text lt -> (S (length lre + length lt) < fuel)%nat ->
     matchstar fuel c re text m = Done (star_list (here_list lre) c lt) m).
Proof.
  induction fuel as [|fuel [IHh IHs]]; [split; intros; lia|]. split.
  - intros re text lre lt Hre Ht Hf. cbn [matchhere].
    destruct lre as [|c re1]; rewrite ?cstring_nil, ?cstring_cons in Hre.
    { by mstep ld_eq; [|eassumption]. }
    destruct Hre as (Hc & Hc0 & Hre). mstep ld_eq; [|eassumption].
    destruct (Z.eqb_spec c 0); [done|]. cbn in Hf.
    assert (Hplain : (x <- ld text ;;
        if truthy x && ((c =? 46) || (c =? x)) then matchhere fuel (re + 1) (text + 1) else ret false) m =
      Done (match lt with x :: lt => ((c =? 46) || (c =? x)) && here_list re1 lt | [] => false end) m).
    { destruct lt as [|x lt]; rewrite ?cstring_nil, ?cstring_cons in Ht.
      - by mstep ld_eq; [|eassumption].
      - destruct Ht as (Hx & Hx0 & Ht). mstep ld_eq; [|eassumption].
        unfold truthy. destruct (Z.eqb_spec x 0); [done|]. cbn [negb andb].
        destruct (_ || _); cbn [andb]; [|done]. apply IHh; [done..|cbn in Hf; lia]. }
    destruct re1 as [|d re2]; rewrite ?cstring_nil, ?cstring_cons in Hre; cbn [here_list].
    + mstep ld_eq; [|eassumption]. cbn [Z.eqb]. rewrite andb_true_r.
      destruct (c =? 36) eqn:E; [|done].
      destruct lt as [|x lt]; rewrite ?cstring_nil, ?cstring_cons in Ht.
      * by mstep ld_eq; [|eassumption].
      * destruct Ht as (Hx & Hx0 & Ht). mstep ld_eq; [|eassumption]. by destruct (Z.eqb_spec x 0).
    + destruct Hre as (Hd & Hd0 & Hre). mstep ld_eq; [|eassumption].
      destruct (Z.eqb_spec d 42).
      * replace (re + 2) with (re + 1 + 1) by lia. apply IHs; [done..|cbn in Hf; lia].
      * destruct (Z.eqb_spec d 0); [done|]. by rewrite andb_false_r.
  - intros c re text lre lt Hre Ht Hf. cbn [matchstar]. mstep (IHh re text lre lt); [|done|done|lia].
    destruct lt as [|x lt]; cbn [star_list]; (destruct (here_list lre _); [done|]);
      rewrite ?cstring_nil, ?cstring_cons in Ht.
    + by mstep ld_eq; [|eassumption].
    + destruct Ht as (Hx & Hx0 & Ht). mstep ld_eq; [|eassumption].
      unfold truthy. destruct (Z.eqb_spec x 0); [done|]. cbn [negb andb orb].
      destruct (_ || _); cbn [andb]; [|done]. apply IHs; [done..|cbn in Hf; lia].
Qed.

Lemma match_loop_list m fuel n re text lre lt :
  cstring m re lre -> cstring m text lt -> (length lre + length lt < fuel)%nat -> (length lt < n)%nat ->
  match_loop fuel n re text m = Done (any_suffix (here_list lre) lt) m.
Proof.
  intros Hre. revert text lt. induction n as [|n IH]; intros text lt Ht Hf Hn; [lia|]. cbn [match_loop].
  mstep (proj1 (matchhere_matchstar_list m fuel) re text lre lt); [|done..].
  destruct lt as [|x lt]; cbn [any_suffix]; (destruct (here_list lre _); [done|]);
    rewrite ?cstring_nil, ?cstring_cons in Ht.
  - by mstep ld_eq; [|eassumption].
  - destruct Ht as (Hx & Hx0 & Ht). mstep ld_eq; [|eassumption]. destruct (Z.eqb_spec x 0); [done|].
    cbn in Hf, Hn. apply IH; [done|lia..].
Qed.

Lemma match_list_eq m re text lre lt :
  cstring m re lre -> cstring m text lt -> match_ re text m = Done (match_list lre lt) m.
Proof.
  intros Hre Ht. pose proof (cstring_size _ _ _ Hre). pose proof (cstring_size _ _ _ Ht).
  unfold match_. msimp. destruct lre as [|c re1].
  - mstep ld_eq; [|by apply cstring_nil]. by apply match_loop_list; [..|lia|lia].
  - pose proof Hre as (Hc & _ & Hre1)%cstring_cons. mstep ld_eq; [|exact Hc]. cbn [match_list].
    destruct (c =? 94); [|by apply match_loop_list; [..|lia|lia]].
    apply (proj1 (matchhere_matchstar_list m _)); [done..|cbn in *; lia].
Qed.

(** ** The list functions decide the language *)

Lemma star_list_spec here c text :
  star_list here c text = true <-> exists u t, text = u ++ t /\ Forall (fits c) u /\ here t = true.
Proof.
  induction text as [|x text IH]; cbn.
  - rewrite orb_false_r. split; [by exists [], []|]. by intros ([] & [] & ? & _ & ?).
  - rewrite orb_true_iff, andb_true_iff, orb_true_iff, !Z.eqb_eq, IH. split.
    + intros [H|(Hx & u & t & -> & Hu & H)]; [by exists [], (x :: text)|].
      exists (x :: u), t. split_and!; try done. constructor; [unfold fits; naive_solver|done].
    + intros ([|y u] & t & E & Hu & H); simplify_eq/=; [by left|right].
      inv Hu. unfold fits in *. split; [naive_solver|]. by exists u, t.
Qed.

(** [here_list] finds a string of the language at the front of the text. *)
Definition found (re text : list Z) : Prop :=
  exists b c, text = b ++ c /\ lang (parse re).1 b /\ ((parse re).2 = true -> c = []).

Lemma parse_plain c d re :
  d <> 42 -> parse (c :: d :: re) = (One c :: (parse (d :: re)).1, (parse (d :: re)).2).
Proof.
  intros Hd. change (parse (c :: d :: re)) with
    (if d =? 42 then let '(l, e) := parse re in (Many c :: l, e)
     else let '(l, e) := parse (d :: re) in (One c :: l, e)).
  destruct (Z.eqb_spec d 42); [done|]. by destruct (parse (d :: re)).
Qed.

Lemma found_one c re text :
  (parse (c :: re)) = (One c :: (parse re).1, (parse re).2) ->
  found (c :: re) text <-> exists x t, text = x :: t /\ fits c x /\ found re t.
Proof.
  intros E. unfold found. rewrite E. cbn. split.
  - intros (b & r & -> & Hb & He). inv Hb. cbn. naive_solver.
  - intros (x & t & -> & Hx & b & r & -> & Hb & He). exists (x :: b), r. split_and!; try done. by constructor.
Qed.

Lemma here_list_spec re text : here_list re text = true <-> found re text.
Proof.
  remember (length re) as n eqn:Hn. revert re text Hn.
  induction (lt_wf n) as [n _ IH]; intros [|c re1] text ->.
  { split; [|done]. intros _. exists [], text. split_and!; [done|constructor|done]. }
  assert (Hplain : parse (c :: re1) = (One c :: (parse re1).1, (parse re1).2) ->
    match text with x :: t => ((c =? 46) || (c =? x)) && here_list re1 t | [] => false end = true <->
    found (c :: re1) text).
  { intros E. rewrite (found_one _ _ _ E). destruct text as [|x t]; [naive_solver|].
    rewrite andb_true_iff, orb_true_iff, !Z.eqb_eq, (IH (length re1)) by (done || (cbn; lia)).
    unfold fits. naive_solver. }
  destruct re1 as [|d re2]; cbn [here_list].
  - destruct (Z.eqb_spec c 36) as [->|Hc].
    + rewrite bool_decide_eq_true. unfold found. cbn. split; [intros ->|].
      * exists [], []. split_and!; [done|constructor|done].
      * intros (b & r & -> & Hb & ->); [|done]. by inv Hb.
    + apply Hplain. cbn. by destruct (Z.eqb_spec c 36).
  - destruct (Z.eqb_spec d 42) as [->|Hd].
    + rewrite star_list_spec. unfold found at 1. cbn [parse]. cbn [Z.eqb].
      destruct (parse re2) as [l e] eqn:E2. cbn. split.
      * intros (u & t & -> & Hu & Ht). apply (IH (length re2)) in Ht as (b & r & -> & Hb & He);
          [|cbn; lia|done]. rewrite E2 in Hb, He. exists (u ++ b), r.
        split_and!; [by rewrite app_assoc|by constructor|done].
      * intros (b & r & -> & Hb & He). inv Hb. exists u, (t ++ r). rewrite app_assoc. split_and!; try done.
        apply (IH (length re2)); [cbn; lia|done|]. exists t, r. by rewrite E2.
    + by apply Hplain, parse_plain.
Qed.

Lemma any_suffix_spec f text :
  any_suffix f text = true <-> exists a t, text = a ++ t /\ f t = true.
Proof.
  induction text as [|x text IH]; cbn; rewrite orb_true_iff.
  - split; [intros [?|?]; [by exists [], []|done]|]. intros (a & t & E & H). left.
    by destruct a, t.
  - rewrite IH. split.
    + intros [H|(a & t & -> & H)]; [by exists [], (x :: text)|by exists (x :: a), t].
    + intros ([|y a] & t & E & H); simplify_eq/=; [by left|right; by exists a, t].
Qed.

Lemma match_list_spec re text : match_list re text = true <-> matches re text.
Proof.
  assert (Hany : hd 0 re <> 94 -> any_suffix (here_list re) text = true <-> matches re text).
  { intros Hc. unfold matches. rewrite bool_decide_false by done.
    rewrite any_suffix_spec. destruct (parse re) as [l e] eqn:E. split.
    - intros (a & t & -> & (b & c & -> & Hb & He)%here_list_spec). rewrite E in Hb, He. by exists a, b, c.
    - intros (a & b & c & -> & Hb & _ & He). exists a, (b ++ c). split; [done|].
      apply here_list_spec. exists b, c. by rewrite E. }
  destruct re as [|c re1]; cbn [match_list]; [by apply Hany|].
  destruct (Z.eqb_spec c 94) as [->|Hc]; [|by apply Hany].
  rewrite here_list_spec. unfold matches, found. rewrite bool_decide_true by done. cbn.
  destruct (parse re1) as [l e]. split.
  - intros (b & c & -> & Hb & He). by exists [], b, c.
  - intros (a & b & c & -> & Hb & Ha & He). rewrite Ha by done. by exists b, c.
Qed.

(** ** The buffer and the lines *)

(** The complete lines of a text, and what follows the last of them. *)
Fixpoint split_lines (l : list Z) : list (list Z) * list Z :=
  match l with
  | [] => ([], [])
  | c :: l =>
      let '(ls, r) := split_lines l in
      if c =? 10 then ([] :: ls, r) else
      match ls with
      | [] => ([], c :: r)
      | x :: ls => ((c :: x) :: ls, r)
      end
  end.

(** What grep prints for some lines. *)
Definition printed (lre : list Z) (ls : list (list Z)) : list (Z * list Z) :=
  (fun l => (1, l ++ [10])) <$> filter (fun l => match_list lre l = true) ls.

Lemma split_lines_index l :
  match index_of 10 l with
  | None => split_lines l = ([], l)
  | Some i => (i < length l)%nat /\ l !! i = Some 10 /\
      split_lines l = (take i l :: (split_lines (drop (S i) l)).1, (split_lines (drop (S i) l)).2)
  end.
Proof.
  induction l as [|c l IH]; [done|]. rewrite index_of_cons. cbn [split_lines].
  case_decide as Hc; [subst; cbn; rewrite drop_0; split_and!; [lia|done|]; by destruct (split_lines l)|].
  destruct (Z.eqb_spec c 10); [done|]. destruct (index_of 10 l) as [i|]; cbn.
  - destruct IH as (? & ? & IH). rewrite IH. split_and!; [lia|done|]. done.
  - by rewrite IH.
Qed.

Lemma split_lines_app l k :
  split_lines (l ++ k) =
    ((split_lines l).1 ++ (split_lines ((split_lines l).2 ++ k)).1,
     (split_lines ((split_lines l).2 ++ k)).2).
Proof.
  induction l as [|c l IH]; [cbn; by destruct (split_lines k)|]. cbn [app split_lines].
  rewrite IH. destruct (split_lines l) as [[|x ls] r]; cbn; destruct (Z.eqb_spec c 10); cbn; try done.
  - destruct (Z.eqb_spec c 10); [done|]. by destruct (split_lines (r ++ k)) as [[] ].
Qed.

(** The rest has no newline, and is not longer than the text. *)
Lemma split_lines_rest l : split_lines (split_lines l).2 = ([], (split_lines l).2).
Proof.
  induction l as [|c l IH]; [done|]. cbn [split_lines].
  destruct (split_lines l) as [[|x ls] r]; cbn in *; destruct (Z.eqb_spec c 10); cbn; try done.
  rewrite IH. by destruct (Z.eqb_spec c 10).
Qed.

Lemma split_lines_length l : (length (split_lines l).2 <= length l)%nat.
Proof.
  induction l as [|c l IH]; [done|]. cbn [split_lines].
  destruct (split_lines l) as [[|x ls] r]; cbn in *; destruct (Z.eqb_spec c 10); cbn; lia.
Qed.

Lemma split_lines_suffix l : exists k, l = k ++ (split_lines l).2 /\ ((split_lines l).1 = [] <-> k = []).
Proof.
  induction l as [|c l (k & Hk & He)]; [by exists []|]. cbn [split_lines].
  destruct (split_lines l) as [[|x ls] r]; cbn in *; destruct (Z.eqb_spec c 10); cbn.
  - exists (c :: k). split; [cbn; congruence|done].
  - exists []. assert (k = []) as -> by (by apply He). split; [cbn in *; congruence|done].
  - exists (c :: k). split; [cbn; congruence|done].
  - exists (c :: k). split; [cbn; congruence|done].
Qed.

(** What a pass over the text [data] at [p] does: it prints the lines that
    match, stops at the rest, and changes nothing but the text. *)
Definition scanned (lre : list Z) (p : Z) (data : list Z) (s : ustate) (r : res ustate Z) : Prop :=
  let p' := p + Z.of_nat (length data) - Z.of_nat (length (split_lines data).2) in
  exists m', r = Done p' (mk_ustate m' (u_in s) [] (u_out s ++ printed lre (split_lines data).1) (u_open s)) /\
    only_in p (Z.of_nat (length data)) (u_mem s) m' /\ cstring m' p' (split_lines data).2.

Lemma scanned_none lre p data s :
  index_of 10 data = None -> cstring (u_mem s) p data -> u_wres s = [] -> scanned lre p data s (Done p s).
Proof.
  intros Hi Hc Hw. pose proof (split_lines_index data) as H. rewrite Hi in H.
  unfold scanned. rewrite H. cbn. rewrite app_nil_r, Z.add_simpl_r. exists (u_mem s).
  split_and!; [|apply only_in_refl|done]. destruct s; cbn in *. by subst.
Qed.

(** The first line is done and the pass goes on after it. *)
Lemma scanned_line lre p data i s s2 v r :
  index_of 10 data = Some i -> u_mem s2 = <[p + Z.of_nat i := v]> (u_mem s) -> u_in s2 = u_in s ->
  u_open s2 = u_open s -> u_out s2 = u_out s ++ printed lre [take i data] ->
  scanned lre (p + Z.of_nat i + 1) (drop (S i) data) s2 r -> scanned lre p data s r.
Proof.
  intros Hi Hm Hin Hop Hout (m' & -> & Ho & Hc).
  pose proof (split_lines_index data) as H. rewrite Hi in H. destruct H as (Hlt & _ & H).
  assert (Hlen : length data = (S i + length (drop (S i) data))%nat) by (rewrite length_drop; lia).
  unfold scanned. rewrite H. cbn [fst snd].
  replace (p + Z.of_nat (length data)) with (p + Z.of_nat i + 1 + Z.of_nat (length (drop (S i) data))) by lia.
  exists m'. split_and!; [|rewrite Hm in Ho|done].
  - rewrite Hin, Hop, Hout, <- app_assoc. do 3 f_equal.
    unfold printed. by rewrite <- fmap_app, <- filter_app.
  - eapply only_in_trans; [apply (only_in_insert p (Z.of_nat (length data)) _ (p + Z.of_nat i) v); lia| |lia..].
    eapply only_in_widen; [exact Ho|lia..].
Qed.

(** A line with its newline back in place. *)
Lemma line_bytes m p data i :
  cstring m p data -> (i < length data)%nat ->
  bytes_at (<[p + Z.of_nat i := 10]> m) p (take i data ++ [10]).
Proof.
  intros Hd Hi. pose proof (cstring_take _ _ _ _ Hd Hi) as [H _].
  apply bytes_at_app in H as [H _]. apply bytes_at_app. rewrite length_take, Nat.min_l by lia. split.
  - apply (bytes_at_same _ _ _ _ H). intros x. rewrite length_take, Nat.min_l by lia. intros Hx.
    by rewrite !lookup_insert_ne by lia.
  - apply bytes_at_cons. split; [apply lookup_insert_eq|by intros j c].
Qed.

Lemma grep_lines_spec fuel s pattern lre p data :
  cstring (u_mem s) pattern lre -> cstring (u_mem s) p data -> u_wres s = [] -> 0 < p ->
  pattern + Z.of_nat (length lre) < p \/ p + Z.of_nat (length data) < pattern ->
  (length data < fuel)%nat -> scanned lre p data s (grep_lines fuel pattern p s).
Proof.
  revert s p data. induction fuel as [|fuel IH]; intros s p data Hpat Hd Hw Hp Hdis Hf; [lia|].
  cbn [grep_lines]. mstep lift_done; [|by apply strchr_list]. rewrite set_u_mem_id.
  destruct (index_of 10 data) as [i|] eqn:Hi; [|by apply scanned_none].
  pose proof (split_lines_index data) as H. rewrite Hi in H. destruct H as (Hlt & H10 & _).
  remember (p + Z.of_nat i) as q eqn:Hq. destruct (Z.eqb_spec q 0); [lia|].
  assert (Hqv : is_Some (u_mem s !! q)) by (exists 10; subst q; by eapply cstring_lookup).
  assert (Hrest : cstring (u_mem s) (q + 1) (drop (S i) data)).
  { replace (q + 1) with (p + Z.of_nat (S i)) by lia. by apply cstring_drop. }
  assert (Hlen : length data = (S i + length (drop (S i) data))%nat) by (rewrite length_drop; lia).
  assert (Hoff : forall v l a, cstring (u_mem s) a l -> a + Z.of_nat (length l) < q \/ q < a ->
    cstring (<[q := v]> (u_mem s)) a l).
  { intros v l a Hl Ha. apply (cstring_same (u_mem s)); [done|]. intros x Hx. by rewrite lookup_insert_ne by lia. }
  mstep lift_done; [|by apply st_eq].
  mstep lift_done; [|apply match_list_eq; [apply Hoff; [exact Hpat|lia]|subst q; by apply cstring_take]].
  cbn [u_mem set_u_mem].
  assert (Hgo : forall s2 v, u_mem s2 = <[q := v]> (u_mem s) -> u_wres s2 = [] ->
    scanned lre (q + 1) (drop (S i) data) s2 (grep_lines fuel pattern (q + 1) s2)).
  { intros s2 v Hm Hw2. apply IH; rewrite ?Hm; [apply Hoff; [done|lia]..|done|lia|lia|lia]. }
  set (s1 := set_u_mem _ (set_u_mem _ s)).
  destruct (match_list lre (take i data)) eqn:Em.
  - assert (E : (lift (st q 10) ;; write 1 p (q + 1 - p) ;; ret tt) s1 =
      Done tt (put_out 1 (take i data ++ [10]) (set_u_mem (<[q := 10]> (u_mem s)) s))).
    { mstep lift_done; [|apply st_eq, lookup_insert_is_Some'; by left]. cbn [u_mem set_u_mem s1].
      rewrite insert_insert_eq.
      replace (q + 1 - p) with (Z.of_nat (length (take i data ++ [10])))
        by (rewrite length_app, length_take; cbn; lia).
      mstep write_eq; [done| |done]. cbn [u_mem set_u_mem]. subst q. by apply (line_bytes _ _ data). }
    mstep E. subst q. eapply (scanned_line lre p data i s (put_out 1 _ (set_u_mem _ s)) 10);
      [done|done|done|done| |by eapply Hgo].
    unfold printed. by rewrite filter_cons_True.
  - msimp. subst q. apply (scanned_line lre p data i s s1 0); [done|done|done|done| |by eapply Hgo].
    unfold printed. rewrite filter_cons_False by (by rewrite Em). cbn. by rewrite app_nil_r.
Qed.
(** Every line of the text fits the buffer with its newline, and so does the
    rest. *)
Definition lines_fit (t : list Z) : Prop :=
  Forall (fun l => (length l <= 1022)%nat) (split_lines t).1 /\ (length (split_lines t).2 <= 1022)%nat.

(** A text whose first bytes have no newline has a line as long as them. *)
Lemma lines_fit_prefix d k : split_lines d = ([], d) -> lines_fit (d ++ k) -> (length d <= 1022)%nat.
Proof.
  intros Hd [H1 H2].
  assert (H : match split_lines (d ++ k) with
              | (x :: _, _) => (length d <= length x)%nat
              | ([], r) => (length d <= length r)%nat
              end).
  { clear H1 H2. revert Hd. induction d as [|c d IH]; intros Hd; [destruct (split_lines ([] ++ k)) as [[]]; cbn; lia|].
    cbn [app split_lines] in *. destruct (split_lines d) as [[|x ls] r]; destruct (Z.eqb_spec c 10); simplify_eq.
    specialize (IH eq_refl). destruct (split_lines (d ++ k)) as [[|y ls] r']; cbn in *; lia. }
  destruct (split_lines (d ++ k)) as [[|x ls] r]; cbn in *; [lia|]. apply Forall_cons in H1 as [? _]. lia.
Qed.

(** Input that comes in pieces that end with a newline, but perhaps the last:
    what is typed at the console, or a file, which is one piece. *)
Fixpoint by_lines (ps : list piece) : Prop :=
  match ps with
  | [] => True
  | ReadError :: _ => False
  | [Data _] => True
  | Data l :: ps => last l = Some 10 /\ by_lines ps
  end.

Lemma by_lines_next n ps :
  by_lines ps -> (0 < n)%nat ->
  exists x ps', next_piece n ps = (Some x, ps') /\ contents ps = x ++ contents ps' /\ by_lines ps' /\
    (length x <= n)%nat /\ (length x = n \/ last x = Some 10 \/ contents ps' = []) /\
    (x = [] -> contents ps = []) /\ (x <> [] -> reads_left ps' < reads_left ps)%nat.
Proof.
  intros Hps Hn. destruct ps as [|[l|] ps]; [|cbn [next_piece]|done].
  { exists [], []. split_and!; try done; [cbn; lia|by right; right]. }
  exists (take n l). destruct (Nat.leb_spec (length l) n).
  - exists ps. rewrite take_ge by lia. split_and!; [done|done| |done| | |].
    + by destruct ps; [|destruct Hps].
    + right. destruct ps; [by right|left; by destruct Hps].
    + intros ->. by destruct ps; [|destruct Hps].
    + intros _. unfold reads_left. cbn. lia.
  - exists (Data (drop n l) :: ps). unfold contents. cbn [fmap list_fmap concat].
    rewrite app_assoc, take_drop, length_take. split_and!; [done|done| |lia|left; lia| |].
    + destruct ps; [done|]. destruct Hps as [Hl Hps]. split; [|done].
      rewrite <- (take_drop n l) in Hl. rewrite last_app in Hl. destruct (last (drop n l)) eqn:E; [done|].
      apply last_None in E. apply (f_equal length) in E. rewrite length_drop in E. cbn in E. lia.
    + intros E%(f_equal length). rewrite length_take in E. cbn in E. lia.
    + intros _. unfold reads_left. cbn. rewrite length_drop. lia.
Qed.

(** A text without a newline does not end with one. *)
Lemma no_lines_last d : split_lines d = ([], d) -> last d <> Some 10.
Proof.
  induction d as [|c d IH]; [done|]. cbn [split_lines]. destruct (split_lines d) as [[|x ls] r] eqn:E;
    destruct (Z.eqb_spec c 10); intros; simplify_eq. destruct d as [|c' d]; [cbn; congruence|].
  rewrite last_cons_cons. by apply IH.
Qed.

(** A buffer without a newline that was not filled up can only be the end of
    the input. *)
Lemma lines_fit_full c x k :
  split_lines (c ++ x) = ([], c ++ x) -> lines_fit ((c ++ x) ++ k) -> (length c <= 1022)%nat ->
  length x = (1023 - length c)%nat \/ last x = Some 10 \/ k = [] -> k = [].
Proof.
  intros Hd Hfit Hc [Hx|[Hx|Hx]]; [| |done].
  - pose proof (lines_fit_prefix _ _ Hd Hfit) as H. rewrite length_app in H. lia.
  - destruct (no_lines_last _ Hd). by rewrite last_app, Hx.
Qed.

Lemma lines_fit_rest d k : lines_fit (d ++ k) -> lines_fit ((split_lines d).2 ++ k).
Proof.
  intros [H1 H2]. rewrite split_lines_app in H1, H2. apply Forall_app in H1 as [_ ?]. by split.
Qed.

Lemma printed_app lre a b : printed lre (a ++ b) = printed lre a ++ printed lre b.
Proof. unfold printed. by rewrite filter_app, fmap_app. Qed.

Section loop.
Context (buf pattern fd : Z) (lre : list Z).
Hypothesis Hbuf : 0 < buf.
Hypothesis Hapart : pattern + Z.of_nat (length lre) < buf \/ buf + 1024 <= pattern.

(** Between two rounds: the pattern is there, the buffer is there, and all
    writes are accepted. *)
Record ready (s : ustate) : Prop := {
  rd_pattern : cstring (u_mem s) pattern lre;
  rd_buf : valid (u_mem s) buf 1024;
  rd_write : u_wres s = []
}.

Lemma ready_only_in s s' a n :
  ready s -> only_in a n (u_mem s) (u_mem s') -> buf <= a -> a + n <= buf + 1024 -> u_wres s' = [] -> ready s'.
Proof.
  intros [H1 H2 H3] Ho ?? Hw. split; [|intros x Hx; apply Ho; by apply H2|done].
  eapply only_in_cstring; [exact Ho|done|lia].
Qed.

(** A read and the NUL after it make the buffer a string. *)
Lemma grep_fill s c ps :
  ready s -> bytes_at (u_mem s) buf c -> (length c <= 1022)%nat -> Forall (fun x => x <> 0) (c ++ contents ps) ->
  u_in s !! fd = Some ps -> by_lines ps ->
  exists s1 t ps', read fd (buf + Z.of_nat (length c)) (1024 - Z.of_nat (length c) - 1) s = Done (Z.of_nat (length t)) s1 /\
    let s2 := set_u_mem (<[buf + Z.of_nat (length (c ++ t)) := 0]> (u_mem s1)) s1 in
    lift (st (buf + Z.of_nat (length (c ++ t))) 0) s1 = Done tt s2 /\
    ready s2 /\ cstring (u_mem s2) buf (c ++ t) /\ u_out s1 = u_out s /\
    u_in s2 !! fd = Some ps' /\ by_lines ps' /\ contents ps = t ++ contents ps' /\ (length (c ++ t) <= 1023)%nat /\
    (length t = (1023 - length c)%nat \/ last t = Some 10 \/ contents ps' = []) /\
    (t = [] -> contents ps = []) /\ (t <> [] -> reads_left ps' < reads_left ps)%nat.
Proof.
  intros Hs Hc Hlen Hnz Hfd Hps.
  destruct (by_lines_next (1023 - length c) ps Hps) as (t & ps' & En & Hcon & Hps' & Hlt & Hend & Hnil & Hleft); [lia|].
  destruct (read_next s fd (buf + Z.of_nat (length c)) (1024 - Z.of_nat (length c) - 1) ps t ps' Hfd)
    as (m1 & E & Hb & Ho); [by replace (Z.to_nat _) with (1023 - length c)%nat by lia|lia|eapply valid_le; [apply Hs|lia..]|].
  assert (Hl : (length (c ++ t) <= 1023)%nat) by (rewrite length_app; lia).
  eexists _, t, ps'. split; [exact E|]. cbn [u_mem set_u_mem set_u_in u_out u_in].
  assert (Hm : only_in buf 1024 (u_mem s) m1) by (eapply only_in_widen; [exact Ho|lia..]).
  assert (Hv1 : valid m1 buf 1024) by (intros x Hx; by apply Hm, Hs).
  split_and!; [|..|done|by rewrite lookup_insert_eq|done|done|done|done|done|done].
  - apply lift_done, st_eq. cbn. apply Hv1. lia.
  - eapply (ready_only_in s _ buf 1024); [done| |lia|lia|by destruct Hs].
    cbn. eapply only_in_trans; [exact Hm|apply only_in_insert; lia|lia..].
  - split; [|rewrite Hcon, app_assoc, Forall_app in Hnz; by destruct Hnz].
    apply bytes_at_app. split.
    + apply (bytes_at_same m1); [|intros x Hx; by rewrite lookup_insert_ne by lia].
      apply bytes_at_app. split; [|done]. apply (bytes_at_same (u_mem s)); [done|]. intros x Hx. apply Ho. lia.
    + apply bytes_at_cons. split; [apply lookup_insert_eq|by intros j x].
Qed.

Lemma grep_loop_spec fuel s c ps :
  ready s -> bytes_at (u_mem s) buf c -> split_lines c = ([], c) -> (length c <= 1022)%nat ->
  Forall (fun x => x <> 0) (c ++ contents ps) -> u_in s !! fd = Some ps -> by_lines ps ->
  lines_fit (c ++ contents ps) -> (reads_left ps < fuel)%nat ->
  exists s', grep_loop buf fuel pattern fd (Z.of_nat (length c)) s = Done tt s' /\
    u_out s' = u_out s ++ printed lre (split_lines (c ++ contents ps)).1.
Proof.
  revert s c ps. induction fuel as [|fuel IH]; intros s c ps Hs Hc Hnl Hlen Hnz Hfd Hps Hfit Hf; [lia|].
  destruct (grep_fill s c ps Hs Hc Hlen Hnz Hfd Hps)
    as (s1 & t & ps' & E1 & E2 & Hs2 & Hd & Ho1 & Hin & Hps' & Hcon & Hdl & Hend & Hnil & Hleft).
  cbn [grep_loop]. mstep E1. destruct (decide (t = [])) as [->|Ht].
  { cbn. exists s1. rewrite Hnil, app_nil_r, Hnl, Ho1 by done. cbn. by rewrite app_nil_r. }
  assert (Htl : (0 < length t)%nat) by (by destruct t; [|cbn; lia]). specialize (Hleft Ht).
  destruct (Z.leb_spec (Z.of_nat (length t)) 0); [lia|].
  replace (Z.of_nat (length c) + Z.of_nat (length t)) with (Z.of_nat (length (c ++ t))) by (rewrite length_app; lia).
  mstep E2. rewrite Hcon, app_assoc in Hnz, Hfit |- *. pose proof (lines_fit_full c t (contents ps')) as Hfull.
  set (d := c ++ t) in *. set (s2 := set_u_mem _ s1) in *. apply Forall_app in Hnz as [Hnzd Hnzl].
  destruct (grep_lines_spec 1024 s2 pattern lre buf d) as (m3 & E3 & Ho3 & Hr); try done; try lia; [apply Hs2..|].
  mstep E3. rewrite split_lines_app.
  destruct (split_lines_suffix d) as (k & Hk & Hke). pose proof (split_lines_rest d) as Hrest.
  remember (split_lines d).1 as ls eqn:Els. remember (split_lines d).2 as r eqn:Er.
  assert (Hdr : length d = (length k + length r)%nat) by (rewrite Hk at 1; by rewrite length_app).
  set (s3 := mk_ustate m3 _ _ _ _) in *.
  assert (Hs3 : ready s3) by (eapply (ready_only_in s2 _ buf); [done|exact Ho3|lia|lia|done]).
  destruct (Z.eqb_spec (buf + Z.of_nat (length d) - Z.of_nat (length r)) buf) as [Ek|Ek].
  - assert (k = []) as -> by (by apply nil_length_inv; lia). assert (ls = []) as -> by (by apply Hke).
    cbn [app] in Hk. rewrite <- Hk in *. cbn [app fst snd]. specialize (Hfull Hrest Hfit Hlen Hend).
    rewrite Hfull, app_nil_r, Hrest in *. cbn [Z.ltb Z.compare].
    destruct (IH s3 [] ps') as (s' & E' & Hout);
      [done|by intros i z|done|cbn; lia|by rewrite Hfull|done|done|by rewrite Hfull; split; [constructor|cbn; lia]|lia|].
    exists s'. split; [exact E'|]. rewrite Hout, Hfull. cbn. by rewrite Ho1, !app_nil_r.
  - destruct (Z.ltb_spec 0 (Z.of_nat (length d))); [|lia].
    replace (Z.of_nat (length d) - (buf + Z.of_nat (length d) - Z.of_nat (length r) - buf))
      with (Z.of_nat (length r)) by lia.
    destruct Hr as [Hr Hrnz]. apply bytes_at_app in Hr as [Hr _].
    destruct (memmove_down m3 buf _ r Hr) as (m4 & E4 & Hb4 & Ho4); [|lia|].
    { eapply valid_le; [apply Hs3|lia..]. }
    mstep lift_done; [|exact E4].
    destruct (IH (set_u_mem m4 s3) r ps') as (s' & E' & Hout); try done; try lia.
    + eapply (ready_only_in s3 _ buf); [done|exact Ho4|lia|lia|done].
    + by apply Forall_app.
    + rewrite Er. by apply lines_fit_rest.
    + exists s'. split; [exact E'|]. rewrite Hout. cbn [fst]. rewrite printed_app, app_assoc. cbn [u_out set_u_mem s3 s2].
      by rewrite Ho1.
Qed.
End loop.

(** ** Properties *)

(** C14: [match] is correct and terminates: on any pattern and any text that
    are C strings in memory it returns, leaves the memory alone, and answers
    yes exactly when the text contains a string of the language that the
    pattern denotes (characters, [.] for any of them, [*] for repetition), at
    the front if the pattern starts with [^] and at the end if it ends in
    [$]. *)
Theorem match_correct (m : mem) (re text : Z) (lre lt : list Z)
    (Hre : cstring m re lre) (Ht : cstring m text lt) :
  exists b, match_ re text m = Done b m /\ (b = true <-> matches lre lt).
Proof.
  exists (match_list lre lt). split; [by apply match_list_eq|]. apply match_list_spec.
Qed.

(** The pattern [^ab*c$] at 0 and the text [abbc] at 16. *)
Definition match_demo : mem :=
  list_to_map (imap (fun i c => (Z.of_nat i, c)) [94; 97; 98; 42; 99; 36; 0] ++
               imap (fun i c => (16 + Z.of_nat i, c)) [97; 98; 98; 99; 0]).

Lemma match_correct_witness :
  exists b, match_ 0 16 match_demo = Done b match_demo /\
    (b = true <-> matches [94; 97; 98; 42; 99; 36] [97; 98; 98; 99]).
Proof.
  apply (match_correct match_demo 0 16 [94; 97; 98; 42; 99; 36] [97; 98; 98; 99]);
    repeat (apply cstring_cons; split; [reflexivity|split; [discriminate|]]); apply cstring_nil; reflexivity.
Defined.

(** C15: [grep] prints the matching lines of its input.  It reads through its
    buffer of 1024 bytes, in as many pieces as that takes, it ends, and what it
    has written is every complete line whose text matches the pattern, in order
    and with its newline, and nothing else.  (What follows the last newline is
    not a line and is not printed.)  The input is a file, or comes in pieces of
    whole lines, as from the console; it has no NUL and its lines are at most
    1022 characters long; the pattern does not overlap the buffer and every
    write is accepted in full.  A line that comes in two pieces is lost, and so
    is what follows a NUL ([grep_loses_split_line], [grep_stops_at_nul]). *)
Theorem grep_correct (s : ustate) (buf pattern fd : Z) (lre : list Z) (ps : list piece)
    (Hbuf : 0 < buf) (Hv : valid (u_mem s) buf 1024) (Hpat : cstring (u_mem s) pattern lre)
    (Hapart : pattern + Z.of_nat (length lre) < buf \/ buf + 1024 <= pattern)
    (Hw : u_wres s = []) (Hin : u_in s !! fd = Some ps) (Hps : by_lines ps)
    (Hnz : Forall (fun x => x <> 0) (contents ps)) (Hfit : lines_fit (contents ps)) :
  exists s', grep buf pattern fd s = Done tt s' /\
    u_out s' = u_out s ++
      ((fun l => (1, l ++ [10])) <$> filter (fun l => match_list lre l = true) (split_lines (contents ps)).1).
Proof.
  unfold grep. msimp. rewrite Hin. change (default [] (Some ps)) with ps.
  apply (grep_loop_spec buf pattern fd lre Hbuf Hapart _ s [] ps); try done; [cbn; lia|lia].
Qed.

(** The pattern [b] at 16 and an empty buffer at 32. *)
Definition grep_demo (ps : list piece) : ustate :=
  mk_ustate (list_to_map ([(16, 98); (17, 0)] ++ ((fun a => (a, 0)) <$> seqZ 32 1024)))
    {[0 := ps]} [] [] (fun _ => None).

(** The lines [ab] and [c] in one piece, and then [b]. *)
Lemma grep_correct_witness :
  exists s', grep 32 16 0 (grep_demo [Data [97; 98; 10; 99; 10]; Data [98; 10]]) = Done tt s' /\
    u_out s' = [(1, [97; 98; 10]); (1, [98; 10])].
Proof.
  apply (grep_correct (grep_demo [Data [97; 98; 10; 99; 10]; Data [98; 10]]) 32 16 0 [98]
    [Data [97; 98; 10; 99; 10]; Data [98; 10]]); [lia| | |cbn; lia|reflexivity|reflexivity|by split| |].
  - intros x Hx. cbn [grep_demo u_mem]. rewrite <- elem_of_dom, dom_list_to_map_L, fmap_app.
    rewrite elem_of_list_to_set, elem_of_app. right. rewrite <- list_fmap_compose.
    apply list_elem_of_fmap. exists x. split; [done|]. by apply elem_of_seqZ.
  - apply cstring_cons. split; [apply lookup_insert_eq|split; [discriminate|apply cstring_nil]].
    etransitivity; [by apply lookup_insert_ne|apply lookup_insert_eq].
  - repeat constructor; discriminate.
  - split; [repeat constructor; cbn; lia|cbn; lia].
Defined.

(** A small buffer's worth of memory is enough for short input. *)
Definition grep_small (ps : list piece) : ustate :=
  mk_ustate (list_to_map ([(16, 98); (17, 0)] ++ ((fun a => (a, 0)) <$> seqZ 32 8))) {[0 := ps]} [] [] (fun _ => None).

Definition output (r : res ustate unit) : option (list (Z * list Z)) :=
  match r with Done _ s => Some (u_out s) | _ => None end.

(** A line that arrives in two pieces is lost.  With the pattern [b], the
    line [abc] is printed when it is read at once, and is not when the read
    stops after [ab], as a read from a pipe may: a buffer without a newline is
    thrown away even if it is not full. *)
Theorem grep_loses_split_line :
  output (grep 32 16 0 (grep_small [Data [97; 98; 99; 10]])) = Some [(1, [97; 98; 99; 10])] /\
  output (grep 32 16 0 (grep_small [Data [97; 98]; Data [99; 10]])) = Some [].
Proof. split; vm_compute; reflexivity. Qed.

(** A NUL hides the lines after it.  With the pattern [b], the second line of
    [a], newline, [b], newline is printed; with a NUL in the first line [strchr]
    finds no newline at all, and the whole buffer is thrown away. *)
Theorem grep_stops_at_nul :
  output (grep 32 16 0 (grep_small [Data [97; 10; 98; 10]])) = Some [(1, [98; 10])] /\
  output (grep 32 16 0 (grep_small [Data [97; 0; 10; 98; 10]])) = Some [].
Proof. split; vm_compute; reflexivity. Qed.
