(* ===== verification/Uprog.v ===== *)
(** * Small user programs: [user/wc.c], [user/cat.c], [user/echo.c]

    A function that may call [exit] gives back whether it did.  [argv] is the
    list of the arguments after the program's name. *)

From S2P Require Import Prelude Strings Ulib Printf.

(** ** wc *)

Module Wc.
Section wc.
(** The addresses of [buf] and of the string of white space. *)
Context (buf white : Z).

Record counts := mk_counts { lines : Z; words : Z; chars : Z; inword : bool }.

(** The body of the loop over the buffer, for the byte at [a]. *)
Definition wc_byte (k : counts) (a : Z) : U counts :=
  c <- int_result (chars k + 1) ;;
  x <- lift (ld a) ;;
  l <- (if x =? 10 then int_result (lines k + 1) else ret (lines k)) ;;
  q <- lift (strchr white x) ;;
  if negb (q =? 0) then ret (mk_counts l (words k) c false) else
  if negb (inword k) then w <- int_result (words k + 1) ;; ret (mk_counts l w c true)
  else ret (mk_counts l (words k) c true).

Fixpoint wc_buf (n : nat) (k : counts) (a : Z) : U counts :=
  match n with
  | O => ret k
  | S n => k <- wc_byte k a ;; wc_buf n k (a + 1)
  end.

(** The loop over the reads; none when the last read fails. *)
Fixpoint wc_loop (fuel : nat) (fd : Z) (k : counts) : U (option counts) :=
  match fuel with
  | O => diverge
  | S fuel =>
      n <- read fd buf 512 ;;
      if 0 <? n then k <- wc_buf (Z.to_nat n) k buf ;; wc_loop fuel fd k
      else ret (if n <? 0 then None else Some k)
  end.

Definition wc (fd : Z) (name : list Z) : U bool :=
  ps <- gets (fun s => default [] (u_in s !! fd)) ;;
  o <- wc_loop (S (reads_left ps)) fd (mk_counts 0 0 0 false) ;;
  match o with
  | None => printf 1 (str "wc: read error" ++ [10]) [] ;; ret true
  | Some k =>
      printf 1 (str "%d %d %d %s" ++ [10]) [AInt (lines k); AInt (words k); AInt (chars k); AStr (Some name)] ;;
      ret false
  end.

Fixpoint wc_files (argv : list (list Z)) : U unit :=
  match argv with
  | [] => ret tt
  | name :: argv =>
      fd <- open name ;;
      if fd <? 0 then printf 1 (str "wc: cannot open %s" ++ [10]) [AStr (Some name)] else
      e <- wc fd name ;;
      if (e : bool) then ret tt else close fd ;; wc_files argv
  end.

Definition wc_main (argv : list (list Z)) : U unit :=
  match argv with
  | [] => wc 0 [] ;; ret tt
  | _ => wc_files argv
  end.
End wc.
End Wc.

(** ** cat *)

Module Cat.
Section cat.
Context (buf : Z).

Fixpoint cat_loop (fuel : nat) (fd : Z) : U bool :=
  match fuel with
  | O => diverge
  | S fuel =>
      n <- read fd buf 512 ;;
      if 0 <? n then
        w <- write 1 buf n ;;
        if negb (w =? n) then printf 1 (str "cat: write error" ++ [10]) [] ;; ret true
        else cat_loop fuel fd
      else if n <? 0 then printf 1 (str "cat: read error" ++ [10]) [] ;; ret true
      else ret false
  end.

Definition cat (fd : Z) : U bool :=
  ps <- gets (fun s => default [] (u_in s !! fd)) ;;
  cat_loop (S (reads_left ps)) fd.

Fixpoint cat_files (argv : list (list Z)) : U unit :=
  match argv with
  | [] => ret tt
  | name :: argv =>
      fd <- open name ;;
      if fd <? 0 then printf 1 (str "cat: cannot open %s" ++ [10]) [AStr (Some name)] else
      e <- cat fd ;;
      if (e : bool) then ret tt else close fd ;; cat_files argv
  end.

Definition cat_main (argv : list (list Z)) : U unit :=
  match argv with
  | [] => cat 0 ;; ret tt
  | _ => cat_files argv
  end.
End cat.
End Cat.

(** ** echo *)

Module Echo.
Fixpoint echo_main (argv : list (list Z)) : U unit :=
  match argv with
  | [] => ret tt
  | x :: argv =>
      printf 1 (str "%s%s") [AStr (Some x); AStr (Some (match argv with [] => [10] | _ => [32] end))] ;;
      echo_main argv
  end.
End Echo.

(** ** What they print *)

(** The decimal digits of a number. *)
Definition decimal (x : Z) : list Z := reverse (digits_loop 32 upper 10 x).

(** Run a [printf] one step at a time. *)
Ltac psteps :=
  repeat
    (msimp;
     first
       [ mstep putc_eq; [|assumption]
       | mstep puts_eq; [|assumption]
       | rewrite i32_small by lia; mstep printint_nonneg; [|assumption|lia] ]);
  msimp; rewrite ?sends_sends.

(** *** Words *)

(** The characters of the string of white space. *)
Definition white_space : list Z := [32; 13; 9; 10; 11].
Definition is_white (c : Z) : bool := bool_decide (c ∈ white_space).

(** The words of a text: its maximal runs of other characters. *)
Fixpoint words_of (l : list Z) : list (list Z) :=
  match l with
  | [] => []
  | c :: l =>
      let ws := words_of l in
      if is_white c then ws else
      if is_white (hd 32 l) then [c] :: ws else
      match ws with w :: ws => (c :: w) :: ws | [] => [[c]] end
  end.

(** What the loop counts. *)
Definition count_byte (k : Wc.counts) (x : Z) : Wc.counts :=
  Wc.mk_counts (Wc.lines k + if x =? 10 then 1 else 0)
    (Wc.words k + if negb (is_white x) && negb (Wc.inword k) then 1 else 0)
    (Wc.chars k + 1) (negb (is_white x)).

Definition count_text (k : Wc.counts) (l : list Z) : Wc.counts := fold_left count_byte l k.

Lemma words_of_nonwhite c l : is_white c = false -> words_of (c :: l) <> [].
Proof. intros Hc. cbn [words_of]. rewrite Hc. by destruct (is_white (hd 32 l)), (words_of l). Qed.

(** The loop counts the beginnings of words; the list has one word for each of
    their ends. *)
Lemma count_words k l :
  Wc.words (count_text k l) =
    Wc.words k + Z.of_nat (length (words_of l)) -
      (if Wc.inword k && negb (is_white (hd 32 l)) then 1 else 0).
Proof.
  revert k. induction l as [|c l IH]; intros k; cbn [count_text fold_left].
  { cbn. rewrite andb_false_r. lia. }
  change (fold_left count_byte l (count_byte k c)) with (count_text (count_byte k c) l).
  rewrite IH. cbn [count_byte Wc.words Wc.inword hd words_of].
  destruct (is_white c) eqn:Ec; cbn [negb andb].
  - rewrite andb_false_r. lia.
  - destruct (is_white (hd 32 l)) eqn:Ed; cbn [negb].
    + destruct (Wc.inword k); cbn [negb andb length]; lia.
    + destruct l as [|d l]; [done|]. pose proof (words_of_nonwhite d l Ed) as Hw.
      destruct (words_of (d :: l)); [done|]. destruct (Wc.inword k); cbn [negb andb length]; lia.
Qed.

Lemma count_chars k l : Wc.chars (count_text k l) = Wc.chars k + Z.of_nat (length l).
Proof.
  revert k. induction l as [|c l IH]; intros k; [cbn; lia|].
  change (count_text k (c :: l)) with (count_text (count_byte k c) l). rewrite IH. cbn. lia.
Qed.

Lemma count_lines k l :
  Wc.lines (count_text k l) = Wc.lines k + count (fun c => c =? 10) l.
Proof.
  revert k. induction l as [|c l IH]; intros k; [cbn; lia|].
  change (count_text k (c :: l)) with (count_text (count_byte k c) l). rewrite IH. cbn.
  destruct (c =? 10); cbn; lia.
Qed.

(** *** Loops *)

(** Between two rounds of [wc] and [cat]: the buffer is there and all writes
    are accepted. *)
Record calm (buf : Z) (s : ustate) : Prop := {
  cm_buf : valid (u_mem s) buf 512;
  cm_write : u_wres s = []
}.

Lemma calm_only_in buf s s' :
  calm buf s -> only_in buf 512 (u_mem s) (u_mem s') -> u_wres s' = [] -> calm buf s'.
Proof. intros [H1 H2] Ho Hw. split; [|done]. intros x Hx. by apply Ho, H1. Qed.

Section wc_facts.
Context (buf white : Z).
Hypothesis Hwhite : 0 < white.
Hypothesis Hapart : white + 5 < buf \/ buf + 512 <= white.

Lemma strchr_white m x :
  cstring m white white_space -> exists q, strchr white x m = Done q m /\ (negb (q =? 0)) = is_white x.
Proof.
  intros H. eexists. split; [by apply strchr_list|].
  unfold is_white, index_of. destruct (list_find _ white_space) as [[i y]|] eqn:E; cbn.
  - apply list_find_Some in E as (Hi & -> & _). rewrite bool_decide_true by (by eapply list_elem_of_lookup_2).
    destruct (Z.eqb_spec (white + Z.of_nat i) 0); [lia|done].
  - apply list_find_None in E. rewrite bool_decide_false; [done|].
    intros Hx. rewrite Forall_forall in E. by apply (E x).
Qed.

(** The counters stay in range as long as the number of characters does. *)
Definition counters_ok (k : Wc.counts) : Prop :=
  0 <= Wc.lines k <= Wc.chars k /\ 0 <= Wc.words k <= Wc.chars k.

Lemma count_byte_ok k x : counters_ok k -> counters_ok (count_byte k x).
Proof. unfold counters_ok. cbn. destruct (x =? 10), (negb (is_white x) && _); lia. Qed.

Lemma wc_byte_eq s k a x :
  cstring (u_mem s) white white_space -> u_mem s !! a = Some x -> counters_ok k -> Wc.chars k + 1 < 2 ^ 31 ->
  Wc.wc_byte white k a s = Done (count_byte k x) s.
Proof.
  intros Hw Hx [? ?] Hc. unfold Wc.wc_byte. mstep int_result_eq; [|lia].
  mstep lift_done; [|by apply ld_eq]. rewrite set_u_mem_id.
  assert (E : (if x =? 10 then int_result (Wc.lines k + 1) else ret (Wc.lines k)) s =
    Done (Wc.lines k + if x =? 10 then 1 else 0) s).
  { destruct (x =? 10); [apply int_result_eq; lia|by rewrite Z.add_0_r]. }
  mstep E. destruct (strchr_white (u_mem s) x Hw) as (q & Eq & Hq). mstep lift_done; [|exact Eq].
  rewrite set_u_mem_id, Hq. unfold count_byte. destruct (is_white x), (Wc.inword k); cbn [negb andb];
    rewrite ?Z.add_0_r; try done. by mstep int_result_eq; [|lia].
Qed.

Lemma wc_buf_eq s k a l :
  cstring (u_mem s) white white_space -> bytes_at (u_mem s) a l -> counters_ok k ->
  Wc.chars k + Z.of_nat (length l) < 2 ^ 31 ->
  Wc.wc_buf white (length l) k a s = Done (count_text k l) s.
Proof.
  intros Hw. revert k a. induction l as [|x l IH]; intros k a Hl Hk Hc; [done|].
  apply bytes_at_cons in Hl as [Hx Hl]. cbn [length Wc.wc_buf] in *. mstep wc_byte_eq; [|done..|lia].
  rewrite IH; [done|done|by apply count_byte_ok|cbn; lia].
Qed.

Lemma count_text_app k l l' : count_text k (l ++ l') = count_text (count_text k l) l'.
Proof. apply fold_left_app. Qed.

Lemma count_text_ok k l : counters_ok k -> counters_ok (count_text k l).
Proof. revert k. induction l as [|x l IH]; intros k Hk; [done|]. by apply IH, count_byte_ok. Qed.

Lemma wc_loop_eq fuel s fd k ps :
  calm buf s -> cstring (u_mem s) white white_space ->
  u_in s !! fd = Some ps -> flowing ps -> counters_ok k ->
  Wc.chars k + Z.of_nat (length (contents ps)) < 2 ^ 31 -> (reads_left ps < fuel)%nat ->
  exists s', Wc.wc_loop buf white fuel fd k s = Done (Some (count_text k (contents ps))) s' /\
    u_out s' = u_out s /\ u_wres s' = [].
Proof.
  revert s k ps. induction fuel as [|fuel IH]; intros s k ps Hs Hw Hfd Hf Hk Hc Hr; [lia|]. cbn [Wc.wc_loop].
  destruct (read_flowing s fd buf 512 ps Hfd Hf) as (x & m' & ps' & E & Hcon & Hf' & Hx & Hl & Hr' & Hb & Ho);
    [lia|apply Hs|]. mstep E. set (s1 := set_u_mem m' _) in *.
  assert (Hin : u_in s1 !! fd = Some ps') by (cbn; by rewrite lookup_insert_eq).
  assert (Hs1 : calm buf s1) by (eapply calm_only_in; [done|exact Ho|apply Hs]).
  destruct (Z.ltb_spec 0 (Z.of_nat (length x))) as [H0|H0].
  - assert (Hw1 : cstring (u_mem s1) white white_space) by (eapply only_in_cstring; [exact Ho|done|cbn; lia]).
    rewrite Hcon, length_app in Hc. rewrite Nat2Z.id. mstep wc_buf_eq; [|done|done|done|lia].
    destruct (IH s1 (count_text k x) ps') as (s' & E' & Hout & Hwr); try done.
    + by apply count_text_ok.
    + rewrite count_chars. lia.
    + assert (x <> []) as Hne%Hr' by (by intros ->). lia.
    + exists s'. rewrite E', Hcon, count_text_app. by split.
  - assert (x = []) as -> by (by apply nil_length_inv; lia). cbn [length Z.of_nat Z.ltb Z.compare].
    exists s1. rewrite Hx by done. split_and!; [done|done|apply Hs1].
Qed.
End wc_facts.

(** [printf(1, "%d %d %d %s\n", l, w, c, name)]. *)
Lemma printf_counts s l w c name :
  u_wres s = [] -> 0 <= l < 2 ^ 31 -> 0 <= w < 2 ^ 31 -> 0 <= c < 2 ^ 31 ->
  exists s', printf 1 (str "%d %d %d %s" ++ [10]) [AInt l; AInt w; AInt c; AStr (Some name)] s = Done tt s' /\
    sent 1 s' = sent 1 s ++ decimal l ++ [32] ++ decimal w ++ [32] ++ decimal c ++ [32] ++ name ++ [10].
Proof.
  intros Hw ???. exists (sends 1 (decimal l ++ [32] ++ decimal w ++ [32] ++ decimal c ++ [32] ++ name ++ [10]) s).
  split; [|apply sent_sends]. unfold printf.
  change (str "%d %d %d %s" ++ [10]) with [37; 100; 32; 37; 100; 32; 37; 100; 32; 37; 115; 10].
  cbn [printf_loop Z.eqb Pos.eqb orb default]. unfold arg_int. psteps.
  done.
Qed.

Lemma sent_put_out fd l s : sent fd (put_out fd l s) = sent fd s ++ l.
Proof.
  unfold sent, put_out. cbn [u_out]. rewrite filter_app, fmap_app, concat_app. f_equal.
  rewrite filter_cons_True by done. cbn. apply app_nil_r.
Qed.

(** What [cat] leaves behind: the input, but for the descriptor it read, and
    the names. *)
Definition cat_done (buf fd : Z) (s s' : ustate) (text : list Z) : Prop :=
  sent 1 s' = sent 1 s ++ text /\ calm buf s' /\ u_open s' = u_open s /\
  forall fd', fd <> fd' -> u_in s' !! fd' = u_in s !! fd'.

Lemma cat_loop_eq buf fuel s fd ps :
  calm buf s -> u_in s !! fd = Some ps -> flowing ps -> (reads_left ps < fuel)%nat ->
  exists s', Cat.cat_loop buf fuel fd s = Done false s' /\ cat_done buf fd s s' (contents ps).
Proof.
  revert s ps. induction fuel as [|fuel IH]; intros s ps Hs Hfd Hf Hr; [lia|]. cbn [Cat.cat_loop].
  destruct (read_flowing s fd buf 512 ps Hfd Hf) as (x & m' & ps' & E & Hcon & Hf' & Hx & Hl & Hr' & Hb & Ho);
    [lia|apply Hs|]. mstep E. set (s1 := set_u_mem m' _) in *.
  assert (Hs1 : calm buf s1) by (eapply calm_only_in; [done|exact Ho|apply Hs]).
  assert (Hother : forall fd', fd <> fd' -> u_in s1 !! fd' = u_in s !! fd')
    by (intros; cbn; by rewrite lookup_insert_ne).
  destruct (Z.ltb_spec 0 (Z.of_nat (length x))) as [H0|H0].
  - mstep write_eq; [|done|apply Hs1]. rewrite Z.eqb_refl. cbn [negb].
    assert (Hin : u_in (put_out 1 x s1) !! fd = Some ps') by (cbn; by rewrite lookup_insert_eq).
    destruct (IH (put_out 1 x s1) ps') as (s' & E' & Hsent & Hc' & Hop & Hoth); try done.
    + split; apply Hs1.
    + assert (x <> []) as Hne%Hr' by (by intros ->). lia.
    + exists s'. split; [done|]. split_and!; try done.
      * rewrite Hsent, sent_put_out, Hcon. by rewrite app_assoc.
      * intros fd' Hne. rewrite Hoth by done. by apply Hother.
  - assert (x = []) as -> by (by apply nil_length_inv; lia). exists s1. split; [done|].
    rewrite Hx by done. split_and!; [by rewrite app_nil_r|done|done|done].
Qed.

Lemma cat_eq buf s fd ps :
  calm buf s -> u_in s !! fd = Some ps -> flowing ps ->
  exists s', Cat.cat buf fd s = Done false s' /\ cat_done buf fd s s' (contents ps).
Proof. intros Hs Hfd Hf. unfold Cat.cat. msimp. rewrite Hfd. change (default [] (Some ps)) with ps. by apply cat_loop_eq; [..|lia]. Qed.

(** The contents of the file of a name. *)
Definition file_of (s : ustate) (name : list Z) : list Z := contents (default [] (u_open s name)).

(** The file can be opened and reading it does not fail. *)
Definition openable (s : ustate) (name : list Z) : Prop := exists ps, u_open s name = Some ps /\ flowing ps.

Lemma cat_files_eq buf argv s fd :
  calm buf s -> free_fd (u_in s) = Some fd -> Forall (openable s) argv ->
  exists s', Cat.cat_files buf argv s = Done tt s' /\
    sent 1 s' = sent 1 s ++ concat (file_of s <$> argv) /\ u_in s' = u_in s.
Proof.
  revert s. induction argv as [|name argv IH]; intros s Hs Hfree Ho.
  { exists s. split; [done|]. by rewrite app_nil_r. }
  apply Forall_cons in Ho as [(ps & Hps & Hfl) Ho]. pose proof (free_fd_free _ _ Hfree) as [Hnone Hfd].
  cbn [Cat.cat_files]. mstep (open_eq s name ps fd Hps Hfree). destruct (Z.ltb_spec fd 0); [lia|].
  set (s1 := set_u_in _ s).
  destruct (cat_eq buf s1 fd ps) as (s2 & E & Hsent & Hc & Hop & Hoth);
    [by destruct Hs; split|cbn; by rewrite lookup_insert_eq|done|].
  mstep E. unfold close. msimp. set (s3 := set_u_in _ s2).
  assert (Hin : u_in s3 = u_in s).
  { apply map_eq. intros x. cbn. destruct (decide (fd = x)) as [<-|Hne]; [by rewrite lookup_delete_eq|].
    rewrite lookup_delete_ne, Hoth by done. cbn. by rewrite lookup_insert_ne. }
  assert (Hop3 : u_open s3 = u_open s) by exact Hop.
  destruct (IH s3) as (s' & E' & Hsent' & Hin'); [by destruct Hc; split|by rewrite Hin| |].
  { eapply Forall_impl; [exact Ho|]. intros x. unfold openable. by rewrite Hop3. }
  exists s'. split_and!; [done| |by rewrite Hin'].
  rewrite Hsent'. change (sent 1 s3) with (sent 1 s2). rewrite Hsent, <- app_assoc. cbn [fmap list_fmap concat].
  unfold file_of. by rewrite Hop3, Hps.
Qed.

(** ** Properties *)

(** C29: [wc] counts correctly, however the kernel splits the input into reads.
    On a descriptor that does not fail, with less than 2^31 characters, it ends
    and prints the number of newlines, the number of words (the maximal runs of
    characters other than white space) and the number of characters, in decimal,
    and the name. *)
Theorem wc_correct (buf white : Z) (s : ustate) (fd : Z) (name : list Z)
    (Hwhite : 0 < white) (Hapart : white + 5 < buf \/ buf + 512 <= white) (Hs : calm buf s)
    (Hw : cstring (u_mem s) white white_space) (ps : list piece) (Hfd : u_in s !! fd = Some ps)
    (Hf : flowing ps) (Hlen : Z.of_nat (length (contents ps)) < 2 ^ 31) :
  let text := contents ps in
  exists s', Wc.wc buf white fd name s = Done false s' /\
    sent 1 s' = sent 1 s ++ decimal (count (fun c => c =? 10) text) ++ [32] ++
      decimal (Z.of_nat (length (words_of text))) ++ [32] ++
      decimal (Z.of_nat (length text)) ++ [32] ++ name ++ [10].
Proof.
  intros text. set (k0 := Wc.mk_counts 0 0 0 false).
  assert (Hk0 : counters_ok k0) by (unfold counters_ok; cbn; lia).
  destruct (wc_loop_eq buf white Hwhite Hapart (S (reads_left ps)) s fd k0 ps)
    as (s1 & E & Hout & Hw1); [done..|lia|].
  pose proof (count_text_ok k0 text Hk0) as [Hl Hw'].
  pose proof (count_lines k0 text) as H1. pose proof (count_words k0 text) as H2.
  pose proof (count_chars k0 text) as H3. cbn [k0 Wc.lines Wc.words Wc.chars Wc.inword andb] in *.
  destruct (printf_counts s1 (Wc.lines (count_text k0 text)) (Wc.words (count_text k0 text))
              (Wc.chars (count_text k0 text)) name Hw1) as (s' & E' & Hsent); [unfold text in *; lia..|].
  exists s'. split; [unfold Wc.wc; msimp; rewrite Hfd; change (default [] (Some ps)) with ps; mstep E; by mstep E'|].
  rewrite Hsent, H1, H2, H3, Z.sub_0_r, !Z.add_0_l. unfold sent at 1. rewrite Hout. done.
Qed.

(** Two files, the first of which comes in two pieces. *)
Definition wc_demo : ustate :=
  mk_ustate (list_to_map ((imap (fun i c => (16 + Z.of_nat i, c)) (white_space ++ [0])) ++
                          ((fun a => (a, 0)) <$> seqZ 32 512)))
    {[0 := [Data [97; 98]; Data [99; 32; 100; 10]]; 1 := []; 2 := []]} [] []
    (fun name => if decide (name = [97]) then Some [Data [97; 98]; Data [99; 32; 100; 10]]
                 else if decide (name = [98]) then Some [Data [101]] else None).

Lemma wc_demo_calm : calm 32 wc_demo.
Proof.
  split; [|done]. intros x Hx. cbn [wc_demo u_mem]. rewrite <- elem_of_dom, dom_list_to_map_L, fmap_app.
  rewrite elem_of_list_to_set, elem_of_app. right. rewrite <- list_fmap_compose.
  apply list_elem_of_fmap. exists x. split; [done|]. by apply elem_of_seqZ.
Qed.

Lemma wc_demo_flowing : flowing [Data [97; 98]; Data [99; 32; 100; 10]].
Proof. repeat constructor; eexists; by split. Qed.

Lemma wc_correct_witness :
  exists s', Wc.wc 32 16 0 [] wc_demo = Done false s' /\
    sent 1 s' = [] ++ decimal 1 ++ [32] ++ decimal 2 ++ [32] ++ decimal 6 ++ [32] ++ [] ++ [10].
Proof.
  apply (fun H1 H2 H3 H4 => wc_correct 32 16 wc_demo 0 [] H1 H2 H3 H4 [Data [97; 98]; Data [99; 32; 100; 10]]); [lia|lia|apply wc_demo_calm| |reflexivity|apply wc_demo_flowing|reflexivity].
  repeat (apply cstring_cons; split; [reflexivity|split; [discriminate|]]). apply cstring_nil. reflexivity.
Defined.

(** C30: [cat] copies its files to the output.  Given names that can be
    opened, as many and as often repeated as one likes, of files whose reads do
    not fail, and one descriptor that is not open, which each file gets in turn,
    it ends and has sent the contents of the files in order, byte for byte,
    however the kernel splits them into reads, and every descriptor is as it
    was.  The standard output is open and takes every write in full ([calm]). *)
Theorem cat_correct (buf : Z) (s : ustate) (argv : list (list Z)) (fd : Z)
    (Hne : argv <> []) (Hs : calm buf s) (Hout : is_Some (u_in s !! 1)) (Hfree : free_fd (u_in s) = Some fd)
    (Hopen : Forall (openable s) argv) :
  exists s', Cat.cat_main buf argv s = Done tt s' /\
    sent 1 s' = sent 1 s ++ concat (file_of s <$> argv) /\ u_in s' = u_in s.
Proof. destruct argv; [done|]. by apply (cat_files_eq _ _ _ fd). Qed.

(** The files [a], [b] and [a] again, all read through descriptor 3. *)
Lemma cat_correct_witness :
  exists s', Cat.cat_main 32 [[97]; [98]; [97]] wc_demo = Done tt s' /\
    sent 1 s' = [97; 98; 99; 32; 100; 10; 101; 97; 98; 99; 32; 100; 10] /\ u_in s' = u_in wc_demo.
Proof.
  apply (cat_correct 32 wc_demo [[97]; [98]; [97]] 3); [discriminate|apply wc_demo_calm|by eexists|reflexivity|].
  repeat constructor; (eexists; split; [reflexivity|]); [apply wc_demo_flowing| |apply wc_demo_flowing].
  repeat constructor; eexists; by split.
Defined.

(** The arguments separated by spaces and ended by a newline. *)
Fixpoint echo_text (argv : list (list Z)) : list Z :=
  match argv with
  | [] => []
  | [x] => x ++ [10]
  | x :: argv => x ++ [32] ++ echo_text argv
  end.

(** [echo] sends its arguments separated by single spaces and ended by a
    newline, and nothing at all if there are none. *)
Theorem echo_correct (s : ustate) (argv : list (list Z)) (Hw : u_wres s = []) :
  exists s', Echo.echo_main argv s = Done tt s' /\ sent 1 s' = sent 1 s ++ echo_text argv.
Proof.
  exists (sends 1 (echo_text argv) s). split; [|apply sent_sends].
  revert s Hw. induction argv as [|x argv IH]; intros s Hw.
  { cbn [echo_text]. by rewrite sends_nil. }
  set (sep := match argv with [] => [10] | _ => [32] end).
  assert (E : printf 1 (str "%s%s") [AStr (Some x); AStr (Some sep)] s = Done tt (sends 1 (x ++ sep) s)).
  { unfold printf. change (str "%s%s") with [37; 115; 37; 115].
    cbn [printf_loop Z.eqb Pos.eqb orb default]. by psteps. }
  cbn [Echo.echo_main]. fold sep. mstep E. rewrite IH by done. rewrite sends_sends. f_equal. f_equal.
  unfold sep. destruct argv; cbn [echo_text]; by rewrite <- ?app_assoc, ?app_nil_r.
Qed.

Lemma echo_correct_witness :
  exists s', Echo.echo_main [[97]; [98]] wc_demo = Done tt s' /\ sent 1 s' = [97; 32; 98; 10].
Proof. apply (echo_correct wc_demo [[97]; [98]]). reflexivity. Defined.
