(* ===== verification/Umalloc.v ===== *)
(** * The user allocator: [user/lib/umalloc.c]

    The free list of Kernighan and Ritchie: a circle of headers in the order of
    their addresses, entered at [freep].  A header is 16 bytes and names the
    next free block and its own size in headers.  The state is the headers by
    address, [freep], what [sbrk] will answer, and what it was asked for.
    [sbrk] is a system call; when no free block is large enough the theorems
    assume of it what its comment in [kernel/sysproc.c] promises, that it fails
    or hands out memory above everything it handed out before.  The [sys_sbrk]
    of this kernel is a stub that answers 0 and does not provide that: what
    [malloc] makes of it is [malloc_on_stub_sbrk]. *)

From S2P Require Import Prelude.

(** ** The code *)

Record header := mk_header { h_ptr : Z; h_size : Z }.

Record heap := mk_heap { hdrs : gmap Z header; freep : Z; sbrks : list Z; asked : list Z }.

Definition set_hdrs (h : gmap Z header) (s : heap) : heap := mk_heap h (freep s) (sbrks s) (asked s).
Definition set_freep (p : Z) (s : heap) : heap := mk_heap (hdrs s) p (sbrks s) (asked s).
Definition set_sbrks (l : list Z) (s : heap) : heap := mk_heap (hdrs s) (freep s) l (asked s).
Definition ask (n : Z) (s : heap) : heap := mk_heap (hdrs s) (freep s) (sbrks s) (asked s ++ [n]).

Abbreviation HM := (M heap).

Definition hdr (p : Z) : HM header :=
  o <- gets (fun s => hdrs s !! p) ;;
  deref "header" o.

Definition upd_hdr (p : Z) (f : header -> header) : HM unit :=
  h <- hdr p ;;
  modify (fun s => set_hdrs (<[p := f h]> (hdrs s)) s).

Definition set_ptr (x : Z) (h : header) : header := mk_header x (h_size h).
Definition set_size (n : Z) (h : header) : header := mk_header (h_ptr h) n.

(** Write the size of a header in memory that may not have been one. *)
Definition new_hdr (p n : Z) : HM unit :=
  modify (fun s => set_hdrs (<[p := set_size n (default (mk_header 0 0) (hdrs s !! p))]> (hdrs s)) s).

(** The loop of [free]: the free block after which [bp] belongs. *)
Fixpoint free_find (fuel : nat) (bp p : Z) : HM Z :=
  match fuel with
  | O => diverge
  | S fuel =>
      h <- hdr p ;;
      if (p <? bp) && (bp <? h_ptr h) then ret p else
      if (h_ptr h <=? p) && ((p <? bp) || (bp <? h_ptr h)) then ret p else
      free_find fuel bp (h_ptr h)
  end.

(** The second half of [free]: put [bp] after [p], and merge the blocks that
    touch. *)
Definition link_block (bp p : Z) : HM unit :=
  hb <- hdr bp ;;
  hp <- hdr p ;;
  (if bp + 16 * h_size hb =? h_ptr hp then
     hn <- hdr (h_ptr hp) ;;
     upd_hdr bp (set_size (u32 (h_size hb + h_size hn))) ;;
     upd_hdr bp (set_ptr (h_ptr hn))
   else upd_hdr bp (set_ptr (h_ptr hp))) ;;
  hp <- hdr p ;;
  hb <- hdr bp ;;
  (if p + 16 * h_size hp =? bp then
     upd_hdr p (set_size (u32 (h_size hp + h_size hb))) ;;
     upd_hdr p (set_ptr (h_ptr hb))
   else upd_hdr p (set_ptr bp)).

Definition free (ap : Z) : HM unit :=
  let bp := ap - 16 in
  n <- gets (fun s => size (hdrs s)) ;;
  start <- gets freep ;;
  p <- free_find n bp start ;;
  link_block bp p ;;
  modify (set_freep p).

(** The system call, whose parameter is an [int].  What its answer has to do
    with the argument is a hypothesis of the theorems. *)
Definition sbrk (n : Z) : HM Z :=
  modify (ask (i32 n)) ;;
  l <- gets sbrks ;;
  match l with
  | [] => ret (-1)
  | p :: l => modify (set_sbrks l) ;; ret p
  end.

Definition morecore (nu : Z) : HM Z :=
  let nu := if nu <? 4096 then 4096 else nu in
  p <- sbrk (nu * 16) ;;
  if p =? -1 then ret 0 else
  new_hdr p nu ;;
  free (p + 16) ;;
  gets freep.

Section malloc.
(** The address of the static [base]. *)
Variable base : Z.

(** Take [nunits] from the free block [p], whose header is [h]: the whole of
    it, or its end. *)
Definition carve (nunits prevp p : Z) (h : header) : HM Z :=
  r <- (if h_size h =? nunits then upd_hdr prevp (set_ptr (h_ptr h)) ;; ret p
        else
          let rest := h_size h - nunits in
          upd_hdr p (set_size rest) ;;
          new_hdr (p + 16 * rest) nunits ;;
          ret (p + 16 * rest)) ;;
  modify (set_freep prevp) ;;
  ret (r + 16).

(** The loop of [malloc]; [fuel] bounds its rounds. *)
Fixpoint malloc_loop (fuel : nat) (nunits prevp p : Z) : HM Z :=
  match fuel with
  | O => diverge
  | S fuel =>
      h <- hdr p ;;
      if nunits <=? h_size h then carve nunits prevp p h else
      f <- gets freep ;;
      if p =? f then
        p <- morecore nunits ;;
        if p =? 0 then ret 0 else
        h <- hdr p ;;
        malloc_loop fuel nunits p (h_ptr h)
      else malloc_loop fuel nunits p (h_ptr h)
  end.

Definition malloc (nbytes : Z) : HM Z :=
  let nunits := u32 ((nbytes + 16 - 1) / 16 + 1) in
  f <- gets freep ;;
  (if f =? 0 then
     modify (set_freep base) ;;
     modify (fun s => set_hdrs (<[base := mk_header base 0]> (hdrs s)) s)
   else ret tt) ;;
  prevp <- gets freep ;;
  h <- hdr prevp ;;
  n <- gets (fun s => size (hdrs s)) ;;
  malloc_loop (2 * n + 4) nunits prevp (h_ptr h).
End malloc.

(** ** The free list

    A block is the address of its header and its size in headers. *)

Abbreviation blk := (Z * Z)%type.
Definition blk_end (x : blk) : Z := x.1 + 16 * x.2.
Definition before (x y : blk) : Prop := blk_end x < y.1.
Definition hd_addr (l : list blk) (d : Z) : Z := match l with x :: _ => x.1 | [] => d end.

(** The headers of [l] are linked, and the last of them leads to [last]. *)
Fixpoint seg (h : gmap Z header) (l : list blk) (last : Z) : Prop :=
  match l with
  | [] => True
  | x :: l => h !! x.1 = Some (mk_header (hd_addr l last) x.2) /\ seg h l last
  end.

(** The blocks are in order, and no two of them touch. *)
Fixpoint sorted (l : list blk) : Prop :=
  match l with
  | [] => True
  | x :: l => Forall (before x) l /\ sorted l
  end.

Lemma hd_addr_app l k d : hd_addr (l ++ k) d = hd_addr l (hd_addr k d).
Proof. by destruct l. Qed.

Lemma seg_app h l k last : seg h (l ++ k) last <-> seg h l (hd_addr k last) /\ seg h k last.
Proof. induction l as [|x l IH]; cbn; [naive_solver|]. rewrite IH, hd_addr_app. naive_solver. Qed.

Lemma seg_frame h h' l last : seg h l last -> (forall x, x ∈ l -> h' !! x.1 = h !! x.1) -> seg h' l last.
Proof.
  induction l as [|x l IH]; intros Hs Hf; [done|]. destruct Hs as [H1 H2]. split.
  - rewrite Hf; [done|]. apply list_elem_of_here.
  - apply IH; [done|]. intros y Hy. apply Hf. by apply list_elem_of_further.
Qed.

Lemma seg_lookup h l last i x :
  seg h l last -> l !! i = Some x ->
  h !! x.1 = Some (mk_header (match l !! S i with Some y => y.1 | None => last end) x.2).
Proof.
  revert i. induction l as [|y l IH]; intros i Hs Hi; [done|]. destruct Hs as [H1 H2].
  destruct i as [|i]; cbn in Hi; simplify_eq.
  - rewrite H1. do 2 f_equal. by destruct l.
  - by rewrite (IH i).
Qed.

Lemma sorted_app l k : sorted (l ++ k) <-> sorted l /\ sorted k /\ Forall (fun x => Forall (before x) k) l.
Proof.
  induction l as [|x l IH]; cbn; [by rewrite Forall_nil; naive_solver|].
  rewrite IH, Forall_app, Forall_cons. naive_solver.
Qed.

Lemma sorted_lookup l i j x y : sorted l -> (i < j)%nat -> l !! i = Some x -> l !! j = Some y -> before x y.
Proof.
  revert i j. induction l as [|z l IH]; intros i j Hs Hij Hi Hj; [done|]. destruct Hs as [H1 H2].
  destruct j as [|j]; [lia|]. destruct i as [|i]; cbn in *; simplify_eq.
  - rewrite Forall_forall in H1. apply H1. by eapply list_elem_of_lookup_2.
  - apply (IH i j); [done|lia|done|done].
Qed.

(** *** Walking the circle *)

Section circle.
Context (base : Z) (s : heap) (l : list blk).
Hypothesis Hseg : seg (hdrs s) l base.
Hypothesis Hhead : hd_addr l base = base.

(** The index after [i], around the circle. *)
Definition succ (i : nat) : nat := if decide (S i = length l) then O else S i.

(** How far [t] is from [i], around the circle. *)
Definition dist (i t : nat) : nat := if decide (i <= t)%nat then (t - i)%nat else (length l - i + t)%nat.

Lemma dist_succ i t : (i < length l)%nat -> (t < length l)%nat -> i <> t -> dist i t = S (dist (succ i) t).
Proof. intros ???. unfold dist, succ. repeat case_decide; lia. Qed.

Lemma hdr_eq i x :
  l !! i = Some x -> exists y, l !! succ i = Some y /\ hdr x.1 s = Done (mk_header y.1 x.2) s.
Proof.
  intros Hi. pose proof (seg_lookup _ _ _ _ _ Hseg Hi) as H. pose proof (lookup_lt_Some _ _ _ Hi) as Hlt.
  assert (E : forall h, hdrs s !! x.1 = Some h -> hdr x.1 s = Done h s) by (intros h E; unfold hdr; msimp; by rewrite E).
  unfold succ. case_decide as He.
  - rewrite (lookup_ge_None_2 l (S i)) in H by lia. destruct l as [|z l']; [done|]. cbn in Hhead.
    exists z. split; [done|]. rewrite Hhead. by apply E.
  - destruct (lookup_lt_is_Some_2 l (S i)) as [y Hy]; [lia|]. rewrite Hy in H. exists y. by auto.
Qed.

Hypothesis Hsort : sorted l.
Hypothesis Hpos : Forall (fun b => 0 <= b.2) l.

Lemma addr_lt i j x y : (i < j)%nat -> l !! i = Some x -> l !! j = Some y -> x.1 < y.1.
Proof.
  intros Hij Hx Hy. pose proof (sorted_lookup _ _ _ _ _ Hsort Hij Hx Hy) as H.
  rewrite Forall_lookup in Hpos. pose proof (Hpos _ _ Hx). unfold before, blk_end in H. lia.
Qed.

Lemma first_addr z : l !! 0%nat = Some z -> z.1 = base.
Proof. destruct l; [done|]. cbn in *. congruence. Qed.

Lemma base_le i x : l !! i = Some x -> base <= x.1.
Proof.
  intros Hx. destruct (lookup_lt_is_Some_2 l 0) as [z Hz]; [apply lookup_lt_Some in Hx; lia|].
  rewrite <- (first_addr z Hz). destruct i as [|i]; [simplify_eq; lia|].
  pose proof (addr_lt 0 (S i) z x ltac:(lia) Hz Hx). lia.
Qed.

Lemma succ_cases i x z :
  l !! i = Some x -> l !! succ i = Some z ->
  l !! S i = Some z /\ x.1 < z.1 \/ S i = length l /\ z.1 = base.
Proof.
  intros Hi Hz. unfold succ in Hz. case_decide; [right; by auto using first_addr|].
  left. split; [done|]. by apply (addr_lt i (S i)); [lia|..].
Qed.

(** The search of [free] finds the last block before [bp]. *)
Lemma free_find_eq fuel bp i t x y :
  base < bp -> l !! i = Some x -> l !! t = Some y -> y.1 < bp ->
  (forall z, l !! S t = Some z -> bp < z.1) -> (dist i t < fuel)%nat ->
  free_find fuel bp x.1 s = Done y.1 s.
Proof.
  intros Hb Hi Ht Hlt Hnext. revert i x Hi. induction fuel as [|fuel IH]; intros i x Hi Hf; [lia|].
  cbn [free_find]. destruct (hdr_eq i x Hi) as (z & Hz & E). mstep E. cbn [h_ptr].
  pose proof (lookup_lt_Some _ _ _ Hi). pose proof (lookup_lt_Some _ _ _ Ht).
  destruct (decide (i = t)) as [->|Hne].
  - assert (x = y) as -> by congruence. destruct (Z.ltb_spec y.1 bp); [|lia]. cbn [andb orb].
    destruct (succ_cases t y z Ht Hz) as [[Hz' _]|[_ Hz']].
    + apply Hnext in Hz'. by destruct (Z.ltb_spec bp z.1); [|lia].
    + pose proof (base_le _ _ Ht). destruct (Z.ltb_spec bp z.1); [done|].
      by destruct (Z.leb_spec z.1 y.1); [|lia].
  - assert (Hstep : free_find fuel bp z.1 s = Done y.1 s).
    { apply (IH (succ i) z); [done|]. rewrite dist_succ in Hf by done. lia. }
    assert (Hc : (x.1 < bp /\ z.1 <= bp /\ x.1 < z.1) \/ (bp < x.1 /\ (x.1 < z.1 \/ z.1 = base))).
    { destruct (decide (i < t)%nat).
      - left. pose proof (addr_lt i t x y ltac:(lia) Hi Ht).
        destruct (succ_cases i x z Hi Hz) as [[Hz' ?]|[? _]]; [|lia]. split_and!; [lia| |done].
        destruct (decide (S i = t)) as [<-|]; [simplify_eq; lia|].
        pose proof (addr_lt (S i) t z y ltac:(lia) Hz' Ht). lia.
      - right. split; [|by destruct (succ_cases i x z Hi Hz) as [[_ ?]|[_ ?]]; auto].
        destruct (lookup_lt_is_Some_2 l (S t)) as [u Hu]; [lia|]. pose proof (Hnext _ Hu).
        destruct (decide (S t = i)) as [<-|]; [simplify_eq; lia|].
        pose proof (addr_lt (S t) i u x ltac:(lia) Hu Hi). lia. }
    destruct (Z.ltb_spec x.1 bp), (Z.ltb_spec bp z.1), (Z.leb_spec z.1 x.1); cbn [andb orb]; done || lia.
Qed.
End circle.

(** *** Putting a block into the list *)

(** Merge [b] with the block after it, if they touch. *)
Definition absorb (b : blk) (l : list blk) : blk * list blk :=
  match l with
  | c :: l' => if blk_end b =? c.1 then ((b.1, b.2 + c.2), l') else (b, l)
  | [] => (b, [])
  end.

(** [b] after [y], as one block if they touch. *)
Definition join (y b : blk) : list blk :=
  if blk_end y =? b.1 then [(y.1, y.2 + b.2)] else [y; b].

Definition put_after (y b : blk) (l : list blk) : list blk :=
  let '(b', l') := absorb b l in join y b' ++ l'.

Definition in_blk (x : Z) (b : blk) : Prop := b.1 <= x < blk_end b.
Definition in_blks (x : Z) (l : list blk) : Prop := exists b, b ∈ l /\ in_blk x b.

Lemma in_blks_cons x b l : in_blks x (b :: l) <-> in_blk x b \/ in_blks x l.
Proof. unfold in_blks. setoid_rewrite elem_of_cons. naive_solver. Qed.

Lemma in_blks_app x l k : in_blks x (l ++ k) <-> in_blks x l \/ in_blks x k.
Proof. unfold in_blks. setoid_rewrite elem_of_app. naive_solver. Qed.

Lemma in_blks_nil x : in_blks x [] <-> False.
Proof. unfold in_blks. set_solver. Qed.

(** Putting a block into the list adds its bytes to it. *)
Lemma in_put_after x y b l :
  0 <= y.2 -> 0 <= b.2 -> Forall (fun c => 0 <= c.2) l ->
  in_blks x (put_after y b l) <-> in_blks x (y :: l) \/ in_blk x b.
Proof.
  intros Hy Hb Hl. unfold put_after.
  assert (Ha : in_blks x ((absorb b l).1 :: (absorb b l).2) <-> in_blk x b \/ in_blks x l).
  { destruct l as [|c l]; cbn; [by rewrite in_blks_cons|]. apply Forall_cons in Hl as [Hc Hl].
    destruct (Z.eqb_spec (blk_end b) c.1); cbn; rewrite !in_blks_cons; [|done].
    unfold in_blk, blk_end in *; cbn. intuition lia. }
  assert (Hb' : 0 <= (absorb b l).1.2).
  { destruct l as [|c l]; [done|]. apply Forall_cons in Hl as [Hc Hl]. cbn. destruct (_ =? _); cbn; lia. }
  destruct (absorb b l) as [b' l']; cbn in *. rewrite in_blks_cons in Ha. rewrite in_blks_app, in_blks_cons.
  unfold join. destruct (Z.eqb_spec (blk_end y) b'.1); rewrite !in_blks_cons, in_blks_nil; [|naive_solver].
  assert (in_blk x (y.1, y.2 + b'.2) <-> in_blk x y \/ in_blk x b'); [|naive_solver].
  unfold in_blk, blk_end in *; cbn. lia.
Qed.

Definition room (x y : Z) (b : blk) : Prop := 0 < b.2 /\ x <= b.1 /\ blk_end b <= y.

Lemma absorb_ok x z b l :
  Forall (room x z) (b :: l) -> Forall (fun c => blk_end b <= c.1) l -> sorted l ->
  let '(b', l') := absorb b l in
  b'.1 = b.1 /\ b.2 <= b'.2 /\ Forall (room x z) (b' :: l') /\ sorted (b' :: l').
Proof.
  intros Hr Hle Hs. destruct l as [|c l]; cbn; [by split_and!|].
  apply Forall_cons in Hr as [Hb [Hc Hl]%Forall_cons]. apply Forall_cons in Hle as [Hbc Hle].
  destruct Hs as [Hcl Hs]. unfold room, before in *.
  destruct (Z.eqb_spec (blk_end b) c.1) as [E|E]; cbn.
  - assert (He : blk_end (b.1, b.2 + c.2) = blk_end c) by (unfold blk_end in *; cbn; lia).
    split_and!; [done|lia| |unfold before; by rewrite He|done].
    constructor; [|done]. unfold room. rewrite He. cbn. lia.
  - split_and!; [done|lia|by constructor; [|constructor]| |done|done].
    constructor; [unfold before; lia|]. eapply Forall_impl; [exact Hcl|]. unfold before, blk_end in *. cbn. intros d Hd. lia.
Qed.

(** The new list is in order, and its blocks are where the old ones were. *)
Lemma put_after_ok x z y b l :
  0 <= y.2 -> Forall (room x z) (b :: l) -> blk_end y <= b.1 -> Forall (fun c => blk_end b <= c.1) l -> sorted l ->
  exists y' l', put_after y b l = y' :: l' /\ y'.1 = y.1 /\ (blk_end y <> b.1 -> y' = y) /\
    (room x z y -> room x z y') /\ sorted (y' :: l') /\ Forall (room x z) l' /\
    exists c, c ∈ y' :: l' /\ b.2 <= c.2.
Proof.
  intros Hy Hr Hyb Hle Hs. pose proof (absorb_ok x z b l Hr Hle Hs) as Ha. unfold put_after.
  destruct (absorb b l) as [b' l']. destruct Ha as (Hb1 & Hb2 & [Hrb Hrl]%Forall_cons & Hsb & Hsl).
  unfold join. destruct (Z.eqb_spec (blk_end y) b'.1) as [E|E]; cbn.
  - exists (y.1, y.2 + b'.2), l'. assert (He : blk_end (y.1, y.2 + b'.2) = blk_end b') by (unfold blk_end in *; cbn; lia).
    split_and!; try done.
    + intros. congruence.
    + unfold room in *. rewrite He. cbn. lia.
    + unfold before. by rewrite He.
    + exists (y.1, y.2 + b'.2). split; [apply list_elem_of_here|cbn; lia].
  - exists y, (b' :: l'). split_and!; try done.
    + constructor; [unfold before; lia|]. eapply Forall_impl; [exact Hsb|]. intros d Hd.
      unfold before, room, blk_end in *. lia.
    + by constructor.
    + exists b'. split; [set_solver|done].
Qed.

(** The place of an address in the list. *)
Lemma split_at l a :
  sorted l -> Forall (fun c => 0 <= c.2) l -> Forall (fun c => c.1 <> a) l -> hd_addr l a < a ->
  exists l1 y l2, l = l1 ++ y :: l2 /\ y.1 < a /\ Forall (fun c => a < c.1) l2.
Proof.
  induction l as [|y l IH]; intros Hs Hp Hn Hh; [cbn in Hh; lia|]. cbn in Hh.
  apply Forall_cons in Hp as [Hp0 Hp]. apply Forall_cons in Hn as [_ Hn]. destruct Hs as [Hy Hs].
  destruct l as [|c l]; [by exists [], y, []|]. pose proof Hn as [Hca _]%Forall_cons.
  destruct (Z.lt_ge_cases c.1 a).
  - destruct (IH Hs Hp Hn) as (l1 & y' & l2 & -> & ? & ?); [done|]. by exists (y :: l1), y', l2.
  - exists [], y, (c :: l). split_and!; [done|done|]. constructor; [lia|]. destruct Hs as [Hc _].
    apply Forall_cons in Hp as [Hpc _].
    eapply Forall_impl; [exact Hc|]. unfold before, blk_end. intros d Hd. lia.
Qed.

(** *** [free] *)

Lemma hdr_at s p h : hdrs s !! p = Some h -> hdr p s = Done h s.
Proof. intros E. unfold hdr. msimp. by rewrite E. Qed.

Lemma upd_hdr_eq s p h f :
  hdrs s !! p = Some h -> upd_hdr p f s = Done tt (set_hdrs (<[p := f h]> (hdrs s)) s).
Proof. intros E. unfold upd_hdr. by mstep (hdr_at s p h E). Qed.

Lemma absorb_facts h b l last :
  (absorb b l).1.1 = b.1 /\ (seg h l last -> seg h (absorb b l).2 last) /\ forall c, c ∈ (absorb b l).2 -> c ∈ l.
Proof.
  destruct l as [|c l]; [done|]. cbn [absorb]. destruct (blk_end b =? c.1); [|done].
  split_and!; [done|by intros [_ ?]|]. intros d Hd. by apply list_elem_of_further.
Qed.

Section link.
Context (base : Z) (s : heap) (l1 : list blk) (y b : blk) (l2 : list blk) (hb : header).
Hypothesis Hseg : seg (hdrs s) (l1 ++ y :: l2) base.
Hypothesis Hb : hdrs s !! b.1 = Some hb.
Hypothesis Hsize : h_size hb = b.2.
Hypothesis Hnew : Forall (fun c => c.1 <> b.1) (l1 ++ y :: l2).
Hypothesis Hdup : Forall (fun c => c.1 <> y.1) (l1 ++ l2).
Hypothesis Hbase : blk_end b <> base.
Hypothesis Hfit : 0 <= (absorb b l2).1.2 < 2 ^ 32.
Hypothesis Hfit2 : blk_end y = b.1 -> 0 <= y.2 + (absorb b l2).1.2 < 2 ^ 32.

Lemma link_right :
  let '(b', l') := absorb b l2 in
  (if b.1 + 16 * h_size hb =? hd_addr l2 base then
     hn <- hdr (hd_addr l2 base) ;;
     upd_hdr b.1 (set_size (u32 (h_size hb + h_size hn))) ;;
     upd_hdr b.1 (set_ptr (h_ptr hn))
   else upd_hdr b.1 (set_ptr (hd_addr l2 base))) s =
  Done tt (set_hdrs (<[b.1 := mk_header (hd_addr l' base) b'.2]> (hdrs s)) s).
Proof.
  rewrite Hsize. clear Hfit2. destruct l2 as [|c l]; cbn [absorb hd_addr] in *.
  - unfold blk_end in Hbase. destruct (Z.eqb_spec (b.1 + 16 * b.2) base); [done|].
    rewrite (upd_hdr_eq s b.1 hb) by done. unfold set_ptr. by rewrite Hsize.
  - unfold blk_end in *. destruct (Z.eqb_spec (b.1 + 16 * b.2) c.1) as [E|E].
    + apply seg_app in Hseg as [_ (_ & Hc & _)]. mstep hdr_at; [|exact Hc].
      mstep upd_hdr_eq; [|exact Hb]. erewrite upd_hdr_eq by apply lookup_insert_eq. cbn in *.
      rewrite insert_insert_eq. unfold set_ptr, set_size. cbn. by rewrite u32_small.
    + rewrite (upd_hdr_eq s b.1 hb) by done. unfold set_ptr. by rewrite Hsize.
Qed.

Lemma link_block_eq :
  exists h', link_block b.1 y.1 s = Done tt (set_hdrs h' s) /\ seg h' (l1 ++ put_after y b l2) base /\
    forall a, a <> b.1 -> a <> y.1 -> h' !! a = hdrs s !! a.
Proof.
  assert (Hyb : y.1 <> b.1) by (rewrite Forall_forall in Hnew; apply Hnew; set_solver).
  pose proof Hseg as [Hs1 [Hy Hs2]]%seg_app. cbn [hd_addr] in Hs1.
  pose proof link_right as Hr. unfold link_block. mstep hdr_at; [|exact Hb]. mstep hdr_at; [|exact Hy].
  cbn [h_ptr]. pose proof (absorb_facts (hdrs s) b l2 base) as (Hb1 & Hs' & Hin). specialize (Hs' Hs2).
  unfold put_after, join. destruct (absorb b l2) as [b' l']; cbn [fst snd] in *. mstep Hr.
  set (h1 := <[b.1 := _]> (hdrs s)).
  mstep hdr_at; [|cbn; unfold h1; rewrite lookup_insert_ne by done; exact Hy].
  mstep hdr_at; [|apply lookup_insert_eq]. cbn [h_ptr h_size]. rewrite <- Hb1.
  assert (Hy1 : hdrs (set_hdrs h1 s) !! y.1 = Some (mk_header (hd_addr l2 base) y.2))
    by (cbn; unfold h1; by rewrite lookup_insert_ne by done).
  assert (Hf : forall v a, a <> b'.1 -> a <> y.1 -> <[y.1 := v]> h1 !! a = hdrs s !! a).
  { intros v a Ha1 Ha2. unfold h1. rewrite !lookup_insert_ne by congruence. done. }
  assert (Hk1 : forall v, seg (<[y.1 := v]> h1) l1 y.1).
  { intros v. apply (seg_frame (hdrs s)); [done|]. intros c Hc. rewrite Forall_app in Hnew, Hdup.
    destruct Hnew as [Hnew' _], Hdup as [Hdup' _]. rewrite Forall_forall in Hnew', Hdup'.
    apply Hf; [rewrite Hb1|]; auto. }
  assert (Hk2 : forall v, seg (<[y.1 := v]> h1) l' base).
  { intros v. apply (seg_frame (hdrs s)); [done|]. intros c Hc%Hin. rewrite Forall_app in Hnew, Hdup.
    destruct Hnew as [_ [_ Hnew']%Forall_cons], Hdup as [_ Hdup']. rewrite Forall_forall in Hnew', Hdup'.
    apply Hf; [rewrite Hb1|]; auto. }
  unfold blk_end in *. destruct (Z.eqb_spec (y.1 + 16 * y.2) b'.1) as [E|E].
  - mstep upd_hdr_eq; [|exact Hy1]. erewrite upd_hdr_eq by apply lookup_insert_eq. cbn [hdrs set_hdrs].
    rewrite insert_insert_eq. eexists. split; [reflexivity|]. split; [|by apply Hf].
    unfold set_ptr, set_size; cbn [h_size h_ptr]. rewrite u32_small by (apply Hfit2; congruence).
    apply seg_app. split; [apply Hk1|]. split; [apply lookup_insert_eq|apply Hk2].
  - rewrite (upd_hdr_eq _ _ _ _ Hy1). cbn [hdrs set_hdrs]. eexists. split; [reflexivity|]. split; [|by apply Hf].
    apply seg_app. split; [apply Hk1|]. split; [apply lookup_insert_eq|]. split; [|apply Hk2].
    rewrite Hb1, lookup_insert_ne by done. apply lookup_insert_eq.
Qed.
End link.

(** *** The invariant

    [fl] is the free list, in order and with the empty block [base] at its
    front; [A] are the blocks that are in use; all of them lie between [base]
    and [brk] and no two of them overlap. *)

Definition disjoint (x y : blk) : Prop := blk_end x <= y.1 \/ blk_end y <= x.1.

Fixpoint apart (l : list blk) : Prop :=
  match l with
  | [] => True
  | x :: l => Forall (disjoint x) l /\ apart l
  end.

Record heap_ok (base : Z) (s : heap) (fl A : list blk) (brk : Z) : Prop := {
  ho_base : 0 < base;
  ho_brk : base + 16 <= brk <= base + 2 ^ 36;
  ho_head : exists bs, fl = (base, 0) :: bs /\ Forall (room (base + 16) brk) bs;
  ho_seg : seg (hdrs s) fl base;
  ho_sorted : sorted fl;
  ho_freep : freep s ∈ fl.*1;
  ho_used : Forall (room (base + 16) brk) A;
  ho_hdrs : Forall (fun b => exists h, hdrs s !! b.1 = Some h /\ h_size h = b.2) A;
  ho_apart : apart A;
  ho_free : Forall (fun b => Forall (disjoint b) fl) A
}.

Lemma disjoint_sym x y : disjoint x y -> disjoint y x.
Proof. unfold disjoint. lia. Qed.

Lemma heap_ok_pos base s fl A brk : heap_ok base s fl A brk -> Forall (fun c => 0 <= c.2) fl.
Proof.
  intros [_ _ (bs & -> & Hr) _ _ _ _ _ _ _]. constructor; [done|].
  eapply Forall_impl; [exact Hr|]. intros c [? _]. lia.
Qed.

(** Enough fuel to walk the circle once. *)
Lemma heap_ok_size base s fl A brk : heap_ok base s fl A brk -> (length fl <= size (hdrs s))%nat.
Proof.
  intros Hok. assert (Hnd : NoDup fl.*1).
  { apply NoDup_alt. intros i j a Hi Hj. rewrite list_lookup_fmap in Hi, Hj.
    destruct (fl !! i) as [x|] eqn:Ei, (fl !! j) as [z|] eqn:Ej; cbn in *; simplify_eq.
    pose proof (heap_ok_pos _ _ _ _ _ Hok) as Hp. rewrite Forall_lookup in Hp.
    pose proof (Hp _ _ Ei) as Hx. pose proof (Hp _ _ Ej) as Hz.
    destruct (Nat.lt_trichotomy i j) as [Hij|[?|Hij]]; [|done|];
      pose proof (sorted_lookup fl _ _ _ _ (ho_sorted _ _ _ _ _ Hok) Hij ltac:(eassumption) ltac:(eassumption));
      unfold before, blk_end in *; lia. }
  rewrite <- size_dom, <- (length_fmap fst fl), <- (size_list_to_set (C := gset Z) fl.*1 Hnd).
  apply subseteq_size. intros a Ha. apply elem_of_list_to_set, list_elem_of_fmap in Ha as (x & -> & Hx).
  apply list_elem_of_lookup_1 in Hx as [i Hi]. apply elem_of_dom. eexists.
  by eapply seg_lookup; [apply Hok|].
Qed.

Lemma put_after_disjoint a y b l :
  0 < a.2 -> disjoint a y -> disjoint a b -> Forall (disjoint a) l -> Forall (disjoint a) (put_after y b l).
Proof.
  intros Ha Hy Hb Hl. unfold put_after.
  assert (H : disjoint a (absorb b l).1 /\ Forall (disjoint a) (absorb b l).2).
  { destruct l as [|c l]; [done|]. apply Forall_cons in Hl as [Hc Hl]. cbn [absorb].
    destruct (Z.eqb_spec (blk_end b) c.1); cbn; [|by split; [|constructor]].
    split; [|done]. unfold disjoint, blk_end in *; cbn. lia. }
  destruct (absorb b l) as [b' l']; cbn in H. destruct H as [Hb' Hl']. apply Forall_app. split; [|done].
  unfold join. destruct (Z.eqb_spec (blk_end y) b'.1); [constructor; [|done]|by constructor; [|constructor]].
  unfold disjoint, blk_end in *; cbn. lia.
Qed.

(** A block in use has a place in the list. *)
Lemma place base s fl b A brk :
  heap_ok base s fl (b :: A) brk ->
  exists l1 y l2, fl = l1 ++ y :: l2 /\ y.1 < b.1 /\ blk_end y <= b.1 /\
    Forall (fun c => b.1 < c.1) l2 /\ Forall (fun c => blk_end b <= c.1) l2 /\
    Forall (fun c => c.1 <> b.1) fl /\ Forall (room (base + 16) brk) (b :: l2) /\
    ((l1 = [] /\ y = (base, 0)) \/ (room (base + 16) brk y /\ exists l, l1 = (base, 0) :: l /\ Forall (room (base + 16) brk) l)).
Proof.
  intros Hok. pose proof (heap_ok_pos _ _ _ _ _ Hok) as Hpos.
  destruct Hok as [H0 _ (bs & Hfl & Hbs) _ Hsort _ [Hb _]%Forall_cons _ _ [Hd _]%Forall_cons].
  pose proof Hb as (Hb1 & Hb2 & Hb3).
  assert (Hne : Forall (fun c => c.1 <> b.1) fl).
  { subst fl. apply Forall_cons in Hd as [_ Hd]. constructor; [cbn; lia|].
    rewrite Forall_forall in Hd, Hbs |- *. intros c Hc E. specialize (Hd c Hc). destruct (Hbs c Hc).
    unfold disjoint, blk_end in Hd. lia. }
  destruct (split_at fl b.1 Hsort Hpos Hne) as (l1 & y & l2 & E & Hy & Hl2); [subst fl; cbn; lia|].
  exists l1, y, l2. rewrite E in Hd, Hpos. apply Forall_app in Hd as [_ [Hdy Hd2]%Forall_cons].
  apply Forall_app in Hpos as [_ [_ Hpos2]%Forall_cons].
  assert (Hl2e : Forall (fun c => blk_end b <= c.1) l2).
  { rewrite Forall_forall in Hl2, Hd2, Hpos2 |- *. intros c Hc. specialize (Hl2 c Hc). specialize (Hd2 c Hc).
    specialize (Hpos2 c Hc). unfold disjoint, blk_end in *. lia. }
  split_and!; try done; [unfold disjoint, blk_end in *; lia| |].
  - constructor; [done|]. rewrite Hfl in E. destruct l1 as [|x l1]; cbn in E; simplify_eq; [done|].
    by apply Forall_app in Hbs as [_ [_ ?]%Forall_cons].
  - rewrite Hfl in E. destruct l1 as [|x l1]; cbn in E; simplify_eq; [by left|right].
    apply Forall_app in Hbs as [? [? ?]%Forall_cons]. split; [done|]. by exists l1.
Qed.

Lemma dist_lt l i t : (i < length l)%nat -> (t < length l)%nat -> (dist l i t < length l)%nat.
Proof. intros. unfold dist. case_decide; lia. Qed.

(** The addresses of the list are distinct. *)
Lemma addr_ne l1 y l2 :
  sorted (l1 ++ y :: l2) -> Forall (fun c => 0 <= c.2) (l1 ++ y :: l2) -> Forall (fun c => c.1 <> y.1) (l1 ++ l2).
Proof.
  intros (_ & [Hy _] & H1)%sorted_app [Hp1 [Hpy Hp2]%Forall_cons]%Forall_app. rewrite Forall_forall in H1, Hp1, Hy.
  apply Forall_app; split; apply Forall_forall; intros c Hc.
  - specialize (H1 c Hc). apply Forall_cons in H1 as [H1 _]. specialize (Hp1 c Hc).
    unfold before, blk_end in H1. lia.
  - specialize (Hy c Hc). unfold before, blk_end in Hy. lia.
Qed.

(** Taking a block that touches nothing in use back into the list. *)
Lemma heap_ok_put base s l1 y l2 b A brk h' :
  heap_ok base s (l1 ++ y :: l2) (b :: A) brk ->
  blk_end y <= b.1 -> Forall (fun c => blk_end b <= c.1) l2 -> Forall (room (base + 16) brk) (b :: l2) ->
  ((l1 = [] /\ y = (base, 0)) \/ (room (base + 16) brk y /\ exists l, l1 = (base, 0) :: l /\ Forall (room (base + 16) brk) l)) ->
  seg h' (l1 ++ put_after y b l2) base -> (forall a, a <> b.1 -> a <> y.1 -> h' !! a = hdrs s !! a) ->
  heap_ok base (set_freep y.1 (set_hdrs h' s)) (l1 ++ put_after y b l2) A brk /\
  exists c, c ∈ l1 ++ put_after y b l2 /\ b.2 <= c.2.
Proof.
  intros Hok Hyb Hl2 Hr Hl1 Hseg Hframe. pose proof (heap_ok_pos _ _ _ _ _ Hok) as Hpos.
  destruct Hok as [H0 Hbrk _ _ Hsort _ [Hb HA]%Forall_cons [_ Hh]%Forall_cons [Hap HapA] [Hd HdA]%Forall_cons].
  pose proof Hsort as (Hs1 & [_ Hs2] & Hx)%sorted_app.
  apply Forall_app in Hpos as [_ [Hpy _]%Forall_cons].
  destruct (put_after_ok (base + 16) brk y b l2 Hpy Hr Hyb Hl2 Hs2)
    as (y' & l' & E & Hy1 & Hsame & Hroom & Hs' & Hrl' & c & Hc & Hcb).
  assert (Hy2 : 0 <= y'.2).
  { destruct Hl1 as [[_ ->]|[Hry _]]; [|by destruct (Hroom Hry); lia].
    rewrite Hsame; [done|]. destruct Hb. unfold blk_end. cbn. lia. }
  split; [|exists c; split; [rewrite E; apply elem_of_app; by right|done]]. split; try done.
  - rewrite E. destruct Hl1 as [[-> ->]|[Hry (l & -> & Hl)]].
    + exists l'. split; [|done]. cbn. f_equal. apply Hsame. destruct Hb. unfold blk_end. cbn. lia.
    + exists (l ++ y' :: l'). split; [done|]. apply Forall_app. split; [done|]. constructor; [by apply Hroom|done].
  - rewrite E. apply sorted_app. split_and!; [done|done|]. eapply Forall_impl; [exact Hx|].
    intros x [Hxy _]%Forall_cons. constructor; [unfold before in *; lia|].
    destruct Hs' as [Hs' _]. eapply Forall_impl; [exact Hs'|]. unfold before, blk_end in *. intros d Hd'. lia.
  - cbn. rewrite E, fmap_app. apply elem_of_app. right. cbn. rewrite Hy1. apply list_elem_of_here.
  - rewrite Forall_forall in Hh, HA, Hap, HdA |- *. intros a Ha. destruct (Hh a Ha) as (h & Hah & Hsz).
    exists h. split; [|done]. cbn. destruct (HA a Ha) as (Ha2 & Ha1 & _). rewrite Hframe; [done|..].
    + specialize (Hap a Ha). destruct Hb. unfold disjoint, blk_end in Hap. lia.
    + specialize (HdA a Ha). apply Forall_app in HdA as [_ [Hay _]%Forall_cons].
      destruct Hl1 as [[_ ->]|[[? _] _]]; [cbn; lia|]. unfold disjoint, blk_end in Hay. lia.
  - rewrite Forall_forall in HA, Hap, HdA |- *. intros a Ha. destruct (HA a Ha) as (Ha2 & _).
    specialize (HdA a Ha). apply Forall_app in HdA as [? [? ?]%Forall_cons].
    apply Forall_app. split; [done|]. apply put_after_disjoint; try done. by apply disjoint_sym, Hap.
Qed.

Lemma free_spec base s fl b A brk :
  heap_ok base s fl (b :: A) brk ->
  exists h' fl' p, free (b.1 + 16) s = Done tt (set_freep p (set_hdrs h' s)) /\
    heap_ok base (set_freep p (set_hdrs h' s)) fl' A brk /\
    (forall x, in_blks x fl' <-> in_blks x fl \/ in_blk x b) /\
    (exists c, c ∈ fl' /\ b.2 <= c.2) /\ (length fl' <= S (length fl))%nat.
Proof.
  intros Hok. destruct (place _ _ _ _ _ _ Hok) as (l1 & y & l2 & -> & Hy & Hyb & Hl2 & Hl2e & Hne & Hr & Hl1).
  pose proof (heap_ok_pos _ _ _ _ _ Hok) as Hpos. pose proof (heap_ok_size _ _ _ _ _ Hok) as Hsz.
  pose proof Hok as [H0 Hbrk (bs & Hfl & _) Hseg Hsort Hfp [Hb _]%Forall_cons [(hb & Hhb & Hhs) _]%Forall_cons _ _].
  assert (Hhd : hd_addr (l1 ++ y :: l2) base = base) by (by rewrite Hfl).
  pose proof Hsort as (_ & [_ Hs2] & _)%sorted_app.
  pose proof (absorb_ok (base + 16) brk b l2 Hr Hl2e Hs2) as Ha.
  pose proof Hpos as [_ [Hpy Hp2]%Forall_cons]%Forall_app. destruct Hb as (Hb2 & Hb1 & Hbe).
  assert (Hab : 0 <= (absorb b l2).1.2 < 2 ^ 32 /\ (blk_end y = b.1 -> 0 <= y.2 + (absorb b l2).1.2 < 2 ^ 32)).
  { destruct (absorb b l2) as [b' l']. destruct Ha as (E1 & E2 & [(? & ? & ?) _]%Forall_cons & _). cbn.
    unfold blk_end in *. split; [lia|]. intros E. destruct Hl1 as [[_ ->]|[(? & ? & ?) _]]; cbn in *; lia. }
  destruct Hab as [Hfit Hfit2].
  destruct (link_block_eq base s l1 y b l2 hb Hseg Hhb Hhs Hne (addr_ne _ _ _ Hsort Hpos)) as (h' & E & Hs' & Hf);
    [unfold blk_end in *; lia|done|done|].
  destruct (heap_ok_put base s l1 y l2 b A brk h' Hok Hyb Hl2e Hr Hl1 Hs' Hf) as [Hok' Hc].
  exists h', (l1 ++ put_after y b l2), y.1. split_and!; [|done| |done|].
  - apply list_elem_of_fmap in Hfp as (x & Hx & Hxin). apply list_elem_of_lookup_1 in Hxin as [i Hi].
    unfold free. rewrite Z.add_simpl_r. msimp. rewrite Hx.
    mstep (free_find_eq base s (l1 ++ y :: l2) Hseg Hhd Hsort Hpos (size (hdrs s)) b.1 i (length l1) x y).
    + mstep E. done.
    + lia.
    + done.
    + by apply list_lookup_middle.
    + done.
    + intros z Hz. rewrite lookup_app_r in Hz by lia. replace (S (length l1) - length l1)%nat with 1%nat in Hz by lia.
      rewrite Forall_forall in Hl2. apply Hl2. by eapply (list_elem_of_lookup_2 _ 0).
    + eapply Nat.lt_le_trans; [|exact Hsz]. apply dist_lt; [by eapply lookup_lt_Some|rewrite length_app; cbn; lia].
  - intros x. rewrite !in_blks_app, in_put_after by (done || lia). tauto.
  - rewrite !length_app. unfold put_after, join.
    assert (length (absorb b l2).2 <= length l2)%nat.
    { destruct l2; [done|]. cbn [absorb]. destruct (_ =? _); cbn; lia. }
    destruct (absorb b l2) as [b' l']; cbn [fst snd] in *. destruct (_ =? _); cbn; lia.
Qed.

(** *** [malloc] *)

Lemma dist_0 l i t : (i < length l)%nat -> (t < length l)%nat -> 0%nat = dist l i t -> i = t.
Proof. intros ??. unfold dist. case_decide; lia. Qed.

Lemma addr_index_ne base s fl A brk i j x y :
  heap_ok base s fl A brk -> fl !! i = Some x -> fl !! j = Some y -> i <> j -> x.1 <> y.1.
Proof.
  intros Hok Hi Hj Hne. pose proof (heap_ok_pos _ _ _ _ _ Hok) as Hp. pose proof (ho_sorted _ _ _ _ _ Hok) as Hs.
  destruct (Nat.lt_trichotomy i j) as [Hij|[?|Hij]]; [|done|].
  - pose proof (addr_lt fl Hs Hp i j x y Hij Hi Hj). lia.
  - pose proof (addr_lt fl Hs Hp j i y x Hij Hj Hi). lia.
Qed.

(** A block that is large enough is not [base], so the block before it is its
    neighbour in the list. *)
Lemma walk_found base s fl A brk nunits i x z w :
  heap_ok base s fl A brk -> 0 < nunits -> fl !! i = Some x -> fl !! succ fl i = Some z ->
  hdr z.1 s = Done (mk_header w z.2) s -> nunits <= z.2 ->
  exists t u v h, fl !! t = Some u /\ fl !! S t = Some v /\ hdrs s !! v.1 = Some h /\ h_size h = v.2 /\ nunits <= v.2 /\
    carve nunits x.1 z.1 (mk_header w z.2) s = carve nunits u.1 v.1 h s.
Proof.
  intros Hok Hn Hi Hz E Hle. exists i, x, z, (mk_header w z.2).
  assert (Hh : hdrs s !! z.1 = Some (mk_header w z.2)).
  { unfold hdr in E. rewrite bind_gets in E. destruct (hdrs s !! z.1); [|done]. cbn in E. unfold ret in E. congruence. }
  split_and!; try done. unfold succ in Hz. case_decide; [|done].
  destruct (ho_head _ _ _ _ _ Hok) as (bs & -> & _). cbn in Hz. simplify_eq. cbn in Hle. lia.
Qed.

(** What a walk around the circle from [x] to [freep] comes to: a block that is
    large enough, with the one before it, or a call of [morecore] once all are
    known to be too small. *)
Lemma malloc_walk base s fl A brk nunits fuel i x z f y :
  heap_ok base s fl A brk -> 0 < nunits -> fl !! f = Some y -> freep s = y.1 ->
  fl !! i = Some x -> fl !! succ fl i = Some z ->
  (exists t u v h, fl !! t = Some u /\ fl !! S t = Some v /\ hdrs s !! v.1 = Some h /\ h_size h = v.2 /\ nunits <= v.2 /\
     malloc_loop (dist fl (succ fl i) f + S fuel) nunits x.1 z.1 s = carve nunits u.1 v.1 h s) \/
  ((forall j c, fl !! j = Some c -> (dist fl (succ fl i) j <= dist fl (succ fl i) f)%nat -> c.2 < nunits) /\
   malloc_loop (dist fl (succ fl i) f + S fuel) nunits x.1 z.1 s =
     (p <- morecore nunits ;;
      if p =? 0 then ret 0 else
      h <- hdr p ;;
      malloc_loop fuel nunits p (h_ptr h)) s).
Proof.
  intros Hok Hn Hf Hfp. pose proof Hok as [H0 _ (bs & Hfl & Hbs) Hseg Hsort _ _ _ _ _].
  pose proof (heap_ok_pos _ _ _ _ _ Hok) as Hpos.
  assert (Hhd : hd_addr fl base = base) by (by rewrite Hfl).
  pose proof (lookup_lt_Some _ _ _ Hf) as Hfl'.
  remember (dist fl (succ fl i) f) as d eqn:Hd. revert i x z Hd. induction d as [|d IH]; intros i x z Hd Hi Hz.
  all: pose proof (lookup_lt_Some _ _ _ Hz) as Hzl.
  all: destruct (hdr_eq base s fl Hseg Hhd (succ fl i) z Hz) as (w & Hw & E).
  all: cbn [Nat.add malloc_loop]; rewrite (bind_done _ _ _ _ _ E); cbn [h_size h_ptr].
  all: destruct (Z.leb_spec nunits z.2) as [Hle|Hlt].
  - left. by apply (walk_found base s fl A brk nunits i x z w.1).
  - right. apply dist_0 in Hd as Hj; [|done|done]. msimp. rewrite Hfp. assert (z = y) as -> by congruence.
    rewrite Z.eqb_refl. split; [|done]. intros j c Hc Hdj.
    assert (succ fl i = j) as <- by (apply (dist_0 fl); [done|by eapply lookup_lt_Some|lia]). congruence.
  - left. by apply (walk_found base s fl A brk nunits i x z w.1).
  - assert (Hne : succ fl i <> f) by (intros Heq; rewrite Heq in Hd; unfold dist in Hd; case_decide; lia).
    assert (Hzy : z.1 <> y.1) by (by apply (addr_index_ne base s fl A brk (succ fl i) f)).
    rewrite (dist_succ fl) in Hd by done. msimp. rewrite Hfp. destruct (Z.eqb_spec z.1 y.1); [done|].
    destruct (IH (succ fl i) z w) as [?|[Hall E']]; [lia|done|done|by left|right]. split; [|done].
    intros j c Hc Hdj. destruct (decide (succ fl i = j)) as [<-|Hij]; [congruence|].
    rewrite (dist_succ fl) in Hdj by (done || by eapply lookup_lt_Some). apply (Hall j c Hc). lia.
Qed.

(** What is left of a free block when [n] headers are cut off its end, and the
    piece. *)
Definition cut (v : blk) (n : Z) : list blk * blk :=
  if v.2 =? n then ([], v) else ([(v.1, v.2 - n)], (v.1 + 16 * (v.2 - n), n)).

Lemma carve_eq base s l1 u v l2 h n :
  seg (hdrs s) (l1 ++ u :: v :: l2) base -> sorted (l1 ++ u :: v :: l2) ->
  Forall (fun c => 0 <= c.2) (l1 ++ u :: v :: l2) ->
  hdrs s !! v.1 = Some h -> h_size h = v.2 -> 0 < n <= v.2 ->
  let '(vs, r) := cut v n in
  exists h', carve n u.1 v.1 h s = Done (r.1 + 16) (set_freep u.1 (set_hdrs h' s)) /\
    seg h' (l1 ++ u :: vs ++ l2) base /\ (exists k, h' !! r.1 = Some k /\ h_size k = n) /\
    forall a, a <> u.1 -> ~ v.1 <= a < blk_end v -> h' !! a = hdrs s !! a.
Proof.
  intros Hseg Hsort Hpos Hh Hsz Hn.
  pose proof Hseg as [Hs1 (Hu & Hv & Hs2)]%seg_app. cbn [hd_addr] in Hs1, Hu.
  assert (h = mk_header (hd_addr l2 base) v.2) as -> by congruence.
  pose proof Hsort as (_ & [[Huv _]%Forall_cons [Hvl _]] & Hx)%sorted_app.
  apply Forall_app in Hpos as [Hp1 [Hpu [Hpv Hp2]%Forall_cons]%Forall_cons].
  assert (H1 : forall c, c ∈ l1 -> c.1 < u.1).
  { intros c Hc. rewrite Forall_forall in Hx, Hp1. specialize (Hx c Hc). specialize (Hp1 c Hc).
    apply Forall_cons in Hx as [Hx _]. unfold before, blk_end in Hx. lia. }
  assert (H2 : forall c, c ∈ l2 -> blk_end v < c.1) by (intros c Hc; rewrite Forall_forall in Hvl; by apply Hvl).
  assert (Huv' : u.1 < v.1) by (unfold before, blk_end in Huv; lia).
  assert (Hve : blk_end v = v.1 + 16 * v.2) by done.
  unfold cut, carve. cbn [h_size h_ptr]. destruct (Z.eqb_spec v.2 n) as [E|E].
  - erewrite bind_done; [|mstep upd_hdr_eq; [reflexivity|exact Hu]]. cbn [hdrs set_hdrs]. msimp.
    eexists. split; [reflexivity|]. split_and!.
    + apply seg_app. split; [|split; [apply lookup_insert_eq|]];
        (eapply seg_frame; [eassumption|]); intros c Hc; rewrite lookup_insert_ne; [done| |done|].
      * specialize (H1 c Hc). lia.
      * specialize (H2 c Hc). lia.
    + rewrite lookup_insert_ne by lia. eauto.
    + intros a Ha _. by rewrite lookup_insert_ne by done.
  - set (r := v.1 + 16 * (v.2 - n)). assert (Hr : v.1 < r < blk_end v) by (unfold r, blk_end; lia).
    erewrite bind_done; [|mstep upd_hdr_eq; [unfold new_hdr; msimp; reflexivity|exact Hv]].
    cbn [hdrs set_hdrs]. msimp. eexists. split; [reflexivity|].
    assert (Hfr : forall k k' a, a <> v.1 -> a <> r -> <[r := k]> (<[v.1 := k']> (hdrs s)) !! a = hdrs s !! a)
      by (intros; by rewrite !lookup_insert_ne by done).
    split_and!.
    + apply seg_app. split; [eapply seg_frame; [exact Hs1|]|split; [|split]].
      * intros c Hc. specialize (H1 c Hc). apply Hfr; lia.
      * rewrite Hfr by lia. exact Hu.
      * rewrite lookup_insert_ne by (cbn; lia). apply lookup_insert_eq.
      * eapply seg_frame; [exact Hs2|]. intros c Hc. specialize (H2 c Hc). apply Hfr; lia.
    + eexists. split; [apply lookup_insert_eq|done].
    + intros a _ Ha. apply Hfr; lia.
Qed.

Lemma room_le x z z' b : z <= z' -> room x z b -> room x z' b.
Proof. unfold room. lia. Qed.

(** The blocks before and after [v] in the list do not overlap it. *)
Lemma sorted_disjoint l1 v l2 :
  sorted (l1 ++ v :: l2) -> Forall (disjoint v) (l1 ++ l2).
Proof.
  intros (_ & [Hv _] & H1)%sorted_app. apply Forall_app. split.
  - eapply Forall_impl; [exact H1|]. intros c [Hc _]%Forall_cons. unfold before, disjoint in *. lia.
  - eapply Forall_impl; [exact Hv|]. intros c Hc. unfold before, disjoint in *. lia.
Qed.

Lemma cut_facts v n :
  0 < n <= v.2 -> let '(vs, r) := cut v n in
  r.2 = n /\ v.1 <= r.1 /\ blk_end r = blk_end v /\
  ((vs = [] /\ r.1 = v.1) \/ exists w, vs = [w] /\ w.1 = v.1 /\ 0 < w.2 /\ blk_end w = r.1).
Proof.
  intros Hn. unfold cut, blk_end. destruct (Z.eqb_spec v.2 n); cbn; [split_and!; try done; by left|].
  split_and!; [done|lia|lia|]. right. exists (v.1, v.2 - n). cbn. split_and!; [done|done|lia|lia].
Qed.

(** A block inside [v]. *)
Definition inside (w v : blk) : Prop := v.1 <= w.1 /\ blk_end w <= blk_end v /\ 0 <= w.2.

Lemma disjoint_inside a w v : disjoint a v -> inside w v -> disjoint a w.
Proof. unfold disjoint, inside, blk_end. lia. Qed.

(** The list with [v] replaced by what is left of it. *)
Lemma cut_sorted k v l2 vs r n :
  sorted (k ++ v :: l2) -> 0 < n <= v.2 -> cut v n = (vs, r) ->
  sorted (k ++ vs ++ l2) /\ Forall (fun c => inside c v /\ 0 < c.2 /\ blk_end c = r.1) vs /\
  inside r v /\ r.2 = n /\ forall x, in_blk x v <-> in_blks x vs \/ in_blk x r.
Proof.
  intros (Hs1 & [Hv Hs2] & H1)%sorted_app Hn E. pose proof (cut_facts v n Hn) as Hc. rewrite E in Hc.
  destruct Hc as (Hr2 & Hr1 & Hre & Hvs).
  assert (Hin : inside r v) by (unfold inside; lia).
  destruct Hvs as [[-> Hr]|(w & -> & Hw1 & Hw2 & Hwe)].
  - split_and!; try done; [|intros x; rewrite in_blks_nil; unfold in_blk; rewrite Hr, Hre; tauto].
    apply sorted_app. split_and!; [done|done|]. eapply Forall_impl; [exact H1|]. by intros c [_ ?]%Forall_cons.
  - assert (Hwv : inside w v) by (unfold inside; unfold blk_end in *; lia).
    split_and!; try done.
    + apply sorted_app. split_and!; [done|split; [|done]|].
      * eapply Forall_impl; [exact Hv|]. intros c Hc. unfold before, inside in *. lia.
      * eapply Forall_impl; [exact H1|]. intros c [Hc ?]%Forall_cons. constructor; [|done].
        unfold before, inside in *. lia.
    + by constructor.
    + intros x. rewrite in_blks_cons, in_blks_nil. unfold in_blk, blk_end in *. lia.
Qed.

(** The invariant after [carve]. *)
Lemma heap_ok_cut base s l1 u v l2 A brk n vs r h' :
  heap_ok base s (l1 ++ u :: v :: l2) A brk -> 0 < n <= v.2 -> cut v n = (vs, r) ->
  seg h' (l1 ++ u :: vs ++ l2) base -> (exists k, h' !! r.1 = Some k /\ h_size k = n) ->
  (forall a, a <> u.1 -> ~ v.1 <= a < blk_end v -> h' !! a = hdrs s !! a) ->
  heap_ok base (set_freep u.1 (set_hdrs h' s)) (l1 ++ u :: vs ++ l2) (r :: A) brk.
Proof.
  intros [H0 Hbrk (bs & Hfl & Hbs) _ Hsort _ HA HhA Hap Hd] Hn Ecut Hseg Hk Hframe.
  assert (Hfl1 : (l1 = [] /\ u = (base, 0) /\ bs = v :: l2) \/ exists l, l1 = (base, 0) :: l /\ bs = l ++ u :: v :: l2)
    by (destruct l1; cbn in Hfl; simplify_eq; eauto).
  rewrite (app_assoc l1 [u] (v :: l2) : l1 ++ u :: v :: l2 = _) in Hsort, Hd.
  destruct (cut_sorted _ _ _ _ _ _ Hsort Hn Ecut) as (Hs' & Hvs & Hrin & Hrn & _). apply sorted_disjoint in Hsort.
  assert (Hrv : room (base + 16) brk v /\ Forall (room (base + 16) brk) l2).
  { destruct Hfl1 as [(_ & _ & ->)|(l & _ & ->)]; [by apply Forall_cons in Hbs|].
    by apply Forall_app in Hbs as [_ [_ [? ?]%Forall_cons]%Forall_cons]. }
  destruct Hrv as [Hrv Hr2].
  assert (Hrvs : Forall (room (base + 16) brk) vs).
  { eapply Forall_impl; [exact Hvs|]. intros c (Hc & ? & _). unfold inside, room in *. lia. }
  assert (HAv : Forall (fun a => 0 < a.2 /\ disjoint a v /\ Forall (disjoint a) (l1 ++ [u] ++ l2)) A).
  { rewrite Forall_forall in HA, Hd |- *. intros a Ha. specialize (Hd a Ha).
    apply Forall_app in Hd as [Hd1 [? Hd2]%Forall_cons]. destruct (HA a Ha). split_and!; [done|done|].
    rewrite app_assoc. by apply Forall_app. }
  rewrite Forall_forall in HA, HhA, HAv. split; try done.
  - destruct Hfl1 as [(-> & -> & ->)|(l & -> & ->)]; eexists; (split; [reflexivity|]).
    + by apply Forall_app.
    + apply Forall_app in Hbs as [? [? _]%Forall_cons]. apply Forall_app. split; [done|].
      constructor; [done|]. by apply Forall_app.
  - by rewrite (app_assoc l1 [u] (vs ++ l2) : l1 ++ u :: vs ++ l2 = _).
  - cbn. rewrite fmap_app. apply elem_of_app. right. apply list_elem_of_here.
  - constructor; [unfold room, inside in *; lia|]. by apply Forall_forall.
  - constructor; [destruct Hk as (k & ? & ?); exists k; split; [done|congruence]|]. apply Forall_forall.
    intros a Ha. destruct (HhA a Ha) as (k & Hka & ?). exists k. split; [|done]. cbn.
    destruct (HAv a Ha) as (? & Hav & [_ [Hau _]%Forall_cons]%Forall_app). destruct (HA a Ha) as (_ & ? & _).
    rewrite Hframe; [done| |unfold disjoint, blk_end in *; lia].
    destruct Hfl1 as [(_ & -> & _)|(l & _ & ->)]; [cbn; lia|].
    apply Forall_app in Hbs as [_ [[? _] _]%Forall_cons]. unfold disjoint, blk_end in Hau. lia.
  - split; [|done]. apply Forall_forall. intros a Ha. destruct (HAv a Ha) as (? & Hav & _).
    apply disjoint_sym. by eapply disjoint_inside.
  - rewrite (app_assoc l1 [u] (vs ++ l2) : l1 ++ u :: vs ++ l2 = _). apply Forall_app in Hsort as [Hd1 Hd2].
    constructor.
    + assert (Hr : forall c, disjoint v c -> disjoint r c)
        by (intros c Hc; apply disjoint_sym; eapply disjoint_inside; [by apply disjoint_sym|done]).
      apply Forall_app. split; [|apply Forall_app; split].
      * eapply Forall_impl; [exact Hd1|exact Hr].
      * eapply Forall_impl; [exact Hvs|]. intros c (_ & _ & Hc). unfold disjoint. lia.
      * eapply Forall_impl; [exact Hd2|exact Hr].
    + apply Forall_forall. intros a Ha. destruct (HAv a Ha) as (? & Hav & Hal).
      rewrite !Forall_app in *. destruct Hal as (? & ? & ?). split_and!; try done.
      eapply Forall_impl; [exact Hvs|]. intros c (? & _). by eapply disjoint_inside.
Qed.

Lemma carve_spec base s l1 u v l2 A brk h n :
  heap_ok base s (l1 ++ u :: v :: l2) A brk -> hdrs s !! v.1 = Some h -> h_size h = v.2 -> 0 < n <= v.2 ->
  exists r h' fl', carve n u.1 v.1 h s = Done (r + 16) (set_freep u.1 (set_hdrs h' s)) /\
    heap_ok base (set_freep u.1 (set_hdrs h' s)) fl' ((r, n) :: A) brk /\
    (forall x, in_blks x fl' <-> in_blks x (l1 ++ u :: v :: l2) /\ ~ in_blk x (r, n)) /\
    (forall x, in_blk x (r, n) -> in_blks x (l1 ++ u :: v :: l2)).
Proof.
  intros Hok Hh Hsz Hn.
  pose proof (carve_eq base s l1 u v l2 h n (ho_seg _ _ _ _ _ Hok) (ho_sorted _ _ _ _ _ Hok)
                (heap_ok_pos _ _ _ _ _ Hok) Hh Hsz Hn) as Hc.
  pose proof (ho_sorted _ _ _ _ _ Hok) as Hsort.
  rewrite (app_assoc l1 [u] (v :: l2) : l1 ++ u :: v :: l2 = _) in Hsort.
  destruct (cut v n) as [vs r] eqn:Ecut. destruct Hc as (h' & E & Hseg' & Hk & Hframe).
  destruct (cut_sorted _ _ _ _ _ _ Hsort Hn Ecut) as (_ & Hvs & Hrin & Hrn & Hmem).
  apply sorted_disjoint in Hsort.
  exists r.1, h', (l1 ++ u :: vs ++ l2). replace (r.1, n) with r by (destruct r; cbn in *; congruence).
  split_and!; [done|by eapply heap_ok_cut| |].
  2:{ intros x Hx. rewrite in_blks_app, !in_blks_cons, Hmem. tauto. }
  intros x. rewrite !in_blks_app, !in_blks_cons, in_blks_app, Hmem.
  assert (Hout : in_blk x r -> ~ in_blks x ((l1 ++ [u]) ++ l2)).
  { intros Hx (c & Hc & Hxc). rewrite Forall_forall in Hsort. specialize (Hsort c Hc).
    unfold in_blk, disjoint, inside in *. lia. }
  rewrite !in_blks_app, in_blks_cons, in_blks_nil in Hout.
  assert (Hvr : in_blks x vs -> ~ in_blk x r).
  { intros (c & Hc & Hxc). rewrite Forall_forall in Hvs. destruct (Hvs c Hc) as (_ & _ & He).
    unfold in_blk in *. lia. }
  tauto.
Qed.

(** A place in the list and its neighbour. *)
Lemma split_pair (l : list blk) t u v :
  l !! t = Some u -> l !! S t = Some v -> l = take t l ++ u :: v :: drop (S (S t)) l.
Proof.
  intros Hu Hv. rewrite <- (take_drop_middle l t u Hu) at 1. do 2 f_equal.
  rewrite <- (drop_S l v (S t)) by done. done.
Qed.

Lemma heap_ok_same base s s' fl A brk :
  heap_ok base s fl A brk -> hdrs s' = hdrs s -> freep s' = freep s -> heap_ok base s' fl A brk.
Proof. intros [? ? ? ? ? ? ? ? ? ?] E1 E2. split; rewrite ?E1, ?E2; done. Qed.

(** What [morecore] asks for. *)
Definition core_units (nunits : Z) : Z := Z.max 4096 nunits.

(** [sbrk] keeps its promise: it fails, or the [n] headers it hands out lie
    above everything so far. *)
Definition sbrk_ok (base brk n : Z) (s : heap) : Prop :=
  match sbrks s with
  | p :: _ => p = -1 \/ (brk <= p /\ p + 16 * n <= base + 2 ^ 36)
  | [] => True
  end.

(** Fresh memory is a block in use that nobody knows. *)
Lemma heap_ok_fresh base s fl A brk p n h :
  heap_ok base s fl A brk -> brk <= p -> p + 16 * n <= base + 2 ^ 36 -> 0 < n -> h_size h = n ->
  heap_ok base (set_hdrs (<[p := h]> (hdrs s)) s) fl ((p, n) :: A) (p + 16 * n).
Proof.
  intros [H0 Hbrk (bs & Hfl & Hbs) Hseg Hsort Hfp HA HhA Hap Hd] Hp Hlim Hn Hh.
  assert (Hup : forall l, Forall (room (base + 16) brk) l -> Forall (room (base + 16) (p + 16 * n)) l).
  { intros l Hl. eapply Forall_impl; [exact Hl|]. intros c. apply room_le. lia. }
  assert (Hlow : forall c, c ∈ fl -> c.1 < p /\ blk_end c <= p).
  { intros c Hc. subst fl. apply elem_of_cons in Hc as [->|Hc]; [unfold blk_end; cbn; lia|].
    rewrite Forall_forall in Hbs. destruct (Hbs c Hc). unfold blk_end in *. lia. }
  assert (HlowA : forall a, a ∈ A -> a.1 < p /\ blk_end a <= p).
  { intros a Ha. rewrite Forall_forall in HA. destruct (HA a Ha). unfold blk_end in *. lia. }
  split; try done; [lia|by exists bs; split; [|apply Hup]| | | | |].
  - eapply seg_frame; [done|]. intros c Hc. destruct (Hlow c Hc). cbn. by rewrite lookup_insert_ne by lia.
  - constructor; [|by apply Hup]. unfold room, blk_end. cbn. lia.
  - constructor; [exists h; split; [apply lookup_insert_eq|done]|]. rewrite Forall_forall in HhA |- *.
    intros a Ha. destruct (HhA a Ha) as (k & ? & ?), (HlowA a Ha). exists k. cbn. by rewrite lookup_insert_ne by lia.
  - split; [|done]. apply Forall_forall. intros a Ha. destruct (HlowA a Ha). unfold disjoint. cbn. lia.
  - constructor; [|done]. apply Forall_forall. intros c Hc. destruct (Hlow c Hc). unfold disjoint. cbn. lia.
Qed.

Lemma morecore_eq n s :
  morecore n s = (p <- sbrk (core_units n * 16) ;;
                  if p =? -1 then ret 0 else new_hdr p (core_units n) ;; free (p + 16) ;; gets freep) s.
Proof.
  unfold morecore. replace (if n <? 4096 then 4096 else n) with (core_units n); [done|].
  unfold core_units. destruct (Z.ltb_spec n 4096); lia.
Qed.

Lemma morecore_fails n s : sbrks s = [] -> morecore n s = Done 0 (ask (i32 (core_units n * 16)) s).
Proof.
  intros Es. assert (E : sbrk (core_units n * 16) s = Done (-1) (ask (i32 (core_units n * 16)) s))
    by (unfold sbrk; msimp; cbn [sbrks ask]; by rewrite Es).
  rewrite morecore_eq. by mstep E.
Qed.

Lemma morecore_spec base s fl A brk nunits :
  heap_ok base s fl A brk -> 0 < nunits -> sbrk_ok base brk (core_units nunits) s ->
  exists s', asked s' = asked s ++ [i32 (core_units nunits * 16)] /\
    ((morecore nunits s = Done 0 s' /\ heap_ok base s' fl A brk) \/
     (exists p fl', morecore nunits s = Done (freep s') s' /\ brk <= p /\
        heap_ok base s' fl' A (p + 16 * core_units nunits) /\
        (forall x, in_blks x fl' <-> in_blks x fl \/ in_blk x (p, core_units nunits)) /\
        (exists c, c ∈ fl' /\ nunits <= c.2) /\ (length fl' <= S (length fl))%nat)).
Proof.
  intros Hok Hn Hsb. unfold sbrk_ok in Hsb. destruct (sbrks s) as [|p l] eqn:Es.
  - exists (ask (i32 (core_units nunits * 16)) s). split; [done|left].
    split; [by apply morecore_fails|by eapply heap_ok_same].
  - set (s0 := set_sbrks l (ask (i32 (core_units nunits * 16)) s)).
    assert (E0 : sbrk (core_units nunits * 16) s = Done p s0)
      by (unfold sbrk; msimp; cbn [sbrks ask]; rewrite Es; by msimp).
    rewrite morecore_eq. mstep E0. destruct (Z.eqb_spec p (-1)) as [->|Hp].
    { exists s0. split; [done|left]. split; [done|by eapply heap_ok_same]. }
    destruct Hsb as [?|[Hp1 Hp2]]; [done|].
    assert (Hok0 : heap_ok base s0 fl A brk) by (by eapply heap_ok_same).
    assert (Hok1 := heap_ok_fresh _ _ _ _ _ p (core_units nunits)
      (set_size (core_units nunits) (default (mk_header 0 0) (hdrs s0 !! p))) Hok0 Hp1 Hp2 ltac:(unfold core_units; lia) eq_refl).
    destruct (free_spec _ _ _ _ _ _ Hok1) as (h' & fl' & q & E & Hok' & Hin & (c & Hc & Hcn) & Hlen).
    cbn [fst snd] in E, Hcn. eexists. split; [|right].
    2:{ exists p, fl'. split; [unfold new_hdr; msimp; mstep E; reflexivity|].
        split_and!; try done. exists c. split; [done|]. unfold core_units in Hcn. lia. }
    done.
Qed.

Lemma dist_max l f j :
  (f < length l)%nat -> (j < length l)%nat -> (dist l (succ l f) j <= dist l (succ l f) f)%nat.
Proof. intros. unfold dist, succ. repeat case_decide; lia. Qed.

(** [freep] and the block after it. *)
Lemma freep_at base s fl A brk :
  heap_ok base s fl A brk ->
  exists f y z, fl !! f = Some y /\ freep s = y.1 /\ fl !! succ fl f = Some z /\ 0 < y.1 /\
    hdr y.1 s = Done (mk_header z.1 y.2) s.
Proof.
  intros Hok. pose proof Hok as [H0 _ (bs & Hfl & _) Hseg Hsort Hfp _ _ _ _].
  apply list_elem_of_fmap in Hfp as (y & Hy & Hin). apply list_elem_of_lookup_1 in Hin as [f Hf].
  assert (Hhd : hd_addr fl base = base) by (by rewrite Hfl).
  destruct (hdr_eq base s fl Hseg Hhd f y Hf) as (z & Hz & E).
  exists f, y, z. split_and!; try done.
  pose proof (base_le base s fl Hseg Hhd Hsort (heap_ok_pos _ _ _ _ _ Hok) f y Hf). lia.
Qed.

(** One walk around the circle from [freep]. *)
Lemma malloc_round base s fl A brk n y z f fuel :
  heap_ok base s fl A brk -> 0 < n -> fl !! f = Some y -> freep s = y.1 -> fl !! succ fl f = Some z ->
  (length fl <= fuel)%nat ->
  (exists r s' fl', malloc_loop fuel n y.1 z.1 s = Done (r + 16) s' /\ heap_ok base s' fl' ((r, n) :: A) brk /\
     asked s' = asked s /\ (forall x, in_blks x fl' <-> in_blks x fl /\ ~ in_blk x (r, n)) /\
     (forall x, in_blk x (r, n) -> in_blks x fl)) \/
  (Forall (fun c => c.2 < n) fl /\
   exists fuel', (fuel <= fuel' + length fl)%nat /\ malloc_loop fuel n y.1 z.1 s =
     (p <- morecore n ;; if p =? 0 then ret 0 else h <- hdr p ;; malloc_loop fuel' n p (h_ptr h)) s).
Proof.
  intros Hok Hn Hf Hfp Hz Hfuel. pose proof (lookup_lt_Some _ _ _ Hf). pose proof (lookup_lt_Some _ _ _ Hz).
  pose proof (dist_lt fl (succ fl f) f ltac:(done) ltac:(done)) as Hd.
  set (fuel' := (fuel - dist fl (succ fl f) f - 1)%nat).
  assert (Hfe : (dist fl (succ fl f) f + S fuel')%nat = fuel) by (unfold fuel'; lia).
  destruct (malloc_walk base s fl A brk n fuel' f y z f y Hok Hn Hf Hfp Hf Hz)
    as [(t & u & v & h & Hu & Hv & Hh & Hsz & Hle & E)|[Hall E]]; rewrite Hfe in E.
  - left. assert (Efl := split_pair fl t u v Hu Hv). rewrite Efl in Hok.
    destruct (carve_spec base s _ u v _ A brk h n Hok Hh Hsz ltac:(lia)) as (r & h' & fl' & Ec & Hok' & Hin & Hsub).
    exists r, (set_freep u.1 (set_hdrs h' s)), fl'. rewrite E. by rewrite Efl.
  - right. split; [|exists fuel'; split; [unfold fuel'; lia|exact E]].
    apply Forall_lookup. intros j c Hc. apply (Hall j c Hc). apply dist_max; [done|by eapply lookup_lt_Some].
Qed.

Lemma malloc_loop_spec base s fl A brk n y z f fuel :
  heap_ok base s fl A brk -> 0 < n -> (Forall (fun c => c.2 < n) fl -> sbrk_ok base brk (core_units n) s) ->
  fl !! f = Some y -> freep s = y.1 -> fl !! succ fl f = Some z -> (2 * length fl + 2 <= fuel)%nat ->
  (exists s', malloc_loop fuel n y.1 z.1 s = Done 0 s' /\ heap_ok base s' fl A brk /\
     Forall (fun c => c.2 < n) fl /\ asked s' = asked s ++ [i32 (core_units n * 16)]) \/
  (exists r s' fl' core brk', malloc_loop fuel n y.1 z.1 s = Done (r + 16) s' /\
     heap_ok base s' fl' ((r, n) :: A) brk' /\
     (forall x, in_blks x fl' <-> in_blks x (core ++ fl) /\ ~ in_blk x (r, n)) /\
     (forall x, in_blk x (r, n) -> in_blks x (core ++ fl)) /\
     ((core = [] /\ brk' = brk /\ asked s' = asked s) \/
      (exists p, Forall (fun c => c.2 < n) fl /\
         core = [(p, core_units n)] /\ brk <= p /\ brk' = p + 16 * core_units n /\
         asked s' = asked s ++ [i32 (core_units n * 16)]))).
Proof.
  intros Hok Hn Hsb Hf Hfp Hz Hfuel.
  destruct (malloc_round base s fl A brk n y z f fuel Hok Hn Hf Hfp Hz ltac:(lia))
    as [(r & s' & fl' & E & Hok' & Has & Hin & Hsub)|(Hall & fuel' & Hf' & E)].
  { right. exists r, s', fl', [], brk. split_and!; try done. by left. }
  destruct (morecore_spec base s fl A brk n Hok Hn (Hsb Hall)) as (s1 & Has & [[E1 Hok1]|(p & fl1 & E1 & Hp & Hok1 & Hin1 & (c & Hc & Hcn) & Hlen)]).
  { left. exists s1. rewrite E. split_and!; try done. by mstep E1. }
  right. destruct (freep_at _ _ _ _ _ Hok1) as (f1 & y1 & z1 & Hf1 & Hfp1 & Hz1 & Hpos & Eh).
  destruct (malloc_round base s1 fl1 A _ n y1 z1 f1 fuel' Hok1 Hn Hf1 Hfp1 Hz1 ltac:(lia))
    as [(r & s' & fl' & E2 & Hok' & Has' & Hin' & Hsub)|(Hall1 & _)].
  2:{ rewrite Forall_forall in Hall1. specialize (Hall1 c Hc). lia. }
  exists r, s', fl', [(p, core_units n)], (p + 16 * core_units n). rewrite E. mstep E1. rewrite Hfp1.
  destruct (Z.eqb_spec y1.1 0); [lia|]. mstep Eh. cbn [h_ptr]. split_and!; try done.
  - intros x. rewrite Hin', Hin1, in_blks_app, in_blks_cons, in_blks_nil. tauto.
  - intros x Hx%Hsub%Hin1. rewrite in_blks_app, in_blks_cons. tauto.
  - right. exists p. split_and!; try done. congruence.
Qed.

(** Before the first call of [malloc] there is no list. *)
Definition heap_inv (base : Z) (s : heap) (fl A : list blk) (brk : Z) : Prop :=
  heap_ok base s fl A brk \/
  (freep s = 0 /\ 0 < base /\ fl = [(base, 0)] /\ A = [] /\ brk = base + 16).

(** The first lines of [malloc]. *)
Lemma malloc_init base s fl A brk :
  heap_inv base s fl A brk ->
  exists s1, ((f <- gets freep ;;
      if f =? 0 then
        modify (set_freep base) ;; modify (fun s => set_hdrs (<[base := mk_header base 0]> (hdrs s)) s)
      else ret tt) s = Done tt s1) /\
    heap_ok base s1 fl A brk /\ sbrks s1 = sbrks s /\ asked s1 = asked s.
Proof.
  intros [Hok|(Hf & H0 & -> & -> & ->)]; msimp.
  - destruct (freep_at _ _ _ _ _ Hok) as (f & y & z & _ & Hfp & _ & Hpos & _). rewrite Hfp.
    destruct (Z.eqb_spec y.1 0); [lia|]. by exists s.
  - rewrite Hf. cbn [Z.eqb]. msimp. eexists. split; [reflexivity|]. split; [|done].
    split; try done; [lia|by exists []|split; [apply lookup_insert_eq|done]|apply list_elem_of_here].
Qed.

(** [morecore] with an [sbrk] that answers 0, the first time. *)
Definition stub_hdrs (base : Z) : gmap Z header :=
  <[base := mk_header 0 0]> (<[0 := mk_header base 4096]> {[base := mk_header base 0]}).

Lemma morecore_stub base n l :
  65536 < base -> 0 < n < 4096 ->
  morecore n (mk_heap {[base := mk_header base 0]} base (0 :: l) []) = Done base (mk_heap (stub_hdrs base) base l [65536]).
Proof.
  intros Hb Hn. set (h1 := {[base := mk_header base 0]} : gmap Z header).
  assert (L : forall x, <[0 := x]> h1 !! base = Some (mk_header base 0))
    by (intros x; rewrite lookup_insert_ne by lia; apply lookup_singleton_eq).
  set (s1 := mk_heap (<[0 := mk_header 0 4096]> h1) base l [65536]).
  assert (Ef : free_find (size (<[0 := mk_header 0 4096]> h1)) 0 base s1 = Done base s1).
  { rewrite map_size_insert_None by (unfold h1; by rewrite lookup_singleton_ne by lia). cbn [free_find].
    mstep (hdr_at s1 base _ (L _)). cbn [h_ptr]. destruct (Z.ltb_spec base 0); [lia|].
    destruct (Z.leb_spec base base); [|lia]. by destruct (Z.ltb_spec 0 base); [|lia]. }
  assert (El : link_block 0 base s1 = Done tt (mk_heap (stub_hdrs base) base l [65536])).
  { unfold link_block. mstep (hdr_at s1 0 (mk_header 0 4096)); [|apply lookup_insert_eq].
    mstep (hdr_at s1 base _ (L _)). cbn [h_ptr h_size]. destruct (Z.eqb_spec (0 + 16 * 4096) base); [lia|].
    mstep (upd_hdr_eq s1 0 (mk_header 0 4096) (set_ptr base)); [|apply lookup_insert_eq].
    cbn [s1 hdrs set_hdrs]. rewrite insert_insert_eq.
    mstep (hdr_at _ base); [|apply L]. mstep (hdr_at _ 0); [|apply lookup_insert_eq]. cbn [h_size].
    destruct (Z.eqb_spec (base + 16 * 0) 0); [lia|]. by rewrite (upd_hdr_eq _ base (mk_header base 0)) by apply L. }
  assert (Es : sbrk (4096 * 16) (mk_heap h1 base (0 :: l) []) = Done 0 (mk_heap h1 base l [65536])) by reflexivity.
  unfold morecore. destruct (Z.ltb_spec n 4096); [|lia]. mstep Es. cbn [Z.eqb].
  assert (Eh : new_hdr 0 4096 (mk_heap h1 base l [65536]) = Done tt s1).
  { unfold new_hdr. unfold modify. cbn [hdrs]. assert (h1 !! 0 = None) as -> by (apply lookup_singleton_ne; lia). done. }
  mstep Eh.
  assert (Efree : free (0 + 16) s1 = Done tt (mk_heap (stub_hdrs base) base l [65536])).
  { unfold free. change (0 + 16 - 16) with 0. msimp. cbn [hdrs freep s1]. fold s1. mstep Ef. by mstep El. }
  by mstep Efree.
Qed.

Lemma carve_rest s n h :
  hdrs s !! 0 = Some h ->
  (upd_hdr 0 (set_size (4096 - n)) ;; new_hdr (0 + 16 * (4096 - n)) n ;; ret (0 + 16 * (4096 - n))) s =
  Done (0 + 16 * (4096 - n)) (set_hdrs (<[0 + 16 * (4096 - n) := set_size n (default (mk_header 0 0)
    (<[0 := set_size (4096 - n) h]> (hdrs s) !! (0 + 16 * (4096 - n))))]> (<[0 := set_size (4096 - n) h]> (hdrs s))) s).
Proof. intros E. by mstep (upd_hdr_eq s 0 h (set_size (4096 - n)) E). Qed.

(** ** Properties *)

(** C16: [malloc] is correct and terminates.  From a heap that satisfies the
    invariant, for a request of at most 2^31 - 64 bytes, it returns.  If a free
    block is large enough, whatever [sbrk] does, it returns the address after
    the header of a block with room for [nbytes], cut from the free memory,
    which overlaps no other block in use and no free block, [sbrk] is not
    called, and the invariant holds again with that block in use.  If none is,
    and [sbrk] keeps its documented promise, it returns null with the heap as
    before, or such a block cut from the free memory with what [sbrk] gave (and
    was asked for).  The rest of the memory that [sbrk] gave is free afterwards.
    Larger requests are [malloc_huge_asks_negative]; the [sbrk] of this kernel
    breaks the promise, and that is [malloc_on_stub_sbrk]. *)
Theorem malloc_correct (base : Z) (s : heap) (fl A : list blk) (brk nbytes : Z)
    (Hinv : heap_inv base s fl A brk) (Hn : 0 <= nbytes <= 2 ^ 31 - 64) :
  let n := (nbytes + 15) / 16 + 1 in
  nbytes <= 16 * (n - 1) /\
  ((Forall (fun c => c.2 < n) fl -> sbrk_ok base brk (core_units n) s) ->
   (exists s', malloc base nbytes s = Done 0 s' /\ heap_ok base s' fl A brk /\ Forall (fun c => c.2 < n) fl) \/
   (exists r s' fl' core brk', malloc base nbytes s = Done (r + 16) s' /\
      heap_ok base s' fl' ((r, n) :: A) brk' /\
      (core = [] /\ brk' = brk /\ asked s' = asked s \/
       exists p, Forall (fun c => c.2 < n) fl /\
         core = [(p, core_units n)] /\ brk <= p /\ asked s' = asked s ++ [16 * core_units n]) /\
      (forall x, in_blks x fl' <-> in_blks x (core ++ fl) /\ ~ in_blk x (r, n)) /\
      (forall x, in_blk x (r, n) -> in_blks x (core ++ fl)))).
Proof.
  intros n. split; [unfold n; dlia|]. intros Hsb.
  destruct (malloc_init base s fl A brk Hinv) as (s1 & E & Hok & Hs & Has). rewrite bind_gets in E. cbv beta in E.
  assert (Hnu : u32 ((nbytes + 16 - 1) / 16 + 1) = n)
    by (unfold n; replace (nbytes + 16 - 1) with (nbytes + 15) by lia; apply u32_small; dlia).
  destruct (freep_at _ _ _ _ _ Hok) as (f & y & z & Hf & Hfp & Hz & _ & Eh).
  pose proof (heap_ok_size _ _ _ _ _ Hok) as Hsz.
  assert (Em : malloc base nbytes s = malloc_loop (2 * size (hdrs s1) + 4) n y.1 z.1 s1).
  { unfold malloc. msimp. mstep E. msimp. rewrite Hfp. mstep Eh. msimp. by rewrite Hnu. }
  destruct (malloc_loop_spec base s1 fl A brk n y z f (2 * size (hdrs s1) + 4) Hok)
    as [(s' & E' & Hok' & Hall & _)|(r & s' & fl' & core & brk' & E' & Hok' & Hin & Hsub & Hcore)];
    [unfold n; dlia|unfold sbrk_ok in *; by rewrite Hs|done|done|done|lia| |].
  - left. exists s'. by rewrite Em.
  - right. exists r, s', fl', core, brk'. rewrite Em. split_and!; try done.
    assert (Hi : i32 (core_units n * 16) = 16 * core_units n)
      by (rewrite i32_small; [lia|unfold core_units, n; dlia]).
    rewrite Hi, Has in Hcore. naive_solver.
Qed.

(** One block in use, and one that is free. *)
Definition heap_demo : heap :=
  mk_heap {[0x1000 := mk_header 0x2000 0; 0x2000 := mk_header 0x1000 4; 0x2040 := mk_header 0 4]} 0x1000 [] [].

Lemma heap_demo_ok : heap_ok 0x1000 heap_demo [(0x1000, 0); (0x2000, 4)] [(0x2040, 4)] 0x3000.
Proof.
  split; try done.
  - exists [(0x2000, 4)]. split; [done|]. constructor; [|done]. by unfold room.
  - split; [|by split]. constructor; [|done]. done.
  - apply list_elem_of_here.
  - constructor; [|done]. by unfold room.
  - constructor; [|done]. by eexists.
  - constructor; [|done]. constructor; [by right|]. constructor; [by right|done].
Qed.

(** The first request of a program, with memory from [sbrk], and one that the
    free block satisfies on a kernel whose [sbrk] answers 0. *)
Lemma malloc_correct_witness :
  let s := mk_heap ∅ 0 [0x10000] [] in
  let s0 := set_sbrks [0] heap_demo in
  ((exists s', malloc 0x1000 100 s = Done 0 s') \/ (exists r s', malloc 0x1000 100 s = Done (r + 16) s')) /\
  (exists r s', malloc 0x1000 20 s0 = Done (r + 16) s' /\ asked s' = []).
Proof.
  intros s s0. split.
  - destruct (malloc_correct 0x1000 s [(0x1000, 0)] [] 0x1010 100) as [_ H]; [right; repeat split; lia|lia|].
    destruct H as [(s' & E & _)|(r & s' & ? & ? & ? & E & _)];
      [intros _; right; split; vm_compute; discriminate|left; by exists s'|right; by exists r, s'].
  - destruct (malloc_correct 0x1000 s0 [(0x1000, 0); (0x2000, 4)] [(0x2040, 4)] 0x3000 20) as [_ H];
      [left; eapply heap_ok_same; [apply heap_demo_ok|done|done]|lia|].
    assert (Hno : ~ Forall (fun c : blk => c.2 < (20 + 15) / 16 + 1) [(0x1000, 0); (0x2000, 4)]).
    { intros Hall. apply Forall_cons in Hall as [_ Hall]. apply Forall_cons in Hall as [Hall _]. vm_compute in Hall. discriminate. }
    destruct H as [(s' & _ & _ & Hall)|(r & s' & ? & ? & ? & E & _ & [(_ & _ & Has)|(p & Hall & _)] & _)];
      [by intros Hall%Hno|done|by exists r, s'|done].
Defined.

(** C17: [free] is correct: freeing a block in use returns, the invariant holds
    again without it, and the free memory is what it was and the block.  The
    free list stays in order with no two blocks touching: neighbours have been
    merged. *)
Theorem free_correct (base : Z) (s : heap) (fl A : list blk) (b : blk) (brk : Z)
    (Hok : heap_ok base s fl (b :: A) brk) :
  exists s' fl', free (b.1 + 16) s = Done tt s' /\ heap_ok base s' fl' A brk /\
    forall x, in_blks x fl' <-> in_blks x fl \/ in_blk x b.
Proof.
  destruct (free_spec _ _ _ _ _ _ Hok) as (h' & fl' & p & E & Hok' & Hin & _).
  by exists (set_freep p (set_hdrs h' s)), fl'.
Qed.

Lemma free_correct_witness :
  exists s' fl', free (0x2040 + 16) heap_demo = Done tt s' /\ heap_ok 0x1000 s' fl' [] 0x3000.
Proof.
  destruct (free_correct 0x1000 heap_demo _ _ (0x2040, 4) 0x3000 heap_demo_ok) as (s' & fl' & E & H & _).
  by exists s', fl'.
Defined.

(** A request of 2^31 bytes makes [morecore] ask [sbrk] for a negative
    number of bytes, that is, to give memory back: the product is converted to
    an [int]. *)
Theorem malloc_huge_asks_negative (base : Z) (s : heap) (Hf : freep s = 0) (Hb : 0 < base) (Hs : sbrks s = []) :
  exists s', malloc base (2 ^ 31) s = Done 0 s' /\ asked s' = asked s ++ [16 - 2 ^ 31].
Proof.
  destruct (malloc_init base s [(base, 0)] [] (base + 16)) as (s1 & E & Hok & Hs1 & Has); [by right|].
  rewrite bind_gets in E. cbv beta in E.
  destruct (freep_at _ _ _ _ _ Hok) as (f & y & z & Hfi & Hfp & Hz & _ & Eh).
  pose proof (heap_ok_size _ _ _ _ _ Hok) as Hsz.
  assert (Em : malloc base (2 ^ 31) s = malloc_loop (2 * size (hdrs s1) + 4) (2 ^ 27 + 1) y.1 z.1 s1).
  { unfold malloc. msimp. mstep E. msimp. rewrite Hfp. mstep Eh. msimp. done. }
  assert (Hr0 : sbrks s1 = []) by congruence.
  destruct (malloc_round base s1 _ _ _ (2 ^ 27 + 1) y z f (2 * size (hdrs s1) + 4) Hok)
    as [(r & s' & fl' & _ & _ & _ & _ & Hsub)|(_ & fuel' & _ & E')]; [lia|done|done|done|lia| |].
  - exfalso. destruct (Hsub r) as (c & Hc & Hrc); [unfold in_blk, blk_end; cbn; lia|].
    apply list_elem_of_singleton in Hc as ->. unfold in_blk, blk_end in Hrc. cbn in Hrc. lia.
  - exists (ask (16 - 2 ^ 31) s1). rewrite Em, E'. split; [|cbn; by rewrite Has].
    by mstep (morecore_fails (2 ^ 27 + 1) s1 Hr0).
Qed.

Lemma malloc_huge_asks_negative_witness :
  exists s', malloc 0x1000 (2 ^ 31) (mk_heap ∅ 0 [] []) = Done 0 s' /\ asked s' = [16 - 2 ^ 31].
Proof. apply (malloc_huge_asks_negative 0x1000 (mk_heap ∅ 0 [] [])); [reflexivity|lia|reflexivity]. Defined.

(** The first [malloc] of a program on this kernel.  Its [sys_sbrk] answers 0,
    which is not the failure that [morecore] looks for: a header is written at
    address 0, and the block that is returned is in the first 64 kilobytes of
    the address space, memory that no one handed out. *)
Theorem malloc_on_stub_sbrk (base nbytes : Z) (l : list Z)
    (Hb : 65536 < base) (Hn : 0 <= nbytes < 65536 - 32) :
  let n := (nbytes + 15) / 16 + 1 in
  exists s', malloc base nbytes (mk_heap ∅ 0 (0 :: l) []) = Done (65536 - 16 * n + 16) s' /\
    hdrs s' !! 0 = Some (mk_header base (4096 - n)) /\ asked s' = [65536].
Proof.
  intros n. assert (Hn' : 0 < n < 4096) by (unfold n; dlia).
  assert (Hnu : u32 ((nbytes + 16 - 1) / 16 + 1) = n)
    by (unfold n; replace (nbytes + 16 - 1) with (nbytes + 15) by lia; apply u32_small; dlia).
  set (s1 := mk_heap {[base := mk_header base 0]} base (0 :: l) []). set (s2 := mk_heap (stub_hdrs base) base l [65536]).
  assert (Eb : hdr base s1 = Done (mk_header base 0) s1) by (apply hdr_at, lookup_singleton_eq).
  assert (E0 : hdrs s2 !! 0 = Some (mk_header base 4096))
    by (cbn; unfold stub_hdrs; rewrite lookup_insert_ne by lia; apply lookup_insert_eq).
  assert (Ei : (modify (set_freep base) ;;
                modify (fun s => set_hdrs (<[base := mk_header base 0]> (hdrs s)) s)) (mk_heap ∅ 0 (0 :: l) []) = Done tt s1)
    by reflexivity.
  assert (Em : malloc base nbytes (mk_heap ∅ 0 (0 :: l) []) = malloc_loop 6 n base base s1).
  { unfold malloc. msimp. cbn [freep Z.eqb]. mstep Ei. msimp. mstep Eb. msimp. rewrite Hnu. cbn [h_ptr].
    change (hdrs s1) with ({[base := mk_header base 0]} : gmap Z header). by rewrite map_size_singleton. }
  eexists. split.
  - replace (65536 - 16 * n + 16) with (0 + 16 * (4096 - n) + 16) by lia. rewrite Em. cbn [malloc_loop].
    mstep Eb. cbn [h_size]. destruct (Z.leb_spec n 0); [lia|]. msimp. change (freep s1) with base.
    rewrite Z.eqb_refl. mstep (morecore_stub base n l Hb Hn').
    destruct (Z.eqb_spec base 0); [lia|]. mstep (hdr_at s2 base (mk_header 0 0)); [|apply lookup_insert_eq].
    cbn [h_ptr]. mstep (hdr_at s2 0 _ E0). cbn [h_size].
    destruct (Z.leb_spec n 4096); [|lia]. unfold carve. cbn [h_size]. destruct (Z.eqb_spec 4096 n); [lia|].
    mstep (carve_rest s2 n (mk_header base 4096) E0). reflexivity.
  - cbn. split; [|done]. rewrite lookup_insert_ne by lia. by rewrite lookup_insert_eq.
Qed.
