(* ===== verification/Shell.v ===== *)
(** * The shell: [user/sh.c]

    The parser.  The line that [getcmd] read is a list of characters; a pointer
    into it is an index, and [es] is its length, where the NUL is.  [*ps] is the
    state of the parser.  [panic] prints a message and ends the process, which
    is the [Panic] outcome.  A command is an inductive value; the memory that
    holds it is assumed to be there ([malloc] returning null ends in a panic). *)

From S2P Require Import Prelude Types Strings.

(** ** Commands *)

(** An argument is the two pointers [argv[i]] and [eargv[i]]. *)
Inductive cmd :=
| EXEC (argv : list (nat * nat))
| REDIR (c : cmd) (file efile : nat) (mode fd : Z)
| PIPE (left right : cmd)
| LIST (left right : cmd)
| BACK (c : cmd).

Definition MAXARGS : nat := 10.

(** ** Parsing *)

Definition whitespace : list Z := [32; 9; 13; 10; 11].
Definition symbols : list Z := [60; 124; 62; 38; 59; 40; 41].

(** [strchr(l, c)] for a character that is not NUL. *)
Definition among (l : list Z) (c : Z) : bool := bool_decide (c ∈ l).

Definition word_char (c : Z) : bool := negb (among whitespace c) && negb (among symbols c).

(** How many of the first characters satisfy a test. *)
Fixpoint span (p : Z -> bool) (l : list Z) : nat :=
  match l with
  | [] => O
  | c :: l => if p c then S (span p l) else O
  end.

Section parser.
Variable buf : list Z.

Abbreviation P := (M nat).

Definition ch (s : nat) : Z := default 0 (buf !! s).

(** [while (s < es && strchr(whitespace, *s)) s++;] *)
Definition skip (s : nat) : nat := (s + span (among whitespace) (drop s buf))%nat.

(** The token at [s] (a symbol, 43 for two greater-than signs, 97 for a word, 0
    at the end), and where it ends. *)
Definition token_at (s : nat) : Z * nat :=
  let c := ch s in
  if c =? 0 then (c, s)
  else if among [124; 40; 41; 59; 38; 60] c then (c, S s)
  else if c =? 62 then (if ch (S s) =? 62 then (43, S (S s)) else (c, S s))
  else (97, (s + span word_char (drop s buf))%nat).

Definition gettoken : P (Z * nat * nat) :=
  s <- gets skip ;;
  let '(t, e) := token_at s in
  modify (fun _ => skip e) ;;
  ret (t, s, e).

Definition peek (toks : list Z) : P bool :=
  modify skip ;;
  gets (fun s => negb (ch s =? 0) && among toks (ch s)).

Fixpoint parseredirs (fuel : nat) (c : cmd) : P cmd :=
  match fuel with
  | O => diverge
  | S fuel =>
      b <- peek [60; 62] ;;
      if negb b then ret c else
      let* (tok, _, _) := gettoken in
      let* (t, q, eq) := gettoken in
      if negb (t =? 97) then panic "missing file for redirection" else
      parseredirs fuel
        (if tok =? 60 then REDIR c q eq O_RDONLY 0
         else if tok =? 62 then REDIR c q eq (Z.lor O_WRONLY O_CREATE) 1
         else if tok =? 43 then REDIR c q eq (Z.lor O_WRONLY O_CREATE) 1
         else c)
  end.

(** The redirections that [parseredirs] puts around a command share the one
    [execcmd] that the loop of [parseexec] is still filling, so that loop
    carries the arguments and the wrapping separately. *)
Fixpoint set_args (argv : list (nat * nat)) (c : cmd) : cmd :=
  match c with
  | EXEC _ => EXEC argv
  | REDIR c q eq mode fd => REDIR (set_args argv c) q eq mode fd
  | _ => c
  end.

Fixpoint parseexec_loop (fuel : nat) (argv : list (nat * nat)) (c : cmd) : P cmd :=
  match fuel with
  | O => diverge
  | S fuel =>
      b <- peek [124; 41; 38; 59] ;;
      if (b : bool) then ret (set_args argv c) else
      let* (tok, q, eq) := gettoken in
      if tok =? 0 then ret (set_args argv c) else
      if negb (tok =? 97) then panic "syntax" else
      let argv := argv ++ [(q, eq)] in
      if (MAXARGS <=? length argv)%nat then panic "too many args" else
      c <- parseredirs (S (length buf)) c ;;
      parseexec_loop fuel argv c
  end.

(** [while (peek(ps, es, "&"))] of [parseline]. *)
Fixpoint parse_backs (fuel : nat) (c : cmd) : P cmd :=
  match fuel with
  | O => diverge
  | S fuel =>
      b <- peek [38] ;;
      if negb b then ret c else
      gettoken ;;
      parse_backs fuel (BACK c)
  end.

Fixpoint parseline (fuel : nat) : P cmd :=
  match fuel with
  | O => diverge
  | S fuel =>
      c <- parsepipe fuel ;;
      c <- parse_backs (S (length buf)) c ;;
      b <- peek [59] ;;
      if negb b then ret c else
      gettoken ;;
      r <- parseline fuel ;;
      ret (LIST c r)
  end
with parsepipe (fuel : nat) : P cmd :=
  match fuel with
  | O => diverge
  | S fuel =>
      c <- parseexec fuel ;;
      b <- peek [124] ;;
      if negb b then ret c else
      gettoken ;;
      r <- parsepipe fuel ;;
      ret (PIPE c r)
  end
with parseexec (fuel : nat) : P cmd :=
  match fuel with
  | O => diverge
  | S fuel =>
      b <- peek [40] ;;
      if (b : bool) then parseblock fuel else
      c <- parseredirs (S (length buf)) (EXEC []) ;;
      parseexec_loop (S (length buf)) [] c
  end
with parseblock (fuel : nat) : P cmd :=
  match fuel with
  | O => diverge
  | S fuel =>
      b <- peek [40] ;;
      if negb b then panic "parseblock" else
      gettoken ;;
      c <- parseline fuel ;;
      b <- peek [41] ;;
      if negb b then panic "syntax - missing )" else
      gettoken ;;
      parseredirs (S (length buf)) c
  end.

(** [parsecmd] up to [nulterminate]. *)
Definition parse_buf : P cmd :=
  c <- parseline (4 * length buf + 4) ;;
  peek [] ;;
  s <- gets (fun s => s) ;;
  if negb (s =? length buf)%nat then panic "syntax" else
  ret c.
End parser.

(** ** NUL-terminating the strings *)

Fixpoint nulterminate (c : cmd) (buf : list Z) : list Z :=
  match c with
  | EXEC argv => foldl (fun b a => <[a.2 := 0]> b) buf argv
  | REDIR c _ efile _ _ => <[efile := 0]> (nulterminate c buf)
  | PIPE l r => nulterminate r (nulterminate l buf)
  | LIST l r => nulterminate r (nulterminate l buf)
  | BACK c => nulterminate c buf
  end.

(** The command, and the line with its NUL (at index [length line]) after
    [nulterminate]. *)
Definition parsecmd (line : list Z) : res nat (cmd * list Z) :=
  match parse_buf line 0%nat with
  | Done c s => Done (c, nulterminate c (line ++ [0])) s
  | Panic e => Panic e
  | Fault e => Fault e
  | Diverge | Block _ _ => Diverge
  end.

(** ** The parser ends, and its words are words *)

Lemma span_le p l : (span p l <= length l)%nat.
Proof. induction l as [|c l IH]; cbn; [lia|]. destruct (p c); cbn; lia. Qed.

Lemma span_all p l i c : (i < span p l)%nat -> l !! i = Some c -> p c = true.
Proof.
  revert i. induction l as [|d l IH]; intros i Hi Hc; [done|]. cbn in Hi. destruct (p d) eqn:E; [|lia].
  destruct i as [|i]; cbn in Hc; [congruence|]. apply (IH i); [lia|done].
Qed.

Lemma span_stop p l c : l !! span p l = Some c -> p c = false.
Proof. induction l as [|d l IH]; cbn; [done|]. destruct (p d) eqn:E; cbn; [done|congruence]. Qed.

Section facts.
Variable buf : list Z.
Hypothesis Hnul : Forall (fun c => c <> 0) buf.

Abbreviation len := (length buf).

Lemma ch_nul s : (s <= len)%nat -> ch buf s = 0 <-> s = len.
Proof.
  intros Hs. unfold ch. split; [|intros ->; by rewrite lookup_ge_None_2].
  destruct (buf !! s) as [c|] eqn:E; cbn.
  - intros ->. rewrite Forall_lookup in Hnul. by specialize (Hnul _ _ E).
  - apply lookup_ge_None in E. lia.
Qed.

Lemma skip_bounds s : (s <= len -> s <= skip buf s <= len)%nat.
Proof. intros Hs. unfold skip. pose proof (span_le (among whitespace) (drop s buf)). rewrite length_drop in *. lia. Qed.

(** A word of the line: a nonempty run of word characters that nothing
    continues. *)
Definition word_at (q e : nat) : Prop :=
  (q < e <= len)%nat /\ (forall i, (q <= i < e)%nat -> word_char (ch buf i) = true) /\
  (e = len \/ word_char (ch buf e) = false).

Lemma ch_lookup s c : buf !! s = Some c -> ch buf s = c.
Proof. unfold ch. by intros ->. Qed.

Lemma span_word s c :
  buf !! s = Some c -> word_char c = true -> word_at s (s + span word_char (drop s buf)).
Proof.
  intros Hc Hw. set (n := span word_char (drop s buf)).
  assert (Hn : (0 < n)%nat) by (unfold n; rewrite (drop_S _ _ _ Hc); cbn; rewrite Hw; lia).
  pose proof (span_le word_char (drop s buf)) as Hle. rewrite length_drop in Hle. fold n in Hle.
  pose proof (lookup_lt_Some _ _ _ Hc). split_and!; [lia|lia| |].
  - intros i Hi. destruct (lookup_lt_is_Some_2 buf i) as [d Hd]; [lia|]. rewrite (ch_lookup i d Hd).
    apply (span_all word_char (drop s buf) (i - s)); [fold n; lia|].
    rewrite lookup_drop. by replace (s + (i - s))%nat with i by lia.
  - destruct (decide (s + n = len)%nat) as [|Hne]; [by left|right].
    destruct (lookup_lt_is_Some_2 buf (s + n)) as [d Hd]; [lia|]. rewrite (ch_lookup _ d Hd).
    apply (span_stop word_char (drop s buf)). fold n. by rewrite lookup_drop.
Qed.

Lemma token_at_bounds s :
  (s <= len)%nat -> among whitespace (ch buf s) = false ->
  let '(t, e) := token_at buf s in
  (s <= e <= len)%nat /\ (t <> 0 -> (s < e)%nat) /\ (t = 0 <-> s = len) /\ (t = 97 -> word_at s e).
Proof.
  intros Hs Hw. pose proof (ch_nul s Hs) as H0. unfold token_at.
  destruct (Z.eqb_spec (ch buf s) 0) as [E0|E0]; [rewrite E0 in *; split_and!; [lia|lia|done|tauto|done]|].
  assert (Hlt : (s < len)%nat) by (destruct (decide (s = len)); [tauto|lia]).
  destruct (lookup_lt_is_Some_2 buf s Hlt) as [c Hc]. rewrite (ch_lookup s c Hc) in *.
  destruct (among [124; 40; 41; 59; 38; 60] c) eqn:E1.
  { split_and!; [lia|lia|lia|tauto|]. intros ->. by vm_compute in E1. }
  destruct (Z.eqb_spec c 62) as [->|E2].
  - destruct (Z.eqb_spec (ch buf (S s)) 62) as [E3|_]; [|split_and!; [lia|lia|lia|lia|done]].
    assert (S s <> len) by (intros E; apply ch_nul in E; lia). split_and!; [lia|lia|lia|lia|done].
  - assert (Hwc : word_char c = true).
    { unfold word_char. rewrite Hw. unfold among, symbols in *. rewrite bool_decide_eq_false in E1.
      rewrite bool_decide_false; [done|]. set_solver. }
    pose proof (span_word s c Hc Hwc) as Hwd. destruct Hwd as (? & ? & ?). split_and!; try lia; done.
Qed.

Lemma skip_white s : (s <= len)%nat -> among whitespace (ch buf (skip buf s)) = false.
Proof.
  intros Hs. unfold skip. set (n := span (among whitespace) (drop s buf)). unfold ch.
  destruct (buf !! (s + n)%nat) as [c|] eqn:E; [|done]. cbn.
  apply (span_stop (among whitespace) (drop s buf)). by rewrite lookup_drop.
Qed.

(** *** Programs that end *)

(** From position [s] the program panics, or returns at a later position with
    a result that satisfies [Q]. *)
Definition ends {A} (s : nat) (m : M nat A) (Q : A -> nat -> Prop) : Prop :=
  match m s with
  | Done a s' => (s <= s' <= len)%nat /\ Q a s'
  | Panic _ => True
  | _ => False
  end.

Lemma ends_bind {A B} s (m : M nat A) (k : A -> M nat B) Q R :
  ends s m Q -> (forall a s', (s <= s' <= len)%nat -> Q a s' -> ends s' (k a) R) -> ends s (bind m k) R.
Proof.
  unfold ends, bind. intros H1 H2. destruct (m s) as [a s'| | | |]; try done. cbn.
  destruct H1 as [Hs Hq]. specialize (H2 a s' Hs Hq). destruct (k a s') as [b s''| | | |]; try done.
  destruct H2. split; [lia|done].
Qed.

Lemma ends_ret {A} s (a : A) (Q : A -> nat -> Prop) : (s <= len)%nat -> Q a s -> ends s (ret a) Q.
Proof. intros. unfold ends. cbn. split; [lia|done]. Qed.

Lemma ends_panic {A} s msg (Q : A -> nat -> Prop) : ends s (panic msg) Q.
Proof. done. Qed.

(** What a token is. *)
Lemma ends_gettoken s :
  (s <= len)%nat ->
  ends s (gettoken buf) (fun r s' => (r.1.1 <> 0 -> (s < s')%nat) /\ (r.1.1 = 97 -> word_at r.1.2 r.2)).
Proof.
  intros Hs. unfold ends, gettoken. msimp. pose proof (skip_bounds s Hs) as Hk.
  pose proof (token_at_bounds (skip buf s) ltac:(lia) (skip_white s Hs)) as Ht.
  destruct (token_at buf (skip buf s)) as [t e]. destruct Ht as (He & Hpos & _ & Hw).
  pose proof (skip_bounds e ltac:(lia)). msimp. cbn. split; [lia|]. split; [|done].
  intros H0. specialize (Hpos H0). lia.
Qed.

(** A peek that succeeds stands before a token. *)
Lemma ends_peek s toks :
  (s <= len)%nat ->
  ends s (peek buf toks) (fun b s' => s' = skip buf s /\ b = negb (ch buf s' =? 0) && among toks (ch buf s')).
Proof.
  intros Hs. unfold ends, peek. msimp. cbn. pose proof (skip_bounds s Hs). split; [lia|done].
Qed.

Lemma skip_skip s : (s <= len)%nat -> skip buf (skip buf s) = skip buf s.
Proof.
  intros Hs. unfold skip at 1. pose proof (skip_white s Hs) as Hw. pose proof (skip_bounds s Hs).
  destruct (buf !! skip buf s) as [c|] eqn:E.
  - rewrite (drop_S _ _ _ E). cbn. rewrite (ch_lookup _ c E) in Hw. rewrite Hw. lia.
  - apply lookup_ge_None in E. rewrite drop_ge by done. cbn. lia.
Qed.

Lemma ends_next s s0 :
  (s0 <= len)%nat -> s = skip buf s0 -> ch buf s <> 0 ->
  ends s (gettoken buf) (fun r s' => (s < s')%nat /\ (r.1.1 = 97 -> word_at r.1.2 r.2)).
Proof.
  intros H0 -> Hc. pose proof (skip_bounds s0 H0). unfold ends, gettoken. msimp. rewrite skip_skip by done.
  pose proof (token_at_bounds (skip buf s0) ltac:(lia) (skip_white s0 H0)) as Ht.
  destruct (token_at buf (skip buf s0)) as [t e]. destruct Ht as (He & Hpos & Hz & Hw).
  pose proof (skip_bounds e ltac:(lia)). msimp. cbn.
  assert (t <> 0) as Ht0%Hpos by (intros Ht; apply Hz in Ht; apply Hc, ch_nul; lia).
  split; [lia|]. split; [lia|done].
Qed.

(** [if (peek(toks)) { gettoken(); ... }] *)
Lemma ends_when {A} s toks (no : M nat A) (yes : Z * nat * nat -> M nat A) Q :
  (s <= len)%nat -> (forall s', (s <= s' <= len)%nat -> ends s' no Q) ->
  (forall r s', (s < s' <= len)%nat -> ends s' (yes r) Q) ->
  ends s (b <- peek buf toks ;; if negb b then no else bind (gettoken buf) yes) Q.
Proof.
  intros Hs Hno Hyes. eapply ends_bind; [by apply ends_peek|]. intros b s1 Hs1 [Es1 ->].
  destruct (Z.eqb_spec (ch buf s1) 0) as [|Hne]; cbn [negb andb]; [apply Hno; lia|].
  destruct (among toks (ch buf s1)); cbn [negb]; [|apply Hno; lia].
  eapply ends_bind; [by eapply ends_next|]. intros r s2 Hs2 [Hlt _]. apply Hyes. lia.
Qed.

(** What a redirection opens and which descriptor it replaces. *)
Definition redir_kind (mode fd : Z) : Prop :=
  (mode = O_RDONLY /\ fd = 0) \/ (mode = Z.lor O_WRONLY O_CREATE /\ fd = 1).

(** Every command of the tree has words for arguments, few enough of them, and
    redirects standard input for reading or standard output for writing. *)
Fixpoint cmd_ok (c : cmd) : Prop :=
  match c with
  | EXEC argv => Forall (fun a => word_at a.1 a.2) argv /\ (length argv < MAXARGS)%nat
  | REDIR c q e mode fd => cmd_ok c /\ word_at q e /\ redir_kind mode fd
  | PIPE l r | LIST l r => cmd_ok l /\ cmd_ok r
  | BACK c => cmd_ok c
  end.

(** A predicate that redirections preserve. *)
Definition redir_closed (I : cmd -> Prop) : Prop :=
  forall c q e mode fd, I c -> word_at q e -> redir_kind mode fd -> I (REDIR c q e mode fd).

Lemma ends_parseredirs I fuel s c :
  redir_closed I -> I c -> (s <= len)%nat -> (len - s < fuel)%nat ->
  ends s (parseredirs buf fuel c) (fun c' _ => I c').
Proof.
  intros HI. revert s c. induction fuel as [|fuel IH]; intros s c Hc Hs Hf; [lia|]. cbn [parseredirs].
  apply ends_when; [done|by intros; apply ends_ret; [lia|]|]. intros [[tok q0] e0] s2 Hs2.
  eapply ends_bind; [apply ends_gettoken; lia|]. intros [[t q] e] s3 Hs3 [_ Hw]. cbn in Hw.
  destruct (Z.eqb_spec t 97); cbn [negb]; [|apply ends_panic].
  apply IH; [|lia|lia]. unfold redir_closed, redir_kind in HI.
  destruct (tok =? 60), (tok =? 62), (tok =? 43); auto.
Qed.

(** The command that [parseexec] is filling. *)
Fixpoint filling (c : cmd) : Prop :=
  match c with
  | EXEC argv => True
  | REDIR c q e mode fd => filling c /\ word_at q e /\ redir_kind mode fd
  | _ => False
  end.

Lemma filling_ok c argv :
  filling c -> Forall (fun a => word_at a.1 a.2) argv -> (length argv < MAXARGS)%nat -> cmd_ok (set_args argv c).
Proof. induction c; cbn; try done; naive_solver. Qed.

Lemma ends_parseexec_loop fuel s argv c :
  filling c -> Forall (fun a => word_at a.1 a.2) argv -> (length argv < MAXARGS)%nat ->
  (s <= len)%nat -> (len - s < fuel)%nat ->
  ends s (parseexec_loop buf fuel argv c) (fun c' _ => cmd_ok c').
Proof.
  revert s argv c. induction fuel as [|fuel IH]; intros s argv c Hc Ha Hl Hs Hf; [lia|]. cbn [parseexec_loop].
  eapply ends_bind; [by apply ends_peek|]. intros b s1 Hs1 _.
  destruct b; [apply ends_ret; [lia|by apply filling_ok]|].
  eapply ends_bind; [apply ends_gettoken; lia|]. intros [[t q] e] s2 Hs2 [Hlt Hw]. cbn in Hlt, Hw.
  destruct (Z.eqb_spec t 0); [apply ends_ret; [lia|by apply filling_ok]|].
  destruct (Z.eqb_spec t 97); cbn [negb]; [|apply ends_panic].
  destruct (Nat.leb_spec MAXARGS (length (argv ++ [(q, e)]))); [apply ends_panic|].
  eapply ends_bind; [apply (ends_parseredirs filling); [by intros ????????|done|lia|lia]|].
  intros c' s3 Hs3 Hc'. apply IH; [done| |done|lia|lia].
  apply Forall_app. split; [done|]. constructor; [by apply Hw|done].
Qed.

Lemma ends_parse_backs fuel s c :
  cmd_ok c -> (s <= len)%nat -> (len - s < fuel)%nat -> ends s (parse_backs buf fuel c) (fun c' _ => cmd_ok c').
Proof.
  revert s c. induction fuel as [|fuel IH]; intros s c Hc Hs Hf; [lia|]. cbn [parse_backs].
  apply ends_when; [done|by intros; apply ends_ret; [lia|]|]. intros _ s2 Hs2. by apply IH; [|lia|lia].
Qed.

Lemma ends_parsers fuel :
  (forall s, (s <= len)%nat -> (4 * (len - s) + 4 <= fuel)%nat -> ends s (parseline buf fuel) (fun c _ => cmd_ok c)) /\
  (forall s, (s <= len)%nat -> (4 * (len - s) + 3 <= fuel)%nat -> ends s (parsepipe buf fuel) (fun c _ => cmd_ok c)) /\
  (forall s, (s <= len)%nat -> (4 * (len - s) + 2 <= fuel)%nat -> ends s (parseexec buf fuel) (fun c _ => cmd_ok c)) /\
  (forall s, (s <= len)%nat -> (4 * (len - s) + 1 <= fuel)%nat -> ends s (parseblock buf fuel) (fun c _ => cmd_ok c)).
Proof.
  induction fuel as [|fuel (IHl & IHp & IHe & IHb)]; [split_and!; intros; lia|]. split_and!; intros s Hs Hf.
  - cbn [parseline]. eapply ends_bind; [apply IHp; lia|]. intros c s1 Hs1 Hc.
    eapply ends_bind; [apply ends_parse_backs; [done|lia|lia]|]. intros c' s2 Hs2 Hc'.
    apply ends_when; [lia|by intros; apply ends_ret; [lia|]|]. intros _ s4 Hs4.
    eapply ends_bind; [apply IHl; lia|]. intros r s5 Hs5 Hr. by apply ends_ret; [lia|].
  - cbn [parsepipe]. eapply ends_bind; [apply IHe; lia|]. intros c s1 Hs1 Hc.
    apply ends_when; [lia|by intros; apply ends_ret; [lia|]|]. intros _ s4 Hs4.
    eapply ends_bind; [apply IHp; lia|]. intros r s5 Hs5 Hr. by apply ends_ret; [lia|].
  - cbn [parseexec]. eapply ends_bind; [by apply ends_peek|]. intros b s1 Hs1 _. destruct b; [apply IHb; lia|].
    eapply ends_bind; [apply (ends_parseredirs filling); [by intros ????????|done|lia|lia]|]. intros c s2 Hs2 Hc.
    apply ends_parseexec_loop; [done|constructor|cbn; unfold MAXARGS; lia|lia|lia].
  - cbn [parseblock]. apply ends_when; [done|intros; apply ends_panic|]. intros _ s2 Hs2.
    eapply ends_bind; [apply IHl; lia|]. intros c s3 Hs3 Hc.
    apply ends_when; [lia|intros; apply ends_panic|]. intros _ s5 Hs5.
    apply (ends_parseredirs cmd_ok); [by intros ????????|done|lia|lia].
Qed.

Lemma ends_parse_buf : ends 0 (parse_buf buf) (fun c s => cmd_ok c /\ s = len).
Proof.
  unfold parse_buf. eapply ends_bind; [apply (proj1 (ends_parsers _)); lia|]. intros c s Hs Hc.
  eapply ends_bind; [apply ends_peek; lia|]. intros _ s1 Hs1 _.
  unfold ends. msimp. destruct (Nat.eqb_spec s1 len); cbn [negb]; [|done]. cbn. split; [lia|done].
Qed.

(** *** The strings after [nulterminate] *)

Fixpoint tokens (c : cmd) : list (nat * nat) :=
  match c with
  | EXEC argv => argv
  | REDIR c q e _ _ => tokens c ++ [(q, e)]
  | PIPE l r | LIST l r => tokens l ++ tokens r
  | BACK c => tokens c
  end.

Lemma cmd_ok_tokens c : cmd_ok c -> Forall (fun a => word_at a.1 a.2) (tokens c).
Proof.
  induction c; cbn; [tauto| | | |done]; intros Hok; apply Forall_app; (split; [(apply IHc || apply IHc1); apply Hok|]).
  - constructor; [apply Hok|done].
  - apply IHc2, Hok.
  - apply IHc2, Hok.
Qed.

Lemma nulterminate_tokens c b : nulterminate c b = foldl (fun b a => <[a.2 := 0]> b) b (tokens c).
Proof.
  revert b. induction c as [|c IH|l IHl r IHr|l IHl r IHr|c IH]; intros b; cbn; [done| | | |done].
  - by rewrite foldl_app, IH.
  - by rewrite foldl_app, IHl, IHr.
  - by rewrite foldl_app, IHl, IHr.
Qed.

(** A NUL is written at the end of each token and nowhere else. *)
Lemma foldl_nul (l : list (nat * nat)) (b : list Z) i :
  (i < length b)%nat ->
  foldl (fun b a => <[a.2 := 0]> b) b l !! i = if decide (i ∈ (snd <$> l : list nat)) then Some 0 else b !! i.
Proof.
  revert b. induction l as [|[q e] l IH]; intros b Hi; cbn [foldl].
  - by rewrite decide_False by (cbn; set_solver).
  - rewrite IH by (by rewrite length_insert). cbn. repeat case_decide; try set_solver.
    + destruct (decide (i = e)) as [->|]; [by rewrite list_lookup_insert_eq|set_solver].
    + rewrite list_lookup_insert_ne; [done|set_solver].
Qed.

Lemma cstr_take l n :
  l !! n = Some 0 -> (forall i c, (i < n)%nat -> l !! i = Some c -> c <> 0) -> cstr l = take n l.
Proof.
  revert n. induction l as [|c l IH]; intros n H0 Hn; [done|]. destruct n as [|n]; cbn in *.
  - by simplify_eq.
  - destruct (Z.eqb_spec c 0) as [Hc|]; [by destruct (Hn 0%nat c ltac:(lia) eq_refl)|].
    f_equal. apply IH; [done|]. intros i d Hi Hd. by apply (Hn (S i)); [lia|].
Qed.

(** The text of a token. *)
Definition text (a : nat * nat) : list Z := take (a.2 - a.1) (drop a.1 buf).

Lemma nulterminate_text c a :
  cmd_ok c -> a ∈ tokens c -> cstr (drop a.1 (nulterminate c (buf ++ [0]))) = text a.
Proof.
  intros Hok Ha. apply cmd_ok_tokens in Hok. rewrite Forall_forall in Hok.
  pose proof (Hok a Ha) as (Hb & Hword & _). rewrite nulterminate_tokens.
  set (b := foldl _ _ _).
  assert (Hl : forall i, (i <= len)%nat -> b !! i =
    if decide (i ∈ (snd <$> tokens c : list nat)) then Some 0 else (buf ++ [0]) !! i).
  { intros i Hi. apply foldl_nul. rewrite length_app. cbn. lia. }
  assert (Hin : forall i, (a.1 <= i < a.2)%nat -> b !! i = buf !! i).
  { intros i Hi. rewrite Hl by lia. rewrite decide_False; [by rewrite lookup_app_l by lia|].
    intros (a' & -> & Ha')%list_elem_of_fmap. destruct (Hok a' Ha') as (_ & _ & [He|He]); [lia|].
    rewrite (Hword a'.2) in He by lia. done. }
  assert (Hend : b !! a.2 = Some 0).
  { rewrite Hl by lia. rewrite decide_True; [done|]. by apply list_elem_of_fmap_2. }
  rewrite (cstr_take _ (a.2 - a.1)).
  - unfold text. apply list_eq. intros i. destruct (decide (i < a.2 - a.1)%nat).
    + rewrite !lookup_take_lt, !lookup_drop by lia. apply Hin. lia.
    + rewrite !lookup_take_ge by lia. done.
  - rewrite lookup_drop. by replace (a.1 + (a.2 - a.1))%nat with a.2 by lia.
  - intros i d Hi. rewrite lookup_drop, Hin by lia. intros Hd.
    rewrite Forall_lookup in Hnul. by eapply Hnul.
Qed.
End facts.

(** ** Printing commands *)

(** A command without the pointers. *)
Inductive tree :=
| TExec (ws : list (list Z))
| TRedir (t : tree) (file : list Z) (mode fd : Z)
| TPipe (l r : tree)
| TList (l r : tree)
| TBack (t : tree).

(** The tree that a command stands for in a line. *)
Fixpoint tree_of (buf : list Z) (c : cmd) : tree :=
  match c with
  | EXEC argv => TExec (text buf <$> argv)
  | REDIR c q e mode fd => TRedir (tree_of buf c) (text buf (q, e)) mode fd
  | PIPE l r => TPipe (tree_of buf l) (tree_of buf r)
  | LIST l r => TList (tree_of buf l) (tree_of buf r)
  | BACK c => TBack (tree_of buf c)
  end.

Definition join_words (ws : list (list Z)) : list Z :=
  match ws with
  | [] => []
  | w :: ws => w ++ concat ((fun w => 32 :: w) <$> ws)
  end.

Definition paren (b : bool) (l : list Z) : list Z := if b then 40 :: l ++ [41] else l.

(** A command as text.  The level says what the place allows without
    parentheses: 0 a simple command, 1 a pipe, 2 a pipe in the background, 3 a
    list. *)
Fixpoint show (t : tree) (lvl : nat) : list Z :=
  match t with
  | TExec ws => join_words ws
  | TRedir t f mode fd => show t 0 ++ (if fd =? 0 then 60 else 62) :: f
  | TPipe l r => paren (lvl <? 1)%nat (show l 0 ++ 124 :: show r 1)
  | TBack t => paren (lvl <? 2)%nat (show t 2 ++ [38])
  | TList l r => paren (lvl <? 3)%nat (show l 2 ++ 59 :: show r 3)
  end.

Definition is_word (w : list Z) : Prop := w <> [] /\ Forall (fun c => word_char c = true /\ c <> 0) w.

(** What the shell can express. *)
Fixpoint expressible (t : tree) : Prop :=
  match t with
  | TExec ws => Forall is_word ws /\ (length ws < MAXARGS)%nat
  | TRedir t f mode fd =>
      expressible t /\ is_word f /\
      redir_kind mode fd
  | TPipe l r | TList l r => expressible l /\ expressible r
  | TBack t => expressible t
  end.

(** *** What the parser sees *)

Fixpoint strip (l : list Z) : list Z :=
  match l with
  | c :: l' => if among whitespace c then strip l' else l
  | [] => []
  end.

Lemma strip_span l : strip l = drop (span (among whitespace) l) l.
Proof. induction l as [|c l IH]; cbn; [done|]. by destruct (among whitespace c). Qed.

(** White space only. *)
Definition white (t : list Z) : Prop := Forall (fun c => among whitespace c = true) t.

Lemma strip_white t : white t -> strip t = [].
Proof. induction 1 as [|c t Hc _ IH]; [done|]. cbn. by rewrite Hc. Qed.

Lemma strip_app y t : white t -> exists t', white t' /\ strip (y ++ t) = strip y ++ t'.
Proof.
  intros Ht. induction y as [|c y (t' & Ht' & IH)]; cbn.
  - exists []. split; [constructor|]. by rewrite strip_white.
  - destruct (among whitespace c); [by exists t'|]. by exists t.
Qed.

Lemma words_shorter w ws :
  Forall is_word (w :: ws) -> (length (w :: ws) <= length (w ++ concat ((fun w => 32%Z :: w) <$> ws)))%nat.
Proof.
  intros [[Hw _] Hws]%Forall_cons. rewrite length_app. destruct w as [|c w]; [done|]. cbn. clear Hw.
  assert (length ws <= length (concat ((fun w => 32%Z :: w) <$> ws)))%nat; [|lia].
  induction Hws as [|x ws _ _ IH]; cbn; [lia|]. rewrite length_app. lia.
Qed.

Section sees.
Variable buf : list Z.
Hypothesis Hnul : Forall (fun c => c <> 0) buf.

(** From position [s], after white space, the line goes on with [y], and then
    there is only white space. *)
Definition sees (s : nat) (y : list Z) : Prop :=
  (s <= length buf)%nat /\ exists t, white t /\ drop (skip buf s) buf = y ++ t.

Lemma sees_drop e y t : (e <= length buf)%nat -> white t -> drop e buf = y ++ t -> sees e (strip y).
Proof.
  intros He Ht E. split; [done|]. destruct (strip_app y t Ht) as (t' & Ht' & E'). exists t'. split; [done|].
  unfold skip. by rewrite <- drop_drop, <- strip_span, E.
Qed.

Lemma sees_skip s y : sees s y -> sees (skip buf s) y.
Proof.
  intros [Hs (t & Ht & E)]. split; [apply skip_bounds; done|]. exists t. by rewrite skip_skip.
Qed.

Lemma sees_length s y : sees s y -> (length y <= length buf)%nat.
Proof. intros [_ (t & _ & Hd)]. apply (f_equal length) in Hd. rewrite length_drop, length_app in Hd. lia. Qed.

Lemma sees_cons s c y :
  sees s (c :: y) -> ch buf (skip buf s) = c /\ c <> 0 /\ (S (skip buf s) <= length buf)%nat /\
    (exists t, white t /\ drop (S (skip buf s)) buf = y ++ t) /\ among whitespace c = false.
Proof.
  intros [Hs (t & Ht & Hd)]. assert (Hl : buf !! skip buf s = Some c) by (by rewrite <- (Nat.add_0_r (skip buf s)), <- lookup_drop, Hd).
  pose proof (lookup_lt_Some _ _ _ Hl). split_and!.
  - unfold ch. by rewrite Hl.
  - rewrite Forall_lookup in Hnul. by eapply Hnul.
  - lia.
  - exists t. split; [done|]. by rewrite (drop_S _ _ _ Hl) in Hd; simplify_eq/=.
  - pose proof (skip_white buf s Hs) as Hw. unfold ch in Hw. by rewrite Hl in Hw.
Qed.

Lemma sees_nil s : sees s [] -> ch buf (skip buf s) = 0 /\ skip buf s = length buf.
Proof.
  intros [Hs (t & Ht & Hd)]. pose proof (skip_bounds buf s Hs).
  assert (t = []) as ->.
  { pose proof (skip_white buf s Hs) as Hw. destruct Ht as [|c t Hc Ht]; [done|]. exfalso. cbn in Hd.
    assert (Hl : buf !! skip buf s = Some c) by (by rewrite <- (Nat.add_0_r (skip buf s)), <- lookup_drop, Hd).
    unfold ch in Hw. rewrite Hl in Hw. cbn in Hw. congruence. }
  assert (Hl : (length (drop (skip buf s) buf) = 0)%nat) by (by rewrite Hd). rewrite length_drop in Hl.
  split; [|lia]. unfold ch. by rewrite lookup_ge_None_2 by lia.
Qed.

Definition starts (toks : list Z) (y : list Z) : bool :=
  match y with c :: _ => among toks c | [] => false end.

Lemma peek_sees s y toks : sees s y -> peek buf toks s = Done (starts toks y) (skip buf s).
Proof.
  intros Hy. unfold peek. msimp. unfold gets. f_equal. destruct y as [|c y].
  - apply sees_nil in Hy as [-> _]. done.
  - apply sees_cons in Hy as (-> & Hc & _). by destruct (Z.eqb_spec c 0).
Qed.

Lemma token_sees s y t e :
  sees s y -> token_at buf (skip buf s) = (t, e) ->
  gettoken buf s = Done (t, skip buf s, e) (skip buf e).
Proof. intros _ E. unfold gettoken. msimp. rewrite E. done. Qed.

(** A symbol. *)
Lemma token_symbol s c y :
  sees s (c :: y) -> among [124; 40; 41; 59; 38; 60] c = true ->
  exists s', gettoken buf s = Done (c, skip buf s, S (skip buf s)) s' /\ sees s' (strip y).
Proof.
  intros Hs Hc. pose proof (sees_cons s c y Hs) as (E & H0 & He & (t & Ht & Hd) & _).
  eexists. split; [eapply token_sees; [exact Hs|]|apply sees_skip, (sees_drop _ y t); done].
  unfold token_at. rewrite E. destruct (Z.eqb_spec c 0); [done|]. by rewrite Hc.
Qed.

Lemma token_gt s y :
  sees s (62 :: y) -> starts [62] y = false ->
  exists s', gettoken buf s = Done (62, skip buf s, S (skip buf s)) s' /\ sees s' (strip y).
Proof.
  intros Hs Hy. pose proof (sees_cons s 62 y Hs) as (E & H0 & He & (t & Ht & Hd) & _).
  eexists. split; [eapply token_sees; [exact Hs|]|apply sees_skip, (sees_drop _ y t); done].
  unfold token_at. rewrite E. cbn.
  destruct (Z.eqb_spec (ch buf (S (skip buf s))) 62) as [E'|]; [|done].
  exfalso. unfold ch in E'. rewrite <- (Nat.add_0_r (S (skip buf s))), <- lookup_drop, Hd in E'.
  destruct y as [|c y]; cbn in *; [|by subst]. destruct Ht as [|c t Hc _]; [done|]. cbn in E'. by subst.
Qed.

Lemma span_app (p : Z -> bool) w y :
  Forall (fun c => p c = true) w -> match y with c :: _ => p c = false | [] => True end -> span p (w ++ y) = length w.
Proof.
  intros Hw Hy. induction Hw as [|c w Hc Hw IH]; cbn; [|by rewrite Hc, IH].
  destruct y; [done|]. cbn. by rewrite Hy.
Qed.

(** A word, and its text. *)
Lemma token_word s w y :
  sees s (w ++ y) -> is_word w -> match y with c :: _ => word_char c = false | [] => True end ->
  exists s' e, gettoken buf s = Done (97, skip buf s, e) s' /\ sees s' (strip y) /\ text buf (skip buf s, e) = w.
Proof.
  intros Hs [Hne Hw] Hy. destruct w as [|c w]; [done|]. pose proof (sees_cons s c (w ++ y) Hs) as (E & H0 & He & _ & Hwh).
  destruct Hs as [Hsl (t & Ht & Hd)]. assert (Hs : sees s ((c :: w) ++ y)) by (split; [done|by exists t]).
  set (e := (skip buf s + length (c :: w))%nat).
  assert (Hspan : span word_char (drop (skip buf s) buf) = length (c :: w)).
  { rewrite Hd, <- app_assoc. apply span_app; [eapply Forall_impl; [exact Hw|]; by intros ? []|].
    destruct y as [|d y]; [|done]. destruct Ht as [|d t Hdw _]; [done|]. cbn. unfold word_char. by rewrite Hdw. }
  assert (Hde : drop e buf = y ++ t).
  { unfold e. by rewrite <- drop_drop, Hd, <- app_assoc, drop_app_length. }
  assert (Hel : (e <= length buf)%nat).
  { pose proof (span_le word_char (drop (skip buf s) buf)) as Hle. rewrite Hspan, length_drop in Hle.
    unfold e. cbn in *. lia. }
  exists (skip buf e), e. split_and!; [|by apply sees_skip, (sees_drop _ y t)|].
  - eapply token_sees; [exact Hs|]. unfold token_at. rewrite E, Hspan. fold e.
    apply Forall_cons in Hw as [[Hwc _] _]. destruct (Z.eqb_spec c 0); [done|].
    unfold word_char in Hwc. apply andb_true_iff in Hwc as [_ Hwc]. apply negb_true_iff in Hwc.
    unfold among, symbols in *. rewrite bool_decide_eq_false in Hwc.
    rewrite bool_decide_false by set_solver. destruct (Z.eqb_spec c 62); [subst; set_solver|done].
  - unfold text, e. cbn [fst snd]. rewrite Hd, <- app_assoc.
    replace (skip buf s + length (c :: w) - skip buf s)%nat with (length (c :: w)) by lia. apply take_app_length.
Qed.

(** *** Simple commands *)

(** What follows a simple command. *)
Definition stop (k : list Z) : Prop := match k with c :: _ => c ∈ [124; 41; 38; 59] | [] => True end.

Abbreviation redir := (list Z * Z * Z)%type.

Definition redir_ok (r : redir) : Prop :=
  is_word r.1.1 /\ redir_kind r.1.2 r.2.

Definition show_redirs (rs : list redir) : list Z :=
  concat ((fun r : redir => (if r.2 =? 0 then 60 else 62) :: r.1.1) <$> rs).

Definition wrap (t : tree) (rs : list redir) : tree := foldl (fun t (r : redir) => TRedir t r.1.1 r.1.2 r.2) t rs.

Lemma stop_strip k : stop k -> strip k = k.
Proof.
  destruct k as [|c k]; [done|]. cbn. intros Hc. assert (among whitespace c = false) as ->; [|done].
  unfold among, whitespace. apply bool_decide_eq_false. set_solver.
Qed.

Lemma stop_starts k toks : stop k -> Forall (fun c => c ∉ [124; 41; 38; 59]) toks -> starts toks k = false.
Proof.
  destruct k as [|c k]; [done|]. cbn. intros Hc Ht. unfold among. apply bool_decide_eq_false.
  intros Hin. rewrite Forall_forall in Ht. by apply (Ht c Hin).
Qed.

Lemma word_starts w y toks :
  is_word w -> Forall (fun c => word_char c = false) toks -> starts toks (w ++ y) = false.
Proof.
  intros [Hne Hw] Ht. destruct w as [|c w]; [done|]. cbn. apply Forall_cons in Hw as [[Hc _] _].
  unfold among. apply bool_decide_eq_false. intros Hin. rewrite Forall_forall in Ht. rewrite (Ht c Hin) in Hc. done.
Qed.

Lemma word_strip w y : is_word w -> strip (w ++ y) = w ++ y.
Proof.
  intros [Hne Hw]. destruct w as [|c w]; [done|]. cbn. apply Forall_cons in Hw as [[Hc _] _].
  unfold word_char in Hc. apply andb_true_iff in Hc as [Hc%negb_true_iff _]. by rewrite Hc.
Qed.

Definition no_word (y : list Z) : Prop := match y with c :: _ => word_char c = false | [] => True end.

Lemma stop_no_word k : stop k -> no_word k.
Proof.
  destruct k as [|c k]; [done|]. cbn. rewrite !elem_of_cons.
  intros [->|[->|[->|[->|?]]]]; [done..|set_solver].
Qed.

Lemma redirs_no_word rs k : stop k -> no_word (show_redirs rs ++ k) /\ strip (show_redirs rs ++ k) = show_redirs rs ++ k.
Proof.
  intros Hk. destruct rs as [|r rs]; [split; [by apply stop_no_word|by apply stop_strip]|].
  cbn. by destruct (r.2 =? 0).
Qed.

(** A function on commands that looks through redirections. *)
Definition looks_through (f : cmd -> cmd) : Prop :=
  forall c q e mode fd, f (REDIR c q e mode fd) = REDIR (f c) q e mode fd.

Lemma parseredirs_sees rs fuel s k c :
  Forall redir_ok rs -> stop k -> sees s (show_redirs rs ++ k) -> (length (show_redirs rs) < fuel)%nat ->
  exists c' s', parseredirs buf fuel c s = Done c' s' /\ sees s' k /\
    forall f, looks_through f -> tree_of buf (f c') = wrap (tree_of buf (f c)) rs.
Proof.
  intros Hrs Hk. revert fuel s c. induction Hrs as [|[[file mode] fd] rs [Hw Hm] Hrs IH]; intros fuel s c Hs Hf.
  - destruct fuel as [|fuel]; [cbn in Hf; lia|]. cbn [parseredirs]. rewrite (bind_done _ _ _ _ _ (peek_sees s k [60; 62] Hs)).
    rewrite (stop_starts k) by (done || (repeat constructor; set_solver)).
    exists c, (skip buf s). split_and!; [done|by apply sees_skip|done].
  - destruct fuel as [|fuel]; [cbn in Hf; lia|]. cbn [parseredirs]. cbn in Hw, Hm.
    set (sym := if fd =? 0 then 60 else 62).
    assert (Hs0 : sees s (sym :: file ++ show_redirs rs ++ k)) by (unfold sym; cbn in Hs; by rewrite <- app_assoc in Hs).
    rewrite (bind_done _ _ _ _ _ (peek_sees s _ [60; 62] Hs0)).
    assert (starts [60; 62] (sym :: file ++ show_redirs rs ++ k) = true) as -> by (unfold sym; by destruct (fd =? 0)).
    cbn [negb]. pose proof (sees_skip _ _ Hs0) as Hs1.
    assert (exists s2, gettoken buf (skip buf s) = Done (sym, skip buf (skip buf s), S (skip buf (skip buf s))) s2 /\
      sees s2 (strip (file ++ show_redirs rs ++ k))) as (s2 & E2 & Hs2).
    { unfold sym in *. destruct (fd =? 0); [by apply token_symbol|]. apply token_gt; [done|].
      by apply word_starts; [|repeat constructor]. }
    rewrite word_strip in Hs2 by done. mstep E2.
    destruct (redirs_no_word rs k Hk) as [Hnw Hst].
    destruct (token_word s2 file (show_redirs rs ++ k) Hs2 Hw Hnw) as (s3 & e & E3 & Hs3 & Ht).
    rewrite Hst in Hs3. mstep E3. cbn [Z.eqb Pos.eqb negb].
    set (c1 := if sym =? 60 then _ else _).
    destruct (IH fuel s3 c1 Hs3) as (c' & s' & E' & Hs' & Hf'); [unfold show_redirs in *; cbn in Hf; rewrite length_app in Hf; lia|].
    exists c', s'. split_and!; [exact E'|done|]. intros f Hlt. rewrite (Hf' f Hlt). unfold wrap. cbn [foldl fst snd]. f_equal.
    unfold c1, sym. destruct Hm as [[-> ->]|[-> ->]]; cbn [Z.eqb Pos.eqb]; rewrite Hlt; cbn [tree_of]; by rewrite Ht.
Qed.

Lemma parseredirs_none fuel s y c :
  sees s y -> starts [60; 62] y = false -> (0 < fuel)%nat -> parseredirs buf fuel c s = Done c (skip buf s).
Proof.
  intros Hs Hy Hf. destruct fuel as [|fuel]; [lia|]. cbn [parseredirs].
  rewrite (bind_done _ _ _ _ _ (peek_sees s y [60; 62] Hs)). by rewrite Hy.
Qed.

Lemma exec_stop fuel s k argv c :
  sees s k -> stop k -> (0 < fuel)%nat ->
  exists s', parseexec_loop buf fuel argv c s = Done (set_args argv c) s' /\ sees s' k.
Proof.
  intros Hs Hk Hf. destruct fuel as [|fuel]; [lia|]. cbn [parseexec_loop].
  rewrite (bind_done _ _ _ _ _ (peek_sees s k _ Hs)). pose proof (sees_skip _ _ Hs) as Hs1.
  destruct k as [|x k].
  - cbn [starts]. pose proof (sees_nil _ Hs1) as [E0 El].
    assert (Et : token_at buf (skip buf (skip buf s)) = (0, skip buf (skip buf s))) by (unfold token_at; by rewrite E0).
    mstep (token_sees (skip buf s) [] _ _ Hs1 Et). cbn [Z.eqb]. eexists. split; [done|]. by apply sees_skip, sees_skip.
  - assert (starts [124; 41; 38; 59] (x :: k) = true) as -> by (cbn; unfold among; by apply bool_decide_eq_true).
    eexists. by split.
Qed.

Lemma looks_set_args argv : looks_through (set_args argv).
Proof. done. Qed.

Lemma exec_words ws fuel s w rs k argv :
  Forall is_word (w :: ws) -> Forall redir_ok rs -> stop k ->
  sees s (w ++ concat ((fun w => 32 :: w) <$> ws) ++ show_redirs rs ++ k) ->
  (length argv + length (w :: ws) < MAXARGS)%nat -> (length (w :: ws) < fuel)%nat ->
  exists c s', parseexec_loop buf fuel argv (EXEC []) s = Done c s' /\ sees s' k /\
    tree_of buf c = wrap (TExec ((text buf <$> argv) ++ w :: ws)) rs.
Proof.
  revert fuel s w argv. induction ws as [|w' ws IH]; intros fuel s w argv [Hw Hws]%Forall_cons Hrs Hk Hs Ha Hf.
  all: destruct fuel as [|fuel]; [cbn in Hf; lia|]; cbn [parseexec_loop].
  all: rewrite (bind_done _ _ _ _ _ (peek_sees s _ _ Hs)); rewrite word_starts by (done || by repeat constructor).
  all: apply sees_skip in Hs; destruct (redirs_no_word rs k Hk) as [Hnw Hst].
  - cbn [fmap list_fmap concat app] in Hs. destruct (token_word _ w _ Hs Hw Hnw) as (s1 & e & E & Hs1 & Ht).
    rewrite Hst in Hs1. mstep E. cbn [Z.eqb Pos.eqb negb]. rewrite length_app. cbn [length] in *.
    destruct (Nat.leb_spec MAXARGS (length argv + 1)); [lia|].
    destruct (parseredirs_sees rs (S (length buf)) s1 k (EXEC []) Hrs Hk Hs1) as (c' & s2 & E2 & Hs2 & Htr).
    { apply sees_length in Hs1. rewrite length_app in Hs1. lia. }
    mstep E2. destruct (exec_stop fuel s2 k (argv ++ [(skip buf (skip buf s), e)]) c' Hs2 Hk) as (s3 & E3 & Hs3); [lia|].
    exists (set_args (argv ++ [(skip buf (skip buf s), e)]) c'), s3. split_and!; [done|done|].
    rewrite (Htr _ (looks_set_args _)). cbn [set_args tree_of]. by rewrite fmap_app; cbn [fmap list_fmap]; rewrite Ht.
  - pose proof Hws as [Hw' _]%Forall_cons. cbn [fmap list_fmap concat] in Hs. rewrite <- !app_assoc in Hs.
    destruct (token_word _ w _ Hs Hw eq_refl) as (s1 & e & E & Hs1 & Ht). cbn [app strip] in Hs1.
    change (among whitespace 32) with true in Hs1. cbv iota in Hs1. rewrite word_strip in Hs1 by done.
    mstep E. cbn [Z.eqb Pos.eqb negb]. rewrite length_app. cbn [length] in *.
    destruct (Nat.leb_spec MAXARGS (length argv + 1)); [lia|].
    mstep (parseredirs_none (S (length buf)) s1 _ (EXEC []) Hs1); [|by apply word_starts; [|repeat constructor]|lia].
    destruct (IH fuel (skip buf s1) w' (argv ++ [(skip buf (skip buf s), e)])) as (c & s' & E' & Hs' & Htr); try done.
    + by apply sees_skip.
    + rewrite length_app. cbn. lia.
    + cbn. lia.
    + exists c, s'. split_and!; [done|done|]. rewrite Htr, fmap_app. cbn [fmap list_fmap]. by rewrite Ht, <- app_assoc.
Qed.

(** A simple command with its redirections. *)
Lemma parseexec_simple fuel s ws rs k :
  Forall is_word ws -> (length ws < MAXARGS)%nat -> Forall redir_ok rs -> stop k ->
  sees s (join_words ws ++ show_redirs rs ++ k) -> (0 < fuel)%nat ->
  exists c s', parseexec buf fuel s = Done c s' /\ sees s' k /\ tree_of buf c = wrap (TExec ws) rs.
Proof.
  intros Hws Hl Hrs Hk Hs Hf. destruct fuel as [|fuel]; [lia|]. cbn [parseexec].
  rewrite (bind_done _ _ _ _ _ (peek_sees s _ _ Hs)). pose proof (sees_skip _ _ Hs) as Hs1.
  assert (Hlen : (length (join_words ws ++ show_redirs rs ++ k) <= length buf)%nat).
  { by apply sees_length in Hs. }
  destruct ws as [|w ws]; cbn [join_words app] in *.
  - assert (starts [40] (show_redirs rs ++ k) = false) as ->.
    { destruct rs as [|r rs]; [|cbn; by destruct (r.2 =? 0)]. apply stop_starts; [done|]. repeat constructor. set_solver. }
    destruct (parseredirs_sees rs (S (length buf)) (skip buf s) k (EXEC []) Hrs Hk Hs1) as (c' & s2 & E2 & Hs2 & Htr).
    { rewrite length_app in Hlen. lia. }
    mstep E2. destruct (exec_stop (S (length buf)) s2 k [] c' Hs2 Hk) as (s3 & E3 & Hs3); [lia|].
    eexists _, s3. split_and!; [exact E3|done|]. by rewrite (Htr _ (looks_set_args _)).
  - pose proof Hws as [Hw _]%Forall_cons. rewrite <- app_assoc in Hs1 |- *. rewrite word_starts by (done || by repeat constructor).
    mstep (parseredirs_none (S (length buf)) (skip buf s) _ (EXEC []) Hs1); [|by apply word_starts; [|repeat constructor]|lia].
    apply sees_skip in Hs1.
    destruct (exec_words ws (S (length buf)) _ w rs k [] Hws Hrs Hk Hs1) as (c & s' & E & Hs' & Htr); [done| |].
    + pose proof (words_shorter w ws Hws) as Hsh. rewrite length_app in Hlen. lia.
    + by exists c, s'.
Qed.

(** *** Compound commands *)

Definition stops (toks k : list Z) : Prop := match k with c :: _ => c ∈ toks | [] => True end.

(** The four levels of the grammar: what the parser of the level makes of the
    text of [t], followed by [k]. *)
Definition reads0 (t : tree) : Prop := forall fuel s k,
  stop k -> sees s (show t 0 ++ k) -> (4 * length (show t 0 ++ k) + 2 <= fuel)%nat ->
  exists c s', parseexec buf fuel s = Done c s' /\ sees s' k /\ tree_of buf c = t.
Definition reads1 (t : tree) : Prop := forall fuel s k,
  stops [41; 38; 59] k -> sees s (show t 1 ++ k) -> (4 * length (show t 1 ++ k) + 3 <= fuel)%nat ->
  exists c s', parsepipe buf fuel s = Done c s' /\ sees s' k /\ tree_of buf c = t.
Definition reads2 (t : tree) : Prop := forall n fuel s k,
  stops [41; 59] k -> sees s (show t 2 ++ replicate n 38%Z ++ k) ->
  (4 * length (show t 2 ++ replicate n 38%Z ++ k) + 3 <= fuel)%nat ->
  exists c s', (c <- parsepipe buf fuel ;; parse_backs buf (S (length buf)) c) s = Done c s' /\ sees s' k /\
    tree_of buf c = Nat.iter n TBack t.
Definition reads3 (t : tree) : Prop := forall fuel s k,
  stops [41] k -> sees s (show t 3 ++ k) -> (4 * length (show t 3 ++ k) + 4 <= fuel)%nat ->
  exists c s', parseline buf fuel s = Done c s' /\ sees s' k /\ tree_of buf c = t.

Lemma stops_stop toks k : Forall (fun c => c ∈ [124; 41; 38; 59]) toks -> stops toks k -> stop k.
Proof. intros Ht. destruct k as [|c k]; [done|]. cbn. rewrite Forall_forall in Ht. auto. Qed.

Lemma stops_starts toks k l : stops toks k -> Forall (fun c => c ∉ toks) l -> starts l k = false.
Proof.
  destruct k as [|c k]; [done|]. cbn. intros Hc Hl. unfold among. apply bool_decide_eq_false.
  intros Hin. rewrite Forall_forall in Hl. by apply (Hl c Hin).
Qed.

(** A fact about lists of characters. *)
Ltac toks := apply (bool_decide_unpack _); vm_compute; exact I.

Lemma reads1_simple t : show t 1 = show t 0 -> reads0 t -> reads1 t.
Proof.
  intros E H fuel s k Hk Hs Hf. rewrite E in Hs, Hf. destruct fuel as [|fuel]; [lia|]. cbn [parsepipe].
  destruct (H fuel s k) as (c & s' & E' & Hs' & Ht); [by apply (stops_stop [41; 38; 59]); [toks|]|done|lia|].
  mstep E'. rewrite (bind_done _ _ _ _ _ (peek_sees s' k _ Hs')). rewrite (stops_starts _ k) by (done || toks).
  exists c, (skip buf s'). split_and!; [done|by apply sees_skip|done].
Qed.

Lemma reads1_pipe l r :
  (forall k, strip k = k -> strip (show r 1 ++ k) = show r 1 ++ k) -> reads0 l -> reads1 r -> reads1 (TPipe l r).
Proof.
  intros Hst Hl Hr fuel s k Hk Hs Hf. cbn [show Nat.ltb Nat.leb paren] in Hs, Hf.
  rewrite <- app_assoc in Hs, Hf. cbn [app] in Hs, Hf. rewrite length_app in Hf. cbn [length] in Hf.
  destruct fuel as [|fuel]; [lia|]. cbn [parsepipe].
  destruct (Hl fuel s (124 :: show r 1 ++ k)) as (c & s1 & E1 & Hs1 & Ht1); [cbn; set_solver|done|rewrite length_app; cbn; lia|].
  mstep E1. rewrite (bind_done _ _ _ _ _ (peek_sees s1 _ _ Hs1)). cbn [starts]. change (among [124] 124) with true. cbn [negb].
  apply sees_skip in Hs1. destruct (token_symbol _ _ _ Hs1 eq_refl) as (s2 & E2 & Hs2). mstep E2.
  rewrite Hst in Hs2 by (apply stop_strip; by apply (stops_stop [41; 38; 59]); [toks|]).
  destruct (Hr fuel s2 k Hk Hs2) as (c2 & s3 & E3 & Hs3 & Ht3); [lia|]. mstep E3.
  exists (PIPE c c2), s3. split_and!; [done|done|]. cbn. by rewrite Ht1, Ht3.
Qed.

Lemma parse_backs_sees n fuel s k c :
  stops [41; 59] k -> sees s (replicate n 38%Z ++ k) -> (n < fuel)%nat ->
  exists c' s', parse_backs buf fuel c s = Done c' s' /\ sees s' k /\
    tree_of buf c' = Nat.iter n TBack (tree_of buf c).
Proof.
  intros Hk. revert fuel s c. induction n as [|n IH]; intros fuel s c Hs Hf; (destruct fuel as [|fuel]; [lia|]);
    cbn [parse_backs]; rewrite (bind_done _ _ _ _ _ (peek_sees s _ _ Hs)); apply sees_skip in Hs.
  - cbn [replicate app] in *. rewrite (stops_starts _ k) by (done || toks). by exists c, (skip buf s).
  - cbn [replicate app starts] in *. change (among [38] 38) with true. cbn [negb].
    destruct (token_symbol _ _ _ Hs eq_refl) as (s1 & E1 & Hs1). mstep E1.
    assert (Hst : strip (replicate n 38%Z ++ k) = replicate n 38%Z ++ k)
      by (destruct n; [by apply stop_strip; apply (stops_stop [41; 59]); [toks|]|done]).
    rewrite Hst in Hs1. destruct (IH fuel s1 (BACK c) Hs1) as (c' & s' & E' & Hs' & Ht); [lia|].
    exists c', s'. split_and!; [done|done|]. rewrite Ht. cbn [tree_of]. by rewrite Nat.iter_succ_r.
Qed.

Lemma reads2_simple t : show t 2 = show t 1 -> reads1 t -> reads2 t.
Proof.
  intros E H n fuel s k Hk Hs Hf. rewrite E in Hs, Hf.
  destruct (H fuel s (replicate n 38%Z ++ k)) as (c & s1 & E1 & Hs1 & Ht1); [|done|done|].
  { destruct n; [|cbn; set_solver]. destruct k; [done|]. cbn in *. set_solver. }
  mstep E1. destruct (parse_backs_sees n (S (length buf)) s1 k c Hk Hs1) as (c' & s' & E' & Hs' & Ht').
  { apply sees_length in Hs1. rewrite length_app, length_replicate in Hs1. lia. }
  exists c', s'. by rewrite Ht', Ht1.
Qed.

Lemma reads2_back t : reads2 t -> reads2 (TBack t).
Proof.
  intros H n fuel s k Hk Hs Hf. cbn [show Nat.ltb Nat.leb paren] in Hs, Hf. rewrite <- app_assoc in Hs, Hf.
  destruct (H (S n) fuel s k Hk Hs Hf) as (c & s' & E & Hs' & Ht). exists c, s'. split_and!; [done|done|].
  by rewrite Ht, Nat.iter_succ_r.
Qed.

Lemma reads3_simple t : show t 3 = show t 2 -> reads2 t -> reads3 t.
Proof.
  intros E H fuel s k Hk Hs Hf. rewrite E in Hs, Hf. destruct fuel as [|fuel]; [lia|]. cbn [parseline].
  destruct (H 0%nat fuel s k) as (c & s1 & E1 & Hs1 & Ht1); [|done|cbn in *; lia|].
  { destruct k; [done|]. cbn in *. set_solver. }
  apply bind_inv in E1 as (ca & sa & Ea & Eb). mstep Ea. mstep Eb. rewrite (bind_done _ _ _ _ _ (peek_sees s1 k _ Hs1)).
  rewrite (stops_starts _ k) by (done || toks). exists c, (skip buf s1). split_and!; [done|by apply sees_skip|done].
Qed.

Lemma reads3_list l r :
  (forall k, strip k = k -> strip (show r 3 ++ k) = show r 3 ++ k) -> reads2 l -> reads3 r -> reads3 (TList l r).
Proof.
  intros Hst Hl Hr fuel s k Hk Hs Hf. cbn [show Nat.ltb Nat.leb paren] in Hs, Hf.
  rewrite <- app_assoc in Hs, Hf. cbn [app] in Hs, Hf. rewrite length_app in Hf. cbn [length] in Hf.
  destruct fuel as [|fuel]; [lia|]. cbn [parseline].
  destruct (Hl 0%nat fuel s (59 :: show r 3 ++ k)) as (c & s1 & E1 & Hs1 & Ht1);
    [cbn; set_solver|done|cbn [replicate app]; rewrite length_app; cbn [length]; lia|].
  apply bind_inv in E1 as (ca & sa & Ea & Eb). mstep Ea. mstep Eb. rewrite (bind_done _ _ _ _ _ (peek_sees s1 _ _ Hs1)). cbn [starts].
  change (among [59] 59) with true. cbn [negb]. apply sees_skip in Hs1.
  destruct (token_symbol _ _ _ Hs1 eq_refl) as (s2 & E2 & Hs2). mstep E2.
  rewrite Hst in Hs2 by (apply stop_strip; by apply (stops_stop [41]); [toks|]).
  destruct (Hr fuel s2 k Hk Hs2) as (c2 & s3 & E3 & Hs3 & Ht3); [lia|]. mstep E3.
  exists (LIST c c2), s3. split_and!; [done|done|]. cbn in *. by rewrite Ht1, Ht3.
Qed.

(** A command in parentheses with its redirections. *)
Lemma reads_block t rs fuel s k :
  (forall k, strip k = k -> strip (show t 3 ++ k) = show t 3 ++ k) -> reads3 t -> Forall redir_ok rs -> stop k ->
  sees s (40 :: show t 3 ++ 41 :: show_redirs rs ++ k) ->
  (4 * length (40%Z :: show t 3 ++ 41%Z :: show_redirs rs ++ k) + 2 <= fuel)%nat ->
  exists c s', parseexec buf fuel s = Done c s' /\ sees s' k /\ tree_of buf c = wrap t rs.
Proof.
  intros Hst Ht Hrs Hk Hs Hf. cbn [length] in Hf. destruct fuel as [|[|fuel]]; [lia|lia|]. cbn [parseexec parseblock].
  do 2 (rewrite (bind_done _ _ _ _ _ (peek_sees _ _ _ Hs)); cbn [starts]; change (among [40] 40) with true;
        cbv iota; apply sees_skip in Hs). cbn [negb].
  destruct (token_symbol _ _ _ Hs eq_refl) as (s1 & E1 & Hs1). mstep E1. rewrite Hst in Hs1 by done.
  destruct (Ht fuel s1 (41 :: show_redirs rs ++ k)) as (c & s2 & E2 & Hs2 & Ht2); [cbn; set_solver|done|lia|].
  mstep E2. rewrite (bind_done _ _ _ _ _ (peek_sees _ _ _ Hs2)). cbn [starts]. change (among [41] 41) with true. cbn [negb].
  apply sees_skip in Hs2. destruct (token_symbol _ _ _ Hs2 eq_refl) as (s3 & E3 & Hs3). mstep E3.
  destruct (redirs_no_word rs k Hk) as [_ Hst']. rewrite Hst' in Hs3.
  destruct (parseredirs_sees rs (S (length buf)) s3 k c Hrs Hk Hs3) as (c' & s' & E & Hs' & Htr).
  { apply sees_length in Hs3. rewrite length_app in Hs3. lia. }
  exists c', s'. split_and!; [done|done|]. rewrite (Htr (fun c => c)) by done. by rewrite Ht2.
Qed.

(** *** The induction *)

Lemma show_strip t lvl k : expressible t -> strip k = k -> strip (show t lvl ++ k) = show t lvl ++ k.
Proof.
  revert lvl k. induction t as [ws|t IH f m d|l IHl r IHr|l IHl r IHr|t IH]; intros lvl k He Hk; cbn [show].
  - destruct He as [Hws _]. destruct ws as [|w ws]; [done|]. apply Forall_cons in Hws as [Hw _].
    cbn [join_words]. rewrite <- app_assoc. by apply word_strip.
  - rewrite <- app_assoc. apply IH; [apply He|]. cbn. by destruct (d =? 0).
  - unfold paren. destruct (lvl <? 1)%nat; [done|]. rewrite <- app_assoc. by apply IHl; [apply He|].
  - unfold paren. destruct (lvl <? 3)%nat; [done|]. rewrite <- app_assoc. by apply IHl; [apply He|].
  - unfold paren. destruct (lvl <? 2)%nat; [done|]. rewrite <- app_assoc. by apply IH; [apply He|].
Qed.

Definition compound (t : tree) : Prop :=
  match t with TExec _ | TRedir _ _ _ _ => False | _ => True end.

Fixpoint tsize (t : tree) : nat :=
  match t with
  | TExec _ => 1
  | TRedir t _ _ _ | TBack t => S (tsize t)
  | TPipe l r | TList l r => S (tsize l + tsize r)
  end.

(** A command is a simple or a compound one with redirections around it. *)
Lemma unwrap t :
  expressible t ->
  exists b rs, t = wrap b rs /\ Forall redir_ok rs /\ expressible b /\ show t 0 = show b 0 ++ show_redirs rs /\
    ((exists ws, b = TExec ws) \/ (compound b /\ (tsize b + length rs = tsize t)%nat)).
Proof.
  assert (Hleaf : forall t, expressible t -> compound t ->
    exists b rs, t = wrap b rs /\ Forall redir_ok rs /\ expressible b /\ show t 0 = show b 0 ++ show_redirs rs /\
      ((exists ws, b = TExec ws) \/ (compound b /\ (tsize b + length rs = tsize t)%nat))).
  { intros t' He Hc. exists t', []. cbn [length]. rewrite app_nil_r, Nat.add_0_r. split_and!; [done|done|done|done|by right]. }
  induction t as [ws|t IH f m d| | |]; intros He; [|destruct He as (He & Hf & Hm)|by apply Hleaf..].
  - exists (TExec ws), []. rewrite app_nil_r. split_and!; [done|done|done|done|left; by exists ws].
  - destruct (IH He) as (b & rs & -> & Hrs & Hb & Hsh & Hc). exists b, (rs ++ [(f, m, d)]).
    split_and!; [unfold wrap; by rewrite foldl_app|apply Forall_app; by split; [|constructor]|done| |].
    + cbn [show]. rewrite Hsh, <- app_assoc. f_equal. unfold show_redirs. rewrite fmap_app, concat_app. cbn. by rewrite app_nil_r.
    + destruct Hc as [Hc|[Hc Hl]]; [by left|right]. split; [done|]. rewrite length_app. cbn. lia.
Qed.

Lemma show_compound b : compound b -> show b 0 = 40 :: show b 3 ++ [41].
Proof. by destruct b. Qed.

Lemma reads_all n t :
  (tsize t < n)%nat -> expressible t -> reads0 t /\ reads1 t /\ reads2 t /\ reads3 t.
Proof.
  revert t. induction n as [|n IH]; intros t Hn He; [lia|].
  assert (Hst : forall t lvl k, expressible t -> strip k = k -> strip (show t lvl ++ k) = show t lvl ++ k)
    by (intros; by apply show_strip).
  (* a command that is not bare compound, or whose contents are known to be read *)
  assert (H0 : (compound t -> reads3 t) -> reads0 t).
  { intros H3 fuel s k Hk Hs Hf. destruct (unwrap t He) as (b & rs & Et & Hrs & Hb & Hsh & [[ws ->]|[Hc Hl]]);
      rewrite Hsh, <- app_assoc in Hs, Hf; rewrite Et.
    - apply (parseexec_simple fuel); [apply Hb|apply Hb|done|done|done|lia].
    - rewrite (show_compound b Hc) in Hs, Hf. cbn [app] in Hs, Hf. rewrite <- app_assoc in Hs, Hf. cbn [app] in Hs, Hf.
      apply (reads_block b rs fuel s k); [intros; by apply Hst| |done|done|done|done].
      destruct rs as [|r rs]; [cbn in Et; subst; by apply H3|]. apply IH; [cbn in Hl; lia|done]. }
  destruct t as [ws|t f m d|l r|l r|t]; cbn [tsize] in Hn.
  - assert (R0 : reads0 (TExec ws)) by (by apply H0). assert (R1 := reads1_simple (TExec ws) eq_refl R0).
    assert (R2 := reads2_simple (TExec ws) eq_refl R1). split_and!; try done. by apply reads3_simple.
  - assert (R0 : reads0 (TRedir t f m d)) by (by apply H0). assert (R1 := reads1_simple (TRedir t f m d) eq_refl R0).
    assert (R2 := reads2_simple (TRedir t f m d) eq_refl R1). split_and!; try done. by apply reads3_simple.
  - destruct He as [Hl Hr]. destruct (IH l ltac:(lia) Hl) as (L0 & _), (IH r ltac:(lia) Hr) as (_ & R1 & _).
    assert (P1 : reads1 (TPipe l r)) by (apply reads1_pipe; [intros; by apply Hst|done|done]).
    assert (P2 := reads2_simple (TPipe l r) eq_refl P1). assert (P3 := reads3_simple (TPipe l r) eq_refl P2).
    split_and!; try done. by apply H0.
  - destruct He as [Hl Hr]. destruct (IH l ltac:(lia) Hl) as (_ & _ & L2 & _), (IH r ltac:(lia) Hr) as (_ & _ & _ & R3).
    assert (P3 : reads3 (TList l r)) by (apply reads3_list; [intros; by apply Hst|done|done]).
    assert (P0 : reads0 (TList l r)) by (by apply H0). assert (P1 := reads1_simple (TList l r) eq_refl P0).
    split_and!; try done. by apply reads2_simple.
  - destruct (IH t ltac:(lia) He) as (_ & _ & T2 & _). assert (P2 := reads2_back _ T2).
    assert (P3 := reads3_simple (TBack t) eq_refl P2). assert (P0 : reads0 (TBack t)) by (by apply H0).
    split_and!; try done. by apply reads1_simple.
Qed.
End sees.

(** The characters of the text of a command. *)
Lemma show_chars (P : Z -> Prop) t lvl :
  (forall c, word_char c = true -> c <> 0 -> P c) -> Forall P [32; 38; 40; 41; 59; 60; 62; 124] ->
  expressible t -> Forall P (show t lvl).
Proof.
  intros HP Hs. assert (Hw : forall w, is_word w -> Forall P w)
    by (intros w [_ H]; eapply Forall_impl; [exact H|]; intros ? []; by apply HP).
  assert (H32 : P 32) by (by eapply Forall_inv). rewrite !Forall_cons in Hs.
  revert lvl. induction t as [ws|t IH f m d|l IHl r IHr|l IHl r IHr|t IH]; intros lvl He; cbn [show].
  - destruct He as [Hws _]. destruct ws as [|w ws]; [constructor|]. apply Forall_cons in Hws as [H1 Hws].
    cbn. apply Forall_app. split; [by apply Hw|]. induction Hws as [|x ws Hx _ IH]; cbn; [constructor|].
    constructor; [done|]. apply Forall_app. split; [by apply Hw|done].
  - destruct He as (? & ? & _). apply Forall_app. split; [by apply IH|].
    constructor; [destruct (d =? 0); naive_solver|by apply Hw].
  - destruct He. unfold paren. destruct (lvl <? 1)%nat; rewrite ?Forall_cons, ?Forall_app, ?Forall_cons; naive_solver.
  - destruct He. unfold paren. destruct (lvl <? 3)%nat; rewrite ?Forall_cons, ?Forall_app, ?Forall_cons; naive_solver.
  - unfold paren. destruct (lvl <? 2)%nat; rewrite ?Forall_cons, ?Forall_app, ?Forall_cons; naive_solver.
Qed.

Lemma show_nul t lvl : expressible t -> Forall (fun c => c <> 0) (show t lvl).
Proof. by apply show_chars; [|repeat constructor]. Qed.

(** ** Properties *)

(** The two facts about a parsed line that the rest uses. *)
Lemma parsed_ok (line : list Z) c b s :
  Forall (fun c => c <> 0) line -> parsecmd line = Done (c, b) s ->
  cmd_ok line c /\ forall a, a ∈ tokens c -> cstr (drop a.1 b) = text line a.
Proof.
  intros Hnul E. pose proof (ends_parse_buf line Hnul) as H. unfold ends in H. unfold parsecmd in E.
  destruct (parse_buf line 0%nat) as [c' s'|msg| | |]; try done. injection E as -> <- ->.
  destruct H as (_ & Hok & _). split; [done|]. intros a Ha. by apply nulterminate_text.
Qed.

(** White space after the text of a command does not matter: the line that is
    read ends with a newline. *)
Lemma parse_show_white (t : tree) (w : list Z) :
  expressible t -> white w ->
  exists c b s, parsecmd (show t 3 ++ w) = Done (c, b) s /\ tree_of (show t 3 ++ w) c = t.
Proof.
  intros He Hw. set (line := show t 3 ++ w).
  assert (Hn : Forall (fun c => c <> 0) line).
  { apply Forall_app. split; [by apply show_nul|]. eapply Forall_impl; [exact Hw|]. intros c Hc ->. discriminate Hc. }
  assert (Hs : sees line 0 (show t 3 ++ [])).
  { rewrite app_nil_r, <- (app_nil_r (show t 3)), <- (show_strip t 3 []) by done. rewrite app_nil_r.
    by apply (sees_drop line _ _ w); [lia| |]. }
  destruct (reads_all line Hn (S (tsize t)) t) as (_ & _ & _ & R3); [lia|done|].
  destruct (R3 (4 * length line + 4)%nat 0%nat [] I Hs) as (c & s & E & Hs' & Ht).
  { rewrite app_nil_r. unfold line. rewrite length_app. lia. }
  exists c, (nulterminate c (line ++ [0])), (skip line s). split; [|exact Ht].
  assert (Ep : parse_buf line 0%nat = Done c (skip line s)).
  { unfold parse_buf. mstep E. rewrite (bind_done _ _ _ _ _ (peek_sees line Hn s [] [] Hs')). msimp.
    pose proof (sees_nil line s Hs') as [_ ->]. by rewrite Nat.eqb_refl. }
  unfold parsecmd. by rewrite Ep.
Qed.

Lemma parse_show (t : tree) :
  expressible t -> exists c b s, parsecmd (show t 3) = Done (c, b) s /\ tree_of (show t 3) c = t.
Proof.
  intros He. destruct (parse_show_white t [] He) as (c & b & s & H); [constructor|].
  rewrite app_nil_r in H. by exists c, b, s.
Qed.

(** C18: The parser is total and its result is well formed.  On every line it
    either reports a syntax error or returns a command; it never runs out of
    the line, never loops.  In a command it returns every argument and every
    file name is a word of the line, no command has more than nine arguments,
    and after [nulterminate] each of them is a C string whose text is exactly
    that word, so that no NUL was written into another word. *)
Theorem parsecmd_total (line : list Z) (Hnul : Forall (fun c => c <> 0) line) :
  (exists msg, parsecmd line = Panic msg) \/
  (exists c b s, parsecmd line = Done (c, b) s /\ cmd_ok line c /\
     forall a, a ∈ tokens c -> cstr (drop a.1 b) = text line a).
Proof.
  pose proof (ends_parse_buf line Hnul) as H. unfold ends in H. unfold parsecmd.
  destruct (parse_buf line 0%nat) as [c s|msg| | |]; try done; [|left; by exists msg].
  destruct H as (_ & Hok & _). right. exists c, (nulterminate c (line ++ [0])), s. split_and!; [done|done|].
  intros a Ha. by apply nulterminate_text.
Qed.

Lemma parsecmd_total_witness :
  (exists msg, parsecmd [97; 124; 98; 10] = Panic msg) \/
  (exists c b s, parsecmd [97; 124; 98; 10] = Done (c, b) s /\ cmd_ok [97; 124; 98; 10] c /\
     forall a, a ∈ tokens c -> cstr (drop a.1 b) = text [97; 124; 98; 10] a).
Proof. apply (parsecmd_total [97; 124; 98; 10]). repeat constructor; discriminate. Defined.

(** C19: Parsing is the inverse of printing.  Every command tree that the
    shell can express (any nesting of lists, pipes, background commands and
    redirections, with at most nine arguments to a command) is what the parser
    makes of its text, where parentheses are put only where the grammar needs
    them. *)
Theorem parse_show_roundtrip (t : tree) (He : expressible t) :
  exists c b s, parsecmd (show t 3) = Done (c, b) s /\ tree_of (show t 3) c = t.
Proof. by apply parse_show. Qed.

(** The command [(a;b&)<f|c d]. *)
Definition tree_demo : tree :=
  TPipe (TRedir (TList (TExec [[97]]) (TBack (TExec [[98]]))) [102] O_RDONLY 0) (TExec [[99]; [100]]).

Lemma parse_show_roundtrip_witness :
  show tree_demo 3 = [40; 97; 59; 98; 38; 41; 60; 102; 124; 99; 32; 100] /\
  exists c b s, parsecmd (show tree_demo 3) = Done (c, b) s /\ tree_of (show tree_demo 3) c = tree_demo.
Proof.
  split; [reflexivity|]. apply (parse_show_roundtrip tree_demo).
  assert (Hw : forall c, word_char c = true -> c <> 0 -> is_word [c]) by (intros; split; [done|by repeat constructor]).
  cbn. unfold MAXARGS. split_and!; try lia; repeat constructor; try (by apply Hw); try done; cbn; try lia.
Defined.
