(* ===== verification/Runcmd.v ===== *)
(** * Running commands: [runcmd] of [user/sh.c]

    The processes that a command starts and the descriptors that each program
    gets.  A process is its table of descriptors, which [fork] copies.  The
    system calls are the other side of an interface: which [fork], [pipe],
    [open] and [exec] succeed is a parameter, and so is what [dup] answers.
    Only a pipe calls [dup]; the answer that its documentation promises
    (comment of [sys_dup] in [kernel/sysfile.c]) is a named hypothesis of what
    is said about commands with pipes, and [kernel_dup] is the answer of this
    kernel, which is another.  A descriptor is allocated as that comment says,
    the smallest unused one.  [wait] gives the number of one of the children
    that ended, whichever, and -1 to a process without children; no one kills
    the shell's processes.  A failed [assert] ([inc/test.h]) spins, so that a
    process that waits for it never ends.  The two sides of a pipe run
    concurrently: they share no table, and the list of events gives those of
    the left side first.  A program that was started is taken to end. *)

From S2P Require Import Prelude Types Strings Shell.

(** ** The system calls *)

Inductive obj :=
| Device
| Opened (name : list Z) (mode : Z)
| PipeRead (n : nat)
| PipeWrite (n : nat).

Abbreviation fds := (list (option obj)).

Fixpoint lowest (t : fds) : option nat :=
  match t with
  | [] => None
  | None :: _ => Some 0%nat
  | Some _ :: t => S <$> lowest t
  end.

(** [close(fd) == 0] and the table after it. *)
Definition fd_close (fd : nat) (t : fds) : option fds :=
  match t !! fd with Some (Some _) => Some (<[fd := None]> t) | _ => None end.

(** What a process does that can be seen: it becomes a program, writes to
    [stderr] and exits, or spins in a failed assertion. *)
Inductive event :=
| Runs (argv : list (list Z)) (t : fds)
| Says (msg : string) (name : list Z)
| Spins.

(** How many pipes and processes were made. *)
Record counts := Counts { pipes : nat; forks : nat }.

(** The events, whether the process never ends, and the counts. *)
Abbreviation outcome := (list event * bool * counts)%type.

Definition exits (ev : list event) (w : counts) : outcome := (ev, false, w).
Definition spins (w : counts) : outcome := ([Spins], true, w).

(** [x], and then [f] in a process that waited for it. *)
Definition after (x : outcome) (f : counts -> outcome) : outcome :=
  let '(e1, h1, w1) := x in
  if (h1 : bool) then (e1, true, w1) else let '(e2, h2, w2) := f w1 in (e1 ++ e2, h2, w2).

(** [x] in a process for which no one waits, and then [f]. *)
Definition detached (x : outcome) (f : counts -> outcome) : outcome :=
  let '(e1, _, w1) := x in let '(e2, h2, w2) := f w1 in (e1 ++ e2, h2, w2).

Section run.
Context (buf : list Z) (dup_answer : obj -> nat -> Z) (pick : list Z -> nat).
Context (fork_ok pipe_ok : nat -> bool) (can_open : list Z -> Z -> bool) (can_exec : list Z -> bool).

(** The string at a pointer into the line. *)
Definition str_at (a : nat) : list Z := cstr (drop a buf).

Definition fd_dup (fd : nat) (t : fds) : fds * Z :=
  match t !! fd with
  | Some (Some o) =>
      match lowest t with
      | Some i => (<[i := Some o]> t, dup_answer o i)
      | None => (t, -1)
      end
  | _ => (t, -1)
  end.

(** ** The code *)

(** [fork1]: the number of the process for the parent, or [panic("fork")].
    The first process has the number 1. *)
Definition fork1 (w : counts) (k : Z -> counts -> outcome) : outcome :=
  let w' := Counts (pipes w) (S (forks w)) in
  if fork_ok (forks w) then k (Z.of_nat (S (forks w))) w' else exits [Says "fork" []] w'.

(** [wait] in a process whose children [kids] have ended: the one that it
    collects ([pick] says which), its number, and the children that remain. *)
Definition wait (kids : list Z) : Z * list Z :=
  let i := (pick kids mod length kids)%nat in (default (-1) (kids !! i), delete i kids).

(** [assert(wait() > 0)], [n] times, in a process with at least [n] children of
    which [kids] end: it sleeps for ever when none is left that does. *)
Fixpoint wait_all (n : nat) (kids : list Z) : list event * bool :=
  match n, kids with
  | O, _ => ([], false)
  | S _, [] => ([], true)
  | S n, _ => let '(pid, kids) := wait kids in if 0 <? pid then wait_all n kids else ([Spins], true)
  end.

(** The end of the parent of a pipe, which closes both ends and waits for its
    two children, [pl], which hangs if [hl], and [pr], which gave [x]. *)
Definition waits (pl pr : Z) (hl : bool) (closed : option fds) (x : outcome) : outcome :=
  let '(e, hr, w) := x in
  match closed with
  | Some _ =>
      let '(e', h) := wait_all 2 ((if hl then [] else [pl]) ++ (if hr : bool then [] else [pr])) in (e ++ e', h, w)
  | None => (e ++ [Spins], true, w)
  end.

(** The child of a pipe: the four assertions, with the descriptor it
    replaces and the end that replaces it. *)
Definition child_fds (fd pend p0 p1 : nat) (t : fds) : option fds :=
  t1 ← fd_close fd t;
  let '(t2, r) := fd_dup pend t1 in
  if r =? Z.of_nat fd then t3 ← fd_close p0 t2; fd_close p1 t3 else None.

(** A process that runs a command has no children: it has just been made, or
    it has collected the one it made. *)
Fixpoint runcmd (c : cmd) (t : fds) (w : counts) : outcome :=
  match c with
  | EXEC [] => exits [] w
  | EXEC (((q, _) :: _) as argv) =>
      if can_exec (str_at q) then exits [Runs ((fun a => str_at a.1) <$> argv) t] w
      else exits [Says "failed to execute" (str_at q)] w
  | REDIR c file _ mode fd =>
      match fd_close (Z.to_nat fd) t with
      | None => spins w
      | Some t1 =>
          match can_open (str_at file) mode, lowest t1 with
          | true, Some i => runcmd c (<[i := Some (Opened (str_at file) mode)]> t1) w
          | _, _ => exits [Says "open failed" (str_at file)] w
          end
      end
  | LIST l r =>
      fork1 w (fun pid w => after (runcmd l t w) (fun w =>
        if (wait [pid]).1 =? pid then runcmd r t w else spins w))
  | PIPE l r =>
      let n := pipes w in
      let w := Counts (S n) (forks w) in
      match pipe_ok n, lowest t with
      | true, Some p0 =>
          let t1 := <[p0 := Some (PipeRead n)]> t in
          match lowest t1 with
          | None => exits [Says "pipe failed" []] w
          | Some p1 =>
              let t2 := <[p1 := Some (PipeWrite n)]> t1 in
              fork1 w (fun pl w =>
                let left := match child_fds 1 p1 p0 p1 t2 with Some tl => runcmd l tl w | None => spins w end in
                let right := fun w =>
                  match child_fds 0 p0 p0 p1 t2 with Some tr => runcmd r tr w | None => spins w end in
                detached left (fun w => fork1 w (fun pr w =>
                  waits pl pr left.1.2 (t3 ← fd_close p0 t2; fd_close p1 t3) (right w))))
          end
      | _, _ => exits [Says "pipe failed" []] w
      end
  | BACK c => fork1 w (fun _ w => detached (runcmd c t w) (exits []))
  end.

(** ** What it should do *)

(** A process with just the three standard descriptors. *)
Definition std (i o e : obj) : fds := [Some i; Some o; Some e] ++ replicate 13 None.

(** No process spins, and every program is started with exactly the three
    standard descriptors: no end of a pipe is left open in it. *)
Definition clean (x : outcome) : Prop :=
  x.1.2 = false /\
  Forall (fun ev => match ev with
                    | Runs _ t => exists i o e, t = std i o e
                    | Says _ _ => True
                    | Spins => False
                    end) x.1.1.

(** The programs of a command with the file or the end of a pipe that its
    place in the command gives them, when every process and pipe is made. *)
Fixpoint wired (t : tree) (i o e : obj) (w : counts) : list event * counts :=
  match t with
  | TExec [] => ([], w)
  | TExec ((p :: _) as ws) =>
      (if can_exec p then [Runs ws (std i o e)] else [Says "failed to execute" p], w)
  | TRedir t f mode fd =>
      if can_open f mode then
        if fd =? 0 then wired t (Opened f mode) o e w else wired t i (Opened f mode) e w
      else ([Says "open failed" f], w)
  | TPipe l r =>
      let n := pipes w in
      let '(e1, w1) := wired l i (PipeWrite n) e (Counts (S n) (S (forks w))) in
      let '(e2, w2) := wired r (PipeRead n) o e (Counts (pipes w1) (S (forks w1))) in
      (e1 ++ e2, w2)
  | TList l r =>
      let '(e1, w1) := wired l i o e (Counts (pipes w) (S (forks w))) in
      let '(e2, w2) := wired r i o e w1 in
      (e1 ++ e2, w2)
  | TBack t => wired t i o e (Counts (pipes w) (S (forks w)))
  end.

(** ** Lemmas *)

(** The documented answer of [dup]: the descriptor that it allocated. *)
Definition dup_documented : Prop := forall x fd, dup_answer x fd = Z.of_nat fd.

(** A command without a pipe. *)
Fixpoint pipe_free (t : tree) : Prop :=
  match t with
  | TExec _ => True
  | TRedir t _ _ _ | TBack t => pipe_free t
  | TPipe _ _ => False
  | TList l r => pipe_free l /\ pipe_free r
  end.

Lemma wait_one pid : wait [pid] = (pid, []).
Proof. unfold wait. cbn [length]. by rewrite Nat.mod_1_r. Qed.

Lemma wait_two pl pr : 0 < pl -> 0 < pr -> wait_all 2 [pl; pr] = ([], false).
Proof.
  intros Hl Hr. cbn [wait_all]. unfold wait at 1. cbn [length].
  assert (Hi : (pick [pl; pr] mod 2 = 0 \/ pick [pl; pr] mod 2 = 1)%nat)
    by (pose proof (Nat.mod_upper_bound (pick [pl; pr]) 2); lia).
  destruct Hi as [-> | ->]; cbn -[wait]; rewrite wait_one; apply Z.ltb_lt in Hl, Hr; by rewrite Hl, Hr.
Qed.

Lemma wait_list {A} pid (x y : A) : (if (wait [pid]).1 =? pid then x else y) = x.
Proof. by rewrite wait_one, Z.eqb_refl. Qed.

Lemma clean_says m l w : clean (exits [Says m l] w).
Proof. split; [done|]. by repeat constructor. Qed.

Lemma clean_fork1 w k : (forall pid w, 0 < pid -> clean (k pid w)) -> clean (fork1 w k).
Proof. intros H. unfold fork1. destruct (fork_ok _); [apply H; lia|apply clean_says]. Qed.

Lemma clean_after x f : clean x -> (forall w, clean (f w)) -> clean (after x f).
Proof.
  destruct x as [[e1 h1] w1]. intros [Hh He] Hf. cbn in *. subst h1. cbn. specialize (Hf w1).
  destruct (f w1) as [[e2 h2] w2], Hf as [Hh2 He2]. split; [done|]. by apply Forall_app.
Qed.

Lemma clean_detached x f : clean x -> (forall w, clean (f w)) -> clean (detached x f).
Proof.
  destruct x as [[e1 h1] w1]. intros [_ He] Hf. cbn in *. specialize (Hf w1).
  destruct (f w1) as [[e2 h2] w2], Hf as [Hh2 He2]. split; [done|]. by apply Forall_app.
Qed.

Lemma waits_both pl pr t e w : 0 < pl -> 0 < pr -> waits pl pr false (Some t) (e, false, w) = (e, false, w).
Proof. intros. cbn [waits app]. by rewrite wait_two, app_nil_r. Qed.

Lemma waits_one pl pr t e h w : 0 < pr -> waits pl pr true (Some t) (e, h, w) = (e, true, w).
Proof.
  intros Hr. destruct h; cbn -[wait]; [by rewrite app_nil_r|]. rewrite wait_one. apply Z.ltb_lt in Hr.
  by rewrite Hr, app_nil_r.
Qed.

Lemma clean_waits pl pr h t x : 0 < pl -> 0 < pr -> h = false -> clean x -> clean (waits pl pr h (Some t) x).
Proof. destruct x as [[e2 h2] w2]. intros ?? -> [Hh He]. cbn in Hh. subst h2. by rewrite waits_both. Qed.

(** The tables of the two children and of the parent of a pipe. *)
Section tables.
Context (i o e : obj) (n : nat).

Definition piped : fds := <[4%nat := Some (PipeWrite n)]> (<[3%nat := Some (PipeRead n)]> (std i o e)).

Lemma left_fds : dup_documented -> child_fds 1 4 3 4 piped = Some (std i (PipeWrite n) e).
Proof. intros H. unfold child_fds, fd_dup. cbn. by rewrite H. Qed.

Lemma right_fds : dup_documented -> child_fds 0 3 3 4 piped = Some (std (PipeRead n) o e).
Proof. intros H. unfold child_fds, fd_dup. cbn. by rewrite H. Qed.
End tables.

(** The code of a pipe on the three standard descriptors. *)
Lemma runcmd_pipe l r i o e w :
  dup_documented ->
  runcmd (PIPE l r) (std i o e) w =
  let n := pipes w in
  if pipe_ok n then
    fork1 (Counts (S n) (forks w)) (fun pl w =>
      let left := runcmd l (std i (PipeWrite n) e) w in
      detached left (fun w => fork1 w (fun pr w =>
        waits pl pr left.1.2 (Some (std i o e)) (runcmd r (std (PipeRead n) o e) w))))
  else exits [Says "pipe failed" []] (Counts (S n) (forks w)).
Proof.
  intros H. pose proof (left_fds i o e (pipes w) H) as Hl. pose proof (right_fds i o e (pipes w) H) as Hr.
  cbn [runcmd]. destruct (pipe_ok (pipes w)); [|done]. unfold piped in Hl, Hr. cbn in Hl, Hr |- *. by rewrite Hl, Hr.
Qed.

Lemma runcmd_redir c q f mode fd i o e w :
  redir_kind mode fd ->
  runcmd (REDIR c q f mode fd) (std i o e) w =
  if can_open (str_at q) mode then
    if fd =? 0 then runcmd c (std (Opened (str_at q) mode) o e) w else runcmd c (std i (Opened (str_at q) mode) e) w
  else exits [Says "open failed" (str_at q)] w.
Proof. intros [[_ ->]|[_ ->]]; cbn; by destruct (can_open _ _). Qed.

#[local] Arguments std : simpl never.

Lemma runcmd_clean line c i o e w :
  pipe_free (tree_of line c) \/ dup_documented -> cmd_ok line c -> clean (runcmd c (std i o e) w).
Proof.
  revert i o w. induction c as [argv|c IH q f mode fd|l IHl r IHr|l IHl r IHr|c IH]; intros i o w Hdup Hok.
  - cbn. destruct argv as [|[q f] argv]; [by split|]. destruct (can_exec _); [|apply clean_says].
    split; [done|]. constructor; [by exists i, o, e|done].
  - destruct Hok as (Hc & _ & Hk). rewrite runcmd_redir by done.
    destruct (can_open _ _); [|apply clean_says]. destruct (fd =? 0); by apply IH.
  - destruct Hdup as [[]|Hdup], Hok as [Hl Hr]. rewrite runcmd_pipe by done. cbn zeta.
    destruct (pipe_ok _); [|apply clean_says]. apply clean_fork1. intros pl w1 Hpl.
    apply clean_detached; [by apply IHl; [right|]|]. intros w2. apply clean_fork1. intros pr w3 Hpr.
    apply clean_waits; [done|done|by apply IHl; [right|]|by apply IHr; [right|]].
  - destruct Hok as [Hl Hr]. cbn [tree_of pipe_free] in Hdup. apply clean_fork1. intros pid w1 _.
    apply clean_after; [apply IHl; tauto|]. intros w2. rewrite wait_list. apply IHr; tauto.
  - apply clean_fork1. intros pid w1 _. apply clean_detached; [by apply IH|]. by split.
Qed.

Lemma runcmd_wired line c i o e w :
  pipe_free (tree_of line c) \/ dup_documented -> (forall k, fork_ok k = true) -> (forall k, pipe_ok k = true) ->
  cmd_ok line c -> (forall a, a ∈ tokens c -> str_at a.1 = text line a) ->
  runcmd c (std i o e) w = (let '(ev, w') := wired (tree_of line c) i o e w in (ev, false, w')).
Proof.
  intros Hdup Hfork Hpipe. revert i o w Hdup.
  induction c as [argv|c IH q f mode fd|l IHl r IHr|l IHl r IHr|c IH]; intros i o w Hdup Hok Htext; cbn [tokens] in Htext.
  - assert (E : (fun a : nat * nat => str_at a.1) <$> argv = text line <$> argv).
    { apply list_fmap_ext. intros k a Ha. apply Htext. by eapply list_elem_of_lookup_2. }
    destruct argv as [|[q f] argv]; [done|]. cbn [runcmd tree_of wired]. rewrite E. cbn [fmap list_fmap].
    pose proof (Htext (q, f) ltac:(left)) as Eq. cbn [fst] in Eq. rewrite Eq. by destruct (can_exec _).
  - destruct Hok as (Hc & _ & Hk). rewrite runcmd_redir by done. cbn [tree_of wired].
    pose proof (Htext (q, f) ltac:(set_solver)) as Eq. cbn [fst] in Eq. rewrite Eq.
    destruct (can_open _ _); [|done]. assert (Ht : forall a, a ∈ tokens c -> str_at a.1 = text line a) by set_solver.
    destruct (fd =? 0); by apply IH.
  - destruct Hdup as [[]|Hdup], Hok as [Hl Hr]. rewrite runcmd_pipe by done. cbn zeta. rewrite Hpipe. cbn [tree_of wired].
    unfold fork1 at 1. rewrite Hfork. cbn [pipes forks]. rewrite IHl by (by right || done || set_solver).
    destruct (wired _ _ _ _ _) as [e1 w1]. unfold detached, fork1. rewrite Hfork. cbn [fst snd].
    rewrite IHr by (by right || done || set_solver). destruct (wired _ _ _ _ _) as [e2 w2].
    by rewrite waits_both by lia.
  - destruct Hok as [Hl Hr]. cbn [runcmd tree_of wired pipe_free] in Hdup |- *. unfold fork1. rewrite Hfork.
    rewrite IHl by (tauto || set_solver). destruct (wired _ _ _ _ _) as [e1 w1]. unfold after.
    rewrite wait_list, IHr by (tauto || set_solver). by destruct (wired _ _ _ _ _) as [e2 w2].
  - cbn [runcmd tree_of wired]. unfold fork1. rewrite Hfork. cbn. rewrite IH by done.
    destruct (wired _ _ _ _ _) as [e1 w1]. cbn. by rewrite app_nil_r.
Qed.

End run.

(** What [file_dup] of this kernel answers: 0 for an end of a pipe, whatever
    descriptor it installed. *)
Definition kernel_dup (o : obj) (fd : nat) : Z :=
  match o with PipeRead _ | PipeWrite _ => 0 | _ => Z.of_nat fd end.

(** ** Properties *)

(** A command runs as it is written.  The line that shows a command tree
    is parsed, and running what the parser made of it, in a process with the
    three standard descriptors, starts the programs of the tree, each with
    exactly three descriptors: the ends of the pipes and the files that its
    place in the tree gives it.  No assertion fails and the shell gets its
    prompt back.  This is when processes and pipes can be made, and for a tree
    with a pipe it is for a [dup] that answers as documented; a file or program
    that is not there stops only its own part of the command, with a message. *)
Theorem shell_runs_what_is_written (t : tree) (He : expressible t)
    (dup_answer : obj -> nat -> Z) (Hdup : pipe_free t \/ dup_documented dup_answer) (pick : list Z -> nat)
    (fork_ok pipe_ok : nat -> bool) (Hfork : forall k, fork_ok k = true) (Hpipe : forall k, pipe_ok k = true)
    (can_open : list Z -> Z -> bool) (can_exec : list Z -> bool) (i o e : obj) (w : counts) :
  exists c b s, parsecmd (show t 3) = Done (c, b) s /\
    runcmd b dup_answer pick fork_ok pipe_ok can_open can_exec c (std i o e) w =
    (let '(ev, w') := wired can_open can_exec t i o e w in (ev, false, w')).
Proof.
  destruct (parse_show t He) as (c & b & s & E & Ht). exists c, b, s. split; [done|].
  destruct (parsed_ok _ _ _ _ (show_nul t 3 He) E) as [Hok Htext].
  rewrite <- Ht in Hdup. rewrite <- Ht at 1. by apply runcmd_wired.
Qed.

(** The command [a<f|b], where [b] cannot be run. *)
Lemma shell_runs_what_is_written_witness :
  let t := TPipe (TRedir (TExec [[97]]) [102] O_RDONLY 0) (TExec [[98]]) in
  let can_exec := fun p => bool_decide (p = [97]) in
  wired (fun _ _ => true) can_exec t Device Device Device (Counts 0 0) =
    ([Runs [[97]] (std (Opened [102] O_RDONLY) (PipeWrite 0) Device); Says "failed to execute" [98]], Counts 1 2) /\
  exists c b s, parsecmd (show t 3) = Done (c, b) s /\
    runcmd b (fun _ fd => Z.of_nat fd) (fun _ => 1%nat) (fun _ => true) (fun _ => true) (fun _ _ => true) can_exec c
      (std Device Device Device) (Counts 0 0) =
    (let '(ev, w') := wired (fun _ _ => true) can_exec t Device Device Device (Counts 0 0) in (ev, false, w')).
Proof.
  intros t can_exec. split; [reflexivity|]. apply (shell_runs_what_is_written t); [|by right|done|done].
  assert (Hw : forall c, word_char c = true -> c <> 0 -> is_word [c]) by (intros; split; [done|by repeat constructor]).
  cbn. unfold MAXARGS, redir_kind. split_and!; try lia; repeat constructor; try (by apply Hw); cbn; try lia.
Defined.

(** C20: No command leaks a descriptor or fails an assertion, but for pipes on
    this kernel.  Whatever line was read, and whichever calls of [fork], [pipe],
    [open] and [exec] fail, if the parser accepts the line then no process that
    it starts spins, the shell that waits for it is not blocked by it, and every
    program it starts has just the three standard descriptors; every assertion
    on [wait] holds, whichever child it collects.  This is for a line without a
    pipe, whatever [dup] does, and for any line if [dup] answers as documented.
    The [dup] of this kernel does not: what happens to its pipes is
    [kernel_dup_hangs_pipes]. *)
Theorem shell_leaks_nothing (line : list Z) (Hnul : Forall (fun c => c <> 0) line)
    (c : cmd) (b : list Z) (s : nat) (Hparse : parsecmd line = Done (c, b) s)
    (dup_answer : obj -> nat -> Z) (Hdup : pipe_free (tree_of line c) \/ dup_documented dup_answer)
    (pick : list Z -> nat) (fork_ok pipe_ok : nat -> bool) (can_open : list Z -> Z -> bool)
    (can_exec : list Z -> bool) (i o e : obj) (w : counts) :
  clean (runcmd b dup_answer pick fork_ok pipe_ok can_open can_exec c (std i o e) w).
Proof. destruct (parsed_ok _ _ _ _ Hnul Hparse) as [Hok _]. by apply (runcmd_clean _ _ _ _ _ _ _ line). Qed.

(** The line [a<f;b] with the [dup] of this kernel, where [f] cannot be opened;
    and the line [a|b] with the documented one, where the second [fork] fails. *)
Lemma shell_leaks_nothing_witness :
  clean (runcmd [97; 0; 102; 0; 98; 0] kernel_dup (fun _ => 7%nat) (fun _ => true) (fun _ => true)
    (fun _ _ => false) (fun _ => true)
    (LIST (REDIR (EXEC [(0, 1)%nat]) 2 3 O_RDONLY 0) (EXEC [(4, 5)%nat])) (std Device Device Device) (Counts 0 0)) /\
  clean (runcmd [97; 0; 98; 0] (fun _ fd => Z.of_nat fd) (fun _ => 0%nat) (fun k => (k <? 1)%nat) (fun _ => true)
    (fun _ _ => true) (fun _ => true) (PIPE (EXEC [(0, 1)%nat]) (EXEC [(2, 3)%nat]))
    (std Device Device Device) (Counts 0 0)).
Proof.
  split.
  - apply (shell_leaks_nothing [97; 60; 102; 59; 98] ltac:(repeat constructor; discriminate) _ _ 5%nat);
      [vm_compute; reflexivity|by left].
  - apply (shell_leaks_nothing [97; 124; 98] ltac:(repeat constructor; discriminate) _ _ 3%nat); [reflexivity|by right].
Defined.

(** C21: With the [dup] of this kernel every pipe of the shell hangs.  Its
    left side closes standard output and installs the end of the pipe there,
    but [dup] answers 0 instead of 1: the assertion fails, the process spins
    and the command on the left is never run.  The right side runs, as 0 is the
    descriptor it expects.  The process that waits for both never ends.  The
    other system calls are taken as documented, and [fork] and [pipe] succeed. *)
Theorem kernel_dup_hangs_pipes (b : list Z) (pick : list Z -> nat) (fork_ok pipe_ok : nat -> bool)
    (Hfork : forall k, fork_ok k = true) (Hpipe : forall k, pipe_ok k = true)
    (can_open : list Z -> Z -> bool) (can_exec : list Z -> bool) (l r : cmd) (i o e : obj) (w : counts) :
  runcmd b kernel_dup pick fork_ok pipe_ok can_open can_exec (PIPE l r) (std i o e) w =
  (let '(ev, _, w') :=
     runcmd b kernel_dup pick fork_ok pipe_ok can_open can_exec r (std (PipeRead (pipes w)) o e)
       (Counts (S (pipes w)) (S (S (forks w)))) in
   (Spins :: ev, true, w')).
Proof.
  cbn [runcmd]. rewrite Hpipe. cbn -[runcmd waits]. unfold fork1. rewrite Hfork.
  change (Z.of_nat 1) with 1. change (Z.of_nat 0) with 0. cbn -[runcmd waits]. rewrite Hfork.
  destruct (runcmd _ _ _ _ _ _ _ r _ _) as [[ev h] w']. by rewrite waits_one by lia.
Qed.

(** The command [a|b]. *)
Lemma kernel_dup_hangs_pipes_witness :
  runcmd [97; 0; 98; 0] kernel_dup (fun _ => 0%nat) (fun _ => true) (fun _ => true) (fun _ _ => true) (fun _ => true)
    (PIPE (EXEC [(0, 1)%nat]) (EXEC [(2, 3)%nat])) (std Device Device Device) (Counts 0 0) =
  ([Spins; Runs [[98]] (std (PipeRead 0) Device Device)], true, Counts 1 2).
Proof. etransitivity; [apply kernel_dup_hangs_pipes; done|reflexivity]. Defined.
