(* ===== verification/Utils.v ===== *)
(** * Other user programs: [user/ls.c], [init.c], [kill.c], [ln.c], [rm.c],
    [sysinfo.c], [zombie.c], [stressfs.c], [lab3init.c]; [main] of [sh.c] and
    [grep.c]; [gets] and [stat] of [ulib.c]

    A program is run against the kernel's answers: a system call is appended
    to the list of the calls made so far, and what it returns is a function of
    that list.  [read], [write], [open] for reading and [close] are those of
    [Ulib].  [fork] returns to one process; its answer says to which. *)

From S2P Require Import Prelude Types Strings Ulib Printf Grep Shell Runcmd.

Inductive call :=
| CFork
| CWait
| CExec (path : list Z) (argv : list (list Z))
| CKill (pid : Z)
| CLink (old new : list Z)
| CUnlink (path : list Z)
| CMknod (path : list Z) (major minor : Z)
| CDup (fd : Z)
| COpen (path : list Z) (mode : Z)
| CFstat (fd : Z)
| CSleep (n : Z)
| CSysinfo
| CExit.

#[global] Instance call_eq_dec : EqDecision call.
Proof. solve_decision. Defined.

(** [struct sys_info] of [inc/sysinfo.h]. *)
Record sys_info := mk_sys_info {
  si_pages_in_use : Z;
  si_pages_in_swap : Z;
  si_free_pages : Z;
  si_num_page_faults : Z;
  si_num_disk_reads : Z
}.

(** The kernel: what a call returns after the calls before it (the latest
    first), and what [fstat] and [sysinfo] store. *)
Class kernel := {
  answer : list call -> call -> Z;
  stat_of : list call -> Z -> stat;
  info_of : list call -> sys_info
}.

(** The program's own state and the calls that it made, the latest first. *)
Record prog := mk_prog {
  pg_u : ustate;
  pg_calls : list call
}.

Abbreviation G := (M prog).

(** What a program does to its own state and through [Ulib], which never blocks. *)
Definition usr {A} (m : U A) : G A := fun s =>
  match m (pg_u s) with
  | Done a u => Done a (mk_prog u (pg_calls s))
  | Panic e => Panic e
  | Fault e => Fault e
  | Diverge | Block _ _ => Diverge
  end.

Section programs.
Context `{K : kernel}.

Definition kcall (c : call) : G Z := fun s =>
  Done (answer (pg_calls s) c) (mk_prog (pg_u s) (c :: pg_calls s)).

(** [exit] does not return; a program that called it has returned from [main]. *)
Definition exit_prog : G unit := kcall CExit ;; ret tt.

(** [exec] returns only when it fails; then a program complains and exits. *)
Definition exec_or (path : list Z) (argv : list (list Z)) (complain : G unit) : G unit :=
  r <- kcall (CExec path argv) ;;
  if r <? 0 then complain ;; exit_prog else ret tt.

Definition line (s : string) : list Z := str s ++ [10].

Definition say (fd : Z) (fmt : list Z) (args : list arg) : G unit := usr (printf fd fmt args).

(** ** [ulib.c] *)

(** The loop of [gets]: the number of characters stored. *)
Fixpoint gets_loop (fuel : nat) (buf max c i : Z) : U Z :=
  match fuel with
  | O => diverge
  | S fuel =>
      if i + 1 <? max then
        cc <- read 0 c 1 ;;
        if cc <? 1 then ret i else
        x <- lift (ld c) ;;
        lift (st (buf + i) x) ;;
        if (x =? 10) || (x =? 13) then ret (i + 1) else gets_loop fuel buf max c (i + 1)
      else ret i
  end.

(** [c] is the address of the local variable. *)
Definition ugets (buf max c : Z) : U Z :=
  i <- gets_loop (S (Z.to_nat max)) buf max c 0 ;;
  lift (st (buf + i) 0) ;;
  ret buf.

(** [fstat] fills a structure of the caller: the result with the call's. *)
Definition fstat (fd : Z) : G (Z * stat) := fun s =>
  Done (answer (pg_calls s) (CFstat fd), stat_of (pg_calls s) fd) (mk_prog (pg_u s) (CFstat fd :: pg_calls s)).

Definition ustat (n : list Z) : G (Z * option stat) :=
  fd <- usr (open n) ;;
  if fd <? 0 then ret (-1, None) else
  let* (r, st) := fstat fd in
  usr (close fd) ;;
  ret (r, Some st).

(** ** [kill.c], [ln.c], [rm.c], [zombie.c], [sysinfo.c] *)

(** The arguments after the name; those of [kill] are the strings' addresses. *)
Fixpoint kill_all (argv : list Z) : G unit :=
  match argv with
  | [] => ret tt
  | a :: argv => n <- usr (lift (atoi a)) ;; kcall (CKill n) ;; kill_all argv
  end.

Definition kill_main (argv : list Z) : G unit :=
  match argv with
  | [] => say 2 (line "usage: kill pid...") [] ;; exit_prog
  | _ => kill_all argv ;; exit_prog
  end.

Definition ln_main (argv : list (list Z)) : G unit :=
  match argv with
  | [old; new] =>
      r <- kcall (CLink old new) ;;
      (if r <? 0 then say 2 (line "link %s %s: failed") [AStr (Some old); AStr (Some new)] else ret tt) ;;
      exit_prog
  | _ => say 2 (line "Usage: ln old new") [] ;; exit_prog
  end.

Fixpoint rm_all (argv : list (list Z)) : G unit :=
  match argv with
  | [] => ret tt
  | path :: argv =>
      r <- kcall (CUnlink path) ;;
      if r <? 0 then say 2 (line "rm: %s failed to delete") [AStr (Some path)] else rm_all argv
  end.

Definition rm_main (argv : list (list Z)) : G unit :=
  match argv with
  | [] => say 2 (line "Usage: rm files...") [] ;; exit_prog
  | _ => rm_all argv ;; exit_prog
  end.

Definition zombie_main : G unit :=
  pid <- kcall CFork ;;
  (if 0 <? pid then kcall (CSleep 5) ;; ret tt else ret tt) ;;
  exit_prog.

Definition sysinfo_main : G unit :=
  info <- gets (fun s => info_of (pg_calls s)) ;;
  kcall CSysinfo ;;
  say 1 (line "pages_in_use = %d") [AInt (si_pages_in_use info)] ;;
  say 1 (line "pages_in_swap = %d") [AInt (si_pages_in_swap info)] ;;
  say 1 (line "free_pages = %d") [AInt (si_free_pages info)] ;;
  say 1 (line "num_page_faults = %d") [AInt (si_num_page_faults info)] ;;
  say 1 (line "num_disk_reads = %d") [AInt (si_num_disk_reads info)] ;;
  exit_prog.

(** ** [init.c], [lab3init.c] *)

(** Standard input, output and error on the console. *)
Definition open_console : G unit :=
  fd <- kcall (COpen (str "console") O_RDWR) ;;
  (if fd <? 0 then
     kcall (CMknod (str "console") 1 1) ;;
     kcall (COpen (str "console") O_RDWR) ;;
     ret tt
   else ret tt) ;;
  kcall (CDup 0) ;;
  kcall (CDup 0) ;;
  ret tt.

(** [while ((wpid = wait()) >= 0 && wpid != pid) printf(1, ...);] *)
Fixpoint init_wait (fuel : nat) (pid : Z) : G unit :=
  match fuel with
  | O => diverge
  | S fuel =>
      wpid <- kcall CWait ;;
      if (0 <=? wpid) && negb (wpid =? pid) then say 1 (line "zombie!") [] ;; init_wait fuel pid else ret tt
  end.

(** At most [n] rounds of the endless loop; a process that exits stops it. *)
Fixpoint init_loop (n fuel : nat) : G unit :=
  match n with
  | O => ret tt
  | S n =>
      say 1 (line "init: starting a new shell") [] ;;
      pid <- kcall CFork ;;
      if pid <? 0 then say 1 (line "init: fork failed") [] ;; exit_prog else
      if pid =? 0 then
        exec_or (str "sh") [str "sh"] (say 1 (line "init: exec sh failed") [])
      else init_wait fuel pid ;; init_loop n fuel
  end.

Definition init_main (n fuel : nat) : G unit := open_console ;; init_loop n fuel.

Definition lab3init_main : G unit :=
  open_console ;;
  say 1 (line "lab3init running") [] ;;
  exec_or (str "lab3test") [str "lab3test"] (say 1 (line "lab3init: exec failed") []).

(** ** [stressfs.c] *)

(** [for (i = 0; i < 4; i++) if (fork() > 0) break;] *)
Fixpoint stress_fork (n : nat) (i : Z) : G Z :=
  match n with
  | O => ret i
  | S n => pid <- kcall CFork ;; if 0 <? pid then ret i else stress_fork n (i + 1)
  end.

Fixpoint repeat_call (n : nat) (m : G unit) : G unit :=
  match n with
  | O => ret tt
  | S n => m ;; repeat_call n m
  end.

(** [data] is the address of the buffer. *)
Definition stressfs_main (data : Z) : G unit :=
  say 1 (line "stressfs starting") [] ;;
  usr (lift (memset data 97 512)) ;;
  i <- stress_fork 4 0 ;;
  say 1 (line "write %d") [AInt i] ;;
  let path := str "stressfs" ++ [48 + i] in
  fd <- kcall (COpen path (Z.lor O_CREATE O_RDWR)) ;;
  repeat_call 20 (usr (write fd data 512) ;; ret tt) ;;
  usr (close fd) ;;
  say 1 (line "read") [] ;;
  fd <- kcall (COpen path O_RDONLY) ;;
  repeat_call 20 (usr (read fd data 512) ;; ret tt) ;;
  usr (close fd) ;;
  kcall CWait ;;
  exit_prog.

(** ** [ls.c] *)

(** [for (p = path + strlen(path); p >= path && *p != '/'; p--);] *)
Fixpoint last_slash (fuel : nat) (path p : Z) : M mem Z :=
  match fuel with
  | O => diverge
  | S fuel =>
      if path <=? p then
        c <- ld p ;;
        if negb (c =? 47) then last_slash fuel path (p - 1) else ret p
      else ret p
  end.

(** [buf] is the address of the static buffer. *)
Definition fmtname (buf path : Z) : M mem Z :=
  n <- strlen path ;;
  p <- last_slash (S (S (Z.to_nat n))) path (path + n) ;;
  let p := p + 1 in
  n <- strlen p ;;
  if Z.of_nat DIRSIZ <=? n then ret p else
  n <- strlen p ;;
  memmove buf p n ;;
  n <- strlen p ;;
  n' <- strlen p ;;
  memset (buf + n) 32 (u32 (Z.of_nat DIRSIZ - n')) ;;
  ret buf.

(** The string at [a]. *)
Definition ld_str (a : Z) : M mem (list Z) :=
  n <- strlen a ;;
  load_bytes (Z.to_nat n) a.

(** The addresses of the local variables of [ls] and of the buffer of [fmtname]. *)
Record ls_frame := mk_ls_frame { ls_buf : Z; ls_de : Z; ls_name : Z }.

(** [printf(1, "%s %d %d %d\n", fmtname(path), st.type, st.ino, st.size)]. *)
Definition ls_line (fr : ls_frame) (path : Z) (st : stat) : G unit :=
  a <- usr (lift (fmtname (ls_name fr) path)) ;;
  name <- usr (lift (ld_str a)) ;;
  say 1 (line "%s %d %d %d") [AStr (Some name); AInt (st_type st); AInt (st_ino st); AInt (st_size st)].

(** The loop over the directory; [p] is where an entry's name goes. *)
Fixpoint ls_entries (fuel : nat) (fr : ls_frame) (fd p : Z) : G unit :=
  match fuel with
  | O => diverge
  | S fuel =>
      n <- usr (read fd (ls_de fr) 16) ;;
      if n =? 16 then
        i0 <- usr (lift (ld (ls_de fr))) ;;
        i1 <- usr (lift (ld (ls_de fr + 1))) ;;
        if i0 + 2 ^ 8 * i1 =? 0 then ls_entries fuel fr fd p else
        usr (lift (memmove p (ls_de fr + 2) (Z.of_nat DIRSIZ))) ;;
        usr (lift (st (p + Z.of_nat DIRSIZ) 0)) ;;
        name <- usr (lift (ld_str (ls_buf fr))) ;;
        let* (r, o) := ustat name in
        match (if r <? 0 then None else o) with
        | None => say 1 (line "ls: cannot stat %s") [AStr (Some name)]
        | Some st => ls_line fr (ls_buf fr) st
        end ;;
        ls_entries fuel fr fd p
      else ret tt
  end.

Definition ls (fuel : nat) (fr : ls_frame) (path : Z) : G unit :=
  name <- usr (lift (ld_str path)) ;;
  fd <- usr (open name) ;;
  if fd <? 0 then say 2 (line "ls: cannot open %s") [AStr (Some name)] else
  let* (r, st) := fstat fd in
  if r <? 0 then say 2 (line "ls: cannot stat %s") [AStr (Some name)] ;; usr (close fd) else
  (if st_type st =? T_FILE then ls_line fr path st
   else if st_type st =? T_DIR then
     n <- usr (lift (strlen path)) ;;
     if 512 <? u32 (n + 1 + Z.of_nat DIRSIZ + 1) then say 1 (line "ls: path too long") []
     else
       usr (lift (strcpy (ls_buf fr) path)) ;;
       n <- usr (lift (strlen (ls_buf fr))) ;;
       usr (lift (Strings.st (ls_buf fr + n) 47)) ;;
       ls_entries fuel fr fd (ls_buf fr + n + 1)
   else ret tt) ;;
  usr (close fd).

(** [dot] is the address of the literal for the current directory. *)
Definition ls_main (fuel : nat) (fr : ls_frame) (dot : Z) (argv : list Z) : G unit :=
  (match argv with
   | [] => ls fuel fr dot
   | _ => mfor argv (ls fuel fr)
   end) ;;
  exit_prog.

(** ** [grep.c] and [sh.c]: [main] *)

(** [buf] is the address of the buffer and [pattern] that of the first argument. *)
Fixpoint grep_files (buf pattern : Z) (argv : list (list Z)) : G unit :=
  match argv with
  | [] => ret tt
  | name :: argv =>
      fd <- usr (open name) ;;
      if fd <? 0 then say 1 (line "grep: cannot open %s") [AStr (Some name)] else
      usr (grep buf pattern fd) ;; usr (close fd) ;; grep_files buf pattern argv
  end.

Definition grep_main (buf : Z) (argv : option (Z * list (list Z))) : G unit :=
  match argv with
  | None => say 2 (line "usage: grep pattern [file ...]") [] ;; exit_prog
  | Some (pattern, []) => usr (grep buf pattern 0) ;; exit_prog
  | Some (pattern, files) => grep_files buf pattern files ;; exit_prog
  end.

(** [while ((fd = open("console", O_RDWR)) >= 0) if (fd > stderr) { close(fd); break; }] *)
Fixpoint sh_console (fuel : nat) : G unit :=
  match fuel with
  | O => diverge
  | S fuel =>
      fd <- kcall (COpen (str "console") O_RDWR) ;;
      if 0 <=? fd then if 2 <? fd then usr (close fd) else sh_console fuel
      else ret tt
  end.

(** [getcmd]; [c] is the address of the local variable of [gets]. *)
Definition getcmd (buf nbuf c : Z) : G Z :=
  say 2 (str "$ ") [] ;;
  usr (lift (memset buf 0 nbuf)) ;;
  usr (ugets buf nbuf c) ;;
  x <- usr (lift (ld buf)) ;;
  ret (if x =? 0 then -1 else 0).

(** [fork1] exits when there is no process to be had. *)
Definition fork1 : G (option Z) :=
  pid <- kcall CFork ;;
  if pid <? 0 then say 2 (line "%s") [AStr (Some (str "fork"))] ;; exit_prog ;; ret None else ret (Some pid).

(** The loop of [main]: the result of a child is the line that it is to parse
    and run, and there is none when the shell exits.  [strcmp] with a literal
    is equality of strings.  The failed assertion writes a message and spins.
    The commands that are run leave the shell's input alone. *)
Fixpoint sh_loop (fuel : nat) (buf c : Z) : G (option (list Z)) :=
  match fuel with
  | O => diverge
  | S fuel =>
      r <- getcmd buf 100 c ;;
      if 0 <=? r then
        l <- usr (lift (ld_str buf)) ;;
        if decide (l = line "exit") then exit_prog ;; ret None else
        o <- fork1 ;;
        match o with
        | None => ret None
        | Some pid =>
            if pid =? 0 then ret (Some l) else
            wpid <- kcall CWait ;;
            if wpid =? pid then sh_loop fuel buf c else diverge
        end
      else exit_prog ;; ret None
  end.

Definition sh_main (fuel : nat) (buf c : Z) : G (option (list Z)) :=
  sh_console fuel ;;
  sh_loop fuel buf c.

End programs.

(** ** What [gets] reads *)

Lemma strlen_eq m a l : cstring m a l -> Z.of_nat (length l) < 2 ^ 31 -> strlen a m = Done (Z.of_nat (length l)) m.
Proof.
  intros Hl Hlen. pose proof (cstring_size _ _ _ Hl).
  assert (H' : forall k n fuel, l = take n l ++ k -> (n + length k = length l)%nat -> (length k < fuel)%nat ->
    ustrlen_loop fuel a (Z.of_nat n) m = Done (Z.of_nat (length l)) m).
  { induction k as [|c k IH]; intros n fuel Hk Hn Hf; (destruct fuel as [|fuel]; [cbn in Hf; lia|]); cbn [ustrlen_loop].
    - destruct Hl as [Hb _]. mstep (ld_eq m (a + Z.of_nat n) 0).
      + cbn in Hn. replace n with (length l) by lia. done.
      + apply Hb. cbn in Hn. rewrite lookup_app_r, <- Hn, Nat.add_0_r, Nat.sub_diag by lia. done.
    - cbn in Hn, Hf. assert (Hc : l !! n = Some c).
      { rewrite Hk, lookup_app_r; rewrite length_take; [|lia]. by replace (n - _)%nat with 0%nat by lia. }
      mstep (ld_eq m (a + Z.of_nat n) c); [|by eapply cstring_lookup].
      destruct Hl as [_ Hz]. rewrite Forall_lookup in Hz. destruct (Z.eqb_spec c 0) as [->|_]; [by edestruct Hz|].
      mstep (int_result_eq (Z.of_nat n + 1)); [|lia]. replace (Z.of_nat n + 1) with (Z.of_nat (S n)) by lia. apply IH; [|cbn; lia|lia].
      rewrite (take_S_r _ _ _ Hc), <- app_assoc. exact Hk. }
  unfold strlen. msimp. mstep (H' l 0%nat (S (size m))); [|done|done|lia].
  rewrite u32_small by lia. done.
Qed.

Lemma ld_str_eq m a l : cstring m a l -> Z.of_nat (length l) < 2 ^ 31 -> ld_str a m = Done l m.
Proof.
  intros Hl Hlen. unfold ld_str. mstep (strlen_eq m a l Hl Hlen). rewrite Nat2Z.id.
  apply load_bytes_eq. destruct Hl as [Hb _]. by apply bytes_at_app in Hb as [Hb _].
Qed.

(** The next line of at most [n] characters. *)
Fixpoint line_of (n : nat) (l : list Z) : list Z :=
  match n, l with
  | S n, x :: l => if (x =? 10) || (x =? 13) then [x] else x :: line_of n l
  | _, _ => []
  end.

Lemma line_of_length n l : (length (line_of n l) <= n)%nat.
Proof.
  revert l. induction n as [|n IH]; intros [|x l]; cbn; try lia.
  specialize (IH l). destruct ((x =? 10) || (x =? 13)); cbn; lia.
Qed.

Lemma line_of_whole n l k :
  Forall (fun x => x <> 10 /\ x <> 13) l -> (length l < n)%nat -> line_of n (l ++ 10 :: k) = l ++ [10].
Proof.
  intros Hl. revert n. induction Hl as [|x l [H1 H2] _ IH]; intros n Hn; (destruct n as [|n]; [cbn in Hn; lia|]); [done|].
  cbn. destruct (Z.eqb_spec x 10), (Z.eqb_spec x 13); try done. cbn. f_equal. apply IH. cbn in Hn. lia.
Qed.

Definition stdin (s : ustate) : list piece := default [] (u_in s !! 0).

(** The standard input is open. *)
Definition input_open (s : ustate) : Prop := is_Some (u_in s !! 0).

Lemma stdin_open s : input_open s -> u_in s !! 0 = Some (stdin s).
Proof. unfold stdin. by intros [ps ->]. Qed.

(** The input is consumed and the memory changed, nothing is written. *)
Definition reads_only (s s' : ustate) : Prop :=
  u_wres s' = u_wres s /\ u_out s' = u_out s /\ (input_open s -> input_open s').

Lemma gets_loop_eq fuel s buf max c i :
  input_open s -> flowing (stdin s) -> valid (u_mem s) buf max -> is_Some (u_mem s !! c) -> ~ buf <= c < buf + max ->
  0 <= i -> (Z.to_nat (max - 1 - i) < fuel)%nat ->
  let l := line_of (Z.to_nat (max - 1 - i)) (contents (stdin s)) in
  exists s', gets_loop fuel buf max c i s = Done (i + Z.of_nat (length l)) s' /\
    bytes_at (u_mem s') (buf + i) l /\ contents (stdin s) = l ++ contents (stdin s') /\ flowing (stdin s') /\
    (forall x, x <> c -> ~ buf + i <= x < buf + i + Z.of_nat (length l) -> u_mem s' !! x = u_mem s !! x) /\
    (forall x, is_Some (u_mem s !! x) -> is_Some (u_mem s' !! x)) /\ reads_only s s'.
Proof.
  revert s i. induction fuel as [|fuel IH]; intros s i Hop Hfl Hv Hc Hd Hi Hf; [lia|]. cbn [gets_loop].
  destruct (Z.ltb_spec (i + 1) max); cycle 1.
  { replace (Z.to_nat (max - 1 - i)) with 0%nat by lia. cbn. exists s. rewrite Z.add_0_r.
    split_and!; done. }
  destruct (read_flowing s 0 c 1 _ (stdin_open s Hop) Hfl) as (x & m' & ps' & E & Hcon & Hfl' & Hx & Hlen & _ & Hb & Ho); [lia| |].
  { intros y Hy. by replace y with c by lia. }
  mstep E. set (s1 := set_u_mem m' _).
  assert (Hro : reads_only s s1) by (split_and!; [done|done|]; intros _; unfold input_open; cbn; rewrite lookup_insert_eq; by eexists).
  assert (Hin : stdin s1 = ps') by (unfold stdin, s1; cbn; by rewrite lookup_insert_eq).
  destruct x as [|x [|? ?]]; [| |cbn in Hlen; lia].
  { change (Z.of_nat (length []) <? 1) with true. cbv iota. rewrite (Hx eq_refl). replace (line_of _ []) with (@nil Z) by (by destruct (Z.to_nat _)). exists s1. rewrite Z.add_0_r.
    split_and!; [done|by intros j y| |by rewrite Hin| | |exact Hro].
    - rewrite Hin. rewrite Hcon in Hx. by rewrite Hx.
    - intros y Hy _. apply Ho. lia.
    - apply Ho. }
  assert (Hcx : m' !! c = Some x) by (rewrite <- (Z.add_0_r c); by apply (Hb 0%nat)).
  change (Z.of_nat (length [x]) <? 1) with false. cbv iota. mstep lift_done; [|by apply ld_eq]. rewrite set_u_mem_id.
  mstep lift_done; [|apply st_eq; apply Ho, Hv; lia]. set (s2 := set_u_mem _ s1).
  assert (Hn : Z.to_nat (max - 1 - i) = S (Z.to_nat (max - 1 - (i + 1)))) by lia. rewrite Hn, Hcon. cbn [app line_of].
  assert (Hm2 : forall y, y <> c -> y <> buf + i -> u_mem s2 !! y = u_mem s !! y).
  { intros y ??. cbn. rewrite lookup_insert_ne by done. apply Ho. lia. }
  assert (Hv2 : forall y, is_Some (u_mem s !! y) -> is_Some (u_mem s2 !! y)).
  { intros y Hy. cbn. apply lookup_insert_is_Some'. right. by apply Ho. }
  destruct ((x =? 10) || (x =? 13)).
  - exists s2. cbn [length]. split_and!; [done| |by rewrite <- Hin|by change (stdin s2) with (stdin s1); rewrite Hin| |done|exact Hro].
    + apply bytes_at_cons. split; [|by intros j y]. cbn. by rewrite lookup_insert_eq.
    + intros y ??. apply Hm2; [done|lia].
  - destruct (IH s2 (i + 1)) as (s' & E' & Hb' & Hc' & Hf' & Hm' & Hv' & Hr'); try lia.
    { by apply Hro. }
    { change (stdin s2) with (stdin s1). by rewrite Hin. }
    { intros y Hy. by apply Hv2, Hv. }
    { by apply Hv2. }
    change (stdin s2) with (stdin s1) in *. rewrite Hin in *.
    set (k := line_of (Z.to_nat (max - 1 - (i + 1))) (contents ps')) in *.
    exists s'. cbn [length]. split_and!; [|  |by rewrite Hc'|done| |by auto|].
    + rewrite E'. f_equal. lia.
    + apply bytes_at_cons. split; [|by rewrite <- Z.add_assoc]. rewrite Hm' by lia. cbn. by rewrite lookup_insert_eq.
    + intros y ??. rewrite Hm' by lia. apply Hm2; lia.
    + destruct Hr' as (Hr1 & Hr2 & Hop'). split_and!; [by rewrite Hr1|by rewrite Hr2|]. intros _. by apply Hop', Hro.
Qed.

(** The buffer holds the line as a C string. *)
Lemma ugets_eq s buf max c :
  input_open s -> flowing (stdin s) -> Forall (fun x => x <> 0) (contents (stdin s)) ->
  valid (u_mem s) buf max -> is_Some (u_mem s !! c) -> ~ buf <= c < buf + max -> 0 < max ->
  let l := line_of (Z.to_nat (max - 1)) (contents (stdin s)) in
  exists s', ugets buf max c s = Done buf s' /\ cstring (u_mem s') buf l /\
    contents (stdin s) = l ++ contents (stdin s') /\ flowing (stdin s') /\
    (forall x, is_Some (u_mem s !! x) -> is_Some (u_mem s' !! x)) /\ reads_only s s'.
Proof.
  intros Hop Hfl Hz Hv Hc Hd Hm l. pose proof (line_of_length (Z.to_nat (max - 1)) (contents (stdin s))) as Hl. fold l in Hl.
  destruct (gets_loop_eq (S (Z.to_nat max)) s buf max c 0) as (s1 & E & Hb & Hcon & Hf1 & Hm1 & Hv1 & Hr); try done; try lia.
  rewrite !Z.add_0_r, Z.sub_0_r in *. fold l in E, Hb, Hcon, Hm1. unfold ugets. mstep E.
  mstep lift_done; [|apply st_eq, Hv1, Hv; lia]. eexists. split_and!; [done| |done|done| |done].
  - rewrite Hcon in Hz. apply Forall_app in Hz as [Hz _]. split; [|done]. cbn [u_mem set_u_mem].
    apply bytes_at_app. split; [apply bytes_at_insert; [done|lia]|]. apply bytes_at_cons.
    split; [by rewrite Z.add_0_l, lookup_insert_eq|by intros j x].
  - intros x Hx. cbn [u_mem set_u_mem]. apply lookup_insert_is_Some'. right. by apply Hv1.
Qed.

(** ** The shell's session *)

(** The shell can read commands into its buffer and write prompts. *)
Definition ready (buf c : Z) (u : ustate) : Prop :=
  input_open u /\ flowing (stdin u) /\ Forall (fun x => x <> 0) (contents (stdin u)) /\
  valid (u_mem u) buf 100 /\ is_Some (u_mem u !! c) /\ ~ buf <= c < buf + 100 /\ u_wres u = [].

Lemma usr_done {A} (m : U A) a u s : m (pg_u s) = Done a u -> usr m s = Done a (mk_prog u (pg_calls s)).
Proof. unfold usr. by intros ->. Qed.

Lemma ready_sends buf c fd l u : ready buf c u -> ready buf c (sends fd l u).
Proof. done. Qed.

Lemma kcall_eq `{K : kernel} c s : kcall c s = Done (answer (pg_calls s) c) (mk_prog (pg_u s) (c :: pg_calls s)).
Proof. done. Qed.

Lemma exit_prog_eq `{K : kernel} s : exit_prog s = Done tt (mk_prog (pg_u s) (CExit :: pg_calls s)).
Proof. done. Qed.

Lemma fork1_eq `{K : kernel} s :
  0 <= answer (pg_calls s) CFork ->
  fork1 s = Done (Some (answer (pg_calls s) CFork)) (mk_prog (pg_u s) (CFork :: pg_calls s)).
Proof. intros H. unfold fork1. mstep (kcall_eq CFork). by destruct (Z.ltb_spec (answer (pg_calls s) CFork) 0); [lia|]. Qed.

(** The prompt and the next line. *)
Lemma getcmd_eq buf c s :
  ready buf c (pg_u s) ->
  let l := line_of 99 (contents (stdin (pg_u s))) in
  exists u, getcmd buf 100 c s = Done (if decide (l = []) then -1 else 0) (mk_prog u (pg_calls s)) /\
    cstring (u_mem u) buf l /\ contents (stdin (pg_u s)) = l ++ contents (stdin u) /\ ready buf c u /\
    u_out u = u_out (sends 2 (str "$ ") (pg_u s)).
Proof.
  intros (Hop & Hf & Hz & Hv & Hc & Hd & Hw) l. unfold getcmd.
  mstep usr_done; [|apply printf_plain; [by repeat constructor|done]].
  set (u1 := sends 2 _ _). destruct (stosb_spec 100 buf 0 (u_mem u1) Hv) as (m & E & Hm).
  mstep usr_done; [|apply lift_done; unfold memset; by mstep E]. cbn [pg_u pg_calls].
  set (u2 := set_u_mem m u1).
  assert (Hv2 : forall x, is_Some (u_mem u1 !! x) -> is_Some (m !! x)).
  { intros x Hx. rewrite Hm. by destruct (within buf _ x). }
  destruct (ugets_eq u2 buf 100 c) as (u & Eu & Hl & Hcon & Hf' & Hv' & (Hrw & Hro & Hop')); try done.
  { intros x Hx. by apply Hv2, Hv. }
  { by apply Hv2. }
  mstep usr_done; [|exact Eu]. cbn [pg_u pg_calls]. change (contents (stdin u2)) with (contents (stdin (pg_u s))) in *.
  change (Z.to_nat (100 - 1)) with 99%nat in *. fold l in Hl, Hcon.
  assert (Hx : u_mem u !! buf = Some (hd 0 l) /\ (hd 0 l = 0 <-> l = [])).
  { destruct l as [|x l']; [by apply cstring_nil in Hl|]. apply cstring_cons in Hl as (? & ? & _). done. }
  destruct Hx as [Hx Hx0]. mstep usr_done; [|apply lift_done; by apply ld_eq]. rewrite set_u_mem_id.
  exists u. split_and!; [|done|done| |done].
  - cbn [pg_u pg_calls]. f_equal. destruct (Z.eqb_spec (hd 0 l) 0), (decide (l = [])); tauto.
  - split_and!; [by apply Hop'|done| | |by apply Hv', Hv2|done|by rewrite Hrw].
    + rewrite Hcon in Hz. by apply Forall_app in Hz as [_ ?].
    + intros x Hx'. by apply Hv', Hv2, Hv.
Qed.

(** A line that the shell can be given. *)
Definition typed (l : list Z) : Prop :=
  Forall (fun x => x <> 10 /\ x <> 13) l /\ (length l < 99)%nat /\ l <> str "exit".

(** The calls of [n] commands, the latest first. *)
Definition rounds (n : nat) (cs : list call) : list call := Nat.iter n (fun cs => CWait :: CFork :: cs) cs.

Lemma rounds_S n cs : rounds (S n) cs = rounds n (CWait :: CFork :: cs).
Proof. unfold rounds. by rewrite Nat.iter_succ_r. Qed.

(** The processes that [fork] makes: the parent for [k] commands, then the
    child; [wait] gives the parent the process that it made. *)
Definition parent_of `{K : kernel} (k : nat) (cs : list call) : Prop :=
  (forall j, (j < k)%nat -> 0 < answer (rounds j cs) CFork /\
     answer (CFork :: rounds j cs) CWait = answer (rounds j cs) CFork) /\
  answer (rounds k cs) CFork = 0.

Lemma parent_S `{K : kernel} k cs :
  parent_of (S k) cs -> 0 < answer cs CFork /\ answer (CFork :: cs) CWait = answer cs CFork /\ parent_of k (CWait :: CFork :: cs).
Proof.
  intros [H H0]. destruct (H 0%nat) as [Hp Hw]; [lia|]. split_and!; [done|done|]. split.
  - intros j Hj. specialize (H (S j)). rewrite rounds_S in H. apply H. lia.
  - by rewrite <- rounds_S.
Qed.

Definition prompts (n : nat) : list Z := concat (replicate n (str "$ ")).

Lemma sh_loop_eq `{K : kernel} buf c ls k fuel s :
  ready buf c (pg_u s) -> contents (stdin (pg_u s)) = concat ((fun l => l ++ [10]) <$> ls) ->
  Forall typed ls -> parent_of k (pg_calls s) -> (length ls < fuel)%nat ->
  exists s', sh_loop fuel buf c s = Done ((fun l => l ++ [10]) <$> ls !! k) s' /\
    sent 2 (pg_u s') = sent 2 (pg_u s) ++ prompts (S (min k (length ls))) /\
    (ls !! k = None -> pg_calls s' = CExit :: rounds (length ls) (pg_calls s)).
Proof.
  revert k fuel s. induction ls as [|l ls IH]; intros k fuel s Hr Hin Hls Hk Hf; (destruct fuel as [|fuel]; [lia|]);
    cbn [sh_loop]; destruct (getcmd_eq buf c s Hr) as (u & E & Hl & Hcon & Hr' & Hout); mstep E; rewrite Hin in *;
    assert (Hsent : sent 2 u = sent 2 (pg_u s) ++ str "$ ") by (rewrite <- sent_sends; unfold sent; by rewrite Hout).
  - rewrite decide_True by done. change (0 <=? -1) with false. cbv iota.
    mstep exit_prog_eq. eexists.
    split_and!; [done| |done]. rewrite Nat.min_0_r. cbn [pg_u]. by rewrite Hsent.
  - apply Forall_cons in Hls as [(Hnl & Hlen & Hex) Hls]. cbn [fmap list_fmap concat] in *.
    rewrite <- app_assoc in Hcon, Hl. cbn [app] in Hcon, Hl. rewrite line_of_whole in Hcon, Hl by (done || lia).
    rewrite <- app_assoc. cbn [app]. rewrite line_of_whole by (done || lia). rewrite decide_False by (by destruct l).
    change (0 <=? 0) with true. cbv iota.
    mstep usr_done; [|apply lift_done, ld_str_eq; [exact Hl|rewrite length_app; cbn; lia]]. rewrite set_u_mem_id.
    rewrite decide_False by (by intros ?%app_inj_tail%proj1). cbn [pg_u pg_calls].
    rewrite <- app_assoc in Hcon. apply app_inv_head in Hcon. cbn in Hcon. injection Hcon as Hcon.
    destruct k as [|k].
    { destruct Hk as [_ Hk]. change (answer (pg_calls s) CFork = 0) in Hk. mstep fork1_eq; [|cbn [pg_calls]; by rewrite Hk]. cbn [pg_calls]. rewrite Hk. cbn [Z.eqb]. eexists. split_and!; [done| |done].
      cbn [pg_u]. rewrite Hsent. by rewrite Nat.min_0_l. }
    apply parent_S in Hk as (Hp & Hw & Hk). mstep fork1_eq; [|cbn; lia]. cbn [pg_calls].
    destruct (Z.eqb_spec (answer (pg_calls s) CFork) 0); [lia|]. mstep (kcall_eq CWait).
    cbn [pg_u pg_calls]. rewrite Hw, Z.eqb_refl.
    destruct (IH k fuel (mk_prog u (CWait :: CFork :: pg_calls s))) as (s' & E' & Ho & Hn); try done; [cbn in Hf; lia|].
    exists s'. split_and!; [exact E'| |].
    + rewrite Ho. cbn [pg_u]. rewrite Hsent, <- app_assoc. done.
    + cbn [lookup list_lookup length]. intros Hno. rewrite Hn by done. by rewrite rounds_S.
Qed.


(** ** The names that [ls] shows *)

(** What is after the last slash. *)
Definition basename (l : list Z) : list Z := foldl (fun k c => if c =? 47 then [] else k ++ [c]) [] l.

Definition padded (n : nat) (l : list Z) : list Z := l ++ replicate (n - length l) 32.

Lemma basename_snoc l c : basename (l ++ [c]) = if c =? 47 then [] else basename l ++ [c].
Proof. unfold basename. by rewrite foldl_app. Qed.

Lemma basename_suffix l : exists d, l = d ++ basename l /\ (d = [] \/ exists d', d = d' ++ [47]) /\ 47 ∉ basename l.
Proof.
  induction l as [|c l (d & E & Hd & Hn)] using rev_ind; [exists []; split_and!; [done|by left|set_solver]|].
  rewrite basename_snoc. destruct (Z.eqb_spec c 47) as [->|Hc].
  - exists (l ++ [47]). split_and!; [by rewrite app_nil_r|right; by exists l|set_solver].
  - exists d. split_and!; [by rewrite app_assoc, <- E|done|set_solver].
Qed.

(** Going back over a name without slashes. *)
Lemma last_slash_eq m path d b fuel :
  bytes_at m path (d ++ b) -> (d = [] \/ exists d', d = d' ++ [47]) -> 47 ∉ b -> (length b < fuel)%nat ->
  last_slash fuel path (path + Z.of_nat (length (d ++ b)) - 1) m = Done (path + Z.of_nat (length d) - 1) m.
Proof.
  intros Hb Hd. revert fuel Hb. induction b as [|c b IH] using rev_ind; intros fuel Hb Hn Hf;
    (destruct fuel as [|fuel]; [lia|]); cbn [last_slash].
  - rewrite app_nil_r in *. destruct Hd as [->|(d' & ->)]; cbn [length].
    + by destruct (Z.leb_spec path (path + Z.of_nat 0 - 1)); [lia|].
    + rewrite length_app. cbn [length]. destruct (Z.leb_spec path (path + Z.of_nat (length d' + 1) - 1)); [|lia].
      apply bytes_at_app in Hb as [_ [Hb _]%bytes_at_cons].
      mstep (ld_eq m (path + Z.of_nat (length d' + 1) - 1) 47); [done|]. rewrite <- Hb. f_equal. lia.
  - rewrite app_assoc in Hb |- *. rewrite (length_app (d ++ b)). cbn [length].
    destruct (Z.leb_spec path (path + Z.of_nat (length (d ++ b) + 1) - 1)); [|lia].
    apply bytes_at_app in Hb as [Hb [Hc _]%bytes_at_cons].
    mstep (ld_eq m (path + Z.of_nat (length (d ++ b) + 1) - 1) c); [|rewrite <- Hc; f_equal; lia].
    destruct (Z.eqb_spec c 47) as [->|_]; [set_solver|]. cbn [negb].
    replace (path + Z.of_nat (length (d ++ b) + 1) - 1 - 1) with (path + Z.of_nat (length (d ++ b)) - 1) by lia.
    apply IH; [done|set_solver|rewrite length_app in Hf; cbn in Hf; lia].
Qed.

Lemma name_start m path d b :
  cstring m path (d ++ b) -> (d = [] \/ exists d', d = d' ++ [47]) -> 47 ∉ b ->
  last_slash (S (S (length (d ++ b)))) path (path + Z.of_nat (length (d ++ b))) m = Done (path + Z.of_nat (length d) - 1) m.
Proof.
  intros [[Hl [H0 _]%bytes_at_cons]%bytes_at_app _] Hd Hb. cbn [last_slash].
  destruct (Z.leb_spec path (path + Z.of_nat (length (d ++ b)))); [|lia]. mstep (ld_eq _ _ _ H0).
  apply (last_slash_eq m path d b (S (length (d ++ b)))); [done|done|done|]. rewrite length_app. lia.
Qed.

(** The name that [ls] shows is what is after the last slash of the path, with
    blanks up to fourteen characters. *)
Lemma fmtname_eq m buf path l :
  cstring m path l -> Z.of_nat (length l) < 2 ^ 31 -> valid m buf 14 -> m !! (buf + 14) = Some 0 ->
  buf + 15 <= path \/ path + Z.of_nat (length l) < buf ->
  exists a m', fmtname buf path m = Done a m' /\ cstring m' a (padded DIRSIZ (basename l)).
Proof.
  intros Hl Hlen Hv H0 Hd. destruct (basename_suffix l) as (d & E & Hds & Hn). set (b := basename l) in *.
  assert (Hlb : (length l = length d + length b)%nat) by (by rewrite E at 1; rewrite length_app).
  assert (Hb : cstring m (path + Z.of_nat (length d)) b).
  { destruct Hl as [Hl Hz]. rewrite E in Hl, Hz. rewrite <- app_assoc in Hl. apply bytes_at_app in Hl as [_ Hl].
    by apply Forall_app in Hz as [_ Hz]. }
  unfold fmtname. mstep (strlen_eq m path l); [|done|done]. rewrite Nat2Z.id. rewrite E.
  mstep (name_start m path d b); [|by rewrite <- E|done|done].
  replace (path + Z.of_nat (length d) - 1 + 1) with (path + Z.of_nat (length d)) by lia.
  mstep (strlen_eq m _ b Hb); [|lia]. unfold DIRSIZ.
  destruct (Z.leb_spec (Z.of_nat 14) (Z.of_nat (length b))) as [Hle|Hlt].
  { eexists _, m. split; [done|]. unfold padded. replace (14 - length b)%nat with 0%nat by lia. by rewrite app_nil_r. }
  assert (Hbv : valid m (path + Z.of_nat (length d)) (Z.of_nat (length b))).
  { destruct Hb as [[Hb _]%bytes_at_app _]. by apply bytes_at_valid. }
  mstep (strlen_eq m _ b Hb); [|lia].
  destruct (memmove_eq m buf (path + Z.of_nat (length d)) (length b)) as (m1 & E1 & H1);
    [apply (valid_le _ _ _ _ _ Hv); lia|done|lia|]. mstep E1.
  assert (Ho1 : forall x, ~ buf <= x < buf + Z.of_nat (length b) -> m1 !! x = m !! x).
  { intros x Hx. rewrite H1. by destruct (within_spec buf (Z.of_nat (length b)) x). }
  assert (Hb1 : cstring m1 (path + Z.of_nat (length d)) b) by (apply (cstring_same m); [done|]; intros; apply Ho1; lia).
  do 2 (mstep (strlen_eq m1 _ b Hb1); [|lia]). rewrite u32_small by lia.
  destruct (memset_eq m1 (buf + Z.of_nat (length b)) 32 (14 - length b)) as (m2 & E2 & H2).
  { intros x Hx. rewrite Ho1 by lia. apply Hv. lia. }
  replace (Z.of_nat 14 - Z.of_nat (length b)) with (Z.of_nat (14 - length b)) by lia. mstep E2.
  exists buf, m2. split; [done|]. destruct Hb as [[Hb _]%bytes_at_app Hz]. unfold padded. split; cycle 1.
  { apply Forall_app. split; [done|]. by apply Forall_replicate. }
  rewrite <- app_assoc. apply bytes_at_app. split; [|apply bytes_at_app; split; [|apply bytes_at_cons; split; [|by intros j y]]].
  - intros j c Hc. pose proof (lookup_lt_Some _ _ _ Hc). rewrite H2, H1.
    destruct (within_spec (buf + Z.of_nat (length b)) (Z.of_nat (14 - length b)) (buf + Z.of_nat j)); [lia|].
    destruct (within_spec buf (Z.of_nat (length b)) (buf + Z.of_nat j)); [|lia].
    rewrite <- (Hb j c Hc). f_equal. lia.
  - intros j c [-> Hj]%lookup_replicate. rewrite H2.
    by destruct (within_spec (buf + Z.of_nat (length b)) (Z.of_nat (14 - length b)) (buf + Z.of_nat (length b) + Z.of_nat j)); [|lia].
  - rewrite length_replicate. replace (buf + Z.of_nat (length b) + Z.of_nat (14 - length b)) with (buf + 14) by lia.
    rewrite H2, Ho1 by lia.
    by destruct (within_spec (buf + Z.of_nat (length b)) (Z.of_nat (14 - length b)) (buf + 14)); [lia|].
Qed.

(** ** Properties *)

(** The first call of the shell, which opens the console. *)
Definition console_call : call := COpen (str "console") O_RDWR.


(** Input of two lines, [a;b] and [c>f], read in three pieces. *)
Definition session_demo : prog :=
  mk_prog (mk_ustate (zero_mem 200) {[ 0 := [Data [97; 59]; Data [98; 10; 99]; Data [62; 102; 10]] ]} [] [] (fun _ => None)) [].

(** A kernel whose first [fork] returns to the parent and the second to the child. *)
Definition session_kernel : kernel := {|
  answer cs c := match c with
                 | COpen _ _ => 3
                 | CFork => if decide (CFork ∈ cs) then 0 else 5
                 | CWait => 5
                 | _ => -1
                 end;
  stat_of _ _ := mk_stat 0 0 0 0;
  info_of _ := mk_sys_info 0 0 0 0 0
|}.

