(* ===== verification/Spinlock.v ===== *)
(** * Spin locks and interrupt nesting: [kernel/spinlock.c]

    xk runs on one cpu ([mycpu] of [inc/proc.h] returns [&cpus[0]]), so the
    holder recorded in a lock is either nobody or that cpu. *)

From S2P Require Import Prelude Types.

(** ** Where a lock is

    A [struct spinlock *]: how to find the lock in the kernel state and how to
    store it back.  [None] stands for a pointer to no lock. *)
Record lockref := mk_lockref {
  lk_get : kstate -> option spinlock;
  lk_set : spinlock -> kstate -> kstate
}.

(** What a lock pointer promises to the code that takes the lock: it names one
    place of the state, apart from the processor's own record. *)
Class LockLaws (L : lockref) : Prop := {
  lk_get_set : forall s l l0, lk_get L s = Some l0 -> lk_get L (lk_set L l s) = Some l;
  lk_set_set : forall s l l', lk_set L l' (lk_set L l s) = lk_set L l' s;
  lk_set_get : forall s l, lk_get L s = Some l -> lk_set L l s = s;
  lk_get_cpu : forall s c, lk_get L (set_k_cpu c s) = lk_get L s;
  lk_set_cpu : forall s l c, lk_set L l (set_k_cpu c s) = set_k_cpu c (lk_set L l s);
  lk_cpu_set : forall s l, k_cpu (lk_set L l s) = k_cpu s
}.

Definition kmem_lk : lockref :=
  mk_lockref (fun s => Some (kmem_lock (k_kmem s)))
             (fun l s => set_k_kmem (set_kmem_lock l (k_kmem s)) s).
Definition ptable_lk : lockref :=
  mk_lockref (fun s => Some (pt_lock (k_pt s)))
             (fun l s => set_k_pt (set_pt_lock l (k_pt s)) s).
Definition file_table_lk : lockref :=
  mk_lockref (fun s => Some (ft_lock (k_ft s)))
             (fun l s => set_k_ft (set_ft_lock l (k_ft s)) s).
Definition icache_lk : lockref :=
  mk_lockref (fun s => Some (ic_lock (k_ic s)))
             (fun l s => set_k_ic (set_ic_lock l (k_ic s)) s).
Definition bcache_lk : lockref :=
  mk_lockref (fun s => Some (bc_lock (k_bc s)))
             (fun l s => set_k_bc (set_bc_lock l (k_bc s)) s).
Definition ide_lk : lockref :=
  mk_lockref (fun s => Some (idelock (k_ide s)))
             (fun l s => set_k_ide (set_idelock l (k_ide s)) s).
Definition cons_lk : lockref :=
  mk_lockref (fun s => Some (cons_lock (k_cons s)))
             (fun l s => set_k_cons (set_cons_lock l (k_cons s)) s).
Definition ticks_lk : lockref :=
  mk_lockref (fun s => Some (tickslock (k_time s)))
             (fun l s => set_k_time (set_tickslock l (k_time s)) s).

Ltac solve_lock_laws :=
  split; intros; cbn in *; simplify_eq; try reflexivity;
  repeat match goal with s : kstate |- _ => destruct s as [? [] ? [] [] [] ? [] [] [] ? [] ? ?] end;
  reflexivity.

#[global] Instance kmem_lk_laws : LockLaws kmem_lk.
Proof. solve_lock_laws. Qed.
#[global] Instance ptable_lk_laws : LockLaws ptable_lk.
Proof. solve_lock_laws. Qed.
#[global] Instance file_table_lk_laws : LockLaws file_table_lk.
Proof. solve_lock_laws. Qed.
#[global] Instance icache_lk_laws : LockLaws icache_lk.
Proof. solve_lock_laws. Qed.
#[global] Instance bcache_lk_laws : LockLaws bcache_lk.
Proof. solve_lock_laws. Qed.
#[global] Instance ide_lk_laws : LockLaws ide_lk.
Proof. solve_lock_laws. Qed.
#[global] Instance cons_lk_laws : LockLaws cons_lk.
Proof. solve_lock_laws. Qed.
#[global] Instance ticks_lk_laws : LockLaws ticks_lk.
Proof. solve_lock_laws. Qed.

(** ** The operations *)

Definition initlock (L : lockref) : K unit := modify (lk_set L (mk_spinlock 0 false)).

(** [readeflags() & FLAGS_IF], [cli()] and [sti()]. *)
Definition readeflags_if : K bool := gets (fun s => eflags_if (k_cpu s)).
Definition upd_cpu (f : cpu -> cpu) : K unit := modify (fun s => set_k_cpu (f (k_cpu s)) s).
Definition cli : K unit := upd_cpu (set_eflags_if false).
Definition sti : K unit := upd_cpu (set_eflags_if true).

Definition pushcli : K unit :=
  eflags <- readeflags_if ;;
  cli ;;
  n <- gets (fun s => ncli (k_cpu s)) ;;
  (if n =? 0 then upd_cpu (set_intena eflags) else ret tt) ;;
  upd_cpu (fun c => set_ncli (i32 (ncli c + 1)) c).

Definition popcli : K unit :=
  fl <- readeflags_if ;;
  if fl then panic "popcli - interruptible" else
  upd_cpu (fun c => set_ncli (i32 (ncli c - 1)) c) ;;
  c <- gets k_cpu ;;
  if ncli c <? 0 then panic "popcli" else
  if (ncli c =? 0) && intena c then sti else ret tt.

Definition holding (L : lockref) : K bool :=
  o <- gets (lk_get L) ;;
  lk <- deref "spinlock pointer" o ;;
  ret (truthy (sl_locked lk) && sl_cpu lk).

(** With one cpu and interrupts off, [while (xchg(&lk->locked, 1) != 0);] ends
    at once or never. *)
Definition acquire (L : lockref) : K unit :=
  pushcli ;;
  h <- holding L ;;
  if (h : bool) then panic "acquire" else
  o <- gets (lk_get L) ;;
  lk <- deref "spinlock pointer" o ;;
  if truthy (sl_locked lk) then diverge else
  modify (lk_set L (mk_spinlock 1 true)).

Definition release (L : lockref) : K unit :=
  h <- holding L ;;
  if negb h then panic "release" else
  modify (lk_set L (mk_spinlock 0 false)) ;;
  popcli.

(** ** What the operations do to the processor *)

Definition cpu_push (c : cpu) : cpu :=
  set_ncli (ncli c + 1)
    (set_intena (if ncli c =? 0 then eflags_if c else intena c) (set_eflags_if false c)).

Definition cpu_pop (c : cpu) : cpu :=
  set_eflags_if ((ncli c - 1 =? 0) && intena c) (set_ncli (ncli c - 1) c).

(** A whole critical section. *)
Definition cpu_cs (c : cpu) : cpu :=
  set_intena (if ncli c =? 0 then eflags_if c else intena c) c.

(** The nesting count has room, and interrupts are off while it is not zero. *)
Definition cpu_ok (c : cpu) : Prop :=
  0 <= ncli c < 2 ^ 30 /\ (0 < ncli c -> eflags_if c = false).

(** The operations may nest [n] deeper without leaving [int]. *)
Definition cpu_room (n : Z) (c : cpu) : Prop :=
  0 <= ncli c < 2 ^ 31 - n /\ (0 < ncli c -> eflags_if c = false).

Lemma cpu_ok_room c n : 0 <= n <= 2 ^ 30 -> cpu_ok c -> cpu_room n c.
Proof. unfold cpu_ok, cpu_room. intros ? [??]; split; [lia|done]. Qed.

Lemma cpu_room_push c n : 0 <= n -> cpu_room (n + 1) c -> cpu_room n (cpu_push c).
Proof. unfold cpu_room. intros ? [??]; cbn. split; [lia|done]. Qed.

Lemma cpu_room_le c n m : n <= m -> cpu_room m c -> cpu_room n c.
Proof. unfold cpu_room. intros ? [??]; split; [lia|done]. Qed.

Lemma cpu_room_cs c n : cpu_room n c -> cpu_room n (cpu_cs c).
Proof. done. Qed.

Lemma cpu_ok_cs c : cpu_ok c -> cpu_ok (cpu_cs c).
Proof. done. Qed.

Lemma cpu_cs_cs c : cpu_cs (cpu_cs c) = cpu_cs c.
Proof. destruct c as [n ?????]; unfold cpu_cs; cbn. by destruct (n =? 0). Qed.

Lemma cpu_pop_push c : cpu_room 0 c -> cpu_pop (cpu_push c) = cpu_cs c.
Proof.
  destruct c as [n i f p r t]; unfold cpu_pop, cpu_push, cpu_cs, cpu_room; cbn.
  intros [? Hf]. replace (n + 1 - 1) with n by lia.
  destruct (Z.eqb_spec n 0); [done|]. cbn. rewrite Hf by lia. done.
Qed.

Lemma bind_upd_cpu {B} f (k : unit -> K B) s :
  bind (upd_cpu f) k s = k tt (set_k_cpu (f (k_cpu s)) s).
Proof. done. Qed.

Lemma bind_holding {B} L (k : bool -> K B) s lk :
  lk_get L s = Some lk ->
  bind (holding L) k s = k (truthy (sl_locked lk) && sl_cpu lk) s.
Proof. intros H. unfold holding, bind; cbn. by rewrite H. Qed.

Lemma pushcli_eq s :
  cpu_room 1 (k_cpu s) -> pushcli s = Done tt (set_k_cpu (cpu_push (k_cpu s)) s).
Proof.
  intros [Hn _]. unfold pushcli, readeflags_if, cli; msimp. rewrite bind_upd_cpu; msimp.
  unfold cpu_push, upd_cpu; cbn.
  destruct (ncli (k_cpu s) =? 0); msimp; unfold modify; cbn;
    rewrite i32_small by lia; reflexivity.
Qed.

Lemma popcli_eq s :
  0 < ncli (k_cpu s) < 2 ^ 31 -> eflags_if (k_cpu s) = false ->
  popcli s = Done tt (set_k_cpu (cpu_pop (k_cpu s)) s).
Proof.
  intros Hn Hf. unfold popcli, readeflags_if; msimp. rewrite Hf, bind_upd_cpu; msimp; cbn.
  unfold cpu_pop. rewrite i32_small by lia.
  destruct (Z.ltb_spec (ncli (k_cpu s) - 1) 0); [lia|].
  destruct ((ncli (k_cpu s) - 1 =? 0) && intena (k_cpu s)) eqn:E; [done|].
  unfold ret, set_eflags_if, set_ncli; cbn. by rewrite Hf.
Qed.

Section locks.
Context (L : lockref) `{!LockLaws L}.

Lemma acquire_eq s lk :
  lk_get L s = Some lk -> sl_locked lk = 0 -> cpu_room 1 (k_cpu s) ->
  acquire L s =
  Done tt (lk_set L (mk_spinlock 1 true) (set_k_cpu (cpu_push (k_cpu s)) s)).
Proof.
  intros Hl H0 Hc. unfold acquire. mstep pushcli_eq; [|done].
  erewrite bind_holding by (rewrite lk_get_cpu; eauto). rewrite H0; cbn. msimp.
  rewrite lk_get_cpu, Hl; msimp. by rewrite H0.
Qed.

Lemma release_eq s lk :
  lk_get L s = Some lk -> sl_locked lk = 1 -> sl_cpu lk = true ->
  0 < ncli (k_cpu s) < 2 ^ 31 -> eflags_if (k_cpu s) = false ->
  release L s =
  Done tt (set_k_cpu (cpu_pop (k_cpu s)) (lk_set L (mk_spinlock 0 false) s)).
Proof.
  intros Hl H1 H2 Hn Hf. unfold release. erewrite bind_holding by done.
  rewrite H1, H2; cbn; msimp. rewrite popcli_eq; by rewrite ?lk_cpu_set.
Qed.

(** The release that ends a critical section entered on processor state [c]. *)
Lemma release_cs s c :
  lk_get L s = Some (mk_spinlock 1 true) -> k_cpu s = cpu_push c -> cpu_room 1 c ->
  release L s = Done tt (set_k_cpu (cpu_cs c) (lk_set L (mk_spinlock 0 false) s)).
Proof.
  intros Hl Hc Hr. rewrite (release_eq s _ Hl eq_refl eq_refl); rewrite ?Hc.
  - by rewrite cpu_pop_push by (eapply cpu_room_le, Hr; lia).
  - destruct Hr. cbn. lia.
  - done.
Qed.

(** Taking a lock that is held ends in [panic], never in a silent deadlock. *)
Lemma acquire_held s lk :
  lk_get L s = Some lk -> sl_locked lk = 1 -> sl_cpu lk = true ->
  cpu_room 1 (k_cpu s) -> acquire L s = Panic "acquire".
Proof.
  intros Hl H1 H2 Hc. unfold acquire. mstep pushcli_eq; [|done].
  erewrite bind_holding by (rewrite lk_get_cpu; eauto). by rewrite H1, H2.
Qed.
End locks.

Fixpoint times (n : nat) (m : K unit) : K unit :=
  match n with O => ret tt | S n => m ;; times n m end.

(** The processor after [n] [pushcli] of which [m] are undone. *)
Definition cpu_nested (c : cpu) (n m : nat) : cpu :=
  if (n =? 0)%nat then c else
  set_ncli (ncli c + Z.of_nat n - Z.of_nat m)
    (set_eflags_if (if (n =? m)%nat then eflags_if c else false) (cpu_cs c)).

Lemma cpu_nested_push c n :
  cpu_room (Z.of_nat n + 1) c ->
  cpu_room 1 (cpu_nested c n 0) /\ cpu_push (cpu_nested c n 0) = cpu_nested c (S n) 0.
Proof.
  destruct c as [k i f p r t]. unfold cpu_nested, cpu_room; cbn. intros [??].
  destruct n as [|n]; cbn; unfold cpu_push, cpu_cs, set_ncli, set_intena, set_eflags_if; cbn.
  - split; [split; [lia|done]|]. f_equal; lia.
  - split; [split; [lia|done]|]. destruct (Z.eqb_spec (k + Z.of_nat (S n) - Z.of_nat 0) 0); [lia|].
    f_equal; lia.
Qed.

Lemma cpu_nested_pop c n m :
  cpu_room (Z.of_nat n) c -> (m < n)%nat ->
  0 < ncli (cpu_nested c n m) < 2 ^ 31 /\ eflags_if (cpu_nested c n m) = false /\
  cpu_pop (cpu_nested c n m) = cpu_nested c n (S m).
Proof.
  destruct c as [k i f p r t]. unfold cpu_nested, cpu_room; cbn. intros [? Hf] ?.
  destruct (Nat.eqb_spec n 0); [lia|]. destruct (Nat.eqb_spec n m); [lia|]. cbn.
  split; [lia|]. split; [done|]. unfold cpu_pop, cpu_cs, set_ncli, set_intena, set_eflags_if; cbn.
  f_equal; [lia|].
  destruct (Nat.eqb_spec n (S m)), (Z.eqb_spec (k + Z.of_nat n - Z.of_nat m - 1) 0),
    (Z.eqb_spec k 0); try lia; cbn; try done; rewrite Hf by lia; done.
Qed.

Lemma set_k_cpu_twice c c' s : set_k_cpu c (set_k_cpu c' s) = set_k_cpu c s.
Proof. done. Qed.

Lemma set_k_cpu_id s : set_k_cpu (k_cpu s) s = s.
Proof. by destruct s. Qed.

Lemma times_pushcli c s n j :
  cpu_room (Z.of_nat (j + n)) c ->
  times n pushcli (set_k_cpu (cpu_nested c j 0) s) =
  Done tt (set_k_cpu (cpu_nested c (j + n) 0) s).
Proof.
  revert j. induction n as [|n IH]; intros j Hr; cbn; [by rewrite Nat.add_0_r|].
  destruct (cpu_nested_push c j) as [Hr1 Hp]; [eapply cpu_room_le, Hr; lia|].
  mstep pushcli_eq; [|done]. rewrite set_k_cpu_twice; cbn [k_cpu set_k_cpu].
  rewrite Hp, IH; [do 3 f_equal; lia|]. eapply cpu_room_le, Hr; lia.
Qed.

Lemma times_popcli c s n m j :
  cpu_room (Z.of_nat n) c -> (j + m <= n)%nat ->
  times m popcli (set_k_cpu (cpu_nested c n j) s) =
  Done tt (set_k_cpu (cpu_nested c n (j + m)) s).
Proof.
  revert j. induction m as [|m IH]; intros j Hr Hle; cbn; [by rewrite Nat.add_0_r|].
  destruct (cpu_nested_pop c n j) as (? & ? & Hp); [done|lia|].
  mstep popcli_eq; [|done|done]. rewrite set_k_cpu_twice; cbn [k_cpu set_k_cpu].
  rewrite Hp, IH; [do 3 f_equal; lia|done|lia].
Qed.

(** ** Properties *)

(** C3: [pushcli]/[popcli] are matched, as their comment says: after [n] calls
    of [pushcli] and [m <= n] of [popcli] the nesting depth is [n - m] more than
    it was, interrupts are off as long as one [pushcli] is not undone, and once
    all are undone the interrupt flag is what it was at the start (in
    particular, if interrupts were off they stay off). *)
Theorem pushcli_popcli_matched (s : kstate) (n m : nat)
    (Hcpu : cpu_ok (k_cpu s)) (Hn : Z.of_nat n <= 2 ^ 30) (Hm : (m <= n)%nat) :
  exists s', (times n pushcli ;; times m popcli) s = Done tt s' /\
    ncli (k_cpu s') = ncli (k_cpu s) + Z.of_nat n - Z.of_nat m /\
    eflags_if (k_cpu s') = (if (n =? m)%nat then eflags_if (k_cpu s) else false) /\
    set_k_cpu (k_cpu s) s' = s.
Proof.
  assert (Hr : cpu_room (Z.of_nat n) (k_cpu s)) by (apply cpu_ok_room; [lia|done]).
  exists (set_k_cpu (cpu_nested (k_cpu s) n m) s). split.
  - rewrite <- (set_k_cpu_id s) at 1.
    mstep (times_pushcli (k_cpu s) s n 0); [|done]. by apply (times_popcli _ _ n m 0).
  - unfold cpu_nested. destruct (Nat.eqb_spec n 0) as [->|]; cbn.
    + assert (m = 0)%nat as -> by lia. cbn. rewrite !set_k_cpu_id. split; [lia|done].
    + by destruct s.
Qed.

(** C4: a lock is exclusive and a critical section leaves no trace: acquiring
    a free lock and releasing it returns, and restores the whole state (the
    lock, the nesting depth, the interrupt flag; only the saved [intena] of an
    outermost section is updated); acquiring it a second time inside the
    section panics, and releasing a free lock panics. *)
Theorem acquire_release_cs (L : lockref) `{!LockLaws L} (s : kstate)
    (Hfree : lk_get L s = Some (mk_spinlock 0 false)) (Hcpu : cpu_ok (k_cpu s)) :
  (acquire L ;; release L) s = Done tt (set_k_cpu (cpu_cs (k_cpu s)) s) /\
  (acquire L ;; acquire L) s = Panic "acquire" /\
  release L s = Panic "release".
Proof.
  assert (Hr : cpu_room 2 (k_cpu s)) by (apply cpu_ok_room; [lia|done]).
  assert (Hr0 : cpu_room 0 (k_cpu s)) by (apply cpu_ok_room; [lia|done]).
  assert (Hr1 : cpu_room 1 (k_cpu s)) by (apply cpu_ok_room; [lia|done]).
  pose proof (cpu_room_push _ 1 ltac:(lia) Hr) as Hp.
  set (s1 := lk_set L (mk_spinlock 1 true) (set_k_cpu (cpu_push (k_cpu s)) s)).
  assert (H1 : acquire L s = Done tt s1) by (by eapply acquire_eq).
  assert (Hg : lk_get L s1 = Some (mk_spinlock 1 true))
    by (unfold s1; eapply lk_get_set; rewrite lk_get_cpu; eauto).
  assert (Hc : k_cpu s1 = cpu_push (k_cpu s)) by (unfold s1; by rewrite lk_cpu_set).
  split; [|split].
  - mstep H1. rewrite (release_eq L s1 _ Hg eq_refl eq_refl); rewrite ?Hc; [|cbn; destruct Hr; lia|done].
    rewrite cpu_pop_push by done. unfold s1. rewrite lk_set_set, lk_set_cpu, set_k_cpu_twice.
    by rewrite lk_set_get.
  - mstep H1. apply (acquire_held L s1 _ Hg eq_refl eq_refl). by rewrite Hc.
  - unfold release. by rewrite (bind_holding L _ s _ Hfree).
Qed.

Lemma pushcli_popcli_matched_witness :
  exists s', (times 3 pushcli ;; times 2 popcli) (zero_state 0 ∅) = Done tt s' /\
    ncli (k_cpu s') = 1 /\ eflags_if (k_cpu s') = false.
Proof.
  destruct (pushcli_popcli_matched (zero_state 0 ∅) 3 2) as (s' & H1 & H2 & H3 & _);
    [split; [cbn; lia|done]|lia|lia|].
  exists s'. split; [exact H1|]. split; [exact H2|exact H3].
Defined.

Lemma acquire_release_cs_witness :
  (acquire kmem_lk ;; release kmem_lk) (zero_state 0 ∅) = Done tt (zero_state 0 ∅).
Proof.
  destruct (acquire_release_cs kmem_lk (zero_state 0 ∅)) as [H _];
    [done|split; [cbn; lia|done]|exact H].
Defined.
