(* ===== verification/Mmu.v ===== *)
(** * Addresses and page-table entries: [inc/mmu.h], [inc/memlayout.h],
    [inc/cdefs.h]

    The address macros of the kernel as functions on 64-bit integers, and the
    arithmetic facts about them that the memory components share. *)

From S2P Require Import Prelude Types.

(** ** The macros *)

Definition PTE_P : Z := Z.shiftl 1 0.
Definition PTE_W : Z := Z.shiftl 1 1.
Definition PTE_U : Z := Z.shiftl 1 2.

Definition PAGE_SHIFT : Z := 12.
Definition PML4_SHIFT : Z := 39.
Definition PDPT_SHIFT : Z := 30.
Definition PD_SHIFT : Z := 21.
Definition PTRS_PER_PML4 : Z := 512.
Definition PTRS_PER_PDPT : Z := 512.
Definition PTRS_PER_PD : Z := 512.
Definition PTRS_PER_PT : Z := 512.

Definition SZ_2G : Z := 0x80000000.
Definition SZ_4G : Z := 0x100000000.

(** [BITMASK64(h, l)]. *)
Definition BIT64 (n : Z) : Z := u64 (Z.shiftl 1 n).
Definition BITMASK64 (h l : Z) : Z :=
  u64 (Z.shiftl (u64 (u64 (Z.shiftl (BIT64 (Z.max h l - Z.min h l)) 1) - 1)) (Z.min h l)).

Definition PDPT_ADDR (e : Z) : Z := Z.land e (BITMASK64 51 12).
Definition PDE_ADDR (e : Z) : Z := Z.land e (BITMASK64 51 12).
Definition PTE_ADDR (e : Z) : Z := Z.land e (BITMASK64 51 12).
Definition PTE_FLAGS (e : Z) : Z := Z.land e 0xFFF.

Definition PML4_INDEX (va : Z) : Z := Z.land (Z.shiftr va PML4_SHIFT) (PTRS_PER_PML4 - 1).
Definition PDPT_INDEX (va : Z) : Z := Z.land (Z.shiftr va PDPT_SHIFT) (PTRS_PER_PDPT - 1).
Definition PD_INDEX (va : Z) : Z := Z.land (Z.shiftr va PD_SHIFT) (PTRS_PER_PD - 1).
Definition PT_INDEX (va : Z) : Z := Z.land (Z.shiftr va PT_SHIFT) (PTRS_PER_PT - 1).

Definition PGADDR (l4 l3 d t o : Z) : Z :=
  u64 (Z.lor (Z.lor (Z.lor (Z.lor (Z.shiftl l4 PML4_SHIFT) (Z.shiftl l3 PDPT_SHIFT))
                           (Z.shiftl d PD_SHIFT)) (Z.shiftl t PT_SHIFT)) o).

Definition PTE (pa flags : Z) : Z := u64 (Z.lor pa flags).

Definition PGNUM (la : Z) : Z := Z.shiftr (u64 la) PT_SHIFT.
Definition PGROUNDUP (sz : Z) : Z := Z.land (u64 (u64 (sz + PGSIZE) - 1)) (Z.lnot (PGSIZE - 1)).
Definition PGROUNDDOWN (a : Z) : Z := Z.land a (Z.lnot (PGSIZE - 1)).

Definition V2P (a : Z) : Z := u64 (a - KERNBASE).
Definition P2V (a : Z) : Z := u64 (a + KERNBASE).

(** ** Bit arithmetic *)

Lemma lor_add a b : Z.land a b = 0 -> Z.lor a b = a + b.
Proof. intros H. rewrite Z.add_nocarry_lxor by done. by rewrite Z.lxor_lor. Qed.

Lemma land_shiftl_small a n b :
  0 <= n -> 0 <= b < 2 ^ n -> Z.land (Z.shiftl a n) b = 0.
Proof.
  intros Hn Hb. apply Z.bits_inj'. intros i Hi.
  rewrite Z.land_spec, Z.shiftl_spec, Z.bits_0 by lia.
  destruct (Z.ltb_spec i n).
  - rewrite (Z.testbit_neg_r a) by lia. done.
  - assert (Z.testbit b i = false) as ->; [|by rewrite andb_false_r].
    destruct (Z.eq_dec b 0) as [->|]; [apply Z.bits_0|].
    apply Z.bits_above_log2; [lia|]. apply Z.log2_lt_pow2; [lia|].
    assert (2 ^ n <= 2 ^ i) by (apply Z.pow_le_mono_r; lia). lia.
Qed.

(** Shifting a value above a smaller one adds it. *)
Lemma lor_shiftl_add a n b :
  0 <= n -> 0 <= b < 2 ^ n -> Z.lor (Z.shiftl a n) b = a * 2 ^ n + b.
Proof.
  intros. rewrite lor_add by (by apply land_shiftl_small).
  by rewrite Z.shiftl_mul_pow2.
Qed.

Lemma land_511 a : Z.land a 511 = a mod 512.
Proof. change 511 with (Z.ones 9). by rewrite Z.land_ones. Qed.

Lemma land_4095 a : Z.land a 4095 = a mod 4096.
Proof. change 4095 with (Z.ones 12). by rewrite Z.land_ones. Qed.

Lemma land_not_4095 a : Z.land a (Z.lnot (PGSIZE - 1)) = a / 4096 * 4096.
Proof.
  change (Z.lnot (PGSIZE - 1)) with (Z.lnot (Z.ones 12)).
  rewrite <- Z.ldiff_land, Z.ldiff_ones_r, Z.shiftl_mul_pow2, Z.shiftr_div_pow2 by lia.
  done.
Qed.

Lemma BITMASK64_51_12 : BITMASK64 51 12 = (2 ^ 40 - 1) * 4096.
Proof. done. Qed.

(** The address part of an entry: bits 12 to 51. *)
Lemma addr_mask e : Z.land e (BITMASK64 51 12) = (e / 4096) mod 2 ^ 40 * 4096.
Proof.
  change (BITMASK64 51 12) with (Z.shiftl (Z.ones 40) 12).
  apply Z.bits_inj'. intros i Hi. change 4096 with (2 ^ 12).
  rewrite Z.land_spec, <- Z.shiftl_mul_pow2, !Z.shiftl_spec, <- Z.land_ones,
    <- Z.shiftr_div_pow2 by lia.
  rewrite Z.land_spec. destruct (Z.ltb_spec i 12).
  - rewrite !(Z.testbit_neg_r _ (i - 12)) by lia. by rewrite !andb_false_r.
  - rewrite Z.shiftr_spec by lia. do 2 f_equal. lia.
Qed.

Lemma PML4_INDEX_eq va : PML4_INDEX va = va / 2 ^ 39 mod 512.
Proof. unfold PML4_INDEX. change (PTRS_PER_PML4 - 1) with 511. by rewrite land_511, Z.shiftr_div_pow2. Qed.

Lemma PDPT_INDEX_eq va : PDPT_INDEX va = va / 2 ^ 30 mod 512.
Proof. unfold PDPT_INDEX. change (PTRS_PER_PDPT - 1) with 511. by rewrite land_511, Z.shiftr_div_pow2. Qed.

Lemma PD_INDEX_eq va : PD_INDEX va = va / 2 ^ 21 mod 512.
Proof. unfold PD_INDEX. change (PTRS_PER_PD - 1) with 511. by rewrite land_511, Z.shiftr_div_pow2. Qed.

Lemma PT_INDEX_eq va : PT_INDEX va = va / 2 ^ 12 mod 512.
Proof. unfold PT_INDEX. change (PTRS_PER_PT - 1) with 511. by rewrite land_511, Z.shiftr_div_pow2. Qed.

Lemma PGADDR_eq l4 l3 d t o :
  0 <= l4 < 2 ^ 25 -> 0 <= l3 < 512 -> 0 <= d < 512 -> 0 <= t < 512 -> 0 <= o < 4096 ->
  PGADDR l4 l3 d t o = l4 * 2 ^ 39 + l3 * 2 ^ 30 + d * 2 ^ 21 + t * 2 ^ 12 + o.
Proof.
  intros. unfold PGADDR, PML4_SHIFT, PDPT_SHIFT, PD_SHIFT, PT_SHIFT.
  rewrite <- !Z.lor_assoc.
  rewrite (lor_shiftl_add t 12) by lia.
  rewrite (lor_shiftl_add d 21), (lor_shiftl_add l3 30), (lor_shiftl_add l4 39) by lia.
  rewrite u64_small; lia.
Qed.

Lemma PGROUNDDOWN_eq a : PGROUNDDOWN a = a / 4096 * 4096.
Proof. apply land_not_4095. Qed.

Lemma PGROUNDUP_eq sz :
  0 <= sz -> sz + 4096 < 2 ^ 64 -> PGROUNDUP sz = (sz + 4095) / 4096 * 4096.
Proof.
  intros. unfold PGROUNDUP. rewrite land_not_4095. unfold PGSIZE. do 2 f_equal. word.
Qed.

Lemma PGNUM_eq la : 0 <= la < 2 ^ 64 -> PGNUM la = la / 4096.
Proof. intros. unfold PGNUM. by rewrite u64_small, Z.shiftr_div_pow2. Qed.

Lemma V2P_P2V a : 0 <= a < 2 ^ 64 -> V2P (P2V a) = a.
Proof. intros. unfold V2P, P2V, KERNBASE. word. Qed.

Lemma P2V_V2P a : 0 <= a < 2 ^ 64 -> P2V (V2P a) = a.
Proof. intros. unfold V2P, P2V, KERNBASE. word. Qed.

(** Physical pages below 2GB have the kernel addresses above [KERNBASE]. *)
Lemma P2V_low a : 0 <= a < 2 ^ 31 -> P2V a = a + KERNBASE.
Proof. intros. unfold P2V, KERNBASE. apply u64_small. lia. Qed.

Lemma V2P_high a : KERNBASE <= a < 2 ^ 64 -> V2P a = a - KERNBASE.
Proof. unfold V2P, KERNBASE. intros. apply u64_small. lia. Qed.

Lemma PTE_split pa flags :
  pa mod 4096 = 0 -> 0 <= pa < 2 ^ 52 -> 0 <= flags < 4096 -> PTE pa flags = pa + flags.
Proof.
  intros Ha Hp Hf. unfold PTE.
  replace pa with (Z.shiftl (pa / 4096) 12) at 1 by (rewrite Z.shiftl_mul_pow2; dlia).
  rewrite lor_shiftl_add by lia. rewrite u64_small; dlia.
Qed.

Lemma PTE_ADDR_PTE pa flags :
  pa mod 4096 = 0 -> 0 <= pa < 2 ^ 52 -> 0 <= flags < 4096 -> PTE_ADDR (PTE pa flags) = pa.
Proof.
  intros. rewrite PTE_split by done. unfold PTE_ADDR. rewrite addr_mask.
  replace ((pa + flags) / 4096) with (pa / 4096) by dlia.
  rewrite Z.mod_small by dlia. dlia.
Qed.

(** ** Properties *)

(** the page-table indices decompose a virtual address: [PGADDR] rebuilds
    any 48-bit address from its four indices and its page offset, and the
    indices of an address built by [PGADDR] are the ones it was built from. *)
Theorem PGADDR_roundtrip (va l4 l3 d t o : Z)
    (Hva : 0 <= va < 2 ^ 48) (H4 : 0 <= l4 < 512) (H3 : 0 <= l3 < 512)
    (Hd : 0 <= d < 512) (Ht : 0 <= t < 512) (Ho : 0 <= o < 4096) :
  PGADDR (PML4_INDEX va) (PDPT_INDEX va) (PD_INDEX va) (PT_INDEX va) (va mod PGSIZE) = va /\
  (PML4_INDEX (PGADDR l4 l3 d t o) = l4 /\ PDPT_INDEX (PGADDR l4 l3 d t o) = l3 /\
   PD_INDEX (PGADDR l4 l3 d t o) = d /\ PT_INDEX (PGADDR l4 l3 d t o) = t).
Proof.
  split.
  - rewrite PML4_INDEX_eq, PDPT_INDEX_eq, PD_INDEX_eq, PT_INDEX_eq. unfold PGSIZE.
    rewrite PGADDR_eq by dlia. dlia.
  - rewrite PML4_INDEX_eq, PDPT_INDEX_eq, PD_INDEX_eq, PT_INDEX_eq.
    rewrite PGADDR_eq by lia. dlia.
Qed.

Lemma PGADDR_roundtrip_witness :
  PGADDR (PML4_INDEX 0x7fffdeadb000) (PDPT_INDEX 0x7fffdeadb000) (PD_INDEX 0x7fffdeadb000)
    (PT_INDEX 0x7fffdeadb000) (0x7fffdeadb000 mod PGSIZE) = 0x7fffdeadb000.
Proof.
  destruct (PGADDR_roundtrip 0x7fffdeadb000 1 2 3 4 5) as [H _]; [lia..|exact H].
Defined.
