(* ===== verification/Hw.v ===== *)
(** * The machine below the kernel: ports, device registers and memory

    What [mp.c], [lapic.c], [ioapic.c], [picirq.c], [e820.c] and [bootmain.c]
    work on.  The devices are an interface: a read answers from the accesses
    made so far, and every access is appended to a trace, so that a theorem
    can say what was programmed into a device without a model of the device.
    Memory is a map from addresses to bytes, with a [Fault] where none is. *)

From S2P Require Import Prelude Types Mmu.

Inductive access :=
| Out (port v : Z)
| In (port v : Z)
| Store (addr v : Z)
| Load (addr v : Z)
| Say (msg : string).

(** What the devices answer, given the accesses before (the latest first). *)
Class devices := {
  port_in : list access -> Z -> Z;
  reg_in : list access -> Z -> Z
}.

(** The globals of [mp.c] ([ismp], [ncpu], [ioapicid], the [apicid] fields of
    [cpus]), of [lapic.c] ([lapic], the static [n] of [cpunum]), of [ioapic.c]
    and of [picirq.c]; the interrupt flag; the trace, the latest access first;
    and the memory. *)
Record hw := mk_hw {
  ismp : Z;
  ncpu : Z;
  ioapicid : Z;
  apicids : list Z;
  lapic : Z;
  cpunum_n : Z;
  ioapic : Z;
  irqmask : Z;
  flags_if : bool;
  trace : list access;
  ram : Z -> option Z
}.
Definition set_ismp (v : Z) (r : hw) : hw :=
  mk_hw v (ncpu r) (ioapicid r) (apicids r) (lapic r) (cpunum_n r) (ioapic r) (irqmask r) (flags_if r) (trace r) (ram r).
Definition set_ncpu (v : Z) (r : hw) : hw :=
  mk_hw (ismp r) v (ioapicid r) (apicids r) (lapic r) (cpunum_n r) (ioapic r) (irqmask r) (flags_if r) (trace r) (ram r).
Definition set_ioapicid (v : Z) (r : hw) : hw :=
  mk_hw (ismp r) (ncpu r) v (apicids r) (lapic r) (cpunum_n r) (ioapic r) (irqmask r) (flags_if r) (trace r) (ram r).
Definition set_apicids (v : list Z) (r : hw) : hw :=
  mk_hw (ismp r) (ncpu r) (ioapicid r) v (lapic r) (cpunum_n r) (ioapic r) (irqmask r) (flags_if r) (trace r) (ram r).
Definition set_lapic (v : Z) (r : hw) : hw :=
  mk_hw (ismp r) (ncpu r) (ioapicid r) (apicids r) v (cpunum_n r) (ioapic r) (irqmask r) (flags_if r) (trace r) (ram r).
Definition set_cpunum_n (v : Z) (r : hw) : hw :=
  mk_hw (ismp r) (ncpu r) (ioapicid r) (apicids r) (lapic r) v (ioapic r) (irqmask r) (flags_if r) (trace r) (ram r).
Definition set_ioapic (v : Z) (r : hw) : hw :=
  mk_hw (ismp r) (ncpu r) (ioapicid r) (apicids r) (lapic r) (cpunum_n r) v (irqmask r) (flags_if r) (trace r) (ram r).
Definition set_irqmask (v : Z) (r : hw) : hw :=
  mk_hw (ismp r) (ncpu r) (ioapicid r) (apicids r) (lapic r) (cpunum_n r) (ioapic r) v (flags_if r) (trace r) (ram r).
Definition set_trace (v : list access) (r : hw) : hw :=
  mk_hw (ismp r) (ncpu r) (ioapicid r) (apicids r) (lapic r) (cpunum_n r) (ioapic r) (irqmask r) (flags_if r) v (ram r).
Definition set_ram (v : Z -> option Z) (r : hw) : hw :=
  mk_hw (ismp r) (ncpu r) (ioapicid r) (apicids r) (lapic r) (cpunum_n r) (ioapic r) (irqmask r) (flags_if r) (trace r) v.

Definition NCPU : nat := 8.

(** Before [mpinit]: the globals are zero but for the initial mask. *)
Definition hw_start (fl : bool) (r : Z -> option Z) : hw :=
  mk_hw 0 0 0 (replicate NCPU 0) 0 0 0 0xFFFB fl [] r.

Definition IO2V (a : Z) : Z := u64 (a + 0xFFFFFFFF00000000).

(** ** Accesses *)

Definition emit (e : access) : M hw unit := modify (fun h => set_trace (e :: trace h) h).

(** [outb] and [inb] of [inc/x86_64.h]. *)
Definition outb (port data : Z) : M hw unit := emit (Out port (u8 data)).

Definition inb `{devices} (port : Z) : M hw Z :=
  v <- gets (fun h => u8 (port_in (trace h) port)) ;;
  emit (In port v) ;;
  ret v.

(** A 32-bit device register. *)
Definition wr (a v : Z) : M hw unit := emit (Store a (u32 v)).

Definition rd `{devices} (a : Z) : M hw Z :=
  v <- gets (fun h => u32 (reg_in (trace h) a)) ;;
  emit (Load a v) ;;
  ret v.

(** Bytes of memory, and the little-endian fields of a packed structure. *)
Definition ldb (a : Z) : M hw Z :=
  o <- gets (fun h => ram h a) ;;
  deref "load" o.

Definition ldw (a : Z) : M hw Z :=
  b0 <- ldb a ;;
  b1 <- ldb (a + 1) ;;
  ret (b0 + 2 ^ 8 * b1).

Definition ldl (a : Z) : M hw Z :=
  w0 <- ldw a ;;
  w1 <- ldw (a + 2) ;;
  ret (w0 + 2 ^ 16 * w1).

Definition ldq (a : Z) : M hw Z :=
  l0 <- ldl a ;;
  l1 <- ldl (a + 4) ;;
  ret (l0 + 2 ^ 32 * l1).

Definition ram_set (a v : Z) (r : Z -> option Z) : Z -> option Z :=
  fun x => if x =? a then Some v else r x.

Definition stb (a v : Z) : M hw unit :=
  o <- gets (fun h => ram h a) ;;
  match o with
  | Some _ => modify (fun h => set_ram (ram_set a (u8 v) (ram h)) h)
  | None => fault "store"
  end.

Definition stw (a v : Z) : M hw unit := stb a v ;; stb (a + 1) (Z.shiftr v 8).

Definition stl (a v : Z) : M hw unit := stw a v ;; stw (a + 2) (Z.shiftr v 16).

(** ** Facts *)

(** The accesses [l] (the latest first) and nothing else. *)
Definition log (l : list access) (h : hw) : hw := set_trace (l ++ trace h) h.

Lemma log_log l k h : log l (log k h) = log (l ++ k) h.
Proof. unfold log. cbn. by rewrite app_assoc. Qed.

Lemma log_nil h : log [] h = h.
Proof. by destruct h. Qed.

Lemma outb_eq p v h : outb p v h = Done tt (log [Out p (u8 v)] h).
Proof. done. Qed.

Lemma inb_eq `{devices} p h :
  inb p h = Done (u8 (port_in (trace h) p)) (log [In p (u8 (port_in (trace h) p))] h).
Proof. done. Qed.

(** The stores and the port writes of a trace. *)
Definition stores (tr : list access) : list (Z * Z) :=
  omap (fun e => match e with Store a v => Some (a, v) | _ => None end) tr.
Definition outs (tr : list access) : list (Z * Z) :=
  omap (fun e => match e with Out p v => Some (p, v) | _ => None end) tr.

(** The last value written to an address or a port. *)
Fixpoint latest (ws : list (Z * Z)) (a : Z) : option Z :=
  match ws with
  | [] => None
  | (x, v) :: ws => if x =? a then Some v else latest ws a
  end.

Lemma stores_app l k : stores (l ++ k) = stores l ++ stores k.
Proof. apply omap_app. Qed.

Lemma outs_app l k : outs (l ++ k) = outs l ++ outs k.
Proof. apply omap_app. Qed.

Lemma latest_app ws vs a : latest (ws ++ vs) a = match latest ws a with Some v => Some v | None => latest vs a end.
Proof. induction ws as [|[x v] ws IH]; cbn; [done|]. by destruct (x =? a). Qed.

Lemma latest_none ws a : Forall (fun w => w.1 <> a) ws -> latest ws a = None.
Proof.
  induction 1 as [|[x v] ws Hx _ IH]; cbn in *; [done|]. by replace (x =? a) with false by (symmetry; by apply Z.eqb_neq).
Qed.

(** [bs] are the bytes from address [a] on. *)
Definition ram_holds (r : Z -> option Z) (a : Z) (bs : list Z) : Prop :=
  forall i b, bs !! i = Some b -> r (a + Z.of_nat i) = Some b.

(** The little-endian bytes of a 16-, 32- and 64-bit field. *)
Definition bytes16 (v : Z) : list Z := [v mod 2 ^ 8; v / 2 ^ 8 mod 2 ^ 8].
Definition bytes32 (v : Z) : list Z := bytes16 v ++ bytes16 (v / 2 ^ 16).
Definition bytes64 (v : Z) : list Z := bytes32 v ++ bytes32 (v / 2 ^ 32).

Lemma ram_holds_app r a xs ys :
  ram_holds r a (xs ++ ys) <-> ram_holds r a xs /\ ram_holds r (a + Z.of_nat (length xs)) ys.
Proof.
  unfold ram_holds. split.
  - intros H. split; intros i b Hb.
    + apply H. rewrite lookup_app_l; [done|]. by eapply lookup_lt_Some.
    + rewrite <- Z.add_assoc, <- Nat2Z.inj_add. apply H.
      rewrite lookup_app_r by lia. by replace (_ + i - _)%nat with i by lia.
  - intros [H1 H2] i b Hb. destruct (decide (i < length xs)%nat).
    + apply H1. by rewrite lookup_app_l in Hb by done.
    + rewrite lookup_app_r in Hb by lia. apply H2 in Hb. rewrite <- Hb. f_equal. lia.
Qed.

Lemma ram_holds_cons r a x ys : ram_holds r a (x :: ys) <-> r a = Some x /\ ram_holds r (a + 1) ys.
Proof.
  rewrite (ram_holds_app r a [x] ys). unfold ram_holds at 1. cbn. split; intros [H ?]; split; auto.
  - rewrite <- (Z.add_0_r a). by apply (H 0%nat x).
  - intros [|i] b Hb; cbn in Hb; simplify_eq. by rewrite Z.add_0_r.
Qed.

Lemma ram_holds_sub r a bs n m : ram_holds r a bs -> ram_holds r (a + Z.of_nat n) (take m (drop n bs)).
Proof.
  intros H i b Hb. rewrite lookup_take in Hb. case_decide; [|done]. rewrite lookup_drop in Hb.
  apply H in Hb. rewrite <- Hb. f_equal. lia.
Qed.

Lemma ldb_eq h a b : ram h a = Some b -> ldb a h = Done b h.
Proof. intros H. unfold ldb; msimp. by rewrite H. Qed.

Lemma ldw_eq h a v : 0 <= v < 2 ^ 16 -> ram_holds (ram h) a (bytes16 v) -> ldw a h = Done v h.
Proof.
  unfold bytes16. rewrite !ram_holds_cons. intros Hv (H0 & H1 & _). unfold ldw.
  mstep (ldb_eq _ _ _ H0). mstep (ldb_eq _ _ _ H1). unfold ret. f_equal. dlia.
Qed.

Lemma ldl_eq h a v : 0 <= v < 2 ^ 32 -> ram_holds (ram h) a (bytes32 v) -> ldl a h = Done v h.
Proof.
  unfold bytes32. rewrite ram_holds_app. intros Hv [H0 H1]. unfold ldl.
  mstep (ldw_eq h a (v mod 2 ^ 16)); [|dlia|].
  - mstep (ldw_eq h (a + 2) (v / 2 ^ 16)); [|dlia|exact H1]. unfold ret. f_equal. dlia.
  - unfold bytes16 in *. replace (v mod 2 ^ 16 mod 2 ^ 8) with (v mod 2 ^ 8) by dlia.
    by replace (v mod 2 ^ 16 / 2 ^ 8 mod 2 ^ 8) with (v / 2 ^ 8 mod 2 ^ 8) by dlia.
Qed.
