(* ===== verification/Mp.v ===== *)
(** * The multiprocessor table: [kernel/mp.c]

    The search for the MP floating pointer structure and the reading of the
    configuration table it points to, which says where the local APIC is and
    which processors and I/O APIC the machine has. *)

From S2P Require Import Prelude Types Mmu Hw.

(** ** [inc/mp.h] *)

Definition MPPROC : Z := 0x00.
Definition MPBUS : Z := 0x01.
Definition MPIOAPIC : Z := 0x02.
Definition MPIOINTR : Z := 0x03.
Definition MPLINTR : Z := 0x04.

(** The sizes of the structures and the offsets of their fields. *)
Definition sizeof_mp : Z := 16.
Definition mp_physaddr : Z := 4.
Definition mp_imcrp : Z := 12.
Definition sizeof_mpconf : Z := 44.
Definition mpconf_length : Z := 4.
Definition mpconf_version : Z := 6.
Definition mpconf_lapicaddr : Z := 36.
Definition sizeof_mpproc : Z := 20.
Definition mpproc_apicid : Z := 1.
Definition sizeof_mpioapic : Z := 8.
Definition mpioapic_apicno : Z := 1.

(** The characters of the two signatures. *)
Definition sig_MP : list Z := [95; 77; 80; 95].
Definition sig_PCMP : list Z := [80; 67; 77; 80].

(** ** The code *)

(** [memcmp] of [string.c] against a literal. *)
Fixpoint memcmp_lit (a : Z) (lit : list Z) : M hw Z :=
  match lit with
  | [] => ret 0
  | c2 :: lit =>
      c1 <- ldb a ;;
      if negb (c1 =? c2) then ret (c1 - c2) else memcmp_lit (a + 1) lit
  end.

Fixpoint sum_loop (len : nat) (addr acc : Z) : M hw Z :=
  match len with
  | O => ret acc
  | S len => b <- ldb addr ;; sum_loop len (addr + 1) (i32 (acc + b))
  end.

Definition sum (addr len : Z) : M hw Z :=
  v <- sum_loop (Z.to_nat len) addr 0 ;;
  ret (u8 v).

Fixpoint mpsearch1_loop (fuel : nat) (p e : Z) : M hw Z :=
  match fuel with
  | O => diverge
  | S fuel =>
      if p <? e then
        c <- memcmp_lit p sig_MP ;;
        found <- (if c =? 0 then v <- sum p sizeof_mp ;; ret (v =? 0) else ret false) ;;
        if found then ret p else mpsearch1_loop fuel (p + sizeof_mp) e
      else ret 0
  end.

(** Each round of the loop moves [p] towards [e]. *)
Definition mpsearch1 (a len : Z) : M hw Z :=
  let addr := P2V a in
  mpsearch1_loop (S (Z.to_nat len)) addr (addr + len).

Definition mpsearch : M hw Z :=
  let bda := P2V 0x400 in
  hi <- ldb (bda + 0x0F) ;;
  lo <- ldb (bda + 0x0E) ;;
  let p := u32 (Z.shiftl (Z.lor (Z.shiftl hi 8) lo) 4) in
  mp <- (if truthy p then mpsearch1 p 1024
         else
           hi <- ldb (bda + 0x14) ;;
           lo <- ldb (bda + 0x13) ;;
           let p := u32 (Z.lor (Z.shiftl hi 8) lo * 1024) in
           mpsearch1 (u32 (p - 1024)) 1024) ;;
  if truthy mp then ret mp else mpsearch1 0xF0000 0x10000.

(** The configuration table and the structure that points to it. *)
Definition mpconfig : M hw (option (Z * Z)) :=
  mp <- mpsearch ;;
  if mp =? 0 then ret None else
  physaddr <- ldl (mp + mp_physaddr) ;;
  if physaddr =? 0 then ret None else
  let conf := P2V physaddr in
  c <- memcmp_lit conf sig_PCMP ;;
  if negb (c =? 0) then ret None else
  version <- ldb (conf + mpconf_version) ;;
  if negb (version =? 1) && negb (version =? 4) then ret None else
  length <- ldw (conf + mpconf_length) ;;
  v <- sum conf length ;;
  if negb (v =? 0) then ret None else
  ret (Some (conf, mp)).

(** The loop of [mpinit] over the entries from [p] up to [e]. *)
Fixpoint mpinit_loop (fuel : nat) (p e : Z) : M hw unit :=
  match fuel with
  | O => diverge
  | S fuel =>
      if p <? e then
        t <- ldb p ;;
        if t =? MPPROC then
          n <- gets ncpu ;;
          (if n <? Z.of_nat NCPU then
             apicid <- ldb (p + mpproc_apicid) ;;
             modify (fun h => set_apicids (<[Z.to_nat n := apicid]> (apicids h)) h) ;;
             modify (fun h => set_ncpu (i32 (ncpu h + 1)) h)
           else ret tt) ;;
          mpinit_loop fuel (p + sizeof_mpproc) e
        else if t =? MPIOAPIC then
          apicno <- ldb (p + mpioapic_apicno) ;;
          modify (set_ioapicid apicno) ;;
          mpinit_loop fuel (p + sizeof_mpioapic) e
        else if (t =? MPBUS) || (t =? MPIOINTR) || (t =? MPLINTR) then
          mpinit_loop fuel (p + 8) e
        else
          modify (set_ismp 0) ;;
          mpinit_loop fuel p e
      else ret tt
  end.

Definition mpinit `{devices} (fuel : nat) : M hw unit :=
  r <- mpconfig ;;
  match r with
  | None => ret tt
  | Some (conf, mp) =>
      modify (set_ismp 1) ;;
      lapicaddr <- ldl (conf + mpconf_lapicaddr) ;;
      modify (set_lapic (IO2V lapicaddr)) ;;
      length <- ldw (conf + mpconf_length) ;;
      mpinit_loop fuel (conf + sizeof_mpconf) (conf + length) ;;
      mpok <- gets ismp ;;
      if mpok =? 0 then
        modify (set_ncpu 1) ;;
        modify (set_lapic 0) ;;
        modify (set_ioapicid 0)
      else
        imcrp <- ldb (mp + mp_imcrp) ;;
        if truthy imcrp then
          outb 0x22 0x70 ;;
          v <- inb 0x23 ;;
          outb 0x23 (Z.lor v 1)
        else ret tt
  end.

(** ** The search *)

Definition byte_sum (bs : list Z) : Z := foldr Z.add 0 bs.

(** The [n] bytes from [a] on, an unmapped one as -1. *)
Definition window (r : Z -> option Z) (a : Z) (n : nat) : list Z :=
  map (fun i => default (-1) (r (a + Z.of_nat i))) (seq 0 n).

Definition mapped (r : Z -> option Z) (a n : Z) : Prop :=
  forall x, a <= x < a + n -> exists b, r x = Some b /\ 0 <= b < 2 ^ 8.

(** An MP floating pointer structure: its signature, and a sum of zero. *)
Definition mp_at (r : Z -> option Z) (p : Z) : bool :=
  bool_decide (window r p 4 = sig_MP) && (byte_sum (window r p 16) mod 2 ^ 8 =? 0).

(** The places that [mpsearch] looks at, in its order.  (The comment of the code
    has the ROM start at 0xE0000.) *)
Definition slots (a : Z) (n : nat) : list Z := map (fun i => P2V a + 16 * Z.of_nat i) (seq 0 n).

Definition bda_word (r : Z -> option Z) (a : Z) : Z :=
  default 0 (r (P2V 0x400 + a)) + 2 ^ 8 * default 0 (r (P2V 0x400 + a + 1)).

Definition mp_places (r : Z -> option Z) : list Z :=
  (let ebda := 16 * bda_word r 0x0E in
   if ebda =? 0 then slots (u32 (1024 * bda_word r 0x13 - 1024)) 64 else slots ebda 64)
  ++ slots 0xF0000 4096.

(** The first element that satisfies a test, 0 if there is none. *)
Definition first (f : Z -> bool) (l : list Z) : Z :=
  default 0 (snd <$> list_find (fun p => f p = true) l).

Lemma window_S r a n : window r a (S n) = default (-1) (r a) :: window r (a + 1) n.
Proof.
  unfold window. cbn [seq map]. rewrite Z.add_0_r. f_equal. rewrite <- seq_shift, map_map.
  apply map_ext. intros i. by replace (a + Z.of_nat (S i)) with (a + 1 + Z.of_nat i) by lia.
Qed.

Lemma mapped_head r a n : mapped r a n -> 0 < n -> exists b, r a = Some b /\ 0 <= b < 2 ^ 8.
Proof. intros H ?. apply H. lia. Qed.

Lemma mapped_tail r a n : mapped r a n -> mapped r (a + 1) (n - 1).
Proof. intros H x Hx. apply H. lia. Qed.

Lemma mapped_sub r a n b m : mapped r a n -> a <= b -> b + m <= a + n -> mapped r b m.
Proof. intros H ?? x Hx. apply H. lia. Qed.

Lemma byte_sum_bounds r n a :
  mapped r a (Z.of_nat n) -> 0 <= byte_sum (window r a n) <= 255 * Z.of_nat n.
Proof.
  revert a. induction n as [|n IH]; intros a Hm; [cbn; lia|]. rewrite window_S. cbn [byte_sum foldr].
  destruct (mapped_head _ _ _ Hm ltac:(lia)) as (b & -> & Hb). apply mapped_tail in Hm.
  replace (Z.of_nat (S n) - 1) with (Z.of_nat n) in Hm by lia. specialize (IH _ Hm).
  unfold byte_sum in IH. cbn [from_option id]. lia.
Qed.

Lemma memcmp_lit_eq h lit a :
  mapped (ram h) a (Z.of_nat (length lit)) ->
  exists c, memcmp_lit a lit h = Done c h /\
    (c =? 0) = bool_decide (window (ram h) a (length lit) = lit).
Proof.
  revert a. induction lit as [|x lit IH]; intros a Hm.
  { exists 0. split; [done|]. by rewrite bool_decide_true. }
  cbn [length] in *. rewrite window_S.
  destruct (mapped_head _ _ _ Hm ltac:(lia)) as (b & Hb & ?). cbn [memcmp_lit].
  mstep (ldb_eq _ _ _ Hb). rewrite Hb. cbn [from_option id].
  destruct (Z.eqb_spec b x) as [->|Hne]; cbn [negb].
  - apply mapped_tail in Hm. replace (Z.of_nat (S (length lit)) - 1) with (Z.of_nat (length lit)) in Hm by lia.
    destruct (IH _ Hm) as (c & Hc & Hw). exists c. split; [done|]. rewrite Hw.
    apply bool_decide_ext. split; [by intros ->|congruence].
  - exists (b - x). split; [done|]. rewrite bool_decide_false by congruence. apply Z.eqb_neq. lia.
Qed.

Lemma sum_loop_eq h n a acc :
  mapped (ram h) a (Z.of_nat n) -> 0 <= acc -> acc + 255 * Z.of_nat n < 2 ^ 31 ->
  sum_loop n a acc h = Done (acc + byte_sum (window (ram h) a n)) h.
Proof.
  revert a acc. induction n as [|n IH]; intros a acc Hm Ha Hb.
  { cbn. unfold ret. f_equal. lia. }
  rewrite window_S. cbn [sum_loop byte_sum foldr].
  destruct (mapped_head _ _ _ Hm ltac:(lia)) as (b & Hlb & Hr). mstep (ldb_eq _ _ _ Hlb).
  rewrite Hlb, i32_small by lia. apply mapped_tail in Hm.
  replace (Z.of_nat (S n) - 1) with (Z.of_nat n) in Hm by lia.
  rewrite IH by (first [done|lia]). cbn [from_option id]. unfold byte_sum. f_equal. lia.
Qed.

Lemma sum_eq h a len :
  mapped (ram h) a len -> 0 <= len <= 0xFFFF ->
  sum a len h = Done (byte_sum (window (ram h) a (Z.to_nat len)) mod 2 ^ 8) h.
Proof.
  intros Hm Hl. unfold sum. mstep (sum_loop_eq h (Z.to_nat len) a 0); [|rewrite Z2Nat.id by lia; done|lia|lia].
  done.
Qed.

Lemma first_cons f p l : first f (p :: l) = if f p then p else first f l.
Proof.
  unfold first. cbn. destruct (f p) eqn:E; [by rewrite decide_True|].
  rewrite decide_False by congruence. by destruct (list_find _ l) as [[??]|].
Qed.

Lemma first_app f l k : 0 ∉ l -> first f (l ++ k) = if first f l =? 0 then first f k else first f l.
Proof.
  induction l as [|p l IH]; intros H; [done|]. rewrite not_elem_of_cons in H. destruct H as [H0 H].
  cbn [app]. rewrite !first_cons. destruct (f p) eqn:E; [|by apply IH].
  by destruct (Z.eqb_spec p 0).
Qed.

Lemma mpsearch1_loop_eq h n fuel p :
  mapped (ram h) p (16 * Z.of_nat n) -> (n < fuel)%nat ->
  mpsearch1_loop fuel p (p + 16 * Z.of_nat n) h =
    Done (first (mp_at (ram h)) (map (fun i => p + 16 * Z.of_nat i) (seq 0 n))) h.
Proof.
  revert p fuel. induction n as [|n IH]; intros p [|fuel] Hm Hf; [lia| |lia|]; cbn [mpsearch1_loop].
  { replace (p <? _) with false by (symmetry; apply Z.ltb_ge; lia). done. }
  replace (p <? _) with true by (symmetry; apply Z.ltb_lt; lia).
  cbn [seq map]. rewrite <- seq_shift, map_map, first_cons, Z.add_0_r.
  assert (mapped (ram h) p 16) as Hp by (eapply mapped_sub; [exact Hm|lia..]).
  destruct (memcmp_lit_eq h sig_MP p) as (c & Hc & Hz); [eapply mapped_sub; [exact Hp|cbn; lia..]|].
  change (length sig_MP) with 4%nat in Hz.
  mstep Hc. unfold mp_at. rewrite Hz.
  assert (forall q, (p + 16 * Z.of_nat (S q)) = (p + sizeof_mp) + 16 * Z.of_nat q) as Hq
    by (unfold sizeof_mp; lia).
  assert (mapped (ram h) (p + sizeof_mp) (16 * Z.of_nat n)) as Hm'
    by (eapply mapped_sub; [exact Hm|unfold sizeof_mp; lia..]).
  rewrite Hq, (map_ext _ _ Hq). case_bool_decide; cbn [andb].
  - assert ((v <- sum p sizeof_mp ;; ret (v =? 0)) h =
            Done (byte_sum (window (ram h) p 16) mod 2 ^ 8 =? 0) h) as Hs
      by (mstep (sum_eq h p sizeof_mp); [done|exact Hp|unfold sizeof_mp; lia]).
    mstep Hs. destruct (byte_sum (window (ram h) p 16) mod 2 ^ 8 =? 0); [done|]. apply IH; [done|lia].
  - msimp. apply IH; [done|lia].
Qed.

Lemma mpsearch1_eq h a n :
  mapped (ram h) (P2V a) (16 * Z.of_nat n) ->
  mpsearch1 a (16 * Z.of_nat n) h = Done (first (mp_at (ram h)) (slots a n)) h.
Proof. intros H. apply mpsearch1_loop_eq; [done|lia]. Qed.

(** The memory that the search reads is there. *)
Definition searchable (r : Z -> option Z) : Prop :=
  mapped r (P2V 0x400) 0x100 /\ forall p, p ∈ mp_places r -> mapped r p 16.

Lemma slots_mapped r a n :
  (forall p, p ∈ slots a n -> mapped r p 16) -> mapped r (P2V a) (16 * Z.of_nat n).
Proof.
  intros H x Hx. set (i := Z.to_nat ((x - P2V a) / 16)).
  apply (H (P2V a + 16 * Z.of_nat i)).
  - apply list_elem_of_fmap. exists i. split; [done|]. apply elem_of_seq. subst i. dlia.
  - subst i. dlia.
Qed.

Lemma slots_nonzero a n : 0 < P2V a -> 0 ∉ slots a n.
Proof. intros Ha H. apply list_elem_of_fmap in H as (i & H & _). lia. Qed.

Lemma P2V_pos a : 0 <= a < 2 ^ 32 -> a <> 2 ^ 31 -> 0 < P2V a.
Proof. intros. unfold P2V, KERNBASE. word. Qed.

(** Two bytes of the BIOS data area as the code puts them together. *)
Lemma bda_bytes r a :
  mapped r (P2V 0x400) 0x100 -> 0 <= a < 0xFF ->
  exists hi lo, r (P2V 0x400 + (a + 1)) = Some hi /\ r (P2V 0x400 + a) = Some lo /\
    Z.lor (Z.shiftl hi 8) lo = bda_word r a /\ 0 <= bda_word r a < 2 ^ 16.
Proof.
  intros H Ha. destruct (H (P2V 0x400 + (a + 1))) as (hi & Hh & ?); [lia|].
  destruct (H (P2V 0x400 + a)) as (lo & Hl & ?); [lia|]. exists hi, lo.
  unfold bda_word. rewrite <- Z.add_assoc, Hh, Hl. cbn [from_option id].
  rewrite lor_shiftl_add by lia. repeat split; auto; lia.
Qed.

(** [mpsearch] returns the first structure among the places, or 0. *)
Lemma mpsearch_eq h :
  searchable (ram h) -> mpsearch h = Done (first (mp_at (ram h)) (mp_places (ram h))) h.
Proof.
  intros [Hb Hp]. unfold mpsearch, mp_places in *. set (r := ram h) in *.
  destruct (bda_bytes r 0x0E Hb) as (hi & lo & Hh & Hl & He & Hr); [lia|].
  mstep (ldb_eq h _ _ Hh). mstep (ldb_eq h _ _ Hl). rewrite He, Z.shiftl_mul_pow2 by lia.
  rewrite (u32_small (bda_word r 0xE * 2 ^ 4)), (Z.mul_comm _ (2 ^ 4)) by lia. change (2 ^ 4) with 16.
  unfold truthy at 1. set (ebda := 16 * bda_word r 0xE) in *.
  assert (mpsearch1 0xF0000 0x10000 h = Done (first (mp_at r) (slots 0xF0000 4096)) h) as Hrom.
  { apply (mpsearch1_eq h 0xF0000 4096), slots_mapped. intros p Hin. apply Hp, elem_of_app. by right. }
  destruct (Z.eqb_spec ebda 0) as [E|E]; cbn [negb].
  - destruct (bda_bytes r 0x13 Hb) as (hi' & lo' & Hh' & Hl' & He' & Hr'); [lia|].
    set (low := u32 (1024 * bda_word r 0x13 - 1024)) in *.
    assert (mpsearch1 low 1024 h = Done (first (mp_at r) (slots low 64)) h) as H1.
    { apply (mpsearch1_eq h low 64), slots_mapped. intros p Hin. apply Hp, elem_of_app. by left. }
    erewrite bind_done.
    2:{ mstep (ldb_eq h _ _ Hh'). mstep (ldb_eq h _ _ Hl'). rewrite He'.
        replace (u32 (u32 (bda_word r 0x13 * 1024) - 1024)) with low by (subst low; rewrite (u32_small (_ * 1024)) by lia; do 2 f_equal; lia). exact H1. }
    cbv beta. rewrite first_app by (apply slots_nonzero, P2V_pos; subst low; [apply u32_range|word]).
    unfold truthy. by destruct (first _ (slots low 64) =? 0).
  - mstep (mpsearch1_eq h ebda 64).
    + rewrite first_app by (apply slots_nonzero, P2V_pos; subst ebda; lia).
      unfold truthy. fold r. by destruct (first _ (slots ebda 64) =? 0).
    + apply slots_mapped. intros p Hin. apply Hp, elem_of_app. by left.
Qed.

(** ** The table *)

(** An entry: the bytes after the fields that the kernel reads are [rest]. *)
Inductive mpentry :=
| EProc (apicid : Z) (rest : list Z)
| EIoapic (apicno : Z) (rest : list Z)
| EOther (type : Z) (rest : list Z).

Definition entry_bytes (e : mpentry) : list Z :=
  match e with
  | EProc a rest => MPPROC :: a :: rest
  | EIoapic a rest => MPIOAPIC :: a :: rest
  | EOther t rest => t :: rest
  end.

Definition entry_ok (e : mpentry) : Prop :=
  match e with
  | EProc _ rest => length rest = 18%nat
  | EIoapic _ rest => length rest = 6%nat
  | EOther t rest => (t = MPBUS \/ t = MPIOINTR \/ t = MPLINTR) /\ length rest = 7%nat
  end.

Definition entries_bytes (es : list mpentry) : list Z := concat (map entry_bytes es).

(** The local APIC identifiers of the processors, in the table's order. *)
Definition procs (es : list mpentry) : list Z :=
  omap (fun e => match e with EProc a _ => Some a | _ => None end) es.

(** The identifier of the last I/O APIC. *)
Fixpoint last_ioapic (d : Z) (es : list mpentry) : Z :=
  match es with
  | [] => d
  | EIoapic a _ :: es => last_ioapic a es
  | _ :: es => last_ioapic d es
  end.

(** What the entries make of the processor table: the first [NCPU] count. *)
Definition add_cpus (ids : list Z) (h : hw) : hw :=
  let k := Z.to_nat (ncpu h) in
  let new := take (NCPU - k) ids in
  set_ncpu (ncpu h + Z.of_nat (length new)) (set_apicids (blit k new (apicids h)) h).

Lemma add_cpus_nil h : add_cpus [] h = h.
Proof. unfold add_cpus. rewrite take_nil, blit_nil, Z.add_0_r. by destruct h. Qed.

Lemma add_cpus_full ids h : Z.of_nat NCPU <= ncpu h -> add_cpus ids h = h.
Proof.
  intros H. unfold add_cpus. replace (NCPU - Z.to_nat (ncpu h))%nat with 0%nat by lia.
  rewrite take_0, blit_nil, Z.add_0_r. by destruct h.
Qed.

Lemma add_cpus_cons a ids h :
  0 <= ncpu h < Z.of_nat NCPU -> length (apicids h) = NCPU ->
  add_cpus (a :: ids) h =
    add_cpus ids (set_ncpu (ncpu h + 1) (set_apicids (<[Z.to_nat (ncpu h) := a]> (apicids h)) h)).
Proof.
  intros Hn Hl. unfold add_cpus. cbn [ncpu set_ncpu set_apicids apicids].
  replace (NCPU - Z.to_nat (ncpu h))%nat with (S (NCPU - Z.to_nat (ncpu h + 1)))%nat by lia.
  cbn [take firstn]. rewrite blit_cons by lia.
  replace (S (Z.to_nat (ncpu h))) with (Z.to_nat (ncpu h + 1)) by lia.
  destruct h; unfold set_ncpu, set_apicids; cbn in *. f_equal. lia.
Qed.

(** What one entry does. *)
Definition table_entry (e : mpentry) (h : hw) : hw :=
  match e with
  | EProc a _ => add_cpus [a] h
  | EIoapic a _ => set_ioapicid a h
  | EOther _ _ => h
  end.

Lemma mpinit_loop_step h e p lim fuel :
  entry_ok e -> ram_holds (ram h) p (entry_bytes e) -> p < lim -> 0 <= ncpu h -> length (apicids h) = NCPU ->
  mpinit_loop (S fuel) p lim h =
    mpinit_loop fuel (p + Z.of_nat (length (entry_bytes e))) lim (table_entry e h).
Proof.
  intros He Hr Hp Hn Hl. cbn [mpinit_loop]. replace (p <? lim) with true by (symmetry; by apply Z.ltb_lt).
  destruct e as [a rest|a rest|t rest]; cbn [entry_bytes entry_ok length table_entry] in *.
  - apply ram_holds_cons in Hr as [Ht Hr]. apply ram_holds_cons in Hr as [Ha _]. rewrite He.
    mstep (ldb_eq h _ _ Ht). change (MPPROC =? MPPROC) with true. cbv iota. msimp.
    destruct (Z.ltb_spec (ncpu h) (Z.of_nat NCPU)) as [Hlt|Hge].
    + erewrite bind_done by (mstep (ldb_eq h _ _ Ha); by msimp). cbv beta.
      rewrite i32_small by (unfold NCPU in Hlt; cbn; lia). by rewrite add_cpus_cons, add_cpus_nil.
    + msimp. by rewrite add_cpus_full.
  - apply ram_holds_cons in Hr as [Ht Hr]. apply ram_holds_cons in Hr as [Ha _]. rewrite He.
    mstep (ldb_eq h _ _ Ht). change (MPIOAPIC =? MPPROC) with false. change (MPIOAPIC =? MPIOAPIC) with true.
    cbv iota. mstep (ldb_eq h _ _ Ha). by msimp.
  - apply ram_holds_cons in Hr as [Ht _]. destruct He as [Hty He]. rewrite He.
    mstep (ldb_eq h _ _ Ht). by destruct Hty as [-> | [-> | ->]].
Qed.

Lemma add_entry_wf e h :
  0 <= ncpu h -> length (apicids h) = NCPU ->
  ram (table_entry e h) = ram h /\ 0 <= ncpu (table_entry e h) /\ length (apicids (table_entry e h)) = NCPU.
Proof.
  intros Hn Hl. destruct e as [a ?|?|?]; cbn [table_entry]; [|done..].
  destruct (Z.ltb_spec (ncpu h) (Z.of_nat NCPU)).
  - rewrite add_cpus_cons, add_cpus_nil by done. cbn. rewrite length_insert. by split_and!; [|lia|].
  - by rewrite add_cpus_full.
Qed.

Lemma add_entry_procs e es h :
  0 <= ncpu h -> length (apicids h) = NCPU ->
  set_ioapicid (last_ioapic (ioapicid (table_entry e h)) es) (add_cpus (procs es) (table_entry e h)) =
  set_ioapicid (last_ioapic (ioapicid h) (e :: es)) (add_cpus (procs (e :: es)) h).
Proof.
  intros Hn Hl. destruct e as [a ?|?|?]; [|done..]. cbn [table_entry procs omap list_omap last_ioapic].
  fold (procs es). destruct (Z.ltb_spec (ncpu h) (Z.of_nat NCPU)).
  - by rewrite !(add_cpus_cons a), add_cpus_nil by done.
  - by rewrite !add_cpus_full by (rewrite ?add_cpus_full; done).
Qed.

Lemma entries_bytes_cons e es : entries_bytes (e :: es) = entry_bytes e ++ entries_bytes es.
Proof. done. Qed.

Lemma mpinit_loop_eq h es p fuel :
  Forall entry_ok es -> ram_holds (ram h) p (entries_bytes es) -> (length es < fuel)%nat ->
  0 <= ncpu h -> length (apicids h) = NCPU ->
  mpinit_loop fuel p (p + Z.of_nat (length (entries_bytes es))) h =
    Done tt (set_ioapicid (last_ioapic (ioapicid h) es) (add_cpus (procs es) h)).
Proof.
  revert h p fuel. induction es as [|e es IH]; intros h p [|fuel] Hok Hr Hf Hn Hl; cbn [length] in Hf; [lia| |lia|].
  { cbn [mpinit_loop]. replace (p <? _) with false by (symmetry; apply Z.ltb_ge; cbn; lia).
    cbn. rewrite add_cpus_nil. by destruct h. }
  apply Forall_cons in Hok as [He Hok]. rewrite entries_bytes_cons, length_app in *.
  apply ram_holds_app in Hr as [H1 Hr]. destruct (add_entry_wf e h Hn Hl) as (Er & En & El).
  rewrite (mpinit_loop_step h e) by (first [done|destruct e; cbn; lia]).
  rewrite Nat2Z.inj_add, Z.add_assoc, IH by (rewrite ?Er; first [done|lia]). by rewrite add_entry_procs.
Qed.

(** An entry of another type is never passed. *)
Lemma mpinit_loop_stuck p e t : 
  MPLINTR < t -> p < e -> forall fuel h, ram h p = Some t -> mpinit_loop fuel p e h = Diverge.
Proof.
  intros Ht Hp. unfold MPLINTR in Ht. induction fuel as [|fuel IH]; intros h Hr; [done|]. cbn [mpinit_loop].
  replace (p <? e) with true by (symmetry; by apply Z.ltb_lt). mstep (ldb_eq h _ _ Hr).
  repeat match goal with |- context [t =? ?c] =>
    replace (t =? c) with false by (symmetry; apply Z.eqb_neq; unfold MPPROC, MPIOAPIC, MPBUS, MPIOINTR, MPLINTR; lia)
  end.
  cbn [orb]. msimp. by apply IH.
Qed.

Lemma mpinit_loop_diverges h es t p lim fuel :
  Forall entry_ok es -> ram_holds (ram h) p (entries_bytes es ++ [t]) -> MPLINTR < t ->
  p + Z.of_nat (length (entries_bytes es)) < lim -> 0 <= ncpu h -> length (apicids h) = NCPU ->
  mpinit_loop fuel p lim h = Diverge.
Proof.
  intros Hok Hr Ht. revert h p fuel Hr.
  induction es as [|e es IH]; intros h p fuel Hr Hp Hn Hl.
  { apply (mpinit_loop_stuck p lim t); [done|cbn in Hp; lia|]. by apply ram_holds_cons in Hr as [? _]. }
  apply Forall_cons in Hok as [He Hok]. rewrite entries_bytes_cons, length_app, <- ?app_assoc in *.
  apply ram_holds_app in Hr as [H1 Hr]. destruct (add_entry_wf e h Hn Hl) as (Er & En & El).
  destruct fuel as [|fuel]; [done|]. rewrite (mpinit_loop_step h e) by (first [done|lia]).
  apply IH; [done|by rewrite Er|lia|done..].
Qed.

(** The header of a table with the entries [body], and the entries. *)
Definition table_bytes (version checksum : Z) (mid : list Z) (lapicaddr : Z) (tl body : list Z) : list Z :=
  sig_PCMP ++ bytes16 (sizeof_mpconf + Z.of_nat (length body)) ++ [version; checksum] ++ mid
  ++ bytes32 lapicaddr ++ tl ++ body.

(** Memory has an MP structure, first in the search order at [p], that points
    to a valid table at physical address [pa]. *)
Record mp_machine (r : Z -> option Z) (p pa imcrp lapicaddr : Z) (body : list Z) : Prop := {
  mm_search : searchable r;
  mm_first : first (mp_at r) (mp_places r) = p;
  mm_found : p <> 0;
  mm_pa : 0 < pa < 2 ^ 32;
  mm_physaddr : ram_holds r (p + mp_physaddr) (bytes32 pa);
  mm_imcrp : r (p + mp_imcrp) = Some imcrp;
  mm_lapicaddr : 0 <= lapicaddr < 2 ^ 32;
  mm_table : exists version checksum mid tl,
    let bs := table_bytes version checksum mid lapicaddr tl body in
    ram_holds r (P2V pa) bs /\ Forall (fun b => 0 <= b < 2 ^ 8) bs /\ byte_sum bs mod 2 ^ 8 = 0 /\
    (version = 1 \/ version = 4) /\ length mid = 28%nat /\ length tl = 4%nat /\
    Z.of_nat (length bs) < 2 ^ 16
}.

Lemma window_holds r bs a : ram_holds r a bs -> window r a (length bs) = bs.
Proof.
  revert a. induction bs as [|b bs IH]; intros a H; [done|]. cbn [length]. rewrite window_S.
  apply ram_holds_cons in H as [-> H]. by rewrite IH.
Qed.

Lemma mapped_holds r bs a :
  ram_holds r a bs -> Forall (fun b => 0 <= b < 2 ^ 8) bs -> mapped r a (Z.of_nat (length bs)).
Proof.
  intros H Hb x Hx. destruct (lookup_lt_is_Some_2 bs (Z.to_nat (x - a))) as [b Hl]; [lia|].
  exists b. split; [|exact (Forall_lookup_1 _ _ _ _ Hb Hl)]. apply H in Hl. rewrite <- Hl. f_equal. lia.
Qed.

(** The fields of the header, as the code reads them. *)
Lemma table_fields h pa version checksum mid lapicaddr tl body :
  let bs := table_bytes version checksum mid lapicaddr tl body in
  ram_holds (ram h) pa bs -> length mid = 28%nat -> length tl = 4%nat ->
  Z.of_nat (length bs) < 2 ^ 16 -> 0 <= lapicaddr < 2 ^ 32 ->
  ram_holds (ram h) pa sig_PCMP /\
  ldw (pa + mpconf_length) h = Done (Z.of_nat (length bs)) h /\
  ldb (pa + mpconf_version) h = Done version h /\
  ldl (pa + mpconf_lapicaddr) h = Done lapicaddr h /\
  ram_holds (ram h) (pa + sizeof_mpconf) body.
Proof.
  intros bs H Hm Ht Hl Ha.
  assert (Z.of_nat (length bs) = sizeof_mpconf + Z.of_nat (length body)) as El.
  { unfold bs, table_bytes, sizeof_mpconf. rewrite !length_app. cbn [length sig_PCMP bytes16 bytes32 app]. lia. }
  unfold bs, table_bytes in H. rewrite !ram_holds_app in H.
  destruct H as (H0 & H1 & H2 & H3 & H4 & H5 & H6). rewrite Hm, Ht in *. 
  rewrite <- !Z.add_assoc in *. cbn [length sig_PCMP bytes16 bytes32 app] in *.
  apply ram_holds_cons in H2 as [H2 _]. rewrite El in *. split_and!; [done| | | |done].
  - apply ldw_eq; [unfold sizeof_mpconf in *; lia|exact H1].
  - by apply ldb_eq.
  - by apply ldl_eq.
Qed.

Lemma mpconfig_eq h p pa imcrp lapicaddr body :
  mp_machine (ram h) p pa imcrp lapicaddr body -> mpconfig h = Done (Some (P2V pa, p)) h.
Proof.
  intros [Hs Hf H0 Hpa Hph _ Hla (v & ck & mid & tl & Hb & Hbytes & Hsum & Hv & Hm & Ht & Hl)].
  unfold mpconfig. mstep (mpsearch_eq h Hs). rewrite Hf.
  replace (p =? 0) with false by (symmetry; by apply Z.eqb_neq).
  mstep (ldl_eq h _ pa); [|lia|exact Hph].
  replace (pa =? 0) with false by (symmetry; apply Z.eqb_neq; lia).
  destruct (table_fields h (P2V pa) v ck mid lapicaddr tl body) as (Hsig & Hlen & Hver & _ & _); [done..|].
  set (bs := table_bytes v ck mid lapicaddr tl body) in *.
  pose proof (mapped_holds _ _ _ Hb Hbytes) as Hmap.
  destruct (memcmp_lit_eq h sig_PCMP (P2V pa)) as (c & Hc & Hz).
  { eapply mapped_sub; [exact Hmap|lia|]. unfold bs, table_bytes. rewrite !length_app. cbn [length sig_PCMP]. lia. }
  mstep Hc. rewrite Hz, bool_decide_true by (by apply window_holds). cbn [negb].
  mstep Hver. replace (negb (v =? 1) && negb (v =? 4)) with false by (by destruct Hv as [-> | ->]).
  mstep Hlen. mstep (sum_eq h (P2V pa) (Z.of_nat (length bs))); [|exact Hmap|lia].
  by rewrite Nat2Z.id, window_holds, Hsum by done.
Qed.

Lemma mpconfig_none h :
  searchable (ram h) -> first (mp_at (ram h)) (mp_places (ram h)) = 0 -> mpconfig h = Done None h.
Proof. intros Hs Hf. unfold mpconfig. mstep (mpsearch_eq h Hs). by rewrite Hf. Qed.

(** [mpinit] up to the loop over the entries. *)
Lemma mpinit_enter `{devices} h p pa imcrp lapicaddr body fuel h' :
  mp_machine (ram h) p pa imcrp lapicaddr body ->
  h' = set_lapic (IO2V lapicaddr) (set_ismp 1 h) ->
  ram_holds (ram h) (P2V pa + sizeof_mpconf) body /\
  mpinit fuel h =
    (mpinit_loop fuel (P2V pa + sizeof_mpconf) (P2V pa + sizeof_mpconf + Z.of_nat (length body)) ;;
     mpok <- gets ismp ;;
     if mpok =? 0 then
       modify (set_ncpu 1) ;;
       modify (set_lapic 0) ;;
       modify (set_ioapicid 0)
     else
       imcrp <- ldb (p + mp_imcrp) ;;
       if truthy imcrp then outb 0x22 0x70 ;; v <- inb 0x23 ;; outb 0x23 (Z.lor v 1) else ret tt) h'.
Proof.
  intros Hmm ->. pose proof (mpconfig_eq _ _ _ _ _ _ Hmm) as Hc.
  destruct Hmm as [_ _ _ _ _ _ Hla (v & ck & mid & tl & Hb & _ & _ & _ & Hm & Ht & Hl)].
  destruct (table_fields h (P2V pa) v ck mid lapicaddr tl body) as (_ & _ & _ & _ & Hbody); [done..|].
  destruct (table_fields (set_ismp 1 h) (P2V pa) v ck mid lapicaddr tl body) as (_ & _ & _ & Hlap & _); [done..|].
  destruct (table_fields (set_lapic (IO2V lapicaddr) (set_ismp 1 h)) (P2V pa) v ck mid lapicaddr tl body)
    as (_ & Hlen & _); [done..|].
  split; [done|]. unfold mpinit. mstep Hc. msimp. mstep Hlap. msimp. mstep Hlen.
  replace (P2V pa + Z.of_nat (length (table_bytes v ck mid lapicaddr tl body)))
    with (P2V pa + sizeof_mpconf + Z.of_nat (length body)); [done|].
  unfold table_bytes, sizeof_mpconf. rewrite !length_app, Hm, Ht. cbn [length sig_PCMP bytes16 bytes32 app]. lia.
Qed.

(** The state after the entries [es]. *)
Definition with_table (lapicaddr : Z) (es : list mpentry) (h : hw) : hw :=
  set_ioapicid (last_ioapic (ioapicid h) es) (add_cpus (procs es) (set_lapic (IO2V lapicaddr) (set_ismp 1 h))).

Lemma mpinit_eq `{devices} h fuel p pa imcrp lapicaddr es :
  mp_machine (ram h) p pa imcrp lapicaddr (entries_bytes es) -> Forall entry_ok es ->
  (length es < fuel)%nat -> 0 <= ncpu h -> length (apicids h) = NCPU ->
  exists l, mpinit fuel h = Done tt (log l (with_table lapicaddr es h)) /\
    if imcrp =? 0 then l = [] else exists v, l = [Out 0x23 (u8 (Z.lor v 1)); In 0x23 v; Out 0x22 0x70].
Proof.
  intros Hmm Hok Hf Hn Hl.
  destruct (mpinit_enter h p pa imcrp lapicaddr _ fuel _ Hmm eq_refl) as [Hbody ->].
  set (h1 := set_lapic _ _).
  mstep (mpinit_loop_eq h1 es _ fuel Hok Hbody Hf); [|exact Hn|exact Hl]. msimp.
  set (h2 := set_ioapicid _ _). change (ismp h2) with 1. cbv iota. change (1 =? 0) with false. cbv iota.
  mstep (ldb_eq h2 _ _ (mm_imcrp _ _ _ _ _ _ Hmm)). unfold truthy.
  destruct (imcrp =? 0); cbn [negb].
  - exists []. by rewrite log_nil.
  - eexists [_; _; _]. split; [by unfold outb, inb, emit; msimp|by eexists].
Qed.

Lemma with_table_cpus lapicaddr es h :
  ncpu h = 0 -> length (apicids h) = NCPU ->
  ncpu (with_table lapicaddr es h) = Z.of_nat (Nat.min NCPU (length (procs es))) /\
  (forall i a, (i < NCPU)%nat -> procs es !! i = Some a -> apicids (with_table lapicaddr es h) !! i = Some a).
Proof.
  intros Hn Hl. unfold with_table, add_cpus.
  cbn [apicids ncpu set_ioapicid set_ncpu set_apicids set_lapic set_ismp]. rewrite Hn. split.
  - rewrite length_take. unfold NCPU. lia.
  - intros i a Hi Ha. cbn [Z.to_nat]. rewrite lookup_blit by (rewrite length_take; lia).
    pose proof (lookup_lt_Some _ _ _ Ha). rewrite length_take, decide_True by lia.
    rewrite Nat.sub_0_r. by rewrite lookup_take_lt by lia.
Qed.

Lemma with_table_ids lapicaddr es h :
  ncpu h = 0 -> length (apicids h) = NCPU ->
  take (Z.to_nat (ncpu (with_table lapicaddr es h))) (apicids (with_table lapicaddr es h)) = take NCPU (procs es).
Proof.
  intros Hn Hl. unfold with_table, add_cpus.
  cbn [apicids ncpu set_ioapicid set_ncpu set_apicids set_lapic set_ismp]. rewrite Hn. cbn [Z.to_nat].
  rewrite Z.add_0_l, Nat2Z.id. change (Z.to_nat 0) with 0%nat. rewrite Nat.sub_0_r. unfold blit.
  by rewrite take_0, app_nil_l, take_app_length.
Qed.

(** C32: on a machine whose memory has a valid MP structure and table, [mpinit]
    returns with the local APIC where the table says, the first [NCPU]
    processors of the table in their order, the last I/O APIC, and the
    interrupt mode register switched exactly when the structure asks for it. *)
Theorem mpinit_reads_table `{devices} (h : hw) (fuel : nat) (p pa imcrp lapicaddr : Z) (es : list mpentry) :
  mp_machine (ram h) p pa imcrp lapicaddr (entries_bytes es) -> Forall entry_ok es ->
  (length es < fuel)%nat -> ncpu h = 0 -> length (apicids h) = NCPU ->
  exists h', mpinit fuel h = Done tt h' /\
    ismp h' = 1 /\ lapic h' = IO2V lapicaddr /\
    ncpu h' = Z.of_nat (Nat.min NCPU (length (procs es))) /\
    (forall i a, (i < NCPU)%nat -> procs es !! i = Some a -> apicids h' !! i = Some a) /\
    ioapicid h' = last_ioapic (ioapicid h) es /\
    ram h' = ram h /\ irqmask h' = irqmask h /\
    if imcrp =? 0 then trace h' = trace h
    else exists v, trace h' = Out 0x23 (u8 (Z.lor v 1)) :: In 0x23 v :: Out 0x22 0x70 :: trace h.
Proof.
  intros Hmm Hok Hf Hn Hl. destruct (with_table_cpus lapicaddr es h Hn Hl) as [Hc Hi].
  destruct (mpinit_eq h fuel p pa imcrp lapicaddr es Hmm Hok Hf) as (l & Hd & Ht); [lia|done|].
  eexists. split; [exact Hd|]. split_and!; try done.
  destruct (imcrp =? 0); [by subst l|]. destruct Ht as [v ->]. by exists v.
Qed.

(** the case of [mpinit] for an entry of another type leaves the switch
    but not the loop, and does not move on: on a table with such an entry the
    kernel hangs, where the code after the loop means to fall back to one
    processor. *)
Theorem mpinit_unknown_entry_hangs `{devices} (h : hw) (fuel : nat) (p pa imcrp lapicaddr : Z)
    (es : list mpentry) (t : Z) (more : list Z) :
  mp_machine (ram h) p pa imcrp lapicaddr (entries_bytes es ++ t :: more) -> Forall entry_ok es ->
  MPLINTR < t -> 0 <= ncpu h -> length (apicids h) = NCPU ->
  mpinit fuel h = Diverge.
Proof.
  intros Hmm Hok Ht Hn Hl.
  destruct (mpinit_enter h p pa imcrp lapicaddr _ fuel _ Hmm eq_refl) as [Hbody ->].
  set (h1 := set_lapic _ _). apply ram_holds_app in Hbody as [Hes [Hb _]%ram_holds_cons].
  assert (ram_holds (ram h1) (P2V pa + sizeof_mpconf) (entries_bytes es ++ [t])) as Hr.
  { apply ram_holds_app. split; [done|]. by apply ram_holds_cons. }
  unfold bind at 1. erewrite mpinit_loop_diverges; [done|done|exact Hr|done| |done..].
  rewrite length_app. cbn [length]. lia.
Qed.

(** A machine with two processors, and what its memory holds. *)
Definition sparse (img : list (Z * list Z)) (x : Z) : option Z :=
  Some (foldr (fun '(a, bs) d => default d (if (a <=? x) && (x <? a + Z.of_nat (length bs)) then bs !! Z.to_nat (x - a) else None)) 0 img).

Definition two_cpus : list mpentry :=
  [EProc 0 (replicate 18 0); EProc 1 (replicate 18 0); EOther MPBUS (replicate 7 0);
   EIoapic 2 (replicate 6 0); EOther MPIOINTR (replicate 7 0)].

Definition image_mp (imcrp ck : Z) : list Z := sig_MP ++ bytes32 0x9FD00 ++ [1; 4; ck; 0; imcrp; 0; 0; 0].

Definition image_table (ck : Z) (body : list Z) : list Z :=
  table_bytes 4 ck (replicate 28 0) 0xFEE00000 (replicate 4 0) body.

Definition mp_image (imcrp ck1 ck2 : Z) (body : list Z) : Z -> option Z :=
  sparse [(P2V 0x40E, [0xC0; 0x9F]); (P2V 0x9FC00, image_mp imcrp ck1); (P2V 0x9FD00, image_table ck2 body)].

Definition no_devices : devices := {| port_in := fun _ _ => 0; reg_in := fun _ _ => 0 |}.

Lemma sparse_mapped img a n : Forall (fun '(_, bs) => Forall (fun b => 0 <= b < 2 ^ 8) bs) img -> mapped (sparse img) a n.
Proof.
  intros H x _. unfold sparse. eexists. split; [done|].
  induction img as [|[b bs] img IH]; cbn; [lia|]. apply Forall_cons in H as [Hb H].
  destruct ((b <=? x) && _); [|by apply IH]. destruct (bs !! _) as [v|] eqn:E; [|by apply IH].
  exact (Forall_lookup_1 _ _ _ _ Hb E).
Qed.

(** Bytes of a concrete list. *)
Lemma holds_check r a bs :
  forallb (fun i => bool_decide (r (a + Z.of_nat i) = bs !! i)) (seq 0 (length bs)) = true -> ram_holds r a bs.
Proof.
  rewrite forallb_forall. intros H i b Hb. rewrite <- Hb.
  specialize (H i). rewrite bool_decide_eq_true in H. apply H, in_seq.
  apply lookup_lt_Some in Hb. lia.
Qed.

(** The conditions of [mp_machine] on such an image, evaluated. *)
Definition is_image (imcrp ck1 ck2 : Z) (body : list Z) : bool :=
  let r := mp_image imcrp ck1 ck2 body in
  let table := image_table ck2 body in
  let at_ a bs := forallb (fun i => bool_decide (r (a + Z.of_nat i) = bs !! i)) (seq 0 (length bs)) in
  forallb (fun b => (0 <=? b) && (b <? 2 ^ 8)) ([0xC0; 0x9F] ++ image_mp imcrp ck1 ++ table)
  && (bda_word r 0x0E =? 0x9FC0) && mp_at r (P2V 0x9FC00)
  && (byte_sum table mod 2 ^ 8 =? 0) && (Z.of_nat (length table) <? 2 ^ 16)
  && at_ (P2V 0x9FC00 + mp_physaddr) (bytes32 0x9FD00)
  && bool_decide (r (P2V 0x9FC00 + mp_imcrp) = Some imcrp)
  && at_ (P2V 0x9FD00) table.

Lemma forallb_byte bs : forallb (fun b => (0 <=? b) && (b <? 2 ^ 8)) bs = true -> Forall (fun b => 0 <= b < 2 ^ 8) bs.
Proof.
  rewrite forallb_forall. intros H. apply List.Forall_forall. intros b Hb. specialize (H b Hb). bprop. lia.
Qed.

Lemma first_ebda r seg : bda_word r 0x0E = seg -> seg <> 0 -> mp_at r (P2V (16 * seg)) = true ->
  first (mp_at r) (mp_places r) = P2V (16 * seg).
Proof.
  intros Hs H0 Hm. unfold mp_places. rewrite Hs. replace (16 * seg =? 0) with false by (symmetry; apply Z.eqb_neq; lia).
  unfold slots at 1. cbn [seq map app]. by rewrite first_cons, Z.add_0_r, Hm.
Qed.

Lemma is_image_machine imcrp ck1 ck2 body :
  is_image imcrp ck1 ck2 body = true ->
  mp_machine (mp_image imcrp ck1 ck2 body) (P2V 0x9FC00) 0x9FD00 imcrp 0xFEE00000 body.
Proof.
  unfold is_image. set (table := image_table _ _). set (r := mp_image _ _ _ _). intros H. bprop.
  match goal with H : forallb _ (_ ++ _ ++ table) = true |- _ => apply forallb_byte in H as Hb end.
  rewrite !Forall_app in Hb. destruct Hb as (Hb1 & Hb2 & Hb3).
  assert (forall a n, mapped r a n) as Hm.
  { intros a n. apply sparse_mapped. constructor; [exact Hb1|]. constructor; [exact Hb2|].
    constructor; [exact Hb3|constructor]. }
  assert (first (mp_at r) (mp_places r) = P2V 0x9FC00) as Hf by (apply (first_ebda r 0x9FC0); [done|lia|done]).
  constructor; try lia; [split; auto|done| | |].
  - by apply holds_check.
  - by eapply bool_decide_eq_true_1.
  - exists 4, ck2, (replicate 28 0), (replicate 4 0). fold (image_table ck2 body). fold table.
    split; [by apply holds_check|]. split; [exact Hb3|]. split; [done|]. split; [by right|].
    split; [done|]. split; [done|lia].
Qed.

Definition two_cpus_image : Z -> option Z := mp_image 128 26 121 (entries_bytes two_cpus).

Lemma mpinit_reads_table_witness :
  exists h', mpinit (H := no_devices) 6 (hw_start false two_cpus_image) = Done tt h' /\
    ncpu h' = 2 /\ apicids h' !! 1%nat = Some 1 /\ ioapicid h' = 2.
Proof.
  destruct (mpinit_reads_table (H := no_devices) (hw_start false two_cpus_image) 6 (P2V 0x9FC00) 0x9FD00 128
              0xFEE00000 two_cpus) as (h' & Hd & _ & _ & Hn & Hi & Ho & _).
  - apply is_image_machine. vm_compute. reflexivity.
  - repeat (constructor; [cbn; auto 6|]); constructor.
  - cbn. lia.
  - reflexivity.
  - reflexivity.
  - exists h'. split; [exact Hd|]. split; [exact Hn|]. split; [|exact Ho]. apply Hi; [unfold NCPU; lia|reflexivity].
Defined.

(** An entry of type 5 after the first processor. *)
Lemma mpinit_unknown_entry_hangs_witness :
  mpinit (H := no_devices) 1000 (hw_start false (mp_image 0 154 161 (entries_bytes [EProc 0 (replicate 18 0)] ++ 5 :: replicate 7 0)))
  = Diverge.
Proof.
  apply (mpinit_unknown_entry_hangs (H := no_devices) _ 1000 (P2V 0x9FC00) 0x9FD00 0 0xFEE00000
           [EProc 0 (replicate 18 0)] 5 (replicate 7 0)).
  - apply is_image_machine. vm_compute. reflexivity.
  - repeat (constructor; [cbn; auto 6|]); constructor.
  - reflexivity.
  - cbn. lia.
  - reflexivity.
Defined.
