(* ===== verification/Apic.v ===== *)
(** * Interrupt controllers: [kernel/lapic.c], [kernel/ioapic.c], [kernel/picirq.c]

    The programming of the local APIC, of the I/O APIC, of the two 8259A
    controllers and of the real-time clock.  What an APIC holds is read off the
    trace of accesses: the last value stored into a register.  An 8259A is a
    small state machine that the trace drives. *)

From S2P Require Import Prelude Types Mmu Hw Mp.

(** ** Constants *)

(** Registers of the local APIC, as indices of 32-bit words, and their bits. *)
Definition ID : Z := 0x0020 / 4.
Definition VER : Z := 0x0030 / 4.
Definition TPR : Z := 0x0080 / 4.
Definition EOI : Z := 0x00B0 / 4.
Definition SVR : Z := 0x00F0 / 4.
Definition ENABLE : Z := 0x00000100.
Definition ESR : Z := 0x0280 / 4.
Definition ICRLO : Z := 0x0300 / 4.
Definition INIT : Z := 0x00000500.
Definition STARTUP : Z := 0x00000600.
Definition DELIVS : Z := 0x00001000.
Definition ASSERT : Z := 0x00004000.
Definition LEVEL : Z := 0x00008000.
Definition BCAST : Z := 0x00080000.
Definition ICRHI : Z := 0x0310 / 4.
Definition TIMER : Z := 0x0320 / 4.
Definition X1 : Z := 0x0000000B.
Definition PERIODIC : Z := 0x00020000.
Definition PCINT : Z := 0x0340 / 4.
Definition LINT0 : Z := 0x0350 / 4.
Definition LINT1 : Z := 0x0360 / 4.
Definition ERROR : Z := 0x0370 / 4.
Definition MASKED : Z := 0x00010000.
Definition TICR : Z := 0x0380 / 4.
Definition TDCR : Z := 0x03E0 / 4.

Definition IOAPIC : Z := 0xFEC00000.
Definition REG_ID : Z := 0x00.
Definition REG_VER : Z := 0x01.
Definition REG_TABLE : Z := 0x10.
Definition INT_DISABLED : Z := 0x00010000.

Definition IO_PIC1 : Z := 0x20.
Definition IO_PIC2 : Z := 0xA0.
Definition IRQ_SLAVE : Z := 2.

Definition CMOS_PORT : Z := 0x70.
Definition CMOS_RETURN : Z := 0x71.
Definition CMOS_STATA : Z := 0x0a.
Definition CMOS_STATB : Z := 0x0b.
Definition CMOS_UIP : Z := Z.shiftl 1 7.
Definition SECS : Z := 0x00.
Definition MINS : Z := 0x02.
Definition HOURS : Z := 0x04.
Definition DAY : Z := 0x07.
Definition MONTH : Z := 0x08.
Definition YEAR : Z := 0x09.

Section controllers.
Context `{D : devices}.

(** ** The local APIC *)

(** The address of [lapic[index]]. *)
Definition lapic_reg (base index : Z) : Z := u64 (base + 4 * index).

Definition lapicr (index : Z) : M hw Z :=
  base <- gets lapic ;;
  rd (lapic_reg base index).

Definition lapicw (index value : Z) : M hw unit :=
  base <- gets lapic ;;
  wr (lapic_reg base index) value ;;
  lapicr ID ;;
  ret tt.

(** The wait for the delivery of the last command. *)
Fixpoint lapic_wait (fuel : nat) : M hw unit :=
  match fuel with
  | O => diverge
  | S fuel =>
      v <- lapicr ICRLO ;;
      if truthy (Z.land v DELIVS) then lapic_wait fuel else ret tt
  end.

Definition lapicinit (fuel : nat) : M hw unit :=
  base <- gets lapic ;;
  if base =? 0 then ret tt else
  lapicw SVR (Z.lor ENABLE (TRAP_IRQ0 + IRQ_SPURIOUS)) ;;
  lapicw TDCR X1 ;;
  lapicw TIMER (Z.lor PERIODIC (TRAP_IRQ0 + IRQ_TIMER)) ;;
  lapicw TICR 10000000 ;;
  lapicw LINT0 MASKED ;;
  lapicw LINT1 MASKED ;;
  ver <- lapicr VER ;;
  (if 4 <=? Z.land (Z.shiftr ver 16) 0xFF then lapicw PCINT MASKED else ret tt) ;;
  lapicw ERROR (TRAP_IRQ0 + IRQ_ERROR) ;;
  lapicw ESR 0 ;;
  lapicw ESR 0 ;;
  lapicw EOI 0 ;;
  lapicw ICRHI 0 ;;
  lapicw ICRLO (Z.lor (Z.lor BCAST INIT) LEVEL) ;;
  lapic_wait fuel ;;
  lapicw TPR 0.

(** [for (i = 0; i < ncpu; ++i) if (cpus[i].apicid == apicid) return i;] over
    the processors that are left, the first of them the [i]th. *)
Fixpoint find_cpu (ids : list Z) (apicid : Z) (i : Z) : option Z :=
  match ids with
  | [] => None
  | a :: ids => if a =? apicid then Some i else find_cpu ids apicid (i + 1)
  end.

Definition cpunum : M hw Z :=
  fl <- gets flags_if ;;
  (if (fl : bool) then
     n <- gets cpunum_n ;;
     modify (set_cpunum_n (i32 (n + 1))) ;;
     (if n =? 0 then emit (Say "cpu called from %x with interrupts enabled") else ret tt)
   else ret tt) ;;
  base <- gets lapic ;;
  if base =? 0 then ret 0 else
  v <- lapicr ID ;;
  let apicid := Z.shiftr v 24 in
  n <- gets ncpu ;;
  ids <- gets apicids ;;
  match find_cpu (take (Z.to_nat n) ids) apicid 0 with
  | Some i => ret i
  | None => panic "unknown apicid"
  end.

Definition lapiceoi : M hw unit :=
  base <- gets lapic ;;
  if base =? 0 then ret tt else lapicw EOI 0.

Definition microdelay (us : Z) : M hw unit := ret tt.

Definition lapicstartap (apicid addr : Z) : M hw unit :=
  outb CMOS_PORT 0xF ;;
  outb (CMOS_PORT + 1) 0x0A ;;
  let wrv := P2V (Z.lor (Z.shiftl 0x40 4) 0x67) in
  stw wrv 0 ;;
  stw (wrv + 2) (u16 (Z.shiftr addr 4)) ;;
  lapicw ICRHI (i32 (Z.shiftl apicid 24)) ;;
  lapicw ICRLO (Z.lor (Z.lor INIT LEVEL) ASSERT) ;;
  microdelay 200 ;;
  lapicw ICRLO (Z.lor INIT LEVEL) ;;
  microdelay 100 ;;
  mfor (seq 0 2) (fun _ =>
    lapicw ICRHI (i32 (Z.shiftl apicid 24)) ;;
    lapicw ICRLO (Z.lor STARTUP (Z.shiftr addr 12)) ;;
    microdelay 200).

(** ** The clock *)

(** [struct rtcdate] of [inc/date.h]. *)
Record rtcdate := mk_rtcdate {
  second : Z;
  minute : Z;
  hour : Z;
  day : Z;
  month : Z;
  year : Z
}.
#[global] Instance rtcdate_eq_dec : EqDecision rtcdate.
Proof. solve_decision. Defined.

Definition cmos_read (reg : Z) : M hw Z :=
  outb CMOS_PORT reg ;;
  microdelay 200 ;;
  inb CMOS_RETURN.

Definition fill_rtcdate : M hw rtcdate :=
  s <- cmos_read SECS ;;
  mi <- cmos_read MINS ;;
  ho <- cmos_read HOURS ;;
  d <- cmos_read DAY ;;
  mo <- cmos_read MONTH ;;
  y <- cmos_read YEAR ;;
  ret (mk_rtcdate s mi ho d mo y).

(** Read until two readings agree and no update was in progress. *)
Fixpoint cmos_stable (fuel : nat) : M hw rtcdate :=
  match fuel with
  | O => diverge
  | S fuel =>
      t1 <- fill_rtcdate ;;
      a <- cmos_read CMOS_STATA ;;
      if truthy (Z.land a CMOS_UIP) then cmos_stable fuel else
      t2 <- fill_rtcdate ;;
      if decide (t1 = t2) then ret t1 else cmos_stable fuel
  end.

Definition CONV (x : Z) : Z := u32 (u32 (Z.shiftr x 4 * 10) + Z.land x 0xf).

Definition cmostime (fuel : nat) : M hw rtcdate :=
  sb <- cmos_read CMOS_STATB ;;
  let bcd := Z.land sb (Z.shiftl 1 2) =? 0 in
  t1 <- cmos_stable fuel ;;
  let t := if bcd then mk_rtcdate (CONV (second t1)) (CONV (minute t1)) (CONV (hour t1))
                         (CONV (day t1)) (CONV (month t1)) (CONV (year t1))
           else t1 in
  ret (mk_rtcdate (second t) (minute t) (hour t) (day t) (month t) (u32 (year t + 2000))).

(** ** The I/O APIC *)

(** The register selector and the data window of [struct ioapic]. *)
Definition ioapic_data : Z := 16.

Definition ioapicread (reg : Z) : M hw Z :=
  io <- gets ioapic ;;
  wr io reg ;;
  rd (io + ioapic_data).

Definition ioapicwrite (reg data : Z) : M hw unit :=
  io <- gets ioapic ;;
  wr io reg ;;
  wr (io + ioapic_data) data.

Definition ioapicinit : M hw unit :=
  mpok <- gets ismp ;;
  if mpok =? 0 then ret tt else
  modify (set_ioapic (IO2V IOAPIC)) ;;
  v <- ioapicread REG_VER ;;
  let maxintr := Z.land (Z.shiftr v 16) 0xFF in
  i <- ioapicread REG_ID ;;
  id <- gets ioapicid ;;
  (if negb (Z.shiftr i 24 =? id)
   then emit (Say "ioapicinit: id isn't equal to ioapicid; not a MP") else ret tt) ;;
  mfor (seqZ 0 (maxintr + 1)) (fun i =>
    ioapicwrite (REG_TABLE + 2 * i) (Z.lor INT_DISABLED (TRAP_IRQ0 + i)) ;;
    ioapicwrite (REG_TABLE + 2 * i + 1) 0).

Definition ioapicenable (irq cpunum : Z) : M hw unit :=
  mpok <- gets ismp ;;
  if mpok =? 0 then ret tt else
  ioapicwrite (REG_TABLE + 2 * irq) (TRAP_IRQ0 + irq) ;;
  ioapicwrite (REG_TABLE + 2 * irq + 1) (i32 (Z.shiftl cpunum 24)).

(** ** The 8259A controllers *)

Definition picsetmask (mask : Z) : M hw unit :=
  modify (set_irqmask (u16 mask)) ;;
  outb (IO_PIC1 + 1) (u16 mask) ;;
  outb (IO_PIC2 + 1) (Z.shiftr (u16 mask) 8).

Definition picenable (irq : Z) : M hw unit :=
  m <- gets irqmask ;;
  picsetmask (Z.land m (Z.lnot (Z.shiftl 1 irq))).

Definition picinit : M hw unit :=
  outb (IO_PIC1 + 1) 0xFF ;;
  outb (IO_PIC2 + 1) 0xFF ;;
  outb IO_PIC1 0x11 ;;
  outb (IO_PIC1 + 1) TRAP_IRQ0 ;;
  outb (IO_PIC1 + 1) (Z.shiftl 1 IRQ_SLAVE) ;;
  outb (IO_PIC1 + 1) 0x3 ;;
  outb IO_PIC2 0x11 ;;
  outb (IO_PIC2 + 1) (TRAP_IRQ0 + 8) ;;
  outb (IO_PIC2 + 1) IRQ_SLAVE ;;
  outb (IO_PIC2 + 1) 0x3 ;;
  outb IO_PIC1 0x68 ;;
  outb IO_PIC1 0x0a ;;
  outb IO_PIC2 0x68 ;;
  outb IO_PIC2 0x0a ;;
  m <- gets irqmask ;;
  if negb (m =? 0xFFFF) then picsetmask m else ret tt.

(** The calls that [main] makes to set the controllers up, in its order, with
    those of [consoleinit], [uartinit] (when there is a serial port) and
    [ideinit]. *)
Definition irq_setup (fuel : nat) (uart : bool) : M hw unit :=
  mpinit fuel ;;
  lapicinit fuel ;;
  picinit ;;
  ioapicinit ;;
  picenable IRQ_KBD ;;
  ioapicenable IRQ_KBD 0 ;;
  (if uart then picenable IRQ_COM1 ;; ioapicenable IRQ_COM1 0 else ret tt) ;;
  picenable IRQ_IDE ;;
  n <- gets ncpu ;;
  ioapicenable IRQ_IDE (i32 (n - 1)).

End controllers.

(** ** What the trace says *)

(** An I/O APIC at [io]: the register that its selector selects after the
    stores [ws], and the last value written to its register [r]. *)
Fixpoint io_selected (io : Z) (ws : list (Z * Z)) : option Z :=
  match ws with
  | [] => None
  | (a, v) :: ws => if a =? io then Some v else io_selected io ws
  end.

Fixpoint io_register (io : Z) (ws : list (Z * Z)) (r : Z) : option Z :=
  match ws with
  | [] => None
  | (a, v) :: ws =>
      if (a =? io + ioapic_data) && bool_decide (io_selected io ws = Some r) then Some v
      else io_register io ws r
  end.

(** One write of an I/O APIC register. *)
Definition io_write (io : Z) (w : Z * Z) : list access := [Store (io + ioapic_data) (u32 w.2); Store io (u32 w.1)].

Definition io_writes (io : Z) (ws : list (Z * Z)) : list access := concat (map (io_write io) ws).

Lemma io_register_writes io ws vs r :
  Forall (fun w => 0 <= w.1 < 2 ^ 32 /\ 0 <= w.2 < 2 ^ 32) ws ->
  io_register io (stores (io_writes io ws) ++ vs) r =
    match latest ws r with Some v => Some v | None => io_register io vs r end.
Proof.
  induction 1 as [|[x v] ws [Hx Hv] _ IH]; [done|]. cbn [fst snd] in *.
  unfold io_writes in *. cbn [map concat]. rewrite stores_app. cbn [io_write stores omap list_omap app fst snd].
  rewrite !u32_small by done. cbn [io_register latest].
  rewrite Z.eqb_refl. cbn [io_selected]. rewrite Z.eqb_refl.
  replace (io =? io + ioapic_data) with false by (symmetry; apply Z.eqb_neq; unfold ioapic_data; lia). cbn [andb].
  destruct (Z.eqb_spec x r) as [->|Hne]; [by rewrite bool_decide_true|].
  rewrite bool_decide_false by congruence. exact IH.
Qed.

Section facts.
Context `{D : devices}.

(** ** Effects of the operations *)

(** [m] returns from [h] with the stores [ws] and the port writes [os], the
    last first, and changes nothing but the trace. *)
Definition writes (m : M hw unit) (h : hw) (ws os : list (Z * Z)) : Prop :=
  exists l, m h = Done tt (log l h) /\ stores l = ws /\ outs l = os.

Lemma writes_seq m k h ws vs os ps :
  writes m h ws os -> (forall l, writes k (log l h) vs ps) -> writes (m ;; k) h (vs ++ ws) (ps ++ os).
Proof.
  intros (l & Hm & Hs & Ho) Hk. destruct (Hk l) as (l' & Hk' & Hs' & Ho'). exists (l' ++ l).
  mstep Hm. by rewrite Hk', log_log, stores_app, outs_app, Hs, Ho, Hs', Ho'.
Qed.

Lemma writes_ret h : writes (ret tt) h [] [].
Proof. exists []. by rewrite log_nil. Qed.

Lemma writes_gets {A} (f : hw -> A) (k : A -> M hw unit) h ws os :
  writes (k (f h)) h ws os -> writes (x <- gets f ;; k x) h ws os.
Proof. done. Qed.

Lemma writes_if (b : bool) m h ws os :
  writes m h ws os -> writes (if b then m else ret tt) h (if b then ws else []) (if b then os else []).
Proof. intros H. destruct b; [done|apply writes_ret]. Qed.

Lemma writes_eq m h ws os vs ps : writes m h ws os -> ws = vs -> os = ps -> writes m h vs ps.
Proof. by intros H <- <-. Qed.

Lemma writes_outb p v h : writes (outb p v) h [] [(p, u8 v)].
Proof. by exists [Out p (u8 v)]. Qed.

Lemma lapicr_eq i h :
  lapicr i h = Done (u32 (reg_in (trace h) (lapic_reg (lapic h) i)))
    (log [Load (lapic_reg (lapic h) i) (u32 (reg_in (trace h) (lapic_reg (lapic h) i)))] h).
Proof. done. Qed.

(** A read of a register that always has the same value, before the rest. *)
Lemma writes_lapicr i (k : Z -> M hw unit) h v ws os :
  (forall tr, reg_in tr (lapic_reg (lapic h) i) = v) ->
  (forall l, writes (k (u32 v)) (log l h) ws os) -> writes (x <- lapicr i ;; k x) h ws os.
Proof.
  intros Hv Hk. destruct (Hk [Load (lapic_reg (lapic h) i) (u32 v)]) as (l & Hl & Hs & Ho).
  eexists. mstep (lapicr_eq i h). rewrite Hv, Hl, log_log, stores_app, outs_app, Hs, Ho. split; [done|].
  by rewrite !app_nil_r.
Qed.

Lemma writes_lapicw base i v h : lapic h = base -> writes (lapicw i v) h [(lapic_reg base i, u32 v)] [].
Proof.
  intros <-.
  exists [Load (lapic_reg (lapic h) ID) (u32 (reg_in (Store (lapic_reg (lapic h) i) (u32 v) :: trace h) (lapic_reg (lapic h) ID)));
     Store (lapic_reg (lapic h) i) (u32 v)]. done.
Qed.

(** The trace after [n] reads of register [a]. *)
Fixpoint polled (n : nat) (a : Z) (tr : list access) : list access :=
  match n with
  | O => tr
  | S n => let tr := polled n a tr in Load a (u32 (reg_in tr a)) :: tr
  end.

(** A read of [a], sooner than the [n]th, finds the bits [m] clear. *)
Definition clears (a m : Z) (n : nat) : Prop :=
  forall tr, exists k, (k < n)%nat /\ Z.land (u32 (reg_in (polled k a tr) a)) m = 0.

Lemma polled_shift n a tr : polled n a (Load a (u32 (reg_in tr a)) :: tr) = polled (S n) a tr.
Proof. induction n as [|n IH]; [done|]. cbn [polled] in *. by rewrite IH. Qed.

Lemma lapic_wait_eq n k h :
  (k < n)%nat ->
  Z.land (u32 (reg_in (polled k (lapic_reg (lapic h) ICRLO) (trace h)) (lapic_reg (lapic h) ICRLO))) DELIVS = 0 ->
  writes (lapic_wait n) h [] [].
Proof.
  unfold writes. revert k h. induction n as [|n IH]; intros k h Hk Hc; [lia|]. cbn [lapic_wait].
  set (a := lapic_reg (lapic h) ICRLO) in *.
  mstep (lapicr_eq ICRLO h). fold a. unfold truthy.
  destruct (Z.eqb_spec (Z.land (u32 (reg_in (trace h) a)) DELIVS) 0) as [E|E]; cbn [negb].
  { by eexists. }
  destruct k as [|k]; [done|]. set (h1 := log _ h).
  destruct (IH k h1) as (l & Hl & Hs & Ho); [lia| |].
  { change (lapic_reg (lapic h1) ICRLO) with a.
    change (trace h1) with (Load a (u32 (reg_in (trace h) a)) :: trace h). by rewrite polled_shift. }
  rewrite Hl. unfold h1. rewrite log_log. eexists. split; [done|]. by rewrite stores_app, outs_app, Hs, Ho.
Qed.

(** What [lapicinit] writes, the last first: indices and values. *)
Definition lapic_values (pc : bool) : list (Z * Z) :=
  [(TPR, 0); (ICRLO, Z.lor (Z.lor BCAST INIT) LEVEL); (ICRHI, 0); (EOI, 0); (ESR, 0); (ESR, 0);
   (ERROR, TRAP_IRQ0 + IRQ_ERROR)] ++
  (if pc then [(PCINT, MASKED)] else []) ++
  [(LINT1, MASKED); (LINT0, MASKED); (TICR, 10000000); (TIMER, Z.lor PERIODIC (TRAP_IRQ0 + IRQ_TIMER));
   (TDCR, X1); (SVR, Z.lor ENABLE (TRAP_IRQ0 + IRQ_SPURIOUS))].

Definition lapic_program (base : Z) (pc : bool) : list (Z * Z) :=
  map (fun w => (lapic_reg base w.1, u32 w.2)) (lapic_values pc).

(** Performance counters have an entry from version 4 of the vector table on. *)
Definition has_pcint (ver : Z) : bool := 4 <=? Z.land (Z.shiftr (u32 ver) 16) 0xFF.

Lemma lapicinit_writes fuel h ver :
  lapic h <> 0 -> clears (lapic_reg (lapic h) ICRLO) DELIVS fuel ->
  (forall tr, reg_in tr (lapic_reg (lapic h) VER) = ver) ->
  writes (lapicinit fuel) h (lapic_program (lapic h) (has_pcint ver)) [].
Proof.
  intros Hb Hc Hv. unfold lapicinit. apply writes_gets.
  replace (lapic h =? 0) with false by (symmetry; by apply Z.eqb_neq).
  eapply writes_eq.
  { do 6 (eapply writes_seq; [by apply (writes_lapicw (lapic h))|intros ?]).
    eapply writes_lapicr; [exact Hv|intros ?]. fold (has_pcint ver).
    eapply writes_seq; [by apply writes_if, (writes_lapicw (lapic h))|intros ?].
    do 6 (eapply writes_seq; [by apply (writes_lapicw (lapic h))|intros ?]).
    eapply writes_seq; [|intros ?; by apply (writes_lapicw (lapic h))].
    edestruct Hc as (k & Hk & Hz). eapply lapic_wait_eq; [exact Hk|exact Hz]. }
  - unfold lapic_program. by destruct (has_pcint ver).
  - by destruct (has_pcint ver).
Qed.

(** *** The I/O APIC *)

Lemma ioapicwrite_eq reg data h :
  ioapicwrite reg data h = Done tt (log (io_write (ioapic h) (reg, data)) h).
Proof. done. Qed.

Lemma io_writes_app io ws vs : io_writes io (ws ++ vs) = io_writes io ws ++ io_writes io vs.
Proof. unfold io_writes. by rewrite map_app, concat_app. Qed.

(** The table that [ioapicinit] writes for the lines below [n], the last write first. *)
Fixpoint io_table (n : nat) : list (Z * Z) :=
  match n with
  | O => []
  | S k =>
      let i := Z.of_nat k in
      [(REG_TABLE + 2 * i + 1, 0); (REG_TABLE + 2 * i, Z.lor INT_DISABLED (TRAP_IRQ0 + i))] ++ io_table k
  end.

Lemma mfor_log {A} (l : list A) (f : A -> M hw unit) (g : A -> list access) io h :
  (forall x h', ioapic h' = io -> f x h' = Done tt (log (g x) h')) -> ioapic h = io ->
  mfor l f h = Done tt (log (concat (rev (map g l))) h).
Proof.
  intros Hf. revert h. induction l as [|x l IH]; intros h Hh; [by rewrite log_nil|].
  cbn [mfor map rev]. mstep (Hf x h Hh). rewrite IH by done. rewrite log_log, concat_app. cbn [concat].
  by rewrite app_nil_r.
Qed.

Lemma io_table_writes io n :
  concat (rev (map (fun i => io_write io (REG_TABLE + 2 * i + 1, 0)
                             ++ io_write io (REG_TABLE + 2 * i, Z.lor INT_DISABLED (TRAP_IRQ0 + i)))
                (seqZ 0 (Z.of_nat n)))) = io_writes io (io_table n).
Proof.
  induction n as [|n IH]; [done|]. rewrite seqZ_S, map_app, rev_app_distr, concat_app, IH.
  cbn [io_table map rev concat app]. rewrite Z.add_0_l. unfold io_writes. cbn [map concat]. by rewrite app_nil_r, <- app_assoc.
Qed.

(** The number of lines that a version register tells, less one. *)
Definition io_maxintr (ver : Z) : Z := Z.land (Z.shiftr (u32 ver) 16) 0xFF.

Lemma io_maxintr_range ver : 0 <= io_maxintr ver < 256.
Proof. unfold io_maxintr. change 0xFF with (Z.ones 8). rewrite Z.land_ones by lia. dlia. Qed.

(** Reading the version register gives the version. *)
Definition io_versioned (io ver : Z) : Prop :=
  forall tr, io_selected io (stores tr) = Some REG_VER -> reg_in tr (io + ioapic_data) = ver.

Lemma ioapicread_eq reg h : exists x,
  ioapicread reg h = Done x (log [Load (ioapic h + ioapic_data) x; Store (ioapic h) (u32 reg)] h).
Proof. by eexists. Qed.

Lemma ioapicread_ver h ver :
  io_versioned (ioapic h) ver ->
  ioapicread REG_VER h =
    Done (u32 ver) (log [Load (ioapic h + ioapic_data) (u32 ver); Store (ioapic h) (u32 REG_VER)] h).
Proof.
  intros Hv. unfold ioapicread, rd, wr, emit. msimp. cbn [trace set_trace ioapic].
  rewrite Hv; [done|]. cbn. by rewrite Z.eqb_refl.
Qed.

Lemma Forall_io_writes io ws : Forall (fun w => w.1 = io \/ w.1 = io + ioapic_data) (stores (io_writes io ws)).
Proof.
  induction ws as [|w ws IH]; [constructor|]. unfold io_writes in *. cbn [map concat]. rewrite stores_app.
  apply Forall_app. split; [|done]. apply Forall_cons; split; [by right|]. by apply Forall_singleton; left.
Qed.

Lemma ioapicwrite_pair io r1 d1 r2 d2 h :
  ioapic h = io ->
  (ioapicwrite r1 d1 ;; ioapicwrite r2 d2) h = Done tt (log (io_write io (r2, d2) ++ io_write io (r1, d1)) h).
Proof. intros <-. mstep (ioapicwrite_eq _ _ _). by rewrite ioapicwrite_eq, log_log. Qed.

Lemma ioapicinit_eq h ver io :
  io = IO2V IOAPIC -> ismp h <> 0 -> io_versioned io ver ->
  exists l k, ioapicinit h = Done tt (log l (set_ioapic io h)) /\ outs l = [] /\
    stores l = stores (io_writes io (io_table (Z.to_nat (io_maxintr ver + 1)))) ++ k /\
    Forall (fun w => w.1 = io \/ w.1 = io + ioapic_data) (stores l).
Proof.
  intros Hio Hm Hv. unfold ioapicinit. rewrite <- Hio.
  msimp. replace (ismp h =? 0) with false by (symmetry; by apply Z.eqb_neq).
  msimp. set (h1 := set_ioapic _ h). mstep (ioapicread_ver h1 ver Hv). fold (io_maxintr ver).
  set (h2 := log _ h1). destruct (ioapicread_eq REG_ID h2) as [x Hx]. mstep Hx. msimp.
  set (h3 := log _ h2).
  assert (exists l, (if negb (Z.shiftr x 24 =? ioapicid h3)
             then emit (Say "ioapicinit: id isn't equal to ioapicid; not a MP") else ret tt) h3
            = Done tt (log l h3) /\ stores l = [] /\ outs l = []) as (l4 & H4 & Hs4 & Ho4).
  { destruct (negb _); [by eexists [_]|]. exists []. by rewrite log_nil. }
  mstep H4. rewrite (mfor_log _ _ (fun i => io_write io (REG_TABLE + 2 * i + 1, 0)
    ++ io_write io (REG_TABLE + 2 * i, Z.lor INT_DISABLED (TRAP_IRQ0 + i))) io)
    by (first [done|intros; by apply ioapicwrite_pair]).
  pose proof (io_maxintr_range ver).
  destruct (Z_of_nat_complete (io_maxintr ver + 1)) as [n Hn]; [lia|]. rewrite Hn, Nat2Z.id.
  rewrite io_table_writes. unfold h3, h2. rewrite !log_log.
  eexists _, _. split; [reflexivity|]. rewrite !outs_app, !stores_app, Hs4, Ho4. cbn [stores outs omap list_omap app].
  rewrite <- !app_assoc. cbn [app]. split; [|split; [reflexivity|]].
  - generalize (io_table n). intros ws. rewrite ?app_nil_r.
    induction ws as [|w ws IH]; [done|]. unfold io_writes in *. cbn [map concat]. by rewrite outs_app.
  - apply Forall_app. split; [apply Forall_io_writes|].
    apply Forall_cons; split; [by left|]. by apply Forall_singleton; left.
Qed.

Lemma ioapicenable_eq irq cpu h io :
  ioapic h = io -> ismp h <> 0 ->
  ioapicenable irq cpu h =
    Done tt (log (io_writes io [(REG_TABLE + 2 * irq + 1, i32 (Z.shiftl cpu 24)); (REG_TABLE + 2 * irq, TRAP_IRQ0 + irq)]) h).
Proof.
  intros Hio Hm. unfold ioapicenable. msimp. replace (ismp h =? 0) with false by (symmetry; by apply Z.eqb_neq).
  by rewrite (ioapicwrite_pair io).
Qed.

(** Every line is disabled and not routed. *)
Lemma latest_io_table n i :
  0 <= i < Z.of_nat n ->
  latest (io_table n) (REG_TABLE + 2 * i) = Some (Z.lor INT_DISABLED (TRAP_IRQ0 + i)) /\
  latest (io_table n) (REG_TABLE + 2 * i + 1) = Some 0.
Proof.
  induction n as [|n IH]; intros Hi; [lia|]. cbn [io_table app latest].
  replace (REG_TABLE + 2 * Z.of_nat n + 1 =? REG_TABLE + 2 * i) with false by (symmetry; apply Z.eqb_neq; lia).
  replace (REG_TABLE + 2 * Z.of_nat n =? REG_TABLE + 2 * i + 1) with false by (symmetry; apply Z.eqb_neq; lia).
  destruct (Z.eq_dec i (Z.of_nat n)) as [->|Hne]; [by rewrite !Z.eqb_refl|].
  replace (REG_TABLE + 2 * Z.of_nat n =? REG_TABLE + 2 * i) with false by (symmetry; apply Z.eqb_neq; lia).
  replace (REG_TABLE + 2 * Z.of_nat n + 1 =? REG_TABLE + 2 * i + 1) with false by (symmetry; apply Z.eqb_neq; lia).
  apply IH. lia.
Qed.

Lemma io_table_words n :
  (n <= 256)%nat -> Forall (fun w => 0 <= w.1 < 2 ^ 32 /\ 0 <= w.2 < 2 ^ 32) (io_table n).
Proof.
  induction n as [|n IH]; intros Hn; [constructor|]. cbn [io_table app].
  assert (Z.lor INT_DISABLED (TRAP_IRQ0 + Z.of_nat n) = INT_DISABLED + (TRAP_IRQ0 + Z.of_nat n)) as E.
  { change INT_DISABLED with (Z.shiftl 1 16). by rewrite lor_shiftl_add by (unfold TRAP_IRQ0; lia). }
  unfold REG_TABLE, TRAP_IRQ0, INT_DISABLED in *.
  constructor; [cbn; lia|]. constructor; [cbn [fst snd]; lia|]. apply IH. lia.
Qed.

(** *** The 8259A controllers *)

(** What a controller makes of the bytes that are written to it: those at its
    first address are a command, those at the second are the initialisation
    words that the last command asked for, and after them the mask.  The state
    is the vector of its line 0, the lines that slaves are on (of a slave, its
    number), the fourth word, the mask, whether the special mask mode is on,
    whether a read gives the requests, whether it is level triggered, whether it
    is the only one, whether a fourth word follows, and what the next byte at
    the second address is. *)
Inductive pic_next := Icw2 | Icw3 | Icw4 | Ready.

Record pic := mk_pic {
  pic_vector : Z; pic_cascade : Z; pic_icw4 : Z; pic_mask : Z;
  pic_special : bool; pic_irr : bool; pic_level : bool; pic_alone : bool; pic_four : bool; pic_state : pic_next
}.

(** The command word 1 starts an initialisation, and clears the mask; the
    command word 3 sets the modes; the others acknowledge interrupts. *)
Definition pic_command (v : Z) (p : pic) : pic :=
  if Z.testbit v 4 then
    mk_pic (pic_vector p) (pic_cascade p) 0 0 false true (Z.testbit v 3) (Z.testbit v 1) (Z.testbit v 0) Icw2
  else if Z.testbit v 3 then
    mk_pic (pic_vector p) (pic_cascade p) (pic_icw4 p) (pic_mask p)
      (if Z.testbit v 6 then Z.testbit v 5 else pic_special p)
      (if Z.testbit v 1 then negb (Z.testbit v 0) else pic_irr p) (pic_level p) (pic_alone p) (pic_four p) (pic_state p)
  else p.

Definition pic_data (v : Z) (p : pic) : pic :=
  let set vec cas i4 m st := mk_pic vec cas i4 m (pic_special p) (pic_irr p) (pic_level p) (pic_alone p) (pic_four p) st in
  let after3 := if pic_four p then Icw4 else Ready in
  match pic_state p with
  | Icw2 => set (Z.land v 0xF8) (pic_cascade p) (pic_icw4 p) (pic_mask p) (if pic_alone p then after3 else Icw3)
  | Icw3 => set (pic_vector p) v (pic_icw4 p) (pic_mask p) after3
  | Icw4 => set (pic_vector p) (pic_cascade p) v (pic_mask p) Ready
  | Ready => set (pic_vector p) (pic_cascade p) (pic_icw4 p) v Ready
  end.

(** The controller at [io] after the port writes [os], the latest first. *)
Fixpoint pic_after (io : Z) (os : list (Z * Z)) (p : pic) : pic :=
  match os with
  | [] => p
  | (port, v) :: os =>
      let p := pic_after io os p in
      if port =? io then pic_command v p else if port =? io + 1 then pic_data v p else p
  end.

Lemma pic_after_app io os ps p : pic_after io (os ++ ps) p = pic_after io os (pic_after io ps p).
Proof. induction os as [|[port v] os IH]; [done|]. cbn. by rewrite IH. Qed.

(** A controller for the vectors from [vec] on, edge triggered and cascaded at
    [cas], in x86 mode with automatic end of interrupt, in the special mask mode
    and with the requests to be read. *)
Definition pic_ready (vec cas mask : Z) : pic := mk_pic vec cas 3 mask true true false false true Ready.

(** The writes of [picinit] before the mask, the last first. *)
Definition pic_program : list (Z * Z) :=
  [(IO_PIC2, 0x0a); (IO_PIC2, 0x68); (IO_PIC1, 0x0a); (IO_PIC1, 0x68);
   (IO_PIC2 + 1, 3); (IO_PIC2 + 1, IRQ_SLAVE); (IO_PIC2 + 1, TRAP_IRQ0 + 8); (IO_PIC2, 0x11);
   (IO_PIC1 + 1, 3); (IO_PIC1 + 1, Z.shiftl 1 IRQ_SLAVE); (IO_PIC1 + 1, TRAP_IRQ0); (IO_PIC1, 0x11);
   (IO_PIC2 + 1, 0xFF); (IO_PIC1 + 1, 0xFF)].

Definition mask_writes (m : Z) : list access := [Out (IO_PIC2 + 1) (u8 (Z.shiftr m 8)); Out (IO_PIC1 + 1) (u8 m)].

Lemma picenable_eq irq h m :
  m = u16 (Z.land (irqmask h) (Z.lnot (Z.shiftl 1 irq))) ->
  picenable irq h = Done tt (log (mask_writes m) (set_irqmask m h)).
Proof. by intros ->. Qed.

Lemma writes_picsetmask h m : irqmask h = m -> 0 <= m < 2 ^ 16 -> writes (picsetmask m) h [] (outs (mask_writes m)).
Proof.
  intros Hh Hm. exists (mask_writes m). split; [|done]. unfold picsetmask. replace (u16 m) with m by word.
  destruct h. cbn in Hh. by subst m.
Qed.

Lemma picinit_writes h :
  0 <= irqmask h < 0xFFFF -> writes picinit h [] (outs (mask_writes (irqmask h)) ++ pic_program).
Proof.
  intros Hm. unfold picinit. eapply writes_eq.
  - do 14 (eapply writes_seq; [apply writes_outb|intros ?]). apply writes_gets.
    cbn [irqmask log set_trace]. replace (irqmask h =? 0xFFFF) with false by (symmetry; apply Z.eqb_neq; lia).
    cbn [negb]. apply writes_picsetmask; [done|lia].
  - done.
  - cbn [app]. reflexivity.
Qed.

(** *** All of them *)

(** The interrupt lines that the kernel enables. *)
Definition line_on (uart : bool) (i : Z) : bool := (i =? IRQ_KBD) || (uart && (i =? IRQ_COM1)) || (i =? IRQ_IDE).

(** What the machine's controllers are documented to do: the local APIC at
    [base] delivers a command before the [n]th poll and has a fixed version,
    and the I/O APIC's version register tells its number of lines. *)
Record pc_devices (base ver iover : Z) (n : nat) : Prop := {
  pc_delivers : clears (lapic_reg base ICRLO) DELIVS n;
  pc_version : forall tr, reg_in tr (lapic_reg base VER) = ver;
  pc_ioversion : io_versioned (IO2V IOAPIC) iover
}.

(** The writes of [ioapicenable] for the three devices, the last first. *)
Definition enable_writes (uart : bool) (cpu : Z) : list (Z * Z) :=
  [(REG_TABLE + 2 * IRQ_IDE + 1, i32 (Z.shiftl cpu 24)); (REG_TABLE + 2 * IRQ_IDE, TRAP_IRQ0 + IRQ_IDE)] ++
  (if uart then [(REG_TABLE + 2 * IRQ_COM1 + 1, 0); (REG_TABLE + 2 * IRQ_COM1, TRAP_IRQ0 + IRQ_COM1)] else []) ++
  [(REG_TABLE + 2 * IRQ_KBD + 1, 0); (REG_TABLE + 2 * IRQ_KBD, TRAP_IRQ0 + IRQ_KBD)].

(** The port writes from [picinit] on, the last first. *)
Definition pic_writes (uart : bool) : list (Z * Z) :=
  outs (mask_writes (if uart then 0xBFE9 else 0xBFF9)) ++ (if uart then outs (mask_writes 0xFFE9) else []) ++
  outs (mask_writes 0xFFF9) ++ outs (mask_writes 0xFFFB) ++ pic_program.

(** The mask at the end, of the 16 lines of the 8259A controllers. *)
Definition final_mask (uart : bool) : Z := if uart then 0xBFE9 else 0xBFF9.

Lemma final_mask_bits uart i : 0 <= i < 16 -> Z.testbit (final_mask uart) i = negb (line_on uart i || (i =? IRQ_SLAVE)).
Proof.
  intros Hi. assert (i ∈ seqZ 0 16) as Hin by (apply elem_of_seqZ; lia).
  revert Hin. apply (Forall_forall (fun i => Z.testbit (final_mask uart) i = negb (line_on uart i || (i =? IRQ_SLAVE)))).
  destruct uart; repeat constructor.
Qed.

(** From the state after [mpinit] on. *)
Lemma irq_devices_eq (uart : bool) h ver iover fuel :
  ismp h = 1 -> lapic h <> 0 -> irqmask h = 0xFFFB -> 0 <= ncpu h <= 8 -> pc_devices (lapic h) ver iover fuel ->
  exists l h', (lapicinit fuel ;; picinit ;; ioapicinit ;; picenable IRQ_KBD ;; ioapicenable IRQ_KBD 0 ;;
      (if uart then picenable IRQ_COM1 ;; ioapicenable IRQ_COM1 0 else ret tt) ;;
      picenable IRQ_IDE ;; n <- gets ncpu ;; ioapicenable IRQ_IDE (i32 (n - 1))) h = Done tt h' /\
    trace h' = l ++ trace h /\ irqmask h' = final_mask uart /\ ncpu h' = ncpu h /\
    (exists ws : list (Z * Z), stores l =
      stores (io_writes (IO2V IOAPIC) (enable_writes uart (ncpu h - 1))) ++ 
      (stores (io_writes (IO2V IOAPIC) (io_table (Z.to_nat (io_maxintr iover + 1)))) ++ ws) ++
      lapic_program (lapic h) (has_pcint ver) /\
      Forall (fun w => w.1 = IO2V IOAPIC \/ w.1 = IO2V IOAPIC + ioapic_data) ws /\
      outs l = pic_writes uart).
Proof.
  intros Hm Hb Hi Hn [Hd Hv Hio]. set (io := IO2V IOAPIC) in *.
  destruct (lapicinit_writes fuel h ver Hb Hd Hv) as (l1 & H1 & Hs1 & Ho1). mstep H1. set (h1 := log l1 h).
  destruct (picinit_writes h1) as (l2 & H2 & Hs2 & Ho2); [cbn; lia|]. mstep H2. set (h2 := log l2 h1).
  destruct (ioapicinit_eq h2 iover io eq_refl) as (l3 & k3 & H3 & Ho3 & Hs3 & Hf3); [cbn; lia|done|].
  mstep H3. set (h3 := log l3 _).
  mstep (picenable_eq IRQ_KBD h3 0xFFF9); [|unfold h3, h2, h1; cbn [irqmask log set_trace set_ioapic]; by rewrite Hi].
  set (h4 := log _ _).
  mstep (ioapicenable_eq IRQ_KBD 0 h4 io); [|done|cbn; lia]. set (h5 := log _ _).
  assert (exists l5 : list access, exists m,
      (if uart then picenable IRQ_COM1 ;; ioapicenable IRQ_COM1 0 else ret tt) h5 =
        Done tt (log l5 (set_irqmask m h5)) /\
      u16 (Z.land m (Z.lnot (Z.shiftl 1 IRQ_IDE))) = final_mask uart /\
      stores l5 = stores (io_writes io (if uart then [(REG_TABLE + 2 * IRQ_COM1 + 1, 0);
                                          (REG_TABLE + 2 * IRQ_COM1, TRAP_IRQ0 + IRQ_COM1)] else [])) /\
      outs l5 = if uart then outs (mask_writes 0xFFE9) else [])
    as (l5 & m & H6 & Hmask & Hs5 & Ho5).
  { destruct uart.
    - exists (io_writes io [(REG_TABLE + 2 * IRQ_COM1 + 1, 0); (REG_TABLE + 2 * IRQ_COM1, TRAP_IRQ0 + IRQ_COM1)]
              ++ mask_writes 0xFFE9), 0xFFE9.
      mstep (picenable_eq IRQ_COM1 h5 0xFFE9); [|done].
      rewrite (ioapicenable_eq IRQ_COM1 0 _ io); [|done|cbn; lia]. by rewrite log_log, stores_app, outs_app, app_nil_r.
    - exists [], 0xFFF9. by rewrite log_nil. }
  mstep H6. set (h6 := log l5 _). mstep (picenable_eq IRQ_IDE h6 (final_mask uart)); [|by rewrite <- Hmask].
  msimp. set (h7 := log _ _). change (ncpu h7) with (ncpu h). rewrite i32_small by lia.
  rewrite (ioapicenable_eq IRQ_IDE (ncpu h - 1) h7 io); [|done|cbn; lia].
  eexists _, _. split; [reflexivity|]. split; [|split; [done|split; [done|]]].
  { unfold h7, h6, h5, h4, h3, h2, h1. cbn [trace log set_trace set_irqmask set_ioapic].
    rewrite !app_assoc. reflexivity. }
  exists k3. rewrite !stores_app, Hs1, Hs2, Hs3, Hs5. split; [|split].
  - unfold enable_writes. rewrite !io_writes_app, !stores_app. cbn [app]. by rewrite <- !app_assoc.
  - rewrite Hs3 in Hf3. by apply Forall_app in Hf3 as [_ ?].
  - rewrite !outs_app, Ho1, Ho2, Ho3, Ho5, app_nil_r. change (irqmask h1) with (irqmask h). rewrite Hi.
    unfold pic_writes. by destruct uart.
Qed.

(** The local APIC's registers do not overlap the I/O APIC's. *)
Definition apart (lapicaddr : Z) : Prop :=
  0 <= lapicaddr /\ lapicaddr + 0x400 <= 2 ^ 32 /\ (lapicaddr + 0x400 <= IOAPIC \/ IOAPIC + 0x20 <= lapicaddr).

Lemma apart_reg lapicaddr i :
  apart lapicaddr -> 0 <= i < 0x100 ->
  let a := lapic_reg (IO2V lapicaddr) i in
  a = lapicaddr + 0xFFFFFFFF00000000 + 4 * i /\ a <> IO2V IOAPIC /\ a <> IO2V IOAPIC + ioapic_data.
Proof.
  unfold apart, lapic_reg, IO2V, IOAPIC, ioapic_data. intros (H0 & H1 & H2) Hi.
  rewrite (u64_small (lapicaddr + _)) by lia. rewrite u64_small by lia. change (u64 _) with (0xFEC00000 + 0xFFFFFFFF00000000). lia.
Qed.

(** Stores to the I/O APIC leave the local APIC alone. *)
Lemma latest_lapic ws vs lapicaddr i :
  apart lapicaddr -> 0 <= i < 0x100 ->
  Forall (fun w => w.1 = IO2V IOAPIC \/ w.1 = IO2V IOAPIC + ioapic_data) ws ->
  latest (ws ++ vs) (lapic_reg (IO2V lapicaddr) i) = latest vs (lapic_reg (IO2V lapicaddr) i).
Proof.
  intros Ha Hi Hw. destruct (apart_reg lapicaddr i Ha Hi) as (_ & H1 & H2).
  rewrite latest_app, latest_none; [done|]. eapply Forall_impl; [exact Hw|]. intros w [E|E]; cbn in E; congruence.
Qed.

(** What the registers of the local APIC hold. *)
Definition lapic_ready (base : Z) (ws : list (Z * Z)) : Prop :=
  latest ws (lapic_reg base SVR) = Some (ENABLE + TRAP_IRQ0 + IRQ_SPURIOUS) /\
  latest ws (lapic_reg base TIMER) = Some (PERIODIC + TRAP_IRQ0 + IRQ_TIMER) /\
  latest ws (lapic_reg base TICR) = Some 10000000 /\
  latest ws (lapic_reg base LINT0) = Some MASKED /\
  latest ws (lapic_reg base LINT1) = Some MASKED /\
  latest ws (lapic_reg base ERROR) = Some (TRAP_IRQ0 + IRQ_ERROR) /\
  latest ws (lapic_reg base TPR) = Some 0.

Lemma latest_program lapicaddr ws i :
  apart lapicaddr -> Forall (fun w => 0 <= w.1 < 0x100) ws -> 0 <= i < 0x100 ->
  latest (map (fun w => (lapic_reg (IO2V lapicaddr) w.1, u32 w.2)) ws) (lapic_reg (IO2V lapicaddr) i) = u32 <$> latest ws i.
Proof.
  intros Ha Hw Hi. induction Hw as [|[j v] ws Hj _ IH]; [done|]. cbn [map latest fst snd] in *.
  replace (lapic_reg (IO2V lapicaddr) j =? lapic_reg (IO2V lapicaddr) i) with (j =? i); [by destruct (j =? i)|].
  destruct (apart_reg lapicaddr j Ha Hj) as [-> _], (apart_reg lapicaddr i Ha Hi) as [-> _].
  destruct (Z.eqb_spec j i), (Z.eqb_spec (lapicaddr + 0xFFFFFFFF00000000 + 4 * j) (lapicaddr + 0xFFFFFFFF00000000 + 4 * i)); lia.
Qed.

Lemma lapic_program_ready lapicaddr pc vs :
  apart lapicaddr -> lapic_ready (IO2V lapicaddr) (lapic_program (IO2V lapicaddr) pc ++ vs).
Proof.
  intros Ha. assert (Forall (fun w => 0 <= w.1 < 0x100) (lapic_values pc)) as Hw.
  { destruct pc; repeat (apply Forall_cons; split; [by vm_compute|]); apply Forall_nil; done. }
  unfold lapic_ready, lapic_program. rewrite !latest_app, !(latest_program lapicaddr) by (first [done|by vm_compute]).
  by destruct pc.
Qed.

Lemma enable_words uart cpu :
  0 <= cpu < 8 -> Forall (fun w => 0 <= w.1 < 2 ^ 32 /\ 0 <= w.2 < 2 ^ 32) (enable_writes uart cpu).
Proof.
  intros Hc. assert (0 <= i32 (Z.shiftl cpu 24) < 2 ^ 32) by (rewrite Z.shiftl_mul_pow2, i32_small by lia; lia).
  unfold enable_writes, REG_TABLE, IRQ_IDE, IRQ_COM1, IRQ_KBD, TRAP_IRQ0.
  destruct uart; repeat (apply Forall_cons; split; [cbn [fst snd]; lia|]); by apply Forall_nil.
Qed.

Lemma table_low k i : (REG_TABLE + 2 * k =? REG_TABLE + 2 * i) = (i =? k).
Proof. destruct (Z.eqb_spec i k), (Z.eqb_spec (REG_TABLE + 2 * k) (REG_TABLE + 2 * i)); lia. Qed.

Lemma table_high k i : (REG_TABLE + 2 * k + 1 =? REG_TABLE + 2 * i + 1) = (i =? k).
Proof. destruct (Z.eqb_spec i k), (Z.eqb_spec (REG_TABLE + 2 * k + 1) (REG_TABLE + 2 * i + 1)); lia. Qed.

Lemma table_low_high k i : (REG_TABLE + 2 * k =? REG_TABLE + 2 * i + 1) = false.
Proof. apply Z.eqb_neq. lia. Qed.

Lemma table_high_low k i : (REG_TABLE + 2 * k + 1 =? REG_TABLE + 2 * i) = false.
Proof. apply Z.eqb_neq. lia. Qed.

(** The lines after the writes of [ioapicenable] on top of [ioapicinit]'s. *)
Lemma latest_lines uart cpu n i :
  0 <= i < Z.of_nat n -> (n <= 256)%nat -> 0 <= cpu < 8 ->
  let ws := enable_writes uart cpu ++ io_table n in
  latest ws (REG_TABLE + 2 * i) = Some (if line_on uart i then TRAP_IRQ0 + i else INT_DISABLED + (TRAP_IRQ0 + i)) /\
  latest ws (REG_TABLE + 2 * i + 1) = Some (if i =? IRQ_IDE then cpu * 2 ^ 24 else 0).
Proof.
  intros Hi Hn Hc ws. destruct (latest_io_table n i Hi) as [Hlo Hhi].
  assert (Z.lor INT_DISABLED (TRAP_IRQ0 + i) = INT_DISABLED + (TRAP_IRQ0 + i)) as E.
  { change INT_DISABLED with (Z.shiftl 1 16). by rewrite lor_shiftl_add by (unfold TRAP_IRQ0; lia). }
  unfold ws. rewrite !latest_app, Hlo, Hhi, E. unfold enable_writes, line_on.
  rewrite Z.shiftl_mul_pow2, i32_small by lia.
  destruct uart; cbn [app latest andb]; rewrite ?table_low, ?table_high, ?table_low_high, ?table_high_low, ?orb_false_r;
    destruct (Z.eqb_spec i IRQ_IDE), (Z.eqb_spec i IRQ_COM1), (Z.eqb_spec i IRQ_KBD); subst; done.
Qed.

(** What the port writes make of the controllers. *)
Lemma pic_writes_ready uart p1 p2 :
  pic_after IO_PIC1 (pic_writes uart) p1 = pic_ready TRAP_IRQ0 (2 ^ IRQ_SLAVE) (final_mask uart mod 2 ^ 8) /\
  pic_after IO_PIC2 (pic_writes uart) p2 = pic_ready (TRAP_IRQ0 + 8) IRQ_SLAVE (final_mask uart / 2 ^ 8).
Proof. destruct uart; split; vm_compute; reflexivity. Qed.

(** C33: setting up the interrupt controllers as [main] does, on a machine with
    a valid MP table, ends with the local APIC enabled, its timer periodic and
    its pins masked; with every line of the I/O APIC masked and unrouted but
    those of the keyboard, the serial port (if there is one) and the disk,
    which deliver their vectors to processor 0 and the disk's to the last
    processor; and with the 8259A controllers initialised, whatever state they
    were in, for the vectors from [TRAP_IRQ0] and [TRAP_IRQ0 + 8] on, cascaded at
    line 2, with automatic end of interrupt and in the special mask mode, and
    the same lines, and the cascade, open in their masks. *)
Theorem irq_setup_correct (uart : bool) (h : hw) (fuel : nat) (p pa imcrp lapicaddr ver iover : Z) (es : list mpentry) :
  mp_machine (ram h) p pa imcrp lapicaddr (entries_bytes es) -> Forall entry_ok es -> procs es <> [] ->
  (length es < fuel)%nat -> ncpu h = 0 -> length (apicids h) = NCPU -> irqmask h = 0xFFFB ->
  apart lapicaddr -> pc_devices (IO2V lapicaddr) ver iover fuel ->
  exists h', irq_setup fuel uart h = Done tt h' /\
    lapic_ready (IO2V lapicaddr) (stores (trace h')) /\
    (forall i, 0 <= i <= io_maxintr iover ->
      io_register (IO2V IOAPIC) (stores (trace h')) (REG_TABLE + 2 * i) =
        Some (if line_on uart i then TRAP_IRQ0 + i else INT_DISABLED + (TRAP_IRQ0 + i)) /\
      io_register (IO2V IOAPIC) (stores (trace h')) (REG_TABLE + 2 * i + 1) =
        Some (if i =? IRQ_IDE then (ncpu h' - 1) * 2 ^ 24 else 0)) /\
    (forall i, 0 <= i < 16 -> Z.testbit (irqmask h') i = negb (line_on uart i || (i =? IRQ_SLAVE))) /\
    (forall p0,
      pic_after IO_PIC1 (outs (trace h')) p0 = pic_ready TRAP_IRQ0 (2 ^ IRQ_SLAVE) (irqmask h' mod 2 ^ 8) /\
      pic_after IO_PIC2 (outs (trace h')) p0 = pic_ready (TRAP_IRQ0 + 8) IRQ_SLAVE (irqmask h' / 2 ^ 8)).
Proof.
  intros Hmm Hok Hp Hf Hn Hl Hi Ha Hd.
  destruct (mpinit_eq h fuel p pa imcrp lapicaddr es Hmm Hok Hf) as (l0 & H0 & _); [lia|done|].
  destruct (with_table_cpus lapicaddr es h Hn Hl) as [Hc _]. set (h1 := log l0 (with_table lapicaddr es h)) in *.
  assert (1 <= ncpu h1 <= 8) as Hc1.
  { change (ncpu h1) with (ncpu (with_table lapicaddr es h)). rewrite Hc. destruct (procs es); [done|].
    cbn [length]. unfold NCPU. lia. }
  destruct (irq_devices_eq uart h1 ver iover fuel) as (l & h' & H2 & Ht & Hm & Hnc & ws & Hs & Hw & Ho);
    [done|change (lapic h1) with (IO2V lapicaddr); unfold IO2V, apart in *; word|done|lia|done|].
  exists h'. split; [unfold irq_setup; mstep H0; exact H2|]. rewrite Ht, Hm, Hnc, stores_app, outs_app, Hs, Ho.
  change (lapic h1) with (IO2V lapicaddr). rewrite <- !app_assoc. split_and!.
  - pose proof (lapic_program_ready lapicaddr (has_pcint ver) (stores (trace h1)) Ha) as Hr. unfold lapic_ready in *.
    rewrite !(latest_lapic (stores (io_writes _ _))), !(latest_lapic ws)
      by (first [done|apply Forall_io_writes|by vm_compute]). exact Hr.
  - intros i Hr. pose proof (io_maxintr_range iover). rewrite app_assoc, <- stores_app, <- io_writes_app.
    rewrite !io_register_writes by (apply Forall_app; split; [apply enable_words; lia|apply io_table_words; lia]).
    destruct (latest_lines uart (ncpu h1 - 1) (Z.to_nat (io_maxintr iover + 1)) i) as [-> ->]; [lia..|done].
  - apply final_mask_bits.
  - intros p0. rewrite !pic_after_app. apply pic_writes_ready.
Qed.

(** *** Which processor *)

Lemma find_cpu_eq ids a k i :
  ids !! i = Some a -> NoDup ids -> find_cpu ids a k = Some (k + Z.of_nat i).
Proof.
  revert k i. induction ids as [|b ids IH]; intros k i Hi Hd; [done|]. apply NoDup_cons in Hd as [Hb Hd].
  cbn [find_cpu]. destruct i as [|i]; cbn in Hi; simplify_eq.
  - rewrite Z.eqb_refl. f_equal. lia.
  - replace (b =? a) with false.
    + rewrite (IH (k + 1) i) by done. f_equal. lia.
    + symmetry. apply Z.eqb_neq. intros ->. apply Hb. by eapply list_elem_of_lookup_2.
Qed.

Lemma find_cpu_none ids a k : a ∉ ids -> find_cpu ids a k = None.
Proof.
  revert k. induction ids as [|b ids IH]; intros k Hn; [done|]. apply not_elem_of_cons in Hn as [Hb Hn].
  cbn [find_cpu]. replace (b =? a) with false by (symmetry; apply Z.eqb_neq; congruence). by apply IH.
Qed.

(** The local APIC at [base] belongs to the processor with identifier [a]. *)
Definition runs_on (base a : Z) : Prop := forall tr, Z.shiftr (u32 (reg_in tr (lapic_reg base ID))) 24 = a.

Lemma cpunum_eq h a :
  lapic h <> 0 -> runs_on (lapic h) a ->
  exists l n, cpunum h = match find_cpu (take (Z.to_nat (ncpu h)) (apicids h)) a 0 with
                         | Some i => Done i (log l (set_cpunum_n n h))
                         | None => Panic "unknown apicid"
                         end.
Proof.
  intros Hb Hr. unfold cpunum. msimp.
  assert (exists l n, (if flags_if h then
       n <- gets cpunum_n ;;
       modify (set_cpunum_n (i32 (n + 1))) ;;
       (if n =? 0 then emit (Say "cpu called from %x with interrupts enabled") else ret tt)
     else ret tt) h = Done tt (log l (set_cpunum_n n h))) as (l & n & Hw).
  { destruct (flags_if h).
    - destruct (cpunum_n h =? 0) eqn:E0; [exists [Say "cpu called from %x with interrupts enabled"]|exists []];
        exists (i32 (cpunum_n h + 1)); msimp; by rewrite E0, ?log_nil.
    - exists [], (cpunum_n h). rewrite log_nil. by destruct h. }
  mstep Hw. msimp. set (h1 := log l _). change (lapic h1) with (lapic h).
  replace (lapic h =? 0) with false by (symmetry; by apply Z.eqb_neq).
  mstep (lapicr_eq ID h1). change (lapic h1) with (lapic h). rewrite Hr. msimp.
  change (ncpu (log _ h1)) with (ncpu h). change (apicids (log _ h1)) with (apicids h).
  unfold h1. rewrite log_log. eexists _, n. by destruct (find_cpu _ _ _).
Qed.

(** after [mpinit] on a machine whose table gives its processors distinct
    identifiers, [cpunum] returns, on the processor with the [i]th
    identifier, the index [i]; on a processor that the first [NCPU] entries
    do not have it panics. *)
Theorem cpunum_inverts_table (h : hw) (fuel : nat) (p pa imcrp lapicaddr a : Z) (es : list mpentry) :
  mp_machine (ram h) p pa imcrp lapicaddr (entries_bytes es) -> Forall entry_ok es ->
  (length es < fuel)%nat -> ncpu h = 0 -> length (apicids h) = NCPU ->
  NoDup (take NCPU (procs es)) -> runs_on (IO2V lapicaddr) a ->
  (forall i, take NCPU (procs es) !! i = Some a ->
    exists h', (mpinit fuel ;; cpunum) h = Done (Z.of_nat i) h') /\
  (a ∉ take NCPU (procs es) -> (mpinit fuel ;; cpunum) h = Panic "unknown apicid").
Proof.
  intros Hmm Hok Hf Hn Hl Hd Hr.
  destruct (mpinit_eq h fuel p pa imcrp lapicaddr es Hmm Hok Hf) as (l0 & H0 & _); [lia|done|].
  pose proof (mm_lapicaddr _ _ _ _ _ _ Hmm) as Hla.
  set (h1 := log l0 (with_table lapicaddr es h)) in *. destruct (cpunum_eq h1 a) as (l & n & H1).
  { change (lapic h1) with (IO2V lapicaddr). unfold IO2V. word. }
  { done. }
  assert (take (Z.to_nat (ncpu h1)) (apicids h1) = take NCPU (procs es)) as E.
  { change (ncpu h1) with (ncpu (with_table lapicaddr es h)).
    change (apicids h1) with (apicids (with_table lapicaddr es h)).
    by apply with_table_ids. }
  rewrite E in H1. mstep H0. split.
  - intros i Hi. rewrite H1, (find_cpu_eq _ _ 0 i) by done. by eexists.
  - intros Ha. by rewrite H1, find_cpu_none.
Qed.

(** *** The clock *)

(** A clock whose registers are [clock]: the port answers for the register
    that was selected last. *)
Definition has_clock (clock : Z -> Z) : Prop :=
  forall tr reg, latest (outs tr) CMOS_PORT = Some reg -> port_in tr CMOS_RETURN = clock reg.

Lemma cmos_read_eq clock reg h :
  has_clock clock -> 0 <= reg < 2 ^ 8 -> 0 <= clock reg < 2 ^ 8 ->
  exists l, cmos_read reg h = Done (clock reg) (log l h).
Proof.
  intros Hc Hr Hv. unfold cmos_read, outb, inb, microdelay, emit. msimp. cbn [trace set_trace].
  rewrite (Hc _ reg); [|cbn; by rewrite u8_small by done]. rewrite (u8_small (clock reg)) by done.
  exists [In CMOS_RETURN (clock reg); Out CMOS_PORT (u8 reg)]. done.
Qed.

(** A number below 100 as two decimal digits. *)
Definition to_bcd (n : Z) : Z := 16 * (n / 10) + n mod 10.

Definition enc (bcd : bool) (n : Z) : Z := if bcd then to_bcd n else n.

Lemma CONV_to_bcd n : 0 <= n < 100 -> CONV (to_bcd n) = n.
Proof.
  intros Hn. unfold CONV, to_bcd. rewrite Z.shiftr_div_pow2 by lia. change 0xf with (Z.ones 4).
  rewrite Z.land_ones by lia. word.
Qed.

Definition date_fields (d : rtcdate) : list Z := [second d; minute d; hour d; day d; month d; year d].

(** The clock's registers hold the date [d], with two digits of the year, in
    the coding that status register B tells, and no update is in progress. *)
Record clock_holds (clock : Z -> Z) (bcd : bool) (d : rtcdate) : Prop := {
  ck_fields : Forall (fun n => 0 <= n < 100) (date_fields d);
  ck_values : clock SECS = enc bcd (second d) /\ clock MINS = enc bcd (minute d) /\ clock HOURS = enc bcd (hour d) /\
    clock DAY = enc bcd (day d) /\ clock MONTH = enc bcd (month d) /\ clock YEAR = enc bcd (year d);
  ck_statb : 0 <= clock CMOS_STATB < 2 ^ 8 /\ (Z.land (clock CMOS_STATB) 4 =? 0) = bcd;
  ck_stata : 0 <= clock CMOS_STATA < 2 ^ 8 /\ Z.land (clock CMOS_STATA) CMOS_UIP = 0
}.

Definition enc_date (bcd : bool) (d : rtcdate) : rtcdate :=
  mk_rtcdate (enc bcd (second d)) (enc bcd (minute d)) (enc bcd (hour d)) (enc bcd (day d)) (enc bcd (month d))
    (enc bcd (year d)).

Lemma enc_byte bcd n : 0 <= n < 100 -> 0 <= enc bcd n < 2 ^ 8.
Proof. intros Hn. unfold enc, to_bcd. destruct bcd; dlia. Qed.

Ltac clock_step Hc Hf :=
  match goal with |- context [bind (cmos_read ?r) _ ?h] =>
    let l := fresh "l" in let H := fresh "H" in
    destruct (cmos_read_eq _ r h Hc) as [l H]; [by vm_compute|Hf|]; mstep H; clear H; rewrite ?log_log
  end.

Lemma fill_rtcdate_eq clock bcd d h :
  has_clock clock -> clock_holds clock bcd d -> exists l, fill_rtcdate h = Done (enc_date bcd d) (log l h).
Proof.
  intros Hc [Hf (V1 & V2 & V3 & V4 & V5 & V6) _ _]. unfold date_fields in Hf. rewrite !Forall_cons in Hf.
  destruct Hf as (F1 & F2 & F3 & F4 & F5 & F6 & _). unfold fill_rtcdate.
  do 6 clock_step Hc ltac:(rewrite ?V1, ?V2, ?V3, ?V4, ?V5, ?V6; by apply enc_byte).
  rewrite V1, V2, V3, V4, V5, V6. by eexists.
Qed.

(** [cmostime] returns the date that the clock's registers hold, whether
    they are in binary or in decimal digits, with the century added. *)
Theorem cmostime_reads_clock (h : hw) (fuel : nat) (clock : Z -> Z) (bcd : bool) (d : rtcdate) :
  has_clock clock -> clock_holds clock bcd d ->
  exists h', cmostime (S fuel) h =
    Done (mk_rtcdate (second d) (minute d) (hour d) (day d) (month d) (year d + 2000)) h'.
Proof.
  intros Hc Hd. unfold cmostime.
  destruct (cmos_read_eq clock CMOS_STATB h Hc) as [l1 H1]; [by vm_compute|apply (ck_statb _ _ _ Hd)|]. mstep H1.
  change (Z.shiftl 1 2) with 4. rewrite (proj2 (ck_statb _ _ _ Hd)).
  assert (exists l2, cmos_stable (S fuel) (log l1 h) = Done (enc_date bcd d) (log l2 h)) as [l2 H2].
  { cbn [cmos_stable]. destruct (fill_rtcdate_eq clock bcd d (log l1 h) Hc Hd) as [l3 H3]. mstep H3.
    destruct (cmos_read_eq clock CMOS_STATA (log l3 (log l1 h)) Hc) as [l4 H4];
      [by vm_compute|apply (ck_stata _ _ _ Hd)|]. mstep H4. rewrite (proj2 (ck_stata _ _ _ Hd)).
    change (truthy 0) with false. cbv iota.
    destruct (fill_rtcdate_eq clock bcd d (log l4 (log l3 (log l1 h))) Hc Hd) as [l5 H5]. mstep H5.
    rewrite decide_True by done. rewrite !log_log. by eexists. }
  mstep H2. destruct Hd as [Hf _ _ _]. unfold date_fields in Hf. rewrite !Forall_cons in Hf.
  destruct Hf as (F1 & F2 & F3 & F4 & F5 & F6 & _).
  eexists. unfold ret, enc_date. f_equal. destruct bcd; cbn [enc second minute hour day month year];
    rewrite ?CONV_to_bcd by done; f_equal; word.
Qed.
End facts.

(** ** Examples *)

(** An I/O APIC with 24 lines, a local APIC of processor 1 that is never busy,
    and a clock that stands at 13:37:42 on 16 November 2026, in decimal digits. *)
Definition pc_clock (reg : Z) : Z :=
  if reg =? SECS then 0x42 else if reg =? MINS then 0x37 else if reg =? HOURS then 0x13
  else if reg =? DAY then 0x16 else if reg =? MONTH then 0x11 else if reg =? YEAR then 0x26
  else if reg =? CMOS_STATB then 2 else 0.

#[local] Instance pc : devices := {|
  port_in tr p := if p =? CMOS_RETURN then default 0 (pc_clock <$> latest (outs tr) CMOS_PORT) else 0;
  reg_in tr a :=
    if a =? IO2V IOAPIC + ioapic_data
    then if bool_decide (io_selected (IO2V IOAPIC) (stores tr) = Some REG_VER) then 0x170011 else 0
    else if a =? lapic_reg (IO2V 0xFEE00000) ID then 0x1000000 else 0
|}.

Lemma pc_devices_pc n : pc_devices (IO2V 0xFEE00000) 0 0x170011 (S n).
Proof.
  constructor.
  - intros tr. exists 0%nat. split; [lia|]. reflexivity.
  - reflexivity.
  - intros tr Htr. cbn -[IO2V]. rewrite Z.eqb_refl. by rewrite bool_decide_true.
Qed.

Lemma irq_setup_correct_witness :
  exists h', irq_setup 6 true (hw_start false two_cpus_image) = Done tt h' /\
    io_register (IO2V IOAPIC) (stores (trace h')) (REG_TABLE + 2 * IRQ_IDE) = Some (TRAP_IRQ0 + IRQ_IDE).
Proof.
  destruct (irq_setup_correct true (hw_start false two_cpus_image) 6 (P2V 0x9FC00) 0x9FD00 128
              0xFEE00000 0 0x170011 two_cpus) as (h' & Hd & _ & Hio & _).
  - apply is_image_machine. vm_compute. reflexivity.
  - repeat (constructor; [cbn; auto 6|]); constructor.
  - discriminate.
  - cbn. lia.
  - reflexivity.
  - reflexivity.
  - reflexivity.
  - unfold apart, IOAPIC. lia.
  - apply pc_devices_pc.
  - exists h'. split; [exact Hd|]. apply (Hio IRQ_IDE). split; vm_compute; discriminate.
Defined.

Lemma cpunum_inverts_table_witness :
  exists h', (mpinit 6 ;; cpunum) (hw_start false two_cpus_image) = Done 1 h'.
Proof.
  destruct (cpunum_inverts_table (hw_start false two_cpus_image) 6 (P2V 0x9FC00) 0x9FD00 128
              0xFEE00000 1 two_cpus) as [Hi _].
  - apply is_image_machine. vm_compute. reflexivity.
  - repeat (constructor; [cbn; auto 6|]); constructor.
  - cbn. lia.
  - reflexivity.
  - reflexivity.
  - apply (bool_decide_unpack _). vm_compute. exact I.
  - intros tr. reflexivity.
  - apply (Hi 1%nat). reflexivity.
Defined.

Lemma cmostime_reads_clock_witness :
  exists h', cmostime 1 (hw_start false two_cpus_image) = Done (mk_rtcdate 42 37 13 16 11 2026) h'.
Proof.
  apply (cmostime_reads_clock (hw_start false two_cpus_image) 0 pc_clock true (mk_rtcdate 42 37 13 16 11 26)).
  - intros tr reg Hr. cbn -[latest]. by rewrite Hr.
  - constructor.
    + repeat (constructor; [cbn; lia|]); constructor.
    + by vm_compute.
    + by vm_compute.
    + by vm_compute.
Defined.
