(* ===== verification/Kalloc.v ===== *)
(** * The physical page allocator: [kernel/kalloc.c]

    The allocator keeps one [core_map_entry] per physical page.  [kalloc] hands
    out the first available page, [kfree] gives one back and fills it with
    junk. *)

From S2P Require Import Prelude Types Spinlock Mmu.

(** ** Operations *)

Definition upd_kmem (f : kmem -> kmem) : K unit :=
  modify (fun s => set_k_kmem (f (k_kmem s)) s).
Definition upd_frame (pn : Z) (fr : frame) : K unit :=
  modify (fun s => set_k_frames (<[pn := fr]> (k_frames s)) s).

(** [&core_map[PGNUM(pa)]], as an index. *)
Definition pa2page (pa : Z) : K nat :=
  np <- gets (fun s => npages (k_kmem s)) ;;
  if u64 np <=? PGNUM pa then panic "pa2page called with invalid pa" else
  ret (Z.to_nat (PGNUM pa)).

Definition page2pa (pp : nat) : Z := u64 (Z.shiftl (Z.of_nat pp) PT_SHIFT).

(** [core_map[pp] = f(core_map[pp])]. *)
Definition upd_core_map (pp : nat) (f : core_map_entry -> core_map_entry) : K unit :=
  cm <- gets (fun s => core_map (k_kmem s)) ;;
  e <- deref "core_map index" (cm !! pp) ;;
  upd_kmem (set_core_map (<[pp := f e]> cm)).

(** One entry of the BIOS memory map: [struct e820_entry] of [inc/e820.h]. *)
Record e820_entry := mk_e820_entry { e_addr : Z; e_len : Z; e_type : Z }.

Definition mem_max : Z := u64 (- KERNBASE).

Fixpoint detect_loop (es : list e820_entry) (mem : Z) : Z :=
  match es with
  | [] => mem
  | e :: es =>
      if mem_max <=? e_addr e then detect_loop es mem
      else detect_loop es (Z.max mem (u64 (e_addr e + e_len e)))
  end.

(** What it prints is [memory_report] of [Main], where the console is defined. *)
Definition detect_memory (entries : list e820_entry) : K unit :=
  let mem := Z.min (detect_loop entries 0) mem_max in
  upd_kmem (set_npages (i32 (mem / PGSIZE))).

(** [(uint64_t)(npages * PGSIZE)]: an [int] product, then widened. *)
Definition npages_bytes (np : Z) : Z := u64 (i32 (np * PGSIZE)).

Definition kfree (v : Z) : K unit :=
  km <- gets k_kmem ;;
  if truthy (v mod PGSIZE) || (v <? k_end km) || (npages_bytes (npages km) <=? V2P v)
  then panic "kfree" else
  (if use_lock km then acquire kmem_lk else ret tt) ;;
  r <- pa2page (V2P v) ;;
  upd_kmem (fun km => set_pages_in_use (i32 (pages_in_use km - 1)) km) ;;
  upd_kmem (fun km => set_free_pages (i32 (free_pages km + 1)) km) ;;
  upd_frame (PGNUM (V2P v)) (FBytes (replicate (Z.to_nat PGSIZE) 2)) ;;
  upd_core_map r (fun e => set_cm_va 0 (set_user 0 (set_available 1 e))) ;;
  if use_lock km then release kmem_lk else ret tt.

Definition mark_user_mem (pa va : Z) : K unit :=
  r <- pa2page pa ;;
  upd_core_map r (fun e => set_cm_va va (set_user 1 e)).

Definition mark_kernel_mem (pa : Z) : K unit :=
  r <- pa2page pa ;;
  upd_core_map r (fun e => set_cm_va 0 (set_user 0 e)).

(** The first [i < npages] with [core_map[i].available == 1]. *)
Definition first_available (km : kmem) : option nat :=
  fst <$> list_find (fun e => available e = 1) (take (Z.to_nat (npages km)) (core_map km)).

Definition kalloc : K Z :=
  km <- gets k_kmem ;;
  (if use_lock km then acquire kmem_lk else ret tt) ;;
  o <- gets (fun s => first_available (k_kmem s)) ;;
  match o with
  | Some i =>
      upd_core_map i (set_available 0) ;;
      upd_kmem (fun km => set_pages_in_use (i32 (pages_in_use km + 1)) km) ;;
      upd_kmem (fun km => set_free_pages (i32 (free_pages km - 1)) km) ;;
      (if use_lock km then release kmem_lk else ret tt) ;;
      ret (P2V (page2pa i))
  | None =>
      (if use_lock km then release kmem_lk else ret tt) ;;
      ret 0
  end.

(** [for (; p + PGSIZE <= vend; p += PGSIZE) kfree(p);] *)
Fixpoint freerange_loop (fuel : nat) (p vend : Z) : K unit :=
  match fuel with
  | O => diverge
  | S fuel =>
      if u64 (p + PGSIZE) <=? vend
      then kfree p ;; freerange_loop fuel (u64 (p + PGSIZE)) vend
      else ret tt
  end.

Definition freerange (vstart vend : Z) : K unit :=
  let p := PGROUNDUP vstart in
  freerange_loop (S (Z.to_nat ((vend - p) / PGSIZE))) p vend.

Definition setrand (seed : Z) : K unit := upd_kmem (set_k_next seed).

(** [sizeof(struct core_map_entry)]. *)
Definition sizeof_core_map_entry : Z := 16.

Definition mem_init (vstart : Z) : K unit :=
  np <- gets (fun s => npages (k_kmem s)) ;;
  upd_kmem (set_core_map (replicate (Z.to_nat np) (mk_core_map_entry 0 0 0))) ;;
  let vstart := u64 (vstart + PGROUNDUP (u64 (np * sizeof_core_map_entry))) in
  initlock kmem_lk ;;
  upd_kmem (set_use_lock false) ;;
  let vend := P2V (npages_bytes np) in
  freerange vstart vend ;;
  upd_kmem (set_free_pages (i32 (Z.shiftr (i64 (vend - vstart)) PT_SHIFT))) ;;
  upd_kmem (set_pages_in_use 0) ;;
  upd_kmem (set_pages_in_swap 0) ;;
  upd_kmem (set_use_lock true) ;;
  setrand 1.

(** [rand(limit)]: a value of [0, limit). *)
Definition rand (limit : Z) : K Z :=
  upd_kmem (fun km => set_k_next (u64 (k_next km * 1103515245 + 12345)) km) ;;
  n <- gets (fun s => k_next (k_kmem s)) ;;
  if u32 limit =? 0 then fault "division by zero" else
  ret (i32 (u32 (n / 65536) mod u32 limit)).

Fixpoint random_page_loop (x : nat) : K nat :=
  match x with
  | O => panic "Tried 100 random indices for random user page, all failed"
  | S x =>
      np <- gets (fun s => npages (k_kmem s)) ;;
      i <- rand np ;;
      cm <- gets (fun s => core_map (k_kmem s)) ;;
      e <- deref "core_map index" (cm !! Z.to_nat i) ;;
      if negb (cm_va e =? 0) then ret (Z.to_nat i) else random_page_loop x
  end.

Definition get_random_user_page : K nat := random_page_loop 100.

(** ** The allocator's invariant *)

Definition is_avail (e : core_map_entry) : bool := available e =? 1.

(** How many pages can be handed out. *)
Definition navail (cm : list core_map_entry) : Z := count is_avail cm.

(** There is an entry per page, the machine has less than 2GB, the counter of
    free pages is right, it and the counter of used pages add up to [tot], and
    no page of the kernel image can be handed out. *)
Record kmem_wf (tot : Z) (km : kmem) : Prop := {
  wf_npages : 0 <= npages km < 2 ^ 19;
  wf_len : Z.of_nat (length (core_map km)) = npages km;
  wf_free : free_pages km = navail (core_map km);
  wf_tot : pages_in_use km + free_pages km = tot;
  wf_tot_bound : 0 <= tot < 2 ^ 20;
  wf_end : KERNBASE <= k_end km < 2 ^ 64;
  wf_avail : forall i e, core_map km !! i = Some e -> available e = 1 -> k_end km <= P2V (Z.of_nat i * 4096)
}.

(** Past boot, and nobody is inside the allocator. *)
Record kmem_idle (km : kmem) : Prop := {
  idle_use : use_lock km = true;
  idle_lock : kmem_lock km = mk_spinlock 0 false
}.

(** What [kalloc] and [kfree] do to the allocator's globals. *)
Definition kmem_take (i : nat) (km : kmem) : kmem :=
  set_free_pages (free_pages km - 1)
    (set_pages_in_use (pages_in_use km + 1)
       (set_core_map (alter (set_available 0) i (core_map km)) km)).

Definition kmem_give (i : nat) (km : kmem) : kmem :=
  set_core_map (alter (fun e => set_cm_va 0 (set_user 0 (set_available 1 e))) i (core_map km))
    (set_free_pages (i32 (free_pages km + 1))
       (set_pages_in_use (i32 (pages_in_use km - 1)) km)).

Definition junk : frame := FBytes (replicate (Z.to_nat PGSIZE) 2).

(** *** Facts about the state changes *)

Lemma page2pa_eq i : Z.of_nat i < 2 ^ 19 -> page2pa i = Z.of_nat i * 4096.
Proof.
  intros Hi. unfold page2pa, PT_SHIFT. rewrite Z.shiftl_mul_pow2 by lia.
  apply u64_small. lia.
Qed.

Lemma first_available_Some tot km i :
  kmem_wf tot km ->
  first_available km = Some i <->
  (exists e, core_map km !! i = Some e /\ available e = 1) /\
  (forall j e, (j < i)%nat -> core_map km !! j = Some e -> available e <> 1).
Proof.
  intros Hwf. unfold first_available.
  rewrite take_ge by (pose proof (wf_len _ _ Hwf); lia).
  rewrite fmap_Some.
  split.
  - intros ([j e] & (H1 & H2 & H3)%list_find_Some & ->); cbn. split; [eauto|]. eauto.
  - intros [(e & H1 & H2) H3]. exists (i, e). split; [|done].
    apply list_find_Some. split; [done|]. split; [done|]. eauto.
Qed.

Lemma first_available_None tot km :
  kmem_wf tot km -> first_available km = None <-> navail (core_map km) = 0.
Proof.
  intros Hwf. unfold first_available, navail.
  rewrite take_ge by (pose proof (wf_len _ _ Hwf); lia).
  rewrite fmap_None, list_find_None, Forall_lookup, count_zero. unfold is_avail.
  split; intros H i x Hx; specialize (H i x Hx); lia.
Qed.

Lemma kmem_take_wf tot km i e :
  kmem_wf tot km -> core_map km !! i = Some e -> available e = 1 -> kmem_wf tot (kmem_take i km).
Proof.
  intros [] He Ha. split; cbn [kmem_take kmem_give npages core_map free_pages pages_in_use k_end set_free_pages set_pages_in_use set_core_map]; rewrite ?length_alter; try done; [|lia|].
  1: unfold navail in *; erewrite count_alter by done.
  - assert (is_avail e = true) as -> by (unfold is_avail; lia). cbn. lia.
  - intros j e'. rewrite list_lookup_alter. case_decide as Hd; [|eauto].
    intros (e0 & _ & ->)%fmap_Some. done.
Qed.

Lemma kmem_give_wf tot km i e :
  kmem_wf tot km -> core_map km !! i = Some e -> available e <> 1 ->
  k_end km <= P2V (Z.of_nat i * 4096) -> kmem_wf tot (kmem_give i km).
Proof.
  intros [] He Ha Hk. pose proof (count_le is_avail (core_map km)).
  pose proof (count_nonneg is_avail (core_map km)). unfold navail in *.
  split; cbn; rewrite ?length_alter, ?i32_small by lia; try done; [|lia|].
  1: unfold navail; erewrite count_alter by done.
  - assert (is_avail e = false) as -> by (unfold is_avail; lia). cbn. lia.
  - intros j e'. rewrite list_lookup_alter. case_decide as Hd; [by subst|eauto].
Qed.

Lemma bind_upd_kmem {B} f (k : unit -> K B) s :
  bind (upd_kmem f) k s = k tt (set_k_kmem (f (k_kmem s)) s).
Proof. done. Qed.

Lemma bind_upd_frame {B} pn fr (k : unit -> K B) s :
  bind (upd_frame pn fr) k s = k tt (set_k_frames (<[pn := fr]> (k_frames s)) s).
Proof. done. Qed.

Lemma bind_upd_core_map {B} i f e (k : unit -> K B) s :
  core_map (k_kmem s) !! i = Some e ->
  bind (upd_core_map i f) k s =
  k tt (set_k_kmem (set_core_map (alter f i (core_map (k_kmem s))) (k_kmem s)) s).
Proof.
  intros H. rewrite <- (alter_insert _ _ _ _ H).
  unfold upd_core_map, bind; cbn. by rewrite H.
Qed.

Lemma kalloc_eq s tot :
  kmem_wf tot (k_kmem s) -> kmem_idle (k_kmem s) -> cpu_room 1 (k_cpu s) ->
  kalloc s =
  match first_available (k_kmem s) with
  | Some i => Done (P2V (Z.of_nat i * 4096))
                   (set_k_cpu (cpu_cs (k_cpu s)) (set_k_kmem (kmem_take i (k_kmem s)) s))
  | None => Done 0 (set_k_cpu (cpu_cs (k_cpu s)) s)
  end.
Proof.
  intros Hwf [Hu Hl] Hc. unfold kalloc; msimp. rewrite Hu.
  mstep (acquire_eq kmem_lk); [|done|by rewrite Hl|done]. msimp.
  change (first_available (k_kmem (lk_set kmem_lk _ _))) with (first_available (k_kmem s)).
  destruct (first_available (k_kmem s)) as [i|] eqn:Ei.
  - pose proof Ei as ((e & He & Ha) & _)%(first_available_Some _ _ _ Hwf).
    pose proof (kmem_take_wf _ _ _ _ Hwf He Ha) as Hwf'.
    pose proof (lookup_lt_Some _ _ _ He). destruct Hwf, Hwf'; cbn in *.
    pose proof (count_nonneg is_avail (alter (set_available 0) i (core_map (k_kmem s)))).
    pose proof (count_le is_avail (core_map (k_kmem s))). unfold navail in *.
    erewrite bind_upd_core_map by done. rewrite !bind_upd_kmem.
    mstep (release_cs kmem_lk); [|done|done|done]. unfold ret.
    rewrite page2pa_eq by lia. f_equal. cbn. rewrite !i32_small by lia.
    destruct s as [? [] ?]; cbn in *; by subst.
  - mstep (release_cs kmem_lk); [|done|done|done]. unfold ret. f_equal.
    destruct s as [? [] ?]; cbn in *; by subst.
Qed.

(** The pages [kfree] accepts: page [i] of the machine, above the kernel image. *)
Definition page_va (i : nat) : Z := P2V (Z.of_nat i * 4096).

Lemma page_va_eq i : Z.of_nat i < 2 ^ 19 -> page_va i = Z.of_nat i * 4096 + KERNBASE.
Proof. intros. unfold page_va. apply P2V_low. lia. Qed.

Lemma V2P_page_va i : Z.of_nat i < 2 ^ 19 -> V2P (page_va i) = Z.of_nat i * 4096.
Proof. intros. unfold page_va. apply V2P_P2V. lia. Qed.

Lemma PGNUM_page i : Z.of_nat i < 2 ^ 19 -> PGNUM (Z.of_nat i * 4096) = Z.of_nat i.
Proof. intros. rewrite PGNUM_eq by lia. dlia. Qed.

Lemma npages_bytes_eq np : 0 <= np < 2 ^ 19 -> npages_bytes np = np * 4096.
Proof. intros. unfold npages_bytes, PGSIZE. rewrite i32_small by lia. apply u64_small. lia. Qed.

Lemma pa2page_eq s i :
  0 <= npages (k_kmem s) < 2 ^ 19 -> Z.of_nat i < npages (k_kmem s) ->
  pa2page (Z.of_nat i * 4096) s = Done i s.
Proof.
  intros. unfold pa2page; msimp. rewrite PGNUM_page, u64_small by lia.
  destruct (Z.leb_spec (npages (k_kmem s)) (Z.of_nat i)); [lia|]. by rewrite Nat2Z.id.
Qed.

(** The state after page [i] is given back. *)
Definition give_page (i : nat) (s : kstate) : kstate :=
  set_k_frames (<[Z.of_nat i := junk]> (k_frames s)) (set_k_kmem (kmem_give i (k_kmem s)) s).

Lemma kfree_guard km i :
  0 <= npages km < 2 ^ 19 -> Z.of_nat i < npages km -> k_end km <= page_va i ->
  truthy (page_va i mod PGSIZE) || (page_va i <? k_end km)
    || (npages_bytes (npages km) <=? V2P (page_va i)) = false.
Proof.
  intros Hn Hi He. rewrite V2P_page_va, npages_bytes_eq by lia.
  rewrite page_va_eq in * by lia. unfold KERNBASE, PGSIZE, truthy in *.
  replace ((Z.of_nat i * 4096 + 0xFFFFFFFF80000000) mod 4096) with 0 by dlia.
  cbn [Z.eqb negb orb]. lia.
Qed.

Lemma kfree_boot_eq s i e :
  0 <= npages (k_kmem s) < 2 ^ 19 -> Z.of_nat i < npages (k_kmem s) ->
  use_lock (k_kmem s) = false -> k_end (k_kmem s) <= page_va i ->
  core_map (k_kmem s) !! i = Some e ->
  kfree (page_va i) s = Done tt (give_page i s).
Proof.
  intros Hn Hi Hu He Hcm. unfold kfree; msimp. rewrite kfree_guard by done.
  rewrite Hu. msimp. rewrite V2P_page_va by lia. mstep pa2page_eq; [|done|done].
  rewrite !bind_upd_kmem, bind_upd_frame. erewrite bind_upd_core_map by done.
  rewrite PGNUM_page by lia. done.
Qed.

Lemma kfree_eq s i e :
  0 <= npages (k_kmem s) < 2 ^ 19 -> Z.of_nat i < npages (k_kmem s) ->
  kmem_idle (k_kmem s) -> cpu_room 1 (k_cpu s) -> k_end (k_kmem s) <= page_va i ->
  core_map (k_kmem s) !! i = Some e ->
  kfree (page_va i) s = Done tt (set_k_cpu (cpu_cs (k_cpu s)) (give_page i s)).
Proof.
  intros Hn Hi [Hu Hl] Hc He Hcm. unfold kfree; msimp. rewrite kfree_guard by done.
  rewrite Hu. mstep (acquire_eq kmem_lk); [|done|by rewrite Hl|done].
  rewrite V2P_page_va by lia. mstep pa2page_eq; [|done|done].
  rewrite !bind_upd_kmem, bind_upd_frame. erewrite bind_upd_core_map by done.
  rewrite PGNUM_page by lia. erewrite (release_cs kmem_lk) by done. f_equal.
  destruct s as [? [] ?]; cbn in *; by subst.
Qed.

(** *** Boot *)

(** Give back the pages [i .. i + n - 1]. *)
Fixpoint give_range (i n : nat) (s : kstate) : kstate :=
  match n with O => s | S n => give_range (S i) n (give_page i s) end.

(** What giving pages back leaves alone. *)
Definition kmem_frame (km : kmem) : Z * Z * bool * spinlock * nat :=
  (npages km, k_end km, use_lock km, kmem_lock km, length (core_map km)).

Lemma give_page_frame i s : kmem_frame (k_kmem (give_page i s)) = kmem_frame (k_kmem s).
Proof. unfold kmem_frame; cbn. by rewrite length_alter. Qed.

Lemma give_range_frame i n s : kmem_frame (k_kmem (give_range i n s)) = kmem_frame (k_kmem s).
Proof. revert i s. induction n; intros; cbn; [done|]. by rewrite IHn, give_page_frame. Qed.

Lemma give_range_lookup i n s j :
  core_map (k_kmem (give_range i n s)) !! j =
  if decide (i <= j < i + n)%nat
  then (fun e => set_cm_va 0 (set_user 0 (set_available 1 e))) <$> core_map (k_kmem s) !! j
  else core_map (k_kmem s) !! j.
Proof.
  revert i s. induction n as [|n IH]; intros i s; cbn [give_range].
  - by rewrite decide_False by lia.
  - rewrite IH. cbn. rewrite list_lookup_alter.
    destruct (decide (i = j)) as [<-|].
    + rewrite decide_False by lia. by rewrite decide_True by lia.
    + case_decide; [rewrite decide_True by lia|rewrite decide_False by lia]; done.
Qed.

Lemma give_range_navail i n s :
  (i + n <= length (core_map (k_kmem s)))%nat ->
  (forall j e, core_map (k_kmem s) !! j = Some e -> (i <= j)%nat -> available e <> 1) ->
  navail (core_map (k_kmem (give_range i n s))) = navail (core_map (k_kmem s)) + Z.of_nat n.
Proof.
  revert i s. induction n as [|n IH]; intros i s Hl Hno; cbn [give_range]; [lia|].
  destruct (lookup_lt_is_Some_2 (core_map (k_kmem s)) i) as [e He]; [lia|].
  rewrite IH; cbn.
  - unfold navail. erewrite count_alter by done.
    assert (is_avail e = false) as -> by (pose proof (Hno i e He ltac:(lia)); unfold is_avail; lia).
    cbn. lia.
  - rewrite length_alter. lia.
  - intros j e' H ?.
    rewrite list_lookup_alter_ne in H by lia. apply (Hno j); [done|lia].
Qed.

Lemma freerange_loop_eq n i s np :
  npages (k_kmem s) = np -> 0 <= np < 2 ^ 19 - 1 -> Z.of_nat (i + n) = np ->
  Z.of_nat (length (core_map (k_kmem s))) = np ->
  use_lock (k_kmem s) = false -> k_end (k_kmem s) <= page_va i ->
  freerange_loop (S n) (page_va i) (page_va (i + n)) s = Done tt (give_range i n s).
Proof.
  revert i s. induction n as [|n IH]; intros i s Hnpe Hnp Hin Hlen Hu He.
  - cbn [freerange_loop give_range]. rewrite Nat.add_0_r, page_va_eq by lia.
    unfold PGSIZE, KERNBASE. rewrite u64_small by lia.
    destruct (Z.leb_spec (Z.of_nat i * 4096 + 0xFFFFFFFF80000000 + 4096)
                         (Z.of_nat i * 4096 + 0xFFFFFFFF80000000)); [lia|done].
  - remember (S n) as n'. cbn [freerange_loop]. subst n'.
    assert (Hnext : u64 (page_va i + PGSIZE) = page_va (S i)).
    { rewrite !page_va_eq by lia. unfold PGSIZE, KERNBASE. rewrite u64_small; lia. }
    rewrite Hnext.
    destruct (Z.leb_spec (page_va (S i)) (page_va (i + S n)));
      [|rewrite !page_va_eq in * by lia; lia].
    destruct (lookup_lt_is_Some_2 (core_map (k_kmem s)) i) as [e Hcm]; [lia|].
    mstep kfree_boot_eq; [|lia|lia|done|done|done].
    replace (i + S n)%nat with (S i + n)%nat by lia.
    rewrite IH; [done|done|done|lia|cbn; rewrite length_alter; lia|done|].
    cbn. rewrite !page_va_eq in * by lia. lia.
Qed.

(** ** Properties *)

(** The first address after the core map, when the image ends at [vstart]. *)
Definition core_map_end (vstart np : Z) : Z :=
  vstart + (np * sizeof_core_map_entry + 4095) / 4096 * 4096.

(** The allocator as [mem_init] finds it when it calls [freerange]. *)
Definition boot_kmem (np : Z) (km : kmem) : kmem :=
  set_use_lock false (set_kmem_lock (mk_spinlock 0 false)
    (set_core_map (replicate (Z.to_nat np) (mk_core_map_entry 0 0 0)) km)).

Lemma freerange_eq s v1 np :
  npages (k_kmem s) = np -> 0 <= np < 2 ^ 19 - 1 ->
  Z.of_nat (length (core_map (k_kmem s))) = np ->
  use_lock (k_kmem s) = false -> k_end (k_kmem s) <= v1 ->
  KERNBASE <= v1 < KERNBASE + np * 4096 ->
  let a := Z.to_nat ((v1 - KERNBASE + 4095) / 4096) in
  let n := (Z.to_nat np - a)%nat in
  freerange v1 (page_va (Z.to_nat np)) s = Done tt (give_range a n s) /\
  (a + n)%nat = Z.to_nat np /\ Z.of_nat n = (KERNBASE + np * 4096 - v1) / 4096 /\
  (forall i, Z.of_nat i < np -> (a <= i)%nat <-> v1 <= page_va i).
Proof.
  intros Hnp Hb Hlen Hu He Hv a n.
  assert (Ha : Z.of_nat a = (v1 - KERNBASE + 4095) / 4096) by (unfold a, KERNBASE in *; dlia).
  assert (Han : (a + n)%nat = Z.to_nat np) by (unfold n, KERNBASE in *; dlia).
  assert (Hp : PGROUNDUP v1 = page_va a).
  { rewrite PGROUNDUP_eq, page_va_eq by (unfold KERNBASE in *; dlia).
    unfold KERNBASE in *. dlia. }
  split; [|split; [done|split]].
  - unfold freerange. rewrite Hp, <- Han.
    replace (Z.to_nat ((page_va (a + n) - page_va a) / PGSIZE)) with n.
    2:{ rewrite !page_va_eq by (unfold KERNBASE in *; dlia). unfold PGSIZE.
        replace (_ - _) with (Z.of_nat n * 4096) by lia. rewrite Z.div_mul; lia. }
    apply (freerange_loop_eq n a s np); [done|done|lia|done|done|].
    rewrite <- Hp. rewrite PGROUNDUP_eq by (unfold KERNBASE in *; lia). dlia.
  - unfold KERNBASE in *. dlia.
  - intros i Hi. rewrite page_va_eq by lia. unfold KERNBASE in *. dlia.
Qed.

Lemma pages_between d : 0 <= d < 2 ^ 31 -> i32 (Z.shiftr (i64 d) PT_SHIFT) = d / 4096.
Proof.
  intros. replace (i64 d) with d by word. unfold PT_SHIFT.
  rewrite Z.shiftr_div_pow2 by lia. change (2 ^ 12) with 4096. apply i32_small. dlia.
Qed.

(** C5: booting the allocator.  On a machine of [npages] pages (below the 2GB
    limit) whose core map fits, [mem_init] returns with the allocator's
    invariant established and no lock held: the available pages are exactly
    the pages that lie entirely above the core map, [free_pages] is their
    number and none is in use. *)
Theorem mem_init_establishes_wf (s : kstate) (vstart np : Z)
    (Hnp : npages (k_kmem s) = np) (Hb : 0 <= np < 2 ^ 19 - 1)
    (Hend : k_end (k_kmem s) = vstart) (Hv : KERNBASE <= vstart)
    (Hfit : core_map_end vstart np < KERNBASE + np * 4096) :
  exists s', mem_init vstart s = Done tt s' /\
    kmem_wf ((KERNBASE + np * 4096 - core_map_end vstart np) / 4096) (k_kmem s') /\
    kmem_idle (k_kmem s') /\ pages_in_use (k_kmem s') = 0 /\
    (forall i e, core_map (k_kmem s') !! i = Some e ->
       available e = 1 <-> core_map_end vstart np <= page_va i).
Proof.
  set (v1 := core_map_end vstart np) in *.
  assert (Hv1 : vstart <= v1) by (unfold v1, core_map_end, sizeof_core_map_entry; dlia).
  set (s0 := set_k_kmem (boot_kmem np (k_kmem s)) s).
  destruct (freerange_eq s0 v1 np) as (Hfr & Han & Hn & Hav);
    [done|done|cbn; rewrite length_replicate; lia|done|cbn; lia|lia|].
  set (a := Z.to_nat ((v1 - KERNBASE + 4095) / 4096)) in *. set (n := (Z.to_nat np - a)%nat) in *.
  assert (Hframe := give_range_frame a n s0). unfold kmem_frame in Hframe.
  injection Hframe as H1 H2 H3 H4 H5. cbn in H1, H2, H3, H4, H5. rewrite length_replicate in H5.
  assert (Hcnt : navail (core_map (k_kmem (give_range a n s0))) = Z.of_nat n).
  { rewrite give_range_navail; cbn.
    - unfold navail. rewrite count_replicate. cbn. lia.
    - rewrite length_replicate. lia.
    - intros j e [-> _]%lookup_replicate _. done. }
  assert (Hiff : forall i e, core_map (k_kmem (give_range a n s0)) !! i = Some e ->
                   available e = 1 <-> v1 <= page_va i).
  { intros i e He. assert (Z.of_nat i < np) by (apply lookup_lt_Some in He; lia).
    rewrite give_range_lookup in He. cbn in He. rewrite <- (Hav i) by done. case_decide as Hd.
    - apply fmap_Some in He as (e0 & _ & ->). cbn. lia.
    - apply lookup_replicate in He as [-> ?]. cbn. lia. }
  assert (Hbn : 0 <= Z.of_nat n < 2 ^ 20) by lia.
  eexists. split; [|split; [|split; [|split]]].
  - unfold mem_init; msimp. rewrite Hnp, bind_upd_kmem. unfold initlock; msimp.
    rewrite bind_upd_kmem.
    change (set_k_kmem _ _) with s0 at 1.
    replace (u64 (vstart + _)) with v1.
    2:{ unfold v1, core_map_end, sizeof_core_map_entry in *. rewrite (u64_small (np * 16)) by lia.
        rewrite PGROUNDUP_eq by lia. symmetry. apply u64_small. unfold KERNBASE in *. lia. }
    replace (P2V (npages_bytes np)) with (page_va (Z.to_nat np)).
    2:{ unfold page_va. rewrite npages_bytes_eq by lia. f_equal. lia. }
    mstep Hfr. rewrite !bind_upd_kmem. unfold setrand, upd_kmem, modify. reflexivity.
  - replace (i32 _) with (Z.of_nat n).
    2:{ rewrite pages_between by (rewrite page_va_eq by lia; unfold KERNBASE in *; lia).
        rewrite page_va_eq, Hn by lia. f_equal. lia. }
    split; cbn; rewrite ?H1, ?H2, ?H5; try done; try lia; [unfold KERNBASE in *; lia|].
    intros i e He Ha%(Hiff i e He). unfold page_va in Ha. lia.
  - split; cbn; by rewrite ?H3, ?H4.
  - done.
  - exact Hiff.
Qed.

(** C6: [kalloc].  From a well-formed, idle allocator it always returns and
    keeps the allocator well-formed and idle, touching no page contents and
    nothing else of the kernel.  It returns null exactly when no page is
    available; otherwise it returns the kernel address of the lowest available
    page, which is above the kernel image and is marked taken. *)
Theorem kalloc_correct (s : kstate) (tot : Z)
    (Hwf : kmem_wf tot (k_kmem s)) (Hidle : kmem_idle (k_kmem s)) (Hcpu : cpu_ok (k_cpu s)) :
  exists v km', kalloc s = Done v (set_k_cpu (cpu_cs (k_cpu s)) (set_k_kmem km' s)) /\
    kmem_wf tot km' /\ kmem_idle km' /\
    ((v = 0 /\ navail (core_map (k_kmem s)) = 0 /\ km' = k_kmem s) \/
     (exists i e, v = page_va i /\ k_end (k_kmem s) <= v /\
        core_map (k_kmem s) !! i = Some e /\ available e = 1 /\
        (forall j e', (j < i)%nat -> core_map (k_kmem s) !! j = Some e' -> available e' <> 1) /\
        core_map km' = alter (set_available 0) i (core_map (k_kmem s)) /\
        free_pages km' = free_pages (k_kmem s) - 1)).
Proof.
  rewrite (kalloc_eq s tot Hwf Hidle) by (apply cpu_ok_room; [lia|done]).
  destruct (first_available (k_kmem s)) as [i|] eqn:Ei.
  - pose proof Ei as ((e & He & Ha) & Hmin)%(first_available_Some _ _ _ Hwf).
    exists (page_va i), (kmem_take i (k_kmem s)). split; [done|].
    split; [by eapply kmem_take_wf|]. split; [by destruct Hidle|].
    right. exists i, e. split_and!; try done. by eapply wf_avail.
  - exists 0, (k_kmem s). split; [by destruct s|]. split; [done|]. split; [done|].
    left. split; [done|]. split; [|done]. by eapply first_available_None.
Qed.

(** C7: [kalloc] and [kfree] are inverse.  If a page is available, allocating
    one and freeing it returns; the allocator is then as before (same free and
    used counts, same availability of every page; only the owner fields of the
    page are cleared) and the page holds junk. *)
Theorem kalloc_kfree_roundtrip (s : kstate) (tot : Z)
    (Hwf : kmem_wf tot (k_kmem s)) (Hidle : kmem_idle (k_kmem s)) (Hcpu : cpu_ok (k_cpu s))
    (Havail : 0 < navail (core_map (k_kmem s))) :
  exists i e s', (v <- kalloc ;; kfree v) s = Done tt s' /\
    core_map (k_kmem s) !! i = Some e /\ available e = 1 /\
    k_kmem s' = set_core_map (<[i := mk_core_map_entry 1 0 0]> (core_map (k_kmem s))) (k_kmem s) /\
    k_frames s' = <[Z.of_nat i := junk]> (k_frames s) /\ k_cpu s' = cpu_cs (k_cpu s).
Proof.
  assert (Hr : cpu_room 1 (k_cpu s)) by (apply cpu_ok_room; [lia|done]).
  destruct (first_available (k_kmem s)) as [i|] eqn:Ei;
    [|apply (first_available_None _ _ Hwf) in Ei; lia].
  pose proof Ei as ((e & He & Ha) & _)%(first_available_Some _ _ _ Hwf).
  pose proof (lookup_lt_Some _ _ _ He).
  pose proof (wf_avail _ _ Hwf i e He Ha) as Hend.
  pose proof (kmem_take_wf _ _ _ _ Hwf He Ha) as Hwf'.
  exists i, e. eexists. split.
  - pose proof (kalloc_eq s tot Hwf Hidle Hr) as Hk. rewrite Ei in Hk. mstep Hk.
    eapply (kfree_eq _ i (set_available 0 e)); cbn;
      [apply Hwf|destruct Hwf; lia|by destruct Hidle|done|done|].
    rewrite list_lookup_alter_eq, He. done.
  - cbn. rewrite cpu_cs_cs. split_and!; try done. destruct Hwf, Hidle.
    pose proof (count_le is_avail (core_map (k_kmem s))).
    pose proof (count_nonneg is_avail (core_map (k_kmem s))). unfold navail in *.
    unfold kmem_give; cbn. rewrite !i32_small by lia.
    rewrite list_alter_alter_eq, <- (alter_insert _ _ _ _ He). unfold compose; cbn.
    destruct (k_kmem s); cbv -[Z.add Z.sub insert list_insert]. f_equal; lia.
Qed.

(** the 2GB limit is off by one overflow.  [detect_memory] caps memory at
    2GB, but [mem_init] multiplies [npages] by [PGSIZE] in [int]: on a machine
    whose memory map reaches 2GB the product wraps, [freerange] is given an
    empty range and not a single page is available when [mem_init] returns. *)
Theorem mem_init_2GB_frees_nothing (s : kstate) (vstart : Z) (entries : list e820_entry)
    (Hmem : 2 ^ 31 <= detect_loop entries 0)
    (Hv : KERNBASE <= vstart < KERNBASE + 2 ^ 30) :
  exists s', (detect_memory entries ;; mem_init vstart) s = Done tt s' /\
    npages (k_kmem s') = 2 ^ 19 /\ navail (core_map (k_kmem s')) = 0.
Proof.
  unfold detect_memory. rewrite bind_upd_kmem.
  change mem_max with (2 ^ 31). rewrite Z.min_r by lia.
  change (i32 (2 ^ 31 / PGSIZE)) with (2 ^ 19).
  unfold mem_init; msimp. rewrite bind_upd_kmem. unfold initlock; msimp. rewrite bind_upd_kmem.
  cbn [npages k_kmem set_k_kmem set_npages].
  change (PGROUNDUP (u64 (2 ^ 19 * sizeof_core_map_entry))) with (2 ^ 23).
  change (P2V (npages_bytes (2 ^ 19))) with 0xFFFFFFFF00000000.
  unfold KERNBASE in Hv. rewrite (u64_small (vstart + 2 ^ 23)) by lia.
  assert (Hp : 0xFFFFFFFF80000000 <= PGROUNDUP (vstart + 2 ^ 23) < 2 ^ 64 - 4096)
    by (rewrite PGROUNDUP_eq by lia; dlia).
  unfold freerange. set (p := PGROUNDUP _) in *. cbn [freerange_loop].
  unfold PGSIZE. rewrite (u64_small (p + 4096)) by lia.
  destruct (Z.leb_spec (p + 4096) 0xFFFFFFFF00000000); [lia|]. msimp.
  rewrite !bind_upd_kmem. eexists. split; [reflexivity|]. cbn.
  split; [done|]. unfold navail. by rewrite count_replicate.
Qed.

(** ** Concrete instances *)

(** A machine of [n + 2] pages, the first two of which hold the kernel. *)
Definition small_kmem (n : nat) : kmem :=
  mk_kmem zero_lock true (Z.of_nat (n + 2)) 0 0 (Z.of_nat n)
    (replicate 2 (mk_core_map_entry 0 0 0) ++ replicate n (mk_core_map_entry 1 0 0))
    1 (KERNBASE + 0x1000) (KERNBASE + 0x1000).

Definition small_state (n : nat) : kstate :=
  set_k_kmem (small_kmem n) (zero_state (KERNBASE + 0x1000) ∅).

Lemma small_kmem_wf n : Z.of_nat n < 2 ^ 18 -> kmem_wf (Z.of_nat n) (small_kmem n).
Proof.
  intros Hn. split; cbn [small_kmem npages core_map free_pages pages_in_use k_end]; try lia.
  - rewrite length_app, !length_replicate. lia.
  - unfold navail. rewrite count_app, !count_replicate. done.
  - unfold KERNBASE. lia.
  - intros i e H Ha. pose proof (lookup_lt_Some _ _ _ H) as Hl.
    rewrite length_app, !length_replicate in Hl. rewrite P2V_low by lia.
    destruct i as [|i]; [cbn in H; by simplify_eq|]. lia.
Qed.

Lemma small_kmem_idle n : kmem_idle (small_kmem n).
Proof. done. Qed.

Lemma zero_cpu_ok : cpu_ok zero_cpu.
Proof. split; [cbn; lia|done]. Qed.

Lemma mem_init_establishes_wf_witness :
  exists s', mem_init (KERNBASE + 0x1800) (set_k_kmem (set_npages 16 (zero_kmem (KERNBASE + 0x1800)))
                        (zero_state 0 ∅)) = Done tt s' /\
    kmem_wf 13 (k_kmem s') /\ kmem_idle (k_kmem s').
Proof.
  destruct (mem_init_establishes_wf
    (set_k_kmem (set_npages 16 (zero_kmem (KERNBASE + 0x1800))) (zero_state 0 ∅))
    (KERNBASE + 0x1800) 16) as (s' & H1 & H2 & H3 & _);
    [done|lia|done|unfold KERNBASE; lia|reflexivity|].
  exists s'. split; [exact H1|]. split; [exact H2|exact H3].
Defined.

Lemma kalloc_correct_witness :
  exists v km', kalloc (small_state 4) = Done v (set_k_cpu zero_cpu (set_k_kmem km' (small_state 4))) /\
    kmem_wf 4 km'.
Proof.
  destruct (kalloc_correct (small_state 4) 4) as (v & km' & H1 & H2 & _);
    [apply (small_kmem_wf 4); lia|apply small_kmem_idle|apply zero_cpu_ok|].
  exists v, km'. split; [exact H1|exact H2].
Defined.

Lemma kalloc_kfree_roundtrip_witness :
  exists i s', (v <- kalloc ;; kfree v) (small_state 4) = Done tt s' /\
    k_frames s' = <[Z.of_nat i := junk]> ∅.
Proof.
  destruct (kalloc_kfree_roundtrip (small_state 4) 4) as (i & e & s' & H1 & _ & _ & _ & H2 & _);
    [apply (small_kmem_wf 4); lia|apply small_kmem_idle|apply zero_cpu_ok|reflexivity|].
  exists i, s'. split; [exact H1|exact H2].
Defined.

Lemma mem_init_2GB_frees_nothing_witness :
  exists s', (detect_memory [mk_e820_entry 0x100000 0x80000000 1] ;; mem_init (KERNBASE + 0x200000))
    (zero_state (KERNBASE + 0x200000) ∅) = Done tt s' /\ navail (core_map (k_kmem s')) = 0.
Proof.
  destruct (mem_init_2GB_frees_nothing (zero_state (KERNBASE + 0x200000) ∅) (KERNBASE + 0x200000)
              [mk_e820_entry 0x100000 0x80000000 1]) as (s' & H1 & _ & H2);
    [vm_compute; discriminate|unfold KERNBASE; lia|].
  exists s'. split; [exact H1|exact H2].
Defined.
