(* ===== verification/Boot.v ===== *)
(** * The boot loader: [kernel/bootasm.S], [kernel/bootmain.c], [kernel/e820.c]

    From the BIOS to the kernel: the loop of [bootasm.S] that stores the
    memory map, [bootmain], which reads the kernel off the disk and hands the
    map over, and [e820_init], with which the kernel reads it.  The BIOS and
    the disk are interfaces.  The rest of [bootasm.S] (the switch to protected
    mode) is not modelled. *)

From S2P Require Import Prelude Types Mmu Hw Kalloc.

(** ** [bootasm.S]: the memory map *)

Definition MULTIBOOT_PADDR : Z := 0x9000.

(** What [int $0x15] with function E820 answers for a continuation value: the
    carry flag, or the 20 bytes that it wrote, the size and the next value. *)
Definition bios := Z -> option (list Z * Z * Z).

(** The bytes of a list, one after the other. *)
Fixpoint st_bytes (a : Z) (bs : list Z) : M hw unit :=
  match bs with
  | [] => ret tt
  | b :: bs => stb a b ;; st_bytes (a + 1) bs
  end.

(** From label [e820_loop] to [e820_end], with [%ebx] and [%di]; the result is [%di]. *)
Fixpoint e820_asm (fuel : nat) (B : bios) (ebx di : Z) : M hw Z :=
  match fuel with
  | O => diverge
  | S fuel =>
      stl di 20 ;;
      let di := u16 (di + 4) in
      match B ebx with
      | None => ret di
      | Some (payload, cx, ebx) =>
          st_bytes di payload ;;
          let di := if 20 <? cx then di else u16 (di + 20) in
          if negb (ebx =? 0) then e820_asm fuel B ebx di else ret di
      end
  end.

(** The value stored in [mbi]: the upper half of [%edi] is as the BIOS left it. *)
Definition boot_mbi (fuel : nat) (B : bios) (edi_high : Z) : M hw Z :=
  di <- e820_asm fuel B 0 MULTIBOOT_PADDR ;;
  ret (Z.lor (Z.shiftl edi_high 16) di).

(** ** [bootmain.c] *)

Definition MULTIBOOT_HEADER_MAGIC : Z := 0x1BADB002.
Definition MULTIBOOT_BOOTLOADER_MAGIC : Z := 0x2BADB002.
Definition MULTIBOOT_INFO_MEM_MAP : Z := 0x00000040.
Definition SECTSIZE : Z := 512.

(** Offsets in [struct multiboot_header] and [struct multiboot_info]. *)
Definition hdr_header_addr : Z := 12.
Definition hdr_load_addr : Z := 16.
Definition hdr_load_end_addr : Z := 20.
Definition hdr_bss_end_addr : Z := 24.
Definition hdr_entry_addr : Z := 28.
Definition mbi_flags : Z := 0.
Definition mbi_mmap_length : Z := 44.
Definition mbi_mmap_addr : Z := 48.

(** The place where the first sectors are read. *)
Definition boot_elf : Z := 0x10000.

Section bootmain.
Context `{D : devices}.

(** A 32-bit read of a port, and [insl]. *)
Definition inl (port : Z) : M hw Z :=
  v <- gets (fun h => u32 (port_in (trace h) port)) ;;
  emit (In port v) ;;
  ret v.

Fixpoint insl (cnt : nat) (port addr : Z) : M hw unit :=
  match cnt with
  | O => ret tt
  | S cnt => v <- inl port ;; stl addr v ;; insl cnt port (u32 (addr + 4))
  end.

Fixpoint boot_stosb (cnt : nat) (addr data : Z) : M hw unit :=
  match cnt with
  | O => ret tt
  | S cnt => stb addr data ;; boot_stosb cnt (u32 (addr + 1)) data
  end.

Fixpoint waitdisk (fuel : nat) : M hw unit :=
  match fuel with
  | O => diverge
  | S fuel =>
      v <- inb 0x1F7 ;;
      if negb (Z.land v 0xC0 =? 0x40) then waitdisk fuel else ret tt
  end.

Definition readsect (fuel : nat) (dst offset : Z) : M hw unit :=
  waitdisk fuel ;;
  outb 0x1F2 1 ;;
  outb 0x1F3 offset ;;
  outb 0x1F4 (Z.shiftr offset 8) ;;
  outb 0x1F5 (Z.shiftr offset 16) ;;
  outb 0x1F6 (Z.lor (Z.shiftr offset 24) 0xE0) ;;
  outb 0x1F7 0x20 ;;
  waitdisk fuel ;;
  insl (Z.to_nat (SECTSIZE / 4)) 0x1F0 dst.

(** The loop of [readseg]; [n] bounds the number of sectors. *)
Fixpoint readseg_loop (n : nat) (fuel : nat) (pa epa offset : Z) : M hw unit :=
  match n with
  | O => diverge
  | S n =>
      if pa <? epa
      then readsect fuel pa offset ;; readseg_loop n fuel (u32 (pa + SECTSIZE)) epa (u32 (offset + 1))
      else ret tt
  end.

Definition readseg (n fuel : nat) (pa count offset : Z) : M hw unit :=
  let epa := u32 (pa + count) in
  let pa := u32 (pa - offset mod SECTSIZE) in
  let offset := u32 (offset / SECTSIZE + 1) in
  readseg_loop n fuel pa epa offset.

(** [for (n = 0; n < 8192 / 4; n++) if (elf[n] == MULTIBOOT_HEADER_MAGIC) goto found_it;] *)
Fixpoint find_header (rest : nat) (n : Z) : M hw (option Z) :=
  match rest with
  | O => ret None
  | S rest =>
      v <- ldl (boot_elf + 4 * n) ;;
      if v =? MULTIBOOT_HEADER_MAGIC then ret (Some n) else find_header rest (n + 1)
  end.

(** The registers at the jump to the kernel: the magic number, the address of
    the information and the entry point; nothing if there is no header. *)
Definition bootmain (n fuel : nat) (mbi : Z) : M hw (option (Z * Z * Z)) :=
  readseg n fuel boot_elf 8192 0 ;;
  o <- find_header (Z.to_nat (8192 / 4)) 0 ;;
  match o with
  | None => ret None
  | Some k =>
      let hdr := boot_elf + 4 * k in
      load_addr <- ldl (hdr + hdr_load_addr) ;;
      load_end_addr <- ldl (hdr + hdr_load_end_addr) ;;
      header_addr <- ldl (hdr + hdr_header_addr) ;;
      readseg n fuel load_addr (u32 (load_end_addr - load_addr)) (u32 (4 * k - (header_addr - load_addr))) ;;
      bss_end_addr <- ldl (hdr + hdr_bss_end_addr) ;;
      load_end_addr <- ldl (hdr + hdr_load_end_addr) ;;
      (if load_end_addr <? bss_end_addr
       then boot_stosb (Z.to_nat (bss_end_addr - load_end_addr)) load_end_addr 0
       else ret tt) ;;
      entry <- ldl (hdr + hdr_entry_addr) ;;
      stl (mbi + mbi_flags) MULTIBOOT_INFO_MEM_MAP ;;
      stl (mbi + mbi_mmap_length) (Z.land mbi (4096 - 1)) ;;
      len <- ldl (mbi + mbi_mmap_length) ;;
      stl (mbi + mbi_mmap_addr) (u32 (mbi - len)) ;;
      ret (Some (MULTIBOOT_BOOTLOADER_MAGIC, mbi, entry))
  end.

End bootmain.

(** ** [e820_init] *)

Definition E820_NR_MAX : Z := 64.
Definition sizeof_mmap_entry : Z := 24.

(** [struct multiboot_mmap_entry]: the size, and an entry of the map. *)
Definition ld_entry (addr : Z) : M hw (Z * e820_entry) :=
  size <- ldl addr ;;
  a <- ldq (addr + 4) ;;
  len <- ldq (addr + 12) ;;
  type <- ldl (addr + 20) ;;
  ret (size, mk_e820_entry a len type).

(** The loop from the [i]th entry on: the entries that it saves.  The second
    assertion bounds it. *)
Fixpoint e820_loop (fuel : nat) (i addr addr_end : Z) : M hw (list e820_entry) :=
  match fuel with
  | O => diverge
  | S fuel =>
      if addr <? addr_end then
        assertm (sizeof_mmap_entry <=? u64 (addr_end - addr)) "assertion failed" ;;
        assertm (i <? E820_NR_MAX) "assertion failed" ;;
        let* (size, e) := ld_entry addr in
        es <- e820_loop fuel (i + 1) (u64 (addr + u32 (size + 4))) addr_end ;;
        ret (e :: es)
      else ret []
  end.

(** The entries of [e820_map], and [mmap_addr] and [mmap_length]. *)
Definition e820_init (mbi : Z) : M hw (list e820_entry * Z * Z) :=
  flags <- ldl (mbi + mbi_flags) ;;
  assertm (truthy (Z.land flags MULTIBOOT_INFO_MEM_MAP)) "assertion failed" ;;
  addr <- ldl (mbi + mbi_mmap_addr) ;;
  len <- ldl (mbi + mbi_mmap_length) ;;
  es <- e820_loop (S (S (Z.to_nat E820_NR_MAX))) 0 addr (u32 (addr + len)) ;;
  ret (es, addr, len).

(** ** Memory *)

(** [n] bytes from [a] on replaced by those of [src]. *)
Definition overlay (a n : Z) (src : Z -> Z) (r : Z -> option Z) (x : Z) : option Z :=
  if (a <=? x) && (x <? a + n) then Some (src (x - a)) else r x.

(** From [h] to [h'] only the trace changes, and memory as told. *)
Definition ram_step (h h' : hw) (f : Z -> option Z) : Prop :=
  exists tr r, h' = set_trace tr (set_ram r h) /\ forall x, r x = f x.

Definition there (r : Z -> option Z) (a n : Z) : Prop := forall x, a <= x < a + n -> is_Some (r x).

Lemma ram_step_refl h : ram_step h h (ram h).
Proof. exists (trace h), (ram h). split; [by destruct h|done]. Qed.

Lemma ram_step_ram h h' f x : ram_step h h' f -> ram h' x = f x.
Proof. intros (tr & r & -> & H). apply H. Qed.

Lemma ram_step_trans h h1 h2 f g :
  ram_step h h1 f -> ram_step h1 h2 g -> ram_step h h2 g.
Proof. intros (tr & r & -> & _) (tr' & r' & -> & H). by exists tr', r'. Qed.

Lemma ram_step_ext h h' f g : ram_step h h' f -> (forall x, f x = g x) -> ram_step h h' g.
Proof. intros (tr & r & -> & H) E. exists tr, r. split; [done|]. intros x. by rewrite H. Qed.

Lemma there_sub r a n b m : there r a n -> a <= b -> b + m <= a + n -> there r b m.
Proof. intros H ?? x Hx. apply H. lia. Qed.

Lemma there_step h h' a n src b m :
  ram_step h h' (overlay a n src (ram h)) -> there (ram h) b m -> there (ram h') b m.
Proof.
  intros Hs H x Hx. rewrite (ram_step_ram _ _ _ x Hs). unfold overlay. destruct (_ && _); [by eexists|by apply H].
Qed.

Lemma overlay_in a n src r x : a <= x < a + n -> overlay a n src r x = Some (src (x - a)).
Proof. intros H. unfold overlay. replace (a <=? x) with true by (symmetry; apply Z.leb_le; lia).
  by replace (x <? a + n) with true by (symmetry; apply Z.ltb_lt; lia). Qed.

Lemma overlay_out a n src r x : x < a \/ a + n <= x -> overlay a n src r x = r x.
Proof.
  intros H. unfold overlay. destruct (Z.leb_spec a x), (Z.ltb_spec x (a + n)); cbn; try done; lia.
Qed.

Lemma overlay_ext a n f g r r' x :
  (forall i, 0 <= i < n -> f i = g i) -> (forall y, r y = r' y) -> overlay a n f r x = overlay a n g r' x.
Proof.
  intros Hf Hr. unfold overlay. destruct (Z.leb_spec a x), (Z.ltb_spec x (a + n)); cbn; try done. f_equal. apply Hf. lia.
Qed.

Lemma stb_eq a v h : is_Some (ram h a) -> stb a v h = Done tt (set_ram (ram_set a (u8 v) (ram h)) h).
Proof. intros [b H]. unfold stb. msimp. by rewrite H. Qed.

Lemma stb_step a v h : is_Some (ram h a) ->
  exists h', stb a v h = Done tt h' /\ ram_step h h' (overlay a 1 (fun _ => u8 v) (ram h)) /\ trace h' = trace h.
Proof.
  intros H. eexists. split; [by apply stb_eq|]. split; [|done]. exists (trace h), (ram_set a (u8 v) (ram h)).
  split; [by destruct h|]. intros x. unfold ram_set, overlay.
  destruct (Z.eqb_spec x a), (Z.leb_spec a x), (Z.ltb_spec x (a + 1)); cbn; done || lia.
Qed.

(** The bytes of a little-endian number. *)
Definition byte_le (v : Z) (i : Z) : Z := v / 2 ^ (8 * i) mod 2 ^ 8.

(** Writing one range after another. *)
Lemma overlay_seq a n m f g r x :
  0 <= n -> 0 <= m ->
  overlay (a + n) m g (overlay a n f r) x = overlay a (n + m) (fun i => if i <? n then f i else g (i - n)) r x.
Proof.
  intros Hn Hm. unfold overlay.
  destruct (Z.leb_spec (a + n) x), (Z.ltb_spec x (a + n + m)), (Z.leb_spec a x), (Z.ltb_spec x (a + n)),
    (Z.ltb_spec x (a + (n + m))), (Z.ltb_spec (x - a) n); cbn [andb]; try lia; try done. do 2 f_equal. lia.
Qed.

Lemma ram_step_seq h h1 h2 a n p f g :
  ram_step h h1 (overlay a n f (ram h)) -> ram_step h1 h2 (overlay (a + n) p g (ram h1)) -> 0 <= n -> 0 <= p ->
  ram_step h h2 (overlay a (n + p) (fun i => if i <? n then f i else g (i - n)) (ram h)).
Proof.
  intros Hs Hs2 Hn Hp. eapply ram_step_ext; [exact (ram_step_trans _ _ _ _ _ Hs Hs2)|]. intros x.
  rewrite <- overlay_seq by done. apply overlay_ext; [done|]. intros y. exact (ram_step_ram _ _ _ y Hs).
Qed.

Lemma stw_step a v h : there (ram h) a 2 ->
  exists h', stw a v h = Done tt h' /\ ram_step h h' (overlay a 2 (byte_le v) (ram h)) /\ trace h' = trace h.
Proof.
  intros H. destruct (stb_step a v h) as (h1 & H1 & S1 & T1); [apply H; lia|].
  destruct (stb_step (a + 1) (Z.shiftr v 8) h1) as (h2 & H2 & S2 & T2); [by eapply there_step; [exact S1|exact H|lia]|].
  exists h2. split; [unfold stw, stl; mstep H1; exact H2|]. split; [|congruence].
  eapply ram_step_ext; [apply (ram_step_seq _ _ _ a 1 1 _ _ S1 S2); lia|]. intros x.
  apply overlay_ext; [|done]. intros i Hi. unfold byte_le. destruct (Z.ltb_spec i 1).
  - replace i with 0 by lia. change (2 ^ (8 * 0)) with 1. by rewrite Z.div_1_r.
  - replace i with 1 by lia. by rewrite Z.shiftr_div_pow2.
Qed.

Lemma byte_le_shift v k i : 0 <= i -> 0 <= k -> byte_le (Z.shiftr v (8 * k)) i = byte_le v (k + i).
Proof.
  intros Hi Hk. unfold byte_le. rewrite Z.shiftr_div_pow2, Z.div_div by lia. rewrite <- Z.pow_add_r by lia.
  do 3 f_equal. lia.
Qed.

Lemma stl_step a v h : there (ram h) a 4 ->
  exists h', stl a v h = Done tt h' /\ ram_step h h' (overlay a 4 (byte_le v) (ram h)) /\ trace h' = trace h.
Proof.
  intros H. destruct (stw_step a v h) as (h1 & H1 & S1 & T1); [by eapply there_sub; [exact H|lia..]|].
  destruct (stw_step (a + 2) (Z.shiftr v 16) h1) as (h2 & H2 & S2 & T2).
  { eapply there_step; [exact S1|]. eapply there_sub; [exact H|lia..]. }
  exists h2. split; [unfold stw, stl; mstep H1; exact H2|]. split; [|congruence].
  eapply ram_step_ext; [apply (ram_step_seq _ _ _ a 2 2 _ _ S1 S2); lia|]. intros x.
  apply overlay_ext; [|done]. intros i Hi. destruct (Z.ltb_spec i 2); [done|].
  rewrite (byte_le_shift v 2) by lia. f_equal. lia.
Qed.

Lemma ldl_bytes h a v :
  0 <= v < 2 ^ 32 -> (forall i, 0 <= i < 4 -> ram h (a + i) = Some (byte_le v i)) -> ldl a h = Done v h.
Proof.
  intros Hv H. apply ldl_eq; [done|]. unfold bytes32, bytes16. cbn [app].
  pose proof (H 0 ltac:(lia)) as H0. pose proof (H 1 ltac:(lia)) as H1.
  pose proof (H 2 ltac:(lia)) as H2. pose proof (H 3 ltac:(lia)) as H3.
  unfold byte_le in *. rewrite Z.add_0_r in H0. change (2 ^ (8 * 0)) with 1 in H0. rewrite Z.div_1_r in H0.
  rewrite !ram_holds_cons. rewrite <- !Z.add_assoc, !Z.div_div by lia. split_and!; try done.
Qed.

Lemma byte_le_range v i : 0 <= byte_le v i < 2 ^ 8.
Proof. unfold byte_le. apply Z.mod_pos_bound. lia. Qed.

(** Four bytes of an image as a number, and its bytes again. *)
Definition dword (img : Z -> Z) (o : Z) : Z := img o + 2 ^ 8 * img (o + 1) + 2 ^ 16 * img (o + 2) + 2 ^ 24 * img (o + 3).

Definition image (img : Z -> Z) : Prop := forall o, 0 <= img o < 2 ^ 8.

Lemma dword_range img o : image img -> 0 <= dword img o < 2 ^ 32.
Proof. intros H. unfold dword. pose proof (H o). pose proof (H (o + 1)). pose proof (H (o + 2)). pose proof (H (o + 3)). lia. Qed.

Lemma dword_byte img o i : image img -> 0 <= i < 4 -> byte_le (dword img o) i = img (o + i).
Proof.
  intros H Hi. unfold dword, byte_le. pose proof (H o). pose proof (H (o + 1)). pose proof (H (o + 2)). pose proof (H (o + 3)).
  assert (i = 0 \/ i = 1 \/ i = 2 \/ i = 3) as [-> | [-> | [-> | ->]]] by lia; rewrite ?Z.add_0_r.
  - change (2 ^ (8 * 0)) with 1. dlia.
  - change (2 ^ (8 * 1)) with 256. dlia.
  - change (2 ^ (8 * 2)) with 65536. dlia.
  - change (2 ^ (8 * 3)) with 16777216. dlia.
Qed.

(** ** The disk *)

(** The sector that the last command asked for, and the number of 32-bit
    words of it that were read since. *)
Definition lba (ws : list (Z * Z)) : Z :=
  let o p := default 0 (latest ws p) in
  o 0x1F3 + 2 ^ 8 * o 0x1F4 + 2 ^ 16 * o 0x1F5 + 2 ^ 24 * (o 0x1F6 mod 2 ^ 4).

Fixpoint disk_state (tr : list access) : option (Z * Z) :=
  match tr with
  | [] => None
  | Out p v :: tr =>
      if p =? 0x1F7 then if v =? 0x20 then Some (lba (outs tr), 0) else None else disk_state tr
  | In p _ :: tr =>
      if p =? 0x1F0 then '(s, k) ← disk_state tr; Some (s, k + 1) else disk_state tr
  | _ :: tr => disk_state tr
  end.

Section disk.
Context `{D : devices}.

(** The trace after [n] reads of a port. *)
Fixpoint polled_port (n : nat) (p : Z) (tr : list access) : list access :=
  match n with
  | O => tr
  | S n => let tr := polled_port n p tr in In p (u8 (port_in tr p)) :: tr
  end.

(** A disk with the contents [img]: it gets ready sooner than the [n]th poll,
    and gives the words of the sector asked for one after the other. *)
Record has_disk (img : Z -> Z) (n : nat) : Prop := {
  disk_ready : forall tr, exists k, (k < n)%nat /\ Z.land (u8 (port_in (polled_port k 0x1F7 tr) 0x1F7)) 0xC0 = 0x40;
  disk_data : forall tr s k, disk_state tr = Some (s, k) -> 0 <= k < 128 ->
    port_in tr 0x1F0 = dword img (512 * s + 4 * k)
}.

Lemma polled_port_shift n p tr : polled_port n p (In p (u8 (port_in tr p)) :: tr) = polled_port (S n) p tr.
Proof. induction n as [|n IH]; [done|]. cbn [polled_port] in *. by rewrite IH. Qed.

Lemma waitdisk_eq n k h :
  (k < n)%nat -> Z.land (u8 (port_in (polled_port k 0x1F7 (trace h)) 0x1F7)) 0xC0 = 0x40 ->
  exists l, waitdisk n h = Done tt (log l h) /\ outs l = [] /\
    forall tr, disk_state (l ++ tr) = disk_state tr.
Proof.
  revert k h. induction n as [|n IH]; intros k h Hk Hc; [lia|]. cbn [waitdisk].
  mstep (inb_eq 0x1F7 h). set (v := u8 (port_in (trace h) 0x1F7)) in *.
  destruct (Z.eqb_spec (Z.land v 0xC0) 0x40) as [E|E]; cbn [negb].
  { exists [In 0x1F7 v]. split; [done|]. split; [done|]. intros tr. reflexivity. }
  destruct k as [|k]; [done|]. set (h1 := log _ h).
  destruct (IH k h1) as (l & Hl & Ho & Hs); [lia|by rewrite <- polled_port_shift in Hc|].
  exists (l ++ [In 0x1F7 v]). rewrite Hl, outs_app, Ho. split; [unfold h1; by rewrite log_log|].
  split; [done|]. intros tr. by rewrite <- app_assoc, Hs.
Qed.

Lemma ram_step_log l h : ram_step h (log l h) (ram h).
Proof. exists (l ++ trace h), (ram h). split; [by destruct h|done]. Qed.

(** A step that leaves memory alone before another. *)
Lemma ram_step_after h h1 h2 a n f :
  ram_step h h1 (ram h) -> ram_step h1 h2 (overlay a n f (ram h1)) -> ram_step h h2 (overlay a n f (ram h)).
Proof.
  intros H1 H2. eapply ram_step_ext; [exact (ram_step_trans _ _ _ _ _ H1 H2)|]. intros x.
  apply overlay_ext; [done|]. intros y. exact (ram_step_ram _ _ _ y H1).
Qed.

Lemma insl_eq img n cnt s k addr h :
  has_disk img n -> image img -> disk_state (trace h) = Some (s, k) -> 0 <= k -> k + Z.of_nat cnt <= 128 ->
  there (ram h) addr (4 * Z.of_nat cnt) -> 0 <= addr -> addr + 4 * Z.of_nat cnt < 2 ^ 32 ->
  exists h', insl cnt 0x1F0 addr h = Done tt h' /\
    ram_step h h' (overlay addr (4 * Z.of_nat cnt) (fun i => img (512 * s + 4 * k + i)) (ram h)).
Proof.
  intros Hd Hi. revert k addr h. induction cnt as [|cnt IH]; intros k addr h Hs Hk Hc Ht Ha Hb.
  { exists h. split; [done|]. eapply ram_step_ext; [apply ram_step_refl|]. intros x. by rewrite overlay_out by lia. }
  cbn [insl]. unfold inl. pose proof (disk_data img n Hd _ _ _ Hs ltac:(lia)) as Hv.
  pose proof (dword_range img (512 * s + 4 * k) Hi).
  erewrite bind_done by (msimp; rewrite Hv, u32_small by done; reflexivity). cbv beta.
  set (v := dword img _) in *. set (h1 := log [In 0x1F0 v] h).
  change (set_trace (In 0x1F0 v :: trace h) h) with h1.
  destruct (stl_step addr v h1) as (h2 & H2 & S2 & T2); [by eapply there_sub; [exact Ht|lia..]|].
  mstep H2. rewrite u32_small by lia.
  destruct (IH (k + 1) (addr + 4) h2) as (h3 & H3 & S3); [|lia|lia| |lia|lia|].
  { rewrite T2. unfold h1. cbn. by rewrite Hs. }
  { eapply there_step; [exact S2|]. eapply there_sub; [exact Ht|lia..]. }
  exists h3. split; [done|]. eapply ram_step_ext.
  { eapply ram_step_after; [apply (ram_step_log [In 0x1F0 v])|].
    exact (ram_step_seq h1 h2 h3 addr 4 (4 * Z.of_nat cnt) _ _ S2 S3 ltac:(lia) ltac:(lia)). }
  intros x. replace (4 * Z.of_nat (S cnt)) with (4 + 4 * Z.of_nat cnt) by lia.
  apply overlay_ext; [|done]. intros i Hx. destruct (Z.ltb_spec i 4).
  - unfold v. rewrite dword_byte by (first [done|lia]). done.
  - f_equal. lia.
Qed.

Lemma lba_outs offset ws :
  0 <= offset < 2 ^ 28 ->
  lba ([(0x1F6, u8 (Z.lor (Z.shiftr offset 24) 0xE0)); (0x1F5, u8 (Z.shiftr offset 16));
        (0x1F4, u8 (Z.shiftr offset 8)); (0x1F3, u8 offset)] ++ ws) = offset.
Proof.
  intros Ho. unfold lba. cbn [app latest]. cbn [Z.eqb Pos.eqb from_option id].
  rewrite !Z.shiftr_div_pow2 by lia. rewrite Z.lor_comm. change 0xE0 with (Z.shiftl 14 4).
  rewrite lor_shiftl_add by dlia. word.
Qed.

(** One sector. *)
Lemma readsect_eq img n dst offset h :
  has_disk img n -> image img -> 0 <= offset < 2 ^ 28 -> there (ram h) dst 512 -> 0 <= dst -> dst + 512 < 2 ^ 32 ->
  exists h', readsect n dst offset h = Done tt h' /\
    ram_step h h' (overlay dst 512 (fun i => img (512 * offset + i)) (ram h)).
Proof.
  intros Hd Hi Ho Ht Ha Hb. unfold readsect.
  destruct (disk_ready img n Hd (trace h)) as (k1 & Hk1 & Hz1).
  destruct (waitdisk_eq n k1 h Hk1 Hz1) as (l1 & H1 & _ & _). mstep H1.
  do 6 mstep (outb_eq _ _ _). rewrite !log_log. cbn [app].
  set (l2 := Out 0x1F7 _ :: _). set (h2 := log l2 h).
  destruct (disk_ready img n Hd (trace h2)) as (k3 & Hk3 & Hz3).
  destruct (waitdisk_eq n k3 h2 Hk3 Hz3) as (l3 & H3 & _ & Hs3). mstep H3. unfold h2. rewrite log_log.
  destruct (insl_eq img n 128 offset 0 dst (log (l3 ++ l2) h)) as (h' & H4 & S4); try done; try lia.
  { cbn [trace log set_trace]. rewrite <- app_assoc, Hs3. unfold l2. cbn [app disk_state].
    change (0x1F7 =? 0x1F7) with true. change (u8 0x20 =? 0x20) with true. cbv iota. do 2 f_equal.
    cbn [outs omap list_omap]. exact (lba_outs offset _ Ho). }
  exists h'. split; [exact H4|]. eapply ram_step_ext; [eapply ram_step_after; [apply ram_step_log|exact S4]|].
  intros x. apply overlay_ext; [|done]. intros i _. f_equal. lia.
Qed.

Lemma readseg_loop_eq img n k fuel pa epa offset h :
  has_disk img n -> image img -> (k < fuel)%nat -> epa <= pa + 512 * Z.of_nat k ->
  (k <> 0%nat -> pa + 512 * (Z.of_nat k - 1) < epa) ->
  0 <= offset -> offset + Z.of_nat k < 2 ^ 28 -> there (ram h) pa (512 * Z.of_nat k) -> 0 <= pa ->
  pa + 512 * Z.of_nat k < 2 ^ 32 ->
  exists h', readseg_loop fuel n pa epa offset h = Done tt h' /\
    ram_step h h' (overlay pa (512 * Z.of_nat k) (fun i => img (512 * offset + i)) (ram h)).
Proof.
  intros Hd Hi. revert fuel pa offset h.
  induction k as [|k IH]; intros [|fuel] pa offset h Hf He Hk Ho1 Ho2 Ht Hp1 Hp2; [lia| |lia|]; cbn [readseg_loop].
  { replace (pa <? epa) with false by (symmetry; apply Z.ltb_ge; lia). exists h. split; [done|].
    eapply ram_step_ext; [apply ram_step_refl|]. intros x. by rewrite overlay_out by lia. }
  specialize (Hk ltac:(done)). replace (pa <? epa) with true by (symmetry; apply Z.ltb_lt; lia).
  destruct (readsect_eq img n pa offset h) as (h1 & H1 & S1); try done; try lia; [by eapply there_sub; [exact Ht|lia..]|].
  mstep H1. unfold SECTSIZE. rewrite !u32_small by lia.
  destruct (IH fuel (pa + 512) (offset + 1) h1) as (h2 & H2 & S2); try lia.
  { eapply there_step; [exact S1|]. eapply there_sub; [exact Ht|lia..]. }
  exists h2. split; [exact H2|].
  eapply ram_step_ext; [exact (ram_step_seq h h1 h2 pa 512 (512 * Z.of_nat k) _ _ S1 S2 ltac:(lia) ltac:(lia))|].
  intros x. replace (512 * Z.of_nat (S k)) with (512 + 512 * Z.of_nat k) by lia.
  apply overlay_ext; [|done]. intros i Hx. destruct (Z.ltb_spec i 512); [done|]. f_equal. lia.
Qed.

(** The sectors that hold [count] bytes at [offset]. *)
Definition sectors (count offset : Z) : Z := (offset mod 512 + count + 511) / 512.

Lemma readseg_eq img n fuel pa count offset h :
  let d := offset mod 512 in
  let k := sectors count offset in
  has_disk img n -> image img -> 0 <= count -> 0 <= offset -> d <= pa -> pa - d + 512 * k < 2 ^ 32 ->
  offset / 512 + 1 + k < 2 ^ 28 -> (Z.to_nat k < fuel)%nat -> there (ram h) (pa - d) (512 * k) ->
  exists h', readseg fuel n pa count offset h = Done tt h' /\
    ram_step h h' (overlay (pa - d) (512 * k) (fun i => img (512 + (offset - d) + i)) (ram h)).
Proof.
  intros d k Hd Hi Hc Ho Hp Hb Hs Hf Ht. unfold readseg, SECTSIZE. fold d.
  assert (0 <= d < 512) by (unfold d; dlia). assert (0 <= k /\ d + count <= 512 * k) as [Hk0 Hk1]
    by (unfold k, sectors; fold d; dlia).
  assert (k <> 0 -> 512 * (k - 1) < d + count) by (unfold k, sectors; fold d; dlia).
  rewrite !u32_small by dlia.
  destruct (readseg_loop_eq img n (Z.to_nat k) fuel (pa - d) (pa + count) (offset / 512 + 1) h)
    as (h' & H' & S'); rewrite ?Z2Nat.id by lia; try done; try dlia.
  exists h'. split; [exact H'|]. rewrite Z2Nat.id in S' by lia. eapply ram_step_ext; [exact S'|].
  intros x. apply overlay_ext; [|done]. intros i Hx. f_equal. unfold d. dlia.
Qed.

(** ** The kernel on the disk *)

(** The image [img] has, in the 8192 bytes after the first sector, a multiboot
    header, at word [k] and no earlier, that describes a kernel whose [le - la]
    bytes from offset [off] on go to [la] and whose memory is cleared from
    [le] to [be]. *)
Record kernel_image (img : Z -> Z) (k la le be entry off : Z) : Prop := {
  ki_bytes : image img;
  ki_k : 0 <= k /\ 4 * k + 32 <= 8192;
  ki_magic : dword img (512 + 4 * k) = MULTIBOOT_HEADER_MAGIC;
  ki_first : forall j, 0 <= j < k -> dword img (512 + 4 * j) <> MULTIBOOT_HEADER_MAGIC;
  ki_la : dword img (512 + 4 * k + hdr_load_addr) = la;
  ki_le : dword img (512 + 4 * k + hdr_load_end_addr) = le;
  ki_be : dword img (512 + 4 * k + hdr_bss_end_addr) = be;
  ki_entry : dword img (512 + 4 * k + hdr_entry_addr) = entry;
  ki_off : 4 * k - (dword img (512 + 4 * k + hdr_header_addr) - la) = off;
  ki_off_range : 0 <= off < 2 ^ 32;
  ki_size : la <= le;
  ki_low : EXTMEM <= la - off mod 512;
  ki_high : la - off mod 512 + 512 * sectors (le - la) off < 2 ^ 32
}.

(** The scratch space holds the first 8192 bytes. *)
Definition scratch (img : Z -> Z) (r : Z -> option Z) : Prop :=
  forall i, 0 <= i < 8192 -> r (boot_elf + i) = Some (img (512 + i)).

Lemma ld_scratch img h o :
  image img -> scratch img (ram h) -> 0 <= o -> o + 4 <= 8192 -> ldl (boot_elf + o) h = Done (dword img (512 + o)) h.
Proof.
  intros Hi Hs H0 H1. apply ldl_bytes; [by apply dword_range|]. intros i Hx.
  rewrite <- Z.add_assoc, Hs by lia. rewrite dword_byte by done. do 2 f_equal. lia.
Qed.

Lemma find_header_eq img h k n rest :
  image img -> scratch img (ram h) -> 0 <= n <= k -> 4 * k + 4 <= 8192 -> k - n < Z.of_nat rest ->
  dword img (512 + 4 * k) = MULTIBOOT_HEADER_MAGIC ->
  (forall j, n <= j < k -> dword img (512 + 4 * j) <> MULTIBOOT_HEADER_MAGIC) ->
  find_header rest n h = Done (Some k) h.
Proof.
  intros Hi Hs. revert n. induction rest as [|rest IH]; intros n Hn Hk Hr Hm Hf; [lia|]. cbn [find_header].
  mstep (ld_scratch img h (4 * n) Hi Hs); [|lia..].
  destruct (Z.eqb_spec (dword img (512 + 4 * n)) MULTIBOOT_HEADER_MAGIC) as [E|E].
  - destruct (Z.eq_dec n k) as [->|]; [done|]. by destruct (Hf n ltac:(lia)).
  - apply IH; try done; [|lia|intros j Hj; apply Hf; lia]. destruct (Z.eq_dec n k) as [->|]; [done|lia].
Qed.

Lemma boot_stosb_eq cnt addr h :
  there (ram h) addr (Z.of_nat cnt) -> 0 <= addr -> addr + Z.of_nat cnt <= 2 ^ 32 ->
  exists h', boot_stosb cnt addr 0 h = Done tt h' /\ ram_step h h' (overlay addr (Z.of_nat cnt) (fun _ => 0) (ram h)).
Proof.
  revert addr h. induction cnt as [|cnt IH]; intros addr h Ht Ha Hb.
  { exists h. split; [done|]. eapply ram_step_ext; [apply ram_step_refl|]. intros x. by rewrite overlay_out by lia. }
  cbn [boot_stosb]. destruct (stb_step addr 0 h) as (h1 & H1 & S1 & _); [apply Ht; lia|]. mstep H1.
  destruct (Z.eq_dec (addr + 1) (2 ^ 32)) as [E|E].
  { assert (cnt = 0%nat) as -> by lia. exists h1. split; [done|]. exact S1. }
  rewrite u32_small by lia. destruct (IH (addr + 1) h1) as (h2 & H2 & S2); [|lia..|].
  { eapply there_step; [exact S1|]. eapply there_sub; [exact Ht|lia..]. }
  exists h2. split; [exact H2|].
  eapply ram_step_ext; [exact (ram_step_seq h h1 h2 addr 1 (Z.of_nat cnt) _ _ S1 S2 ltac:(lia) ltac:(lia))|].
  intros x. replace (Z.of_nat (S cnt)) with (1 + Z.of_nat cnt) by lia. apply overlay_ext; [|done].
  intros i _. by destruct (i <? 1).
Qed.

(** Memory after [bootmain]. *)
Definition with_kernel (img : Z -> Z) (la le be off : Z) (r : Z -> option Z) : Z -> option Z :=
  overlay le (Z.max 0 (be - le)) (fun _ => 0)
    (overlay (la - off mod 512) (512 * sectors (le - la) off) (fun i => img (512 + (off - off mod 512) + i))
      (overlay boot_elf 8192 (fun i => img (512 + i)) r)).

Definition with_info (mbi : Z) (r : Z -> option Z) : Z -> option Z :=
  let len := mbi mod 4096 in
  overlay (mbi + mbi_mmap_addr) 4 (byte_le (mbi - len))
    (overlay (mbi + mbi_mmap_length) 4 (byte_le len)
      (overlay (mbi + mbi_flags) 4 (byte_le MULTIBOOT_INFO_MEM_MAP) r)).

(** The memory that the loader uses is there. *)
Record loadable (r : Z -> option Z) (la le be off : Z) : Prop := {
  lo_scratch : there r boot_elf 8192;
  lo_kernel : there r (la - off mod 512) (512 * sectors (le - la) off);
  lo_bss : there r le (be - le)
}.

Lemma sectors_cover count offset : 0 <= count -> offset mod 512 + count <= 512 * sectors count offset.
Proof. intros H. unfold sectors. dlia. Qed.

Lemma sectors_nonneg count offset : 0 <= count -> 0 <= sectors count offset.
Proof. intros H. unfold sectors. dlia. Qed.

(** Loading the kernel: [bootmain] up to the filling of the information. *)
Lemma scratch_kept img a n f r r' :
  (forall x, r' x = overlay a n f r x) -> boot_elf + 8192 <= a -> scratch img r -> scratch img r'.
Proof. intros Hr Ha Hs i Hi. rewrite Hr, overlay_out by lia. by apply Hs. Qed.

Lemma read_scratch img n fuel h :
  has_disk img n -> image img -> (16 < fuel)%nat -> there (ram h) boot_elf 8192 ->
  exists h1, readseg fuel n boot_elf 8192 0 h = Done tt h1 /\ scratch img (ram h1) /\
    ram_step h h1 (overlay boot_elf 8192 (fun i => img (512 + i)) (ram h)).
Proof.
  intros Hd Hi Hf Ht. destruct (readseg_eq img n fuel boot_elf 8192 0 h) as (h1 & E1 & S1);
    [done|done|lia|lia|by vm_compute|by vm_compute|by vm_compute| |exact Ht|].
  { change (Z.to_nat (sectors 8192 0)) with 16%nat. done. }
  exists h1. split; [exact E1|]. split; [|exact S1].
  intros i Hx. rewrite (ram_step_ram _ _ _ _ S1), overlay_in by (unfold boot_elf; change (0 mod 512) with 0; change (sectors 8192 0) with 16; lia).
  do 2 f_equal. change (0 mod 512) with 0. lia.
Qed.

(** The copy of the kernel and the clearing of the rest of its memory. *)
Lemma load_kernel img n fuel la le be off h :
  has_disk img n -> image img -> 0 <= la <= le -> le < 2 ^ 32 -> be < 2 ^ 32 -> 0 <= off < 2 ^ 32 ->
  EXTMEM <= la - off mod 512 -> la - off mod 512 + 512 * sectors (le - la) off < 2 ^ 32 ->
  sectors (le - la) off < Z.of_nat fuel -> scratch img (ram h) ->
  there (ram h) (la - off mod 512) (512 * sectors (le - la) off) -> there (ram h) le (be - le) ->
  exists h2 h3, readseg fuel n la (u32 (le - la)) off h = Done tt h2 /\ scratch img (ram h2) /\
    (if le <? be then boot_stosb (Z.to_nat (be - le)) le 0 else ret tt) h2 = Done tt h3 /\ scratch img (ram h3) /\
    ram_step h h3 (overlay le (Z.max 0 (be - le)) (fun _ => 0)
      (overlay (la - off mod 512) (512 * sectors (le - la) off) (fun i => img (512 + (off - off mod 512) + i)) (ram h))).
Proof.
  intros Hd Hi Hla Hle Hbe Hoff Hlow Hhigh Hfs Hsc Ht2 Ht3. unfold EXTMEM in *.
  pose proof (sectors_nonneg (le - la) off ltac:(lia)). rewrite u32_small by lia.
  destruct (readseg_eq img n fuel la (le - la) off h) as (h2 & E2 & S2); try done; try dlia.
  assert (scratch img (ram h2)) as Hsc2.
  { eapply scratch_kept; [exact (fun x => ram_step_ram _ _ _ x S2)|unfold boot_elf; lia|exact Hsc]. }
  assert (exists h3, (if le <? be then boot_stosb (Z.to_nat (be - le)) le 0 else ret tt) h2 = Done tt h3 /\
    ram_step h2 h3 (overlay le (Z.max 0 (be - le)) (fun _ => 0) (ram h2))) as (h3 & E3 & S3).
  { destruct (Z.ltb_spec le be).
    - destruct (boot_stosb_eq (Z.to_nat (be - le)) le h2) as (h3 & E3 & S3); rewrite ?Z2Nat.id by lia; try lia.
      { by eapply there_step; [exact S2|]. }
      exists h3. split; [done|]. by replace (Z.max 0 (be - le)) with (Z.of_nat (Z.to_nat (be - le))) by lia.
    - exists h2. split; [done|]. eapply ram_step_ext; [apply ram_step_refl|]. intros x. by rewrite overlay_out by lia. }
  exists h2, h3. split; [exact E2|]. split; [exact Hsc2|]. split; [exact E3|]. split.
  - eapply scratch_kept; [exact (fun x => ram_step_ram _ _ _ x S3)|unfold boot_elf; dlia|exact Hsc2].
  - eapply ram_step_ext; [exact (ram_step_trans _ _ _ _ _ S2 S3)|]. intros x. apply overlay_ext; [done|].
    intros y. exact (ram_step_ram _ _ _ y S2).
Qed.

Lemma bootmain_load img n fuel k la le be entry off h :
  has_disk img n -> kernel_image img k la le be entry off -> loadable (ram h) la le be off ->
  (16 < fuel)%nat -> sectors (le - la) off < Z.of_nat fuel ->
  exists h3, ram_step h h3 (with_kernel img la le be off (ram h)) /\
    forall mbi, bootmain fuel n mbi h =
      (stl (mbi + mbi_flags) MULTIBOOT_INFO_MEM_MAP ;;
       stl (mbi + mbi_mmap_length) (Z.land mbi (4096 - 1)) ;;
       len <- ldl (mbi + mbi_mmap_length) ;;
       stl (mbi + mbi_mmap_addr) (u32 (mbi - len)) ;;
       ret (Some (MULTIBOOT_BOOTLOADER_MAGIC, mbi, entry))) h3.
Proof.
  intros Hd [Hi [Hk0 Hk1] Hm Hf Hla Hle Hbe He Hoff Hor Hsz Hlow Hhigh] [Ht1 Ht2 Ht3] Hfu Hfs.
  unfold hdr_load_addr, hdr_load_end_addr, hdr_bss_end_addr, hdr_entry_addr, hdr_header_addr in *.
  rewrite <- !Z.add_assoc in *.
  pose proof (dword_range img (512 + (4 * k + 16)) Hi). pose proof (dword_range img (512 + (4 * k + 20)) Hi).
  pose proof (dword_range img (512 + (4 * k + 24)) Hi).
  destruct (read_scratch img n fuel h) as (h1 & E1 & Hsc & S1); try done.
  destruct (load_kernel img n fuel la le be off h1) as (h2 & h3 & E2 & Hsc2 & E3 & Hsc3 & S3); try done; try lia.
  { by eapply there_step; [exact S1|]. }
  { by eapply there_step; [exact S1|]. }
  exists h3. split.
  - eapply ram_step_ext; [exact (ram_step_trans _ _ _ _ _ S1 S3)|]. intros x. unfold with_kernel.
    apply overlay_ext; [done|]. intros y. apply overlay_ext; [done|]. intros z. exact (ram_step_ram _ _ _ z S1).
  - intros mbi. unfold bootmain, hdr_load_addr, hdr_load_end_addr, hdr_bss_end_addr, hdr_entry_addr, hdr_header_addr.
    mstep E1. mstep (find_header_eq img h1 k 0 (Z.to_nat (8192 / 4)) Hi Hsc); [|lia|lia|rewrite Z2Nat.id by done; change (8192 / 4) with 2048; lia|done|intros; apply Hf; lia].
    rewrite <- !(Z.add_assoc boot_elf).
    mstep (ld_scratch img h1 (4 * k + 16) Hi Hsc); [|lia..]. rewrite Hla.
    mstep (ld_scratch img h1 (4 * k + 20) Hi Hsc); [|lia..]. rewrite Hle.
    mstep (ld_scratch img h1 (4 * k + 12) Hi Hsc); [|lia..]. rewrite Hoff, (u32_small off) by lia.
    mstep E2. mstep (ld_scratch img h2 (4 * k + 24) Hi Hsc2); [|lia..]. rewrite Hbe.
    mstep (ld_scratch img h2 (4 * k + 20) Hi Hsc2); [|lia..]. rewrite Hle. mstep E3.
    mstep (ld_scratch img h3 (4 * k + 28) Hi Hsc3); [|lia..]. by rewrite He.
Qed.

Lemma bootmain_eq img n fuel k la le be entry off mbi h :
  has_disk img n -> kernel_image img k la le be entry off -> loadable (ram h) la le be off ->
  (16 < fuel)%nat -> sectors (le - la) off < Z.of_nat fuel ->
  0 <= mbi -> mbi + 52 <= boot_elf -> there (ram h) mbi 52 ->
  exists h', bootmain fuel n mbi h = Done (Some (MULTIBOOT_BOOTLOADER_MAGIC, mbi, entry)) h' /\
    forall x, ram h' x = with_info mbi (with_kernel img la le be off (ram h)) x.
Proof.
  intros Hd Hk Hl Hf1 Hf2 Hm0 Hm1 Hm2.
  destruct (bootmain_load img n fuel k la le be entry off h) as (h3 & S3 & Hb); try done. rewrite Hb.
  assert (there (ram h3) mbi 52) as Ht.
  { intros x Hx. rewrite (ram_step_ram _ _ _ x S3). destruct Hk. unfold with_kernel, EXTMEM, boot_elf in *.
    rewrite !overlay_out by dlia. by apply Hm2. }
  unfold mbi_flags, mbi_mmap_length, mbi_mmap_addr. change (4096 - 1) with 4095. rewrite land_4095.
  destruct (stl_step (mbi + 0) MULTIBOOT_INFO_MEM_MAP h3) as (h4 & E4 & S4 & _); [by eapply there_sub; [exact Ht|lia..]|].
  mstep E4. pose proof (there_step _ _ _ _ _ _ _ S4 Ht) as Ht4.
  destruct (stl_step (mbi + 44) (mbi mod 4096) h4) as (h5 & E5 & S5 & _); [by eapply there_sub; [exact Ht4|lia..]|].
  mstep E5. pose proof (there_step _ _ _ _ _ _ _ S5 Ht4) as Ht5.
  mstep (ldl_bytes h5 (mbi + 44) (mbi mod 4096)); [|dlia|].
  2:{ intros i Hi. rewrite (ram_step_ram _ _ _ _ S5), overlay_in by lia. do 2 f_equal. lia. }
  unfold boot_elf in *. rewrite u32_small by dlia.
  destruct (stl_step (mbi + 48) (mbi - mbi mod 4096) h5) as (h6 & E6 & S6 & _); [by eapply there_sub; [exact Ht5|lia..]|].
  mstep E6. exists h6. split; [done|]. intros x. rewrite (ram_step_ram _ _ _ x S6).
  unfold with_info, mbi_flags, mbi_mmap_length, mbi_mmap_addr.
  apply overlay_ext; [done|]. intros y. rewrite (ram_step_ram _ _ _ y S5).
  apply overlay_ext; [done|]. intros z. rewrite (ram_step_ram _ _ _ z S4).
  apply overlay_ext; [done|]. intros w. exact (ram_step_ram _ _ _ w S3).
Qed.
End disk.

(** ** The memory map *)

Definition entry_fields (e : e820_entry) : list Z := bytes64 (e_addr e) ++ bytes64 (e_len e) ++ bytes32 (e_type e).

Definition entry_range (e : e820_entry) : Prop :=
  0 <= e_addr e < 2 ^ 64 /\ 0 <= e_len e < 2 ^ 64 /\ 0 <= e_type e < 2 ^ 32.

(** The map as the loader stores it: each entry after its size. *)
Definition map_bytes (es : list e820_entry) : list Z := concat (map (fun e => bytes32 20 ++ entry_fields e) es).

(** From continuation value [ebx] on the BIOS reports [es], and ends with the
    last of them, or after it with the carry flag. *)
Inductive reports (B : bios) : Z -> list e820_entry -> bool -> Prop :=
| rep_carry ebx : B ebx = None -> reports B ebx [] true
| rep_last ebx e cx : B ebx = Some (entry_fields e, cx, 0) -> cx <= 20 -> reports B ebx [e] false
| rep_next ebx e cx ebx' es c :
    B ebx = Some (entry_fields e, cx, ebx') -> cx <= 20 -> ebx' <> 0 -> reports B ebx' es c ->
    reports B ebx (e :: es) c.

Lemma st_bytes_eq bs a h :
  Forall (fun b => 0 <= b < 2 ^ 8) bs -> there (ram h) a (Z.of_nat (length bs)) ->
  exists h', st_bytes a bs h = Done tt h' /\
    ram_step h h' (overlay a (Z.of_nat (length bs)) (fun i => default 0 (bs !! Z.to_nat i)) (ram h)).
Proof.
  revert a h. induction bs as [|b bs IH]; intros a h Hb Ht.
  { exists h. split; [done|]. eapply ram_step_ext; [apply ram_step_refl|]. intros x. rewrite overlay_out; [done|cbn; lia]. }
  apply Forall_cons in Hb as [Hb Hbs]. cbn [st_bytes length] in *.
  destruct (stb_step a b h) as (h1 & H1 & S1 & _); [apply Ht; lia|]. mstep H1.
  destruct (IH (a + 1) h1) as (h2 & H2 & S2); [done|eapply there_step; [exact S1|eapply there_sub; [exact Ht|lia..]]|].
  exists h2. split; [exact H2|].
  eapply ram_step_ext; [exact (ram_step_seq h h1 h2 a 1 _ _ _ S1 S2 ltac:(lia) ltac:(lia))|].
  intros x. rewrite Nat2Z.inj_succ, <- Z.add_1_l. apply overlay_ext; [|done]. intros i Hi.
  destruct (Z.ltb_spec i 1).
  - replace i with 0 by lia. by apply u8_small.
  - replace (Z.to_nat i) with (S (Z.to_nat (i - 1))) by lia. done.
Qed.

Lemma overlay_holds h h' a bs f :
  ram_step h h' (overlay a (Z.of_nat (length bs)) (fun i => default 0 (bs !! Z.to_nat i)) f) -> ram_holds (ram h') a bs.
Proof.
  intros S i b Hb. rewrite (ram_step_ram _ _ _ _ S). pose proof (lookup_lt_Some _ _ _ Hb).
  rewrite overlay_in by lia. replace (Z.to_nat (a + Z.of_nat i - a)) with i by lia. by rewrite Hb.
Qed.

Lemma length_entry e : length (entry_fields e) = 20%nat.
Proof. done. Qed.

Lemma bytes16_range v : Forall (fun b => 0 <= b < 2 ^ 8) (bytes16 v).
Proof. repeat constructor; apply Z.mod_pos_bound; lia. Qed.

Lemma entry_fields_range e : Forall (fun b => 0 <= b < 2 ^ 8) (entry_fields e).
Proof. unfold entry_fields, bytes64, bytes32. rewrite !Forall_app. auto 10 using bytes16_range. Qed.

Lemma stl_holds h h' a v :
  0 <= v < 2 ^ 32 -> ram_step h h' (overlay a 4 (byte_le v) (ram h)) -> ram_holds (ram h') a (bytes32 v).
Proof.
  intros Hv S. assert (forall i, 0 <= i < 4 -> ram h' (a + i) = Some (byte_le v i)) as H.
  { intros i Hi. rewrite (ram_step_ram _ _ _ _ S), overlay_in by lia. do 2 f_equal. lia. }
  pose proof (H 0 ltac:(lia)) as H0. pose proof (H 1 ltac:(lia)) as H1.
  pose proof (H 2 ltac:(lia)) as H2. pose proof (H 3 ltac:(lia)) as H3.
  unfold byte_le in *. rewrite Z.add_0_r in H0. change (2 ^ (8 * 0)) with 1 in H0. rewrite Z.div_1_r in H0.
  unfold bytes32, bytes16. cbn [app]. rewrite !ram_holds_cons, <- !Z.add_assoc, !Z.div_div by lia. split_and!; done.
Qed.

Lemma ram_holds_ext r r' a bs :
  (forall x, a <= x < a + Z.of_nat (length bs) -> r' x = r x) -> ram_holds r a bs -> ram_holds r' a bs.
Proof. intros He H i b Hb. rewrite He; [by apply H|]. apply lookup_lt_Some in Hb. lia. Qed.

Lemma map_bytes_cons e es : map_bytes (e :: es) = (bytes32 20 ++ entry_fields e) ++ map_bytes es.
Proof. done. Qed.

Lemma length_map_bytes es : Z.of_nat (length (map_bytes es)) = 24 * Z.of_nat (length es).
Proof. induction es as [|e es IH]; [done|]. rewrite map_bytes_cons, !length_app, length_entry. cbn [length bytes32 bytes16 app]. lia. Qed.

(** One entry is stored at [di]. *)
Lemma e820_store e di h :
  there (ram h) di 24 ->
  exists h1 h2, stl di 20 h = Done tt h1 /\ st_bytes (di + 4) (entry_fields e) h1 = Done tt h2 /\
    ram_holds (ram h2) di (bytes32 20 ++ entry_fields e) /\ ram_step h h2 (ram h2) /\
    (forall x, x < di \/ di + 24 <= x -> ram h2 x = ram h x) /\ (forall a n, there (ram h) a n -> there (ram h2) a n).
Proof.
  intros Ht. destruct (stl_step di 20 h) as (h1 & E1 & S1 & _); [by eapply there_sub; [exact Ht|lia..]|].
  destruct (st_bytes_eq (entry_fields e) (di + 4) h1) as (h2 & E2 & S2); [apply entry_fields_range| |].
  { rewrite length_entry. eapply there_step; [exact S1|]. eapply there_sub; [exact Ht|lia..]. }
  exists h1, h2. split; [exact E1|]. split; [exact E2|]. rewrite length_entry in S2. split_and!.
  - apply ram_holds_app. split; [|exact (overlay_holds _ _ _ (entry_fields e) _ S2)].
    eapply ram_holds_ext; [|exact (stl_holds h h1 di 20 ltac:(lia) S1)]. intros x Hx. cbn [length bytes32 bytes16 app] in Hx.
    rewrite (ram_step_ram _ _ _ _ S2), overlay_out by lia. done.
  - destruct (ram_step_trans _ _ _ _ _ S1 S2) as (tr & r & -> & Hr). by exists tr, r.
  - intros x Hx. by rewrite (ram_step_ram _ _ _ _ S2), overlay_out, (ram_step_ram _ _ _ _ S1), overlay_out by lia.
  - intros a n Ha. eapply there_step; [exact S2|]. eapply there_step; [exact S1|exact Ha].
Qed.

Lemma e820_asm_eq B ebx es c :
  reports B ebx es c -> forall fuel di h,
  (length es < fuel)%nat -> 0 <= di -> di + 24 * Z.of_nat (length es) + 4 < 2 ^ 16 ->
  there (ram h) di (24 * Z.of_nat (length es) + 4) ->
  exists h', e820_asm fuel B ebx di h = Done (di + 24 * Z.of_nat (length es) + (if c then 4 else 0)) h' /\
    ram_holds (ram h') di (map_bytes es) /\ ram_step h h' (ram h') /\
    (forall x, x < di \/ di + 24 * Z.of_nat (length es) + 4 <= x -> ram h' x = ram h x) /\
    (forall a n, there (ram h) a n -> there (ram h') a n).
Proof.
  induction 1 as [ebx Hb|ebx e cx Hb Hc|ebx e cx ebx' es c Hb Hc Hne _ IH]; intros [|fuel] di h Hf Hd0 Hd1 Ht;
    cbn [length] in *; try lia; cbn [e820_asm].
  - destruct (stl_step di 20 h) as (h1 & E1 & S1 & _); [by eapply there_sub; [exact Ht|lia..]|].
    mstep E1. rewrite Hb. exists h1. replace (u16 (di + 4)) with (di + 24 * Z.of_nat 0 + 4) by word.
    split; [done|]. split; [done|]. split; [by destruct S1 as (tr & r & -> & _); exists tr, r|]. split.
    + intros x Hx. rewrite (ram_step_ram _ _ _ _ S1), overlay_out by lia. done.
    + intros a n Ha. by eapply there_step; [exact S1|].
  - destruct (e820_store e di h) as (h1 & h2 & E1 & E2 & Hh & S2 & Ho & Hm); [by eapply there_sub; [exact Ht|lia..]|].
    mstep E1. rewrite Hb. replace (u16 (di + 4)) with (di + 4) by word. mstep E2.
    replace (20 <? cx) with false by (symmetry; apply Z.ltb_ge; lia). change (negb (0 =? 0)) with false. cbv iota.
    exists h2. replace (u16 (di + 4 + 20)) with (di + 24 * Z.of_nat 1 + 0) by word. split; [done|].
    split; [by unfold map_bytes; cbn [map concat]; rewrite app_nil_r|]. split; [done|]. split; [|done].
    intros x Hx. apply Ho. lia.
  - destruct (e820_store e di h) as (h1 & h2 & E1 & E2 & Hh & S2 & Ho & Hm); [by eapply there_sub; [exact Ht|lia..]|].
    mstep E1. rewrite Hb. replace (u16 (di + 4)) with (di + 4) by word. mstep E2.
    replace (20 <? cx) with false by (symmetry; apply Z.ltb_ge; lia).
    replace (ebx' =? 0) with false by (symmetry; by apply Z.eqb_neq). cbn [negb].
    replace (u16 (di + 4 + 20)) with (di + 24) by word.
    destruct (IH fuel (di + 24) h2) as (h3 & E3 & Hh3 & S3 & Ho3 & Hm3); [lia|lia|lia| |].
    { apply Hm. eapply there_sub; [exact Ht|lia..]. }
    exists h3. rewrite E3. split; [f_equal; lia|]. split; [|split; [|split]].
    + rewrite map_bytes_cons. apply ram_holds_app. split; [|exact Hh3].
      eapply ram_holds_ext; [|exact Hh]. intros x Hx. apply Ho3. rewrite length_app, length_entry in Hx.
      cbn [length bytes32 bytes16 app] in Hx. lia.
    + destruct (ram_step_trans _ _ _ _ _ S2 S3) as (tr & r & -> & Hr). by exists tr, r.
    + intros x Hx. rewrite Ho3, Ho by lia. done.
    + intros a n Ha. by apply Hm3, Hm.
Qed.

Lemma ldq_eq h a v : 0 <= v < 2 ^ 64 -> ram_holds (ram h) a (bytes64 v) -> ldq a h = Done v h.
Proof.
  unfold bytes64. rewrite ram_holds_app. intros Hv [H0 H1]. unfold ldq.
  mstep (ldl_eq h a (v mod 2 ^ 32)); [|apply Z.mod_pos_bound; lia|].
  - mstep (ldl_eq h (a + 4) (v / 2 ^ 32)); [|dlia|exact H1]. unfold ret. f_equal. dlia.
  - unfold bytes32, bytes16 in *. cbn [app] in *.
    replace (v mod 2 ^ 32 mod 2 ^ 8) with (v mod 2 ^ 8) by dlia.
    replace (v mod 2 ^ 32 / 2 ^ 8 mod 2 ^ 8) with (v / 2 ^ 8 mod 2 ^ 8) by dlia.
    replace (v mod 2 ^ 32 / 2 ^ 16 mod 2 ^ 8) with (v / 2 ^ 16 mod 2 ^ 8) by dlia.
    by replace (v mod 2 ^ 32 / 2 ^ 16 / 2 ^ 8 mod 2 ^ 8) with (v / 2 ^ 16 / 2 ^ 8 mod 2 ^ 8) by dlia.
Qed.

Lemma ld_entry_eq h a e :
  entry_range e -> ram_holds (ram h) a (bytes32 20 ++ entry_fields e) -> ld_entry a h = Done (20, e) h.
Proof.
  intros (H1 & H2 & H3) H. unfold entry_fields in H. rewrite !ram_holds_app in H. destruct H as (A & B & C & F).
  cbn [length bytes32 bytes16 bytes64 app] in *. rewrite <- !Z.add_assoc in *. unfold ld_entry.
  mstep (ldl_eq h a 20); [|lia|exact A]. mstep (ldq_eq h _ _ H1 B). mstep (ldq_eq h _ _ H2 C).
  mstep (ldl_eq h _ _ H3 F). by destruct e.
Qed.

(** The loop reads what the loader stored; four bytes too many end it with a
    failed assertion. *)
Lemma e820_loop_eq es h i addr fuel (c : bool) :
  Forall entry_range es -> ram_holds (ram h) addr (map_bytes es) -> (length es < fuel)%nat ->
  i + Z.of_nat (length es) <= E820_NR_MAX -> 0 <= addr -> addr + 24 * Z.of_nat (length es) + 4 < 2 ^ 32 ->
  e820_loop fuel i addr (addr + 24 * Z.of_nat (length es) + (if c then 4 else 0)) h =
    if c then Panic "assertion failed" else Done es h.
Proof.
  revert i addr fuel. induction es as [|e es IH]; intros i addr [|fuel] He Hh Hf Hi Ha Hb; cbn [length] in *;
    try lia; cbn [e820_loop].
  - destruct c.
    + replace (addr <? _) with true by (symmetry; apply Z.ltb_lt; lia).
      rewrite u64_small by lia. replace (sizeof_mmap_entry <=? _) with false; [done|].
      symmetry. apply Z.leb_gt. unfold sizeof_mmap_entry. lia.
    + by replace (addr <? _) with false by (symmetry; apply Z.ltb_ge; lia).
  - apply Forall_cons in He as [He Hes]. rewrite map_bytes_cons in Hh. apply ram_holds_app in Hh as [Hh1 Hh2].
    replace (addr <? _) with true by (symmetry; apply Z.ltb_lt; destruct c; lia).
    replace (sizeof_mmap_entry <=? _) with true
      by (symmetry; apply Z.leb_le; unfold sizeof_mmap_entry; rewrite u64_small; destruct c; lia).
    replace (i <? E820_NR_MAX) with true by (symmetry; apply Z.ltb_lt; lia). msimp.
    mstep (ld_entry_eq h addr e He Hh1). rewrite (u32_small (20 + 4)), (u64_small (addr + (20 + 4))) by lia.
    rewrite length_app, length_entry in Hh2. cbn [length bytes32 bytes16 app] in Hh2.
    specialize (IH (i + 1) (addr + (20 + 4)) fuel Hes Hh2 ltac:(lia) ltac:(lia) ltac:(lia) ltac:(lia)).
    replace (addr + 24 * Z.of_nat (S (length es)) + (if c then 4 else 0))
      with (addr + (20 + 4) + 24 * Z.of_nat (length es) + (if c then 4 else 0)) by lia.
    unfold bind. rewrite IH. by destruct c.
Qed.

(** The handover: the loader, and the kernel's reading of the map. *)
Definition boot `{devices} (fuel n : nat) (B : bios) (edi_high : Z) : M hw (option (Z * (list e820_entry * Z * Z))) :=
  mbi <- boot_mbi fuel B edi_high ;;
  o <- bootmain fuel n mbi ;;
  match o with
  | None => ret None
  | Some (_, mbi, entry) => r <- e820_init mbi ;; ret (Some (entry, r))
  end.

(** What [bootmain] leaves in the information. *)
Lemma ld_info h mbi r :
  0 <= mbi -> mbi < 2 ^ 16 -> (forall x, ram h x = with_info mbi r x) ->
  ldl (mbi + mbi_flags) h = Done MULTIBOOT_INFO_MEM_MAP h /\
  ldl (mbi + mbi_mmap_length) h = Done (mbi mod 4096) h /\
  ldl (mbi + mbi_mmap_addr) h = Done (mbi - mbi mod 4096) h.
Proof.
  intros Hm Hb Hr. unfold with_info, mbi_flags, mbi_mmap_length, mbi_mmap_addr in *.
  split_and!; (apply ldl_bytes; [unfold MULTIBOOT_INFO_MEM_MAP; dlia|]); intros i Hi; rewrite Hr.
  - rewrite (overlay_out (mbi + 48)), (overlay_out (mbi + 44)), overlay_in by lia. do 2 f_equal. lia.
  - rewrite (overlay_out (mbi + 48)), overlay_in by lia. do 2 f_equal. lia.
  - rewrite overlay_in by lia. do 2 f_equal. lia.
Qed.

Lemma e820_init_eq h mbi r es (c : bool) :
  mbi = MULTIBOOT_PADDR + 24 * Z.of_nat (length es) + (if c then 4 else 0) -> Z.of_nat (length es) <= E820_NR_MAX ->
  (forall x, ram h x = with_info mbi r x) -> ram_holds r MULTIBOOT_PADDR (map_bytes es) -> Forall entry_range es ->
  e820_init mbi h = if c then Panic "assertion failed" else Done (es, MULTIBOOT_PADDR, 24 * Z.of_nat (length es)) h.
Proof.
  intros Hm Hl Hr Hh He. unfold MULTIBOOT_PADDR, E820_NR_MAX in *.
  destruct (ld_info h mbi r) as (L1 & L2 & L3); [destruct c; lia|destruct c; lia|done|].
  assert (mbi mod 4096 = 24 * Z.of_nat (length es) + (if c then 4 else 0)) as Hmod by (subst mbi; destruct c; dlia).
  unfold e820_init. mstep L1. change (truthy _) with true. msimp. mstep L3. mstep L2.
  rewrite Hmod. replace (mbi - _) with 0x9000 by (destruct c; lia). rewrite u32_small by (destruct c; lia).
  rewrite Z.add_assoc. unfold bind. rewrite (e820_loop_eq es h 0 0x9000 _ c); try done.
  - destruct c; [done|]. cbn. unfold ret. do 2 f_equal. f_equal. lia.
  - eapply ram_holds_ext; [|exact Hh]. intros x Hx. rewrite length_map_bytes in Hx. rewrite Hr. unfold with_info.
    unfold mbi_flags, mbi_mmap_length, mbi_mmap_addr. rewrite !overlay_out by (destruct c; lia). done.
  - unfold E820_NR_MAX. lia.
  - lia.
Qed.

Section booting.
Context `{D : devices}.
Variables (img : Z -> Z) (k la le be entry off : Z) (es : list e820_entry) (B : bios) (n fuel : nat) (h : hw).
Hypothesis Hdisk : has_disk img n.
Hypothesis Hkernel : kernel_image img k la le be entry off.
Hypothesis Hload : loadable (ram h) la le be off.
Hypothesis Hlow : there (ram h) MULTIBOOT_PADDR 0x1000.
Hypothesis Hrange : Forall entry_range es.
Hypothesis Hcount : Z.of_nat (length es) <= E820_NR_MAX.
Hypothesis Hfuel : (64 < fuel)%nat.
Hypothesis Hsectors : sectors (le - la) off < Z.of_nat fuel.

Lemma boot_eq (c : bool) :
  reports B 0 es c ->
  exists h', boot fuel n B 0 h =
      (if c then Panic "assertion failed"
       else Done (Some (entry, (es, MULTIBOOT_PADDR, 24 * Z.of_nat (length es)))) h') /\
    exists mbi r, mbi + 52 <= boot_elf /\ forall x, ram h' x = with_info mbi (with_kernel img la le be off r) x.
Proof.
  intros HB. unfold E820_NR_MAX, MULTIBOOT_PADDR in *. unfold boot, boot_mbi.
  destruct (e820_asm_eq B 0 es c HB fuel 0x9000 h) as (h1 & E1 & Hh1 & S1 & Ho1 & Hm1); [lia|lia|lia| |].
  { eapply there_sub; [exact Hlow|lia..]. }
  set (mbi := 0x9000 + 24 * Z.of_nat (length es) + (if c then 4 else 0)) in *.
  assert (mbi + 52 <= 0x9000 + 0x1000 /\ 0x9000 <= mbi) as [Hb1 Hb2] by (unfold mbi; destruct c; lia).
  erewrite bind_done by (unfold MULTIBOOT_PADDR; mstep E1; reflexivity). cbv beta. change (Z.lor (Z.shiftl 0 16) mbi) with mbi.
  destruct Hload as [Hl1 Hl2 Hl3].
  destruct (bootmain_eq img n fuel k la le be entry off mbi h1) as (h2 & E2 & R2); try done; try lia.
  { constructor; by apply Hm1. }
  { unfold boot_elf. lia. }
  { apply Hm1. eapply there_sub; [exact Hlow|lia..]. }
  mstep E2. exists h2. split; [|exists mbi, (ram h1); split; [unfold boot_elf; lia|done]].
  unfold bind. rewrite (e820_init_eq h2 mbi (with_kernel img la le be off (ram h1)) es c); [by destruct c|done|done|exact R2| |done].
  eapply ram_holds_ext; [|exact Hh1]. intros x Hx. rewrite length_map_bytes in Hx. destruct Hkernel.
  unfold with_kernel, EXTMEM, boot_elf, MULTIBOOT_PADDR, E820_NR_MAX in *. rewrite !overlay_out by dlia. done.
Qed.
End booting.

(** C34: on a machine whose disk has a kernel and whose BIOS reports the memory
    map [es] (ending with its last entry), the loader copies the kernel's
    bytes to their address, clears the rest of its memory, jumps to its entry
    point, and [e820_init] reads back exactly [es]. *)
Theorem boot_correct `{D : devices} (img : Z -> Z) (k la le be entry off : Z) (es : list e820_entry) (B : bios)
    (n fuel : nat) (h : hw) :
  has_disk img n -> kernel_image img k la le be entry off -> loadable (ram h) la le be off ->
  there (ram h) MULTIBOOT_PADDR 0x1000 -> Forall entry_range es -> Z.of_nat (length es) <= E820_NR_MAX ->
  (64 < fuel)%nat -> sectors (le - la) off < Z.of_nat fuel -> reports B 0 es false ->
  exists h', boot fuel n B 0 h = Done (Some (entry, (es, MULTIBOOT_PADDR, 24 * Z.of_nat (length es)))) h' /\
    (forall i, 0 <= i < le - la -> ram h' (la + i) = Some (img (512 + off + i))) /\
    (forall x, le <= x < be -> ram h' x = Some 0).
Proof.
  intros Hd Hk Hl Hlow Hr Hc Hf Hs HB.
  destruct (boot_eq img k la le be entry off es B n fuel h Hd Hk Hl Hlow Hr Hc Hf Hs false HB) as (h' & Hb & mbi & r & Hm & Hram).
  exists h'. split; [exact Hb|]. destruct Hk. pose proof (sectors_cover (le - la) off ltac:(lia)).
  unfold with_info, with_kernel, mbi_flags, mbi_mmap_length, mbi_mmap_addr, EXTMEM, boot_elf in *.
  split; intros x Hx; rewrite Hram.
  - rewrite !(overlay_out (mbi + _)), (overlay_out le), overlay_in by dlia. do 2 f_equal. lia.
  - rewrite !(overlay_out (mbi + _)), overlay_in by dlia. done.
Qed.

(** a BIOS may also end the map with the carry flag, after the last entry.
    [bootasm.S] has then already stored the size of a further entry and
    counts it, so the map is four bytes too long and the kernel stops with a
    failed assertion in [e820_init]. *)
Theorem boot_carry_panics `{D : devices} (img : Z -> Z) (k la le be entry off : Z) (es : list e820_entry) (B : bios)
    (n fuel : nat) (h : hw) :
  has_disk img n -> kernel_image img k la le be entry off -> loadable (ram h) la le be off ->
  there (ram h) MULTIBOOT_PADDR 0x1000 -> Forall entry_range es -> Z.of_nat (length es) <= E820_NR_MAX ->
  (64 < fuel)%nat -> sectors (le - la) off < Z.of_nat fuel -> reports B 0 es true ->
  boot fuel n B 0 h = Panic "assertion failed".
Proof.
  intros Hd Hk Hl Hlow Hr Hc Hf Hs HB.
  by destruct (boot_eq img k la le be entry off es B n fuel h Hd Hk Hl Hlow Hr Hc Hf Hs true HB) as (h' & Hb & _).
Qed.

(** ** An example *)

(** A kernel of 600 bytes at the start of the second sector, to be loaded at
    1 MB, with 168 bytes to clear after it. *)
Definition disk_header : list Z :=
  concat (map bytes32 [MULTIBOOT_HEADER_MAGIC; 0x10000; 0xE4514FFE; 0x100000; 0x100000; 0x100258; 0x100300; 0x100020]).

Definition disk_image (o : Z) : Z :=
  if (512 <=? o) && (o <? 544) then default 0 (disk_header !! Z.to_nat (o - 512)) else o mod 251.

#[local] Instance disk_pc : devices := {|
  port_in tr p :=
    if p =? 0x1F7 then 0x40
    else match disk_state tr with Some (s, k) => dword disk_image (512 * s + 4 * k) | None => 0 end;
  reg_in _ _ := 0
|}.

Definition small_map : list e820_entry := [mk_e820_entry 0 0x9FC00 1; mk_e820_entry 0x100000 0xF00000 1].

(** A BIOS that reports the two entries, and ends with the second or with the carry flag. *)
Definition small_bios (carry : bool) (ebx : Z) : option (list Z * Z * Z) :=
  if ebx =? 0 then Some (entry_fields (mk_e820_entry 0 0x9FC00 1), 20, 1)
  else if ebx =? 1 then Some (entry_fields (mk_e820_entry 0x100000 0xF00000 1), 20, if carry then 2 else 0)
  else None.

Lemma disk_pc_disk : has_disk disk_image 1.
Proof.
  constructor.
  - intros tr. exists 0%nat. split; [lia|]. reflexivity.
  - intros tr s k Hs _. cbn -[dword]. by rewrite Hs.
Qed.

Lemma disk_image_bytes : image disk_image.
Proof.
  intros o. unfold disk_image. destruct (_ && _); [|dlia].
  destruct (disk_header !! _) as [b|] eqn:E; [|cbn; lia]. cbn [from_option id].
  revert b E. assert (Forall (fun b => 0 <= b < 2 ^ 8) disk_header) as H
    by (repeat (apply Forall_cons; split; [split; [discriminate|reflexivity]|]); apply Forall_nil; exact I).
  intros b E. exact (Forall_lookup_1 _ _ _ _ H E).
Qed.

Lemma disk_image_kernel : kernel_image disk_image 0 0x100000 0x100258 0x100300 0x100020 0.
Proof.
  constructor; try reflexivity; try (split; (discriminate || reflexivity)); try discriminate.
  - apply disk_image_bytes.
  - intros j Hj. lia.
Qed.

Lemma small_reports : reports (small_bios false) 0 small_map false /\ reports (small_bios true) 0 small_map true.
Proof.
  split.
  - eapply (rep_next _ 0 _ 20 1); [reflexivity|lia|lia|]. eapply (rep_last _ 1 _ 20); [reflexivity|lia].
  - eapply (rep_next _ 0 _ 20 1); [reflexivity|lia|lia|]. eapply (rep_next _ 1 _ 20 2); [reflexivity|lia|lia|].
    by apply rep_carry.
Qed.

Lemma small_range : Forall entry_range small_map.
Proof. repeat constructor; cbn; lia. Qed.

Definition zero_ram (x : Z) : option Z := Some 0.

Lemma zero_ram_loadable la le be off : loadable zero_ram la le be off.
Proof. constructor; intros x _; by eexists. Qed.

Lemma boot_correct_witness :
  exists h', boot 65 1 (small_bios false) 0 (hw_start false zero_ram) = Done (Some (0x100020, (small_map, 0x9000, 48))) h' /\
    ram h' 0x100001 = Some 0xB0 /\ ram h' 0x100258 = Some 0.
Proof.
  destruct (boot_correct disk_image 0 0x100000 0x100258 0x100300 0x100020 0 small_map (small_bios false) 1 65
              (hw_start false zero_ram)) as (h' & Hb & Hk & Hz).
  - exact disk_pc_disk.
  - exact disk_image_kernel.
  - apply zero_ram_loadable.
  - intros x _. by eexists.
  - exact small_range.
  - unfold E820_NR_MAX. cbn. lia.
  - lia.
  - vm_compute. reflexivity.
  - apply small_reports.
  - exists h'. split; [exact Hb|]. split; [exact (Hk 1 ltac:(lia))|exact (Hz 0x100258 ltac:(lia))].
Defined.

Lemma boot_carry_panics_witness :
  boot 65 1 (small_bios true) 0 (hw_start false zero_ram) = Panic "assertion failed".
Proof.
  apply (boot_carry_panics disk_image 0 0x100000 0x100258 0x100300 0x100020 0 small_map (small_bios true) 1 65
              (hw_start false zero_ram)).
  - exact disk_pc_disk.
  - exact disk_image_kernel.
  - apply zero_ram_loadable.
  - intros x _. by eexists.
  - exact small_range.
  - unfold E820_NR_MAX. cbn. lia.
  - lia.
  - vm_compute. reflexivity.
  - apply small_reports.
Defined.
