(* ===== verification/X86vm.v ===== *)
(** * Page tables: [kernel/x86_64vm.c]

    A four-level page table.  A table is a page frame of 512 entries, named by
    its kernel address; a [pte_t *] is the address of a table and an index in
    it. *)

From S2P Require Import Prelude Types Spinlock Mmu Kalloc.

#[global] Arguments navail : simpl never.

(** ** Access to a table *)

(** [table[idx]], for a table at kernel address [tbl]. *)
Definition tbl_get (tbl idx : Z) : K Z :=
  o <- gets (fun s => k_frames s !! PGNUM (V2P tbl)) ;;
  match o with
  | Some (FTable t) => ret (default 0 (t !! idx))
  | _ => fault "not a page table"
  end.

(** [table[idx] = v]. *)
Definition tbl_set (tbl idx v : Z) : K unit :=
  o <- gets (fun s => k_frames s !! PGNUM (V2P tbl)) ;;
  match o with
  | Some (FTable t) => upd_frame (PGNUM (V2P tbl)) (FTable (<[idx := v]> t))
  | _ => fault "not a page table"
  end.

(** [memset(tbl, 0, PGSIZE)] on a page that becomes a table. *)
Definition tbl_zero (tbl : Z) : K unit := upd_frame (PGNUM (V2P tbl)) (FTable ∅).

Definition PRESENT (e : Z) : bool := truthy (Z.land e PTE_P).

(** ** The operations *)

(** One level of [walkpml4]: the table that entry [idx] of [tbl] points to. *)
Definition walk_level (tbl idx : Z) (alloc : bool) : K (option Z) :=
  e <- tbl_get tbl idx ;;
  if PRESENT e then ret (Some (P2V (PDPT_ADDR e))) else
  if negb alloc then ret None else
  next <- kalloc ;;
  if next =? 0 then ret None else
  tbl_zero next ;;
  tbl_set tbl idx (Z.lor (Z.lor (Z.lor (V2P next) PTE_P) PTE_W) PTE_U) ;;
  ret (Some next).

Definition walkpml4 (pml4 va : Z) (alloc : bool) : K (option (Z * Z)) :=
  o <- walk_level pml4 (PML4_INDEX va) alloc ;;
  match o with
  | None => ret None
  | Some pdpt =>
      o <- walk_level pdpt (PDPT_INDEX va) alloc ;;
      match o with
      | None => ret None
      | Some pgdir =>
          o <- walk_level pgdir (PD_INDEX va) alloc ;;
          match o with
          | None => ret None
          | Some pgtab => ret (Some (pgtab, PT_INDEX va))
          end
      end
  end.

(** The body of the loop of [mappages]. *)
Definition map_one (pml4 virt_pn phy_pn perm : Z) (kern : bool) : K unit :=
  o <- walkpml4 pml4 (u64 (Z.shiftl virt_pn PT_SHIFT)) true ;;
  match o with
  | None => panic "not enough memory"
  | Some (tbl, idx) =>
      e <- tbl_get tbl idx ;;
      if PRESENT e then panic "remap" else
      tbl_set tbl idx (PTE (u64 (Z.shiftl phy_pn PT_SHIFT)) perm) ;;
      if kern then ret tt
      else mark_user_mem (u64 (Z.shiftl phy_pn PT_SHIFT)) (u64 (Z.shiftl virt_pn PT_SHIFT))
  end.

Fixpoint mappages_loop (n : nat) (pml4 virt_pn phy_pn perm : Z) (kern : bool) : K unit :=
  match n with
  | O => ret tt
  | S n =>
      map_one pml4 virt_pn phy_pn perm kern ;;
      mappages_loop n pml4 (u64 (virt_pn + 1)) (u64 (phy_pn + 1)) perm kern
  end.

Definition mappages (pml4 virt_pn num_page phy_pn perm : Z) (kern : bool) : K Z :=
  mappages_loop (Z.to_nat num_page) pml4 virt_pn phy_pn perm kern ;;
  ret 0.

(** The rows of [kmap[]]: virtual start, physical start and end, permissions. *)
Definition kmap (km : kmem) : list (Z * Z * Z * Z) :=
  [ (KERNBASE, 0, EXTMEM, PTE_W);
    (KERNLINK, V2P KERNLINK, V2P (k_data km), 0);
    (k_data km, V2P (k_data km), u64 (npages km * PGSIZE), PTE_W);
    (DEVSPACE, 0xFE000000, 0x100000000, PTE_W) ].

Fixpoint setupkvm_loop (pml4 : Z) (ks : list (Z * Z * Z * Z)) : K Z :=
  match ks with
  | [] => ret pml4
  | (virt, phys_start, phys_end, perm) :: ks =>
      r <- mappages pml4 (Z.shiftr virt PT_SHIFT)
             (i32 (Z.shiftr (u64 (phys_end - phys_start)) PT_SHIFT))
             (Z.shiftr phys_start PT_SHIFT) (Z.lor perm PTE_P) true ;;
      if r <? 0 then ret 0 else setupkvm_loop pml4 ks
  end.

Definition setupkvm : K Z :=
  pml4 <- kalloc ;;
  if pml4 =? 0 then ret 0 else
  tbl_zero pml4 ;;
  km <- gets k_kmem ;;
  setupkvm_loop pml4 (kmap km).

Definition find_next_possible_page (pml4 va : Z) : K Z :=
  pml4e <- tbl_get pml4 (PML4_INDEX va) ;;
  if negb (PRESENT pml4e)
  then ret (u64 (PGADDR (PML4_INDEX va + 1) 0 0 0 0 - PGSIZE)) else
  let pdpt := P2V (PDPT_ADDR pml4e) in
  pdpte <- tbl_get pdpt (PDPT_INDEX va) ;;
  if negb (PRESENT pdpte)
  then ret (u64 (PGADDR (PML4_INDEX va) (PDPT_INDEX va + 1) 0 0 0 - PGSIZE)) else
  let pgdir := P2V (PDE_ADDR pdpte) in
  pde <- tbl_get pgdir (PD_INDEX va) ;;
  if negb (PRESENT pde)
  then ret (u64 (PGADDR (PML4_INDEX va) (PDPT_INDEX va) (PD_INDEX va + 1) 0 0 - PGSIZE)) else
  panic "level is not missing".

Fixpoint deallocuvm_loop (fuel : nat) (pml4 a last : Z) : K unit :=
  match fuel with
  | O => diverge
  | S fuel =>
      if a <? last then
        o <- walkpml4 pml4 a false ;;
        a' <- match o with
              | None => find_next_possible_page pml4 a
              | Some (tbl, idx) =>
                  pte <- tbl_get tbl idx ;;
                  (if PRESENT pte then
                     let pa := PTE_ADDR pte in
                     if pa =? 0 then panic "kfree" else
                     kfree (P2V pa) ;;
                     tbl_set tbl idx 0
                   else ret tt) ;;
                  ret a
              end ;;
        deallocuvm_loop fuel pml4 (u64 (a' + PGSIZE)) last
      else ret tt
  end.

Definition deallocuvm (pml4 start oldsz newsz : Z) : K Z :=
  if oldsz <=? newsz then ret (i32 oldsz) else
  let a := PGROUNDUP (u64 (start + newsz)) in
  let last := u64 (start + oldsz) in
  deallocuvm_loop (S (Z.to_nat ((last - a + PGSIZE) / PGSIZE))) pml4 a last ;;
  ret (i32 newsz).

(** The indices of a table. *)
Definition table_indices : list Z := seqZ 0 512.

Definition freevm_pgdir (pgdir : Z) : K unit :=
  mfor table_indices (fun i =>
    e <- tbl_get pgdir i ;;
    if PRESENT e then kfree (P2V (PTE_ADDR e)) else ret tt) ;;
  kfree pgdir.

Definition freevm_pdpt (pdpt : Z) : K unit :=
  mfor table_indices (fun i =>
    e <- tbl_get pdpt i ;;
    if PRESENT e then freevm_pgdir (P2V (PDE_ADDR e)) else ret tt) ;;
  kfree pdpt.

Definition freevm (pml4 : Z) : K unit :=
  assertm (truthy pml4) "freevm: no pml4" ;;
  deallocuvm pml4 0 SZ_4G 0 ;;
  mfor table_indices (fun i =>
    e <- tbl_get pml4 i ;;
    if PRESENT e then freevm_pdpt (P2V (PDPT_ADDR e)) else ret tt) ;;
  kfree pml4.

(** ** The tree of tables

    A page table is a tree: the root and, below a table, the tables that its
    present entries point to.  [node fr root p] is the page of the table
    reached from [root] by the indices [p]. *)

Definition entry (fr : gmap Z frame) (pn i : Z) : Z :=
  match fr !! pn with
  | Some (FTable t) => default 0 (t !! i)
  | _ => 0
  end.

Definition child (fr : gmap Z frame) (pn i : Z) : option Z :=
  let e := entry fr pn i in
  if PRESENT e then Some (PGNUM (PTE_ADDR e)) else None.

Fixpoint node (fr : gmap Z frame) (pn : Z) (p : list Z) : option Z :=
  match p with
  | [] => Some pn
  | i :: p => child fr pn i ≫= fun pn' => node fr pn' p
  end.

(** The abstract view of a page table: the entry of each virtual address. *)
Definition va_path (va : Z) : list Z := [PML4_INDEX va; PDPT_INDEX va; PD_INDEX va].

Definition pt_at (fr : gmap Z frame) (root va : Z) : Z :=
  match node fr root (va_path va) with
  | Some pn => entry fr pn (PT_INDEX va)
  | None => 0
  end.

(** A physical page that is not up for allocation. *)
Definition in_use (cm : list core_map_entry) (pn : Z) : Prop :=
  0 <= pn /\ exists e, cm !! Z.to_nat pn = Some e /\ available e <> 1.

(** The kernel address of physical page [pn]. *)
Definition tptr (pn : Z) : Z := P2V (pn * 4096).

(** [pn] is the page of a table of the tree. *)
Definition in_tree (fr : gmap Z frame) (root pn : Z) : Prop :=
  exists p, (length p <= 3)%nat /\ node fr root p = Some pn.

(** A tree: every node is a table in a page of its own that is in use. *)
Record pt_wf (fr : gmap Z frame) (cm : list core_map_entry) (root : Z) : Prop := {
  wf_table : forall pn, in_tree fr root pn -> in_use cm pn /\ exists t, fr !! pn = Some (FTable t);
  wf_inj : forall p q pn, (length p <= 3)%nat -> (length q <= 3)%nat ->
    node fr root p = Some pn -> node fr root q = Some pn -> p = q
}.

Lemma node_snoc fr root p i :
  node fr root (p ++ [i]) = node fr root p ≫= fun pn => child fr pn i.
Proof.
  revert root. induction p as [|j p IH]; intros root; cbn.
  - by destruct (child fr root i).
  - destruct (child fr root j); cbn; [apply IH|done].
Qed.

Lemma child_ext fr fr' pn i : fr' !! pn = fr !! pn -> child fr' pn i = child fr pn i.
Proof. unfold child, entry. by intros ->. Qed.

(** Writing a table at the bottom level changes no path. *)
Lemma node_leaf_update fr cm root q pn f p :
  pt_wf fr cm root -> length q = 3%nat -> node fr root q = Some pn ->
  (length p <= 3)%nat -> node (<[pn := f]> fr) root p = node fr root p.
Proof.
  intros Hwf Hq Hn. induction p as [|i p IH] using rev_ind; intros Hp; [done|].
  rewrite length_app in Hp; cbn in Hp. rewrite !node_snoc, IH by lia.
  destruct (node fr root p) as [pn'|] eqn:E; cbn; [|done].
  apply child_ext. rewrite lookup_insert_ne; [done|]. intros ->.
  assert (p = q) as -> by (eapply (wf_inj _ _ _ Hwf); [lia|lia|done|done]). lia.
Qed.

(** Linking a fresh empty table adds one path. *)
Lemma node_link fr cm root q pn t i m e p :
  pt_wf fr cm root -> (length q <= 2)%nat -> node fr root q = Some pn ->
  fr !! pn = Some (FTable t) -> PRESENT (default 0 (t !! i)) = false ->
  ~ in_tree fr root m -> PRESENT e = true -> PGNUM (PTE_ADDR e) = m ->
  (length p <= 3)%nat ->
  node (<[pn := FTable (<[i := e]> t)]> (<[m := FTable ∅]> fr)) root p =
  if decide (p = q ++ [i]) then Some m else node fr root p.
Proof.
  intros Hwf Hq Hn Ht Hi Hm He Hem.
  assert (Hpm : pn <> m) by (intros ->; apply Hm; exists q; split; [lia|done]).
  assert (Hc : child fr pn i = None) by (unfold child, entry; by rewrite Ht, Hi).
  induction p as [|j p IH] using rev_ind; intros Hp.
  { case_decide as Hd; [by destruct q|done]. }
  rewrite length_app in Hp; cbn in Hp. rewrite !node_snoc, IH by lia. case_decide as Hd.
  - subst p. cbn. rewrite decide_False.
    2:{ intros [Hl _]%app_inj_tail. apply (f_equal length) in Hl. rewrite length_app in Hl. cbn in Hl. lia. }
    rewrite node_snoc, Hn; cbn. rewrite Hc; cbn.
    unfold child, entry. by rewrite lookup_insert_ne, lookup_insert_eq.
  - destruct (node fr root p) as [pn'|] eqn:E; cbn.
    2:{ rewrite decide_False; [done|]. intros [-> ->]%app_inj_tail. congruence. }
    assert (pn' <> m) by (intros ->; apply Hm; exists p; split; [lia|done]).
    destruct (decide (pn' = pn)) as [->|Hne].
    + assert (p = q) as -> by (eapply (wf_inj _ _ _ Hwf); [lia|lia|done|done]).
      unfold child, entry. rewrite lookup_insert_eq, Ht.
      destruct (decide (j = i)) as [->|].
      * rewrite decide_True by done. rewrite lookup_insert_eq; cbn. by rewrite He, Hem.
      * rewrite decide_False by (by intros [_ ->]%app_inj_tail). by rewrite lookup_insert_ne.
    + rewrite decide_False.
      2:{ intros [-> ->]%app_inj_tail. congruence. }
      apply child_ext. by rewrite !lookup_insert_ne.
Qed.

Lemma pt_wf_link fr cm cm' root q pn t i m e :
  pt_wf fr cm root -> (length q <= 2)%nat -> node fr root q = Some pn ->
  fr !! pn = Some (FTable t) -> PRESENT (default 0 (t !! i)) = false ->
  ~ in_tree fr root m -> PRESENT e = true -> PGNUM (PTE_ADDR e) = m ->
  (forall x, in_use cm x -> in_use cm' x) -> in_use cm' m ->
  pt_wf (<[pn := FTable (<[i := e]> t)]> (<[m := FTable ∅]> fr)) cm' root.
Proof.
  intros Hwf Hq Hn Ht Hi Hm He Hem Hcm Hmu.
  assert (HL := fun p => node_link fr cm root q pn t i m e p Hwf Hq Hn Ht Hi Hm He Hem).
  assert (Hpm : pn <> m) by (intros ->; apply Hm; exists q; split; [lia|done]).
  split.
  - intros x (p & Hp & Hx). rewrite HL in Hx by done. case_decide as Hd.
    + injection Hx as <-. split; [done|]. rewrite lookup_insert_ne, lookup_insert_eq by done. eauto.
    + destruct (wf_table _ _ _ Hwf x) as [Hu [t' Ht']]; [by exists p|]. split; [eauto|].
      destruct (decide (pn = x)) as [->|]; [rewrite lookup_insert_eq; eauto|].
      rewrite !lookup_insert_ne; [eauto| |done]. intros ->. apply Hm. by exists p.
  - intros p1 p2 x H1 H2 Hx1 Hx2. rewrite HL in Hx1, Hx2 by done.
    destruct (decide (p1 = q ++ [i])), (decide (p2 = q ++ [i])); [congruence| | |].
    + exfalso. apply Hm. exists p2. split; [done|congruence].
    + exfalso. apply Hm. exists p1. split; [done|congruence].
    + by eapply (wf_inj _ _ _ Hwf).
Qed.

Lemma pt_at_link fr cm root q pn t i m e va :
  pt_wf fr cm root -> (length q <= 2)%nat -> node fr root q = Some pn ->
  fr !! pn = Some (FTable t) -> PRESENT (default 0 (t !! i)) = false ->
  ~ in_tree fr root m -> PRESENT e = true -> PGNUM (PTE_ADDR e) = m ->
  pt_at (<[pn := FTable (<[i := e]> t)]> (<[m := FTable ∅]> fr)) root va = pt_at fr root va.
Proof.
  intros Hwf Hq Hn Ht Hi Hm He Hem. unfold pt_at.
  assert (Hpm : pn <> m) by (intros ->; apply Hm; exists q; split; [lia|done]).
  erewrite node_link by done. case_decide as Hd.
  - rewrite Hd, node_snoc, Hn; cbn. unfold child at 1, entry at 2. rewrite Ht, Hi.
    unfold entry. by rewrite lookup_insert_ne, lookup_insert_eq.
  - destruct (node fr root (va_path va)) as [x|] eqn:E; [|done]. unfold entry.
    rewrite !lookup_insert_ne; [done| |].
    + intros ->. apply Hm. exists (va_path va). split; [cbn; lia|done].
    + intros ->. assert (va_path va = q) as <-
        by (eapply (wf_inj _ _ _ Hwf); [cbn; lia|lia|done|done]). cbn in Hq. lia.
Qed.

Lemma pt_wf_leaf fr cm root q pn t :
  pt_wf fr cm root -> length q = 3%nat -> node fr root q = Some pn ->
  pt_wf (<[pn := FTable t]> fr) cm root.
Proof.
  intros Hwf Hq Hn.
  assert (HL := fun p => node_leaf_update fr cm root q pn (FTable t) p Hwf Hq Hn). split.
  - intros x (p & Hp & Hx). rewrite HL in Hx by done.
    destruct (wf_table _ _ _ Hwf x) as [Hu [t' Ht']]; [by exists p|]. split; [done|].
    destruct (decide (pn = x)) as [->|]; [rewrite lookup_insert_eq|rewrite lookup_insert_ne by done]; eauto.
  - intros p1 p2 x H1 H2 Hx1 Hx2. rewrite HL in Hx1, Hx2 by done. by eapply (wf_inj _ _ _ Hwf).
Qed.

Lemma pt_at_leaf fr cm root q pn t i v va :
  pt_wf fr cm root -> length q = 3%nat -> node fr root q = Some pn ->
  fr !! pn = Some (FTable t) ->
  pt_at (<[pn := FTable (<[i := v]> t)]> fr) root va =
  if decide (va_path va = q /\ PT_INDEX va = i) then v else pt_at fr root va.
Proof.
  intros Hwf Hq Hn Ht. unfold pt_at. erewrite node_leaf_update by done.
  destruct (node fr root (va_path va)) as [x|] eqn:E.
  2:{ rewrite decide_False; [done|]. intros [<- _]. congruence. }
  unfold entry. destruct (decide (x = pn)) as [->|Hx].
  - assert (va_path va = q) as <- by (eapply (wf_inj _ _ _ Hwf); [cbn; lia|lia|done|done]).
    rewrite lookup_insert_eq, Ht. destruct (decide (PT_INDEX va = i)) as [->|].
    + by rewrite decide_True, lookup_insert_eq.
    + rewrite decide_False by (by intros []). by rewrite lookup_insert_ne.
  - rewrite decide_False; [by rewrite lookup_insert_ne|]. intros [<- _]. congruence.
Qed.

(** ** Pointers to tables *)

Lemma PGNUM_tptr pn : 0 <= pn < 2 ^ 19 -> PGNUM (V2P (tptr pn)) = pn.
Proof. intros. unfold tptr. rewrite V2P_P2V by lia. rewrite PGNUM_eq by lia. dlia. Qed.

Lemma tptr_neq_0 pn : 0 <= pn < 2 ^ 19 -> (tptr pn =? 0) = false.
Proof. intros. unfold tptr. rewrite P2V_low by lia. unfold KERNBASE. lia. Qed.

Lemma P2V_ADDR e : P2V (PDPT_ADDR e) = tptr (PGNUM (PTE_ADDR e)).
Proof.
  unfold tptr, PDPT_ADDR, PTE_ADDR. f_equal. rewrite addr_mask, PGNUM_eq; [dlia|].
  pose proof (Z.mod_pos_bound (e / 4096) (2 ^ 40)). lia.
Qed.

(** The entry for a table in page [m]. *)
Lemma table_entry_eq m :
  0 <= m < 2 ^ 19 ->
  Z.lor (Z.lor (Z.lor (V2P (tptr m)) PTE_P) PTE_W) PTE_U = m * 4096 + 7.
Proof.
  intros. unfold tptr. rewrite V2P_P2V by lia. rewrite <- !Z.lor_assoc.
  change (Z.lor PTE_P (Z.lor PTE_W PTE_U)) with 7.
  change 4096 with (2 ^ 12). rewrite <- (Z.shiftl_mul_pow2 m 12) at 1 by lia.
  by apply lor_shiftl_add.
Qed.

Lemma table_entry_spec m :
  0 <= m < 2 ^ 19 -> PRESENT (m * 4096 + 7) = true /\ PGNUM (PTE_ADDR (m * 4096 + 7)) = m.
Proof.
  intros. unfold PRESENT, PTE_ADDR. change PTE_P with (Z.ones 1).
  rewrite Z.land_ones, addr_mask by lia. split.
  - unfold truthy. replace ((m * 4096 + 7) mod 2 ^ 1) with 1 by dlia. done.
  - rewrite PGNUM_eq by dlia. dlia.
Qed.

(** ** What the operations preserve *)

(** The memory side of the kernel is in order: the allocator is well-formed
    and idle, and [root] is the page of a page table. *)
Record vm_ok (tot root : Z) (s : kstate) : Prop := {
  ok_kmem : kmem_wf tot (k_kmem s);
  ok_idle : kmem_idle (k_kmem s);
  ok_cpu : cpu_room 1 (k_cpu s);
  ok_pt : pt_wf (k_frames s) (core_map (k_kmem s)) root
}.

(** What changing the tree of [root] leaves alone: it costs at most [n] pages,
    which become tables of the tree; its tables stay where they are; and every
    page in use that is not a table of this tree keeps its contents. *)
Record vm_grow (root n : Z) (s s' : kstate) : Prop := {
  grow_node : forall p pn, (length p <= 3)%nat ->
    node (k_frames s) root p = Some pn -> node (k_frames s') root p = Some pn;
  grow_tree : forall pn, in_tree (k_frames s') root pn ->
    in_tree (k_frames s) root pn \/ ~ in_use (core_map (k_kmem s)) pn;
  grow_frame : forall pn, in_use (core_map (k_kmem s)) pn -> ~ in_tree (k_frames s) root pn ->
    k_frames s' !! pn = k_frames s !! pn;
  grow_in_use : forall pn, in_use (core_map (k_kmem s)) pn -> in_use (core_map (k_kmem s')) pn;
  grow_cost : navail (core_map (k_kmem s)) - n <= navail (core_map (k_kmem s'));
  grow_rest : exists c km fr, s' = set_k_cpu c (set_k_kmem km (set_k_frames fr s)) /\
    npages km = npages (k_kmem s) /\ (c = k_cpu s \/ c = cpu_cs (k_cpu s))
}.

Definition pt_same (root : Z) (s s' : kstate) : Prop :=
  forall va, pt_at (k_frames s') root va = pt_at (k_frames s) root va.

Lemma vm_grow_refl root s c :
  c = k_cpu s \/ c = cpu_cs (k_cpu s) -> vm_grow root 0 s (set_k_cpu c s).
Proof.
  intros. split; cbn; try done; [by left|lia|]. exists c, (k_kmem s), (k_frames s). split; [by destruct s|done].
Qed.

Lemma vm_grow_le root n m s s' : n <= m -> vm_grow root n s s' -> vm_grow root m s s'.
Proof. intros Hn []. split; try done. lia. Qed.

Lemma vm_grow_trans root n m s1 s2 s3 :
  vm_grow root n s1 s2 -> vm_grow root m s2 s3 -> vm_grow root (n + m) s1 s3.
Proof.
  intros G1 G2. split.
  - intros. eapply grow_node, grow_node; eauto.
  - intros pn [H|H]%(grow_tree _ _ _ _ G2); [by apply (grow_tree _ _ _ _ G1)|].
    right. intros Hu. apply H. by eapply grow_in_use.
  - intros pn Hu Ht. rewrite (grow_frame _ _ _ _ G2); [by eapply grow_frame|by eapply grow_in_use|].
    intros [?|?]%(grow_tree _ _ _ _ G1); auto.
  - intros. by eapply (grow_in_use _ _ _ _ G2), (grow_in_use _ _ _ _ G1).
  - pose proof (grow_cost _ _ _ _ G1). pose proof (grow_cost _ _ _ _ G2). lia.
  - destruct (grow_rest _ _ _ _ G1) as (c1 & km1 & fr1 & -> & N1 & C1).
    destruct (grow_rest _ _ _ _ G2) as (c2 & km2 & fr2 & -> & N2 & C2). cbn in *.
    exists c2, km2, fr2. split; [done|]. split; [congruence|].
    destruct C1 as [->| ->], C2 as [->| ->]; rewrite ?cpu_cs_cs; auto.
Qed.

Lemma in_use_bound tot km pn : kmem_wf tot km -> in_use (core_map km) pn -> 0 <= pn < 2 ^ 19.
Proof.
  intros Hwf [? (e & He & _)]. apply lookup_lt_Some in He.
  pose proof (wf_len _ _ Hwf). pose proof (wf_npages _ _ Hwf). lia.
Qed.

Lemma in_use_take cm i x : in_use cm x -> in_use (alter (set_available 0) i cm) x.
Proof.
  intros [? (e & He & Ha)]. split; [done|]. rewrite list_lookup_alter.
  case_decide; subst; rewrite He; cbn; [eexists; split; [done|cbn; lia]|eauto].
Qed.

Lemma in_use_taken cm i e :
  cm !! i = Some e -> in_use (alter (set_available 0) i cm) (Z.of_nat i).
Proof.
  intros He. split; [lia|]. rewrite Nat2Z.id, list_lookup_alter_eq, He.
  eexists. split; [done|cbn; lia].
Qed.

Lemma tbl_get_eq s pn i t :
  0 <= pn < 2 ^ 19 -> k_frames s !! pn = Some (FTable t) ->
  tbl_get (tptr pn) i s = Done (default 0 (t !! i)) s.
Proof. intros Hp Ht. unfold tbl_get; msimp. by rewrite PGNUM_tptr, Ht. Qed.

Lemma tbl_set_eq s pn i v t :
  0 <= pn < 2 ^ 19 -> k_frames s !! pn = Some (FTable t) ->
  tbl_set (tptr pn) i v s = Done tt (set_k_frames (<[pn := FTable (<[i := v]> t)]> (k_frames s)) s).
Proof. intros Hp Ht. unfold tbl_set; msimp. by rewrite PGNUM_tptr, Ht. Qed.

Lemma tbl_zero_eq s pn :
  0 <= pn < 2 ^ 19 ->
  tbl_zero (tptr pn) s = Done tt (set_k_frames (<[pn := FTable ∅]> (k_frames s)) s).
Proof. intros Hp. unfold tbl_zero. by rewrite PGNUM_tptr. Qed.

Lemma first_available_fresh tot s root i :
  vm_ok tot root s -> first_available (k_kmem s) = Some i ->
  (exists e, core_map (k_kmem s) !! i = Some e /\ available e = 1) /\
  0 <= Z.of_nat i < 2 ^ 19 /\ ~ in_use (core_map (k_kmem s)) (Z.of_nat i) /\
  ~ in_tree (k_frames s) root (Z.of_nat i).
Proof.
  intros [Hwf _ _ Hpt] ((e & He & Ha) & _)%(first_available_Some _ _ _ Hwf).
  assert (Hnu : ~ in_use (core_map (k_kmem s)) (Z.of_nat i)).
  { intros [_ (e' & He' & Ha')]. rewrite Nat2Z.id in He'. congruence. }
  split; [eauto|]. split; [|split; [done|]].
  - apply lookup_lt_Some in He. pose proof (wf_len _ _ Hwf). pose proof (wf_npages _ _ Hwf). lia.
  - intros H%(wf_table _ _ _ Hpt). tauto.
Qed.

(** The state after [walk_level] has linked page [i] under entry [idx] of table [pn]. *)
Definition link_state (pn idx : Z) (t : gmap Z Z) (i : nat) (s : kstate) : kstate :=
  set_k_cpu (cpu_cs (k_cpu s))
    (set_k_kmem (kmem_take i (k_kmem s))
       (set_k_frames (<[pn := FTable (<[idx := Z.of_nat i * 4096 + 7]> t)]>
                        (<[Z.of_nat i := FTable ∅]> (k_frames s))) s)).

Lemma link_state_ok tot root s q pn idx t i :
  vm_ok tot root s -> (length q <= 2)%nat -> node (k_frames s) root q = Some pn ->
  k_frames s !! pn = Some (FTable t) -> PRESENT (default 0 (t !! idx)) = false ->
  first_available (k_kmem s) = Some i ->
  vm_ok tot root (link_state pn idx t i s) /\ vm_grow root 1 s (link_state pn idx t i s) /\
  pt_same root s (link_state pn idx t i s) /\
  node (k_frames (link_state pn idx t i s)) root (q ++ [idx]) = Some (Z.of_nat i).
Proof.
  intros Hok Hq Hn Ht Hp Hi.
  destruct (first_available_fresh _ _ _ _ Hok Hi) as ((e & He & Ha) & Hb & Hnu & Hnt).
  destruct (table_entry_spec (Z.of_nat i) Hb) as [Hpr Had]. destruct Hok as [Hwf Hid Hc Hpt].
  assert (HL := fun p => node_link _ _ _ _ _ _ _ _ _ p Hpt Hq Hn Ht Hp Hnt Hpr Had).
  assert (Hnew : node (k_frames (link_state pn idx t i s)) root (q ++ [idx]) = Some (Z.of_nat i)).
  { cbn. rewrite HL by (rewrite length_app; cbn; lia). by rewrite decide_True. }
  split; [|split; [|split; [|done]]].
  - split; cbn [link_state k_kmem k_cpu k_frames set_k_cpu set_k_kmem set_k_frames].
    + by eapply kmem_take_wf.
    + by destruct Hid.
    + done.
    + eapply pt_wf_link; try done; [intros x; apply in_use_take|by eapply in_use_taken].
  - split; cbn [link_state k_kmem k_cpu k_frames set_k_cpu set_k_kmem set_k_frames].
    + intros p x Hl Hx. rewrite HL by done. case_decide; [|done]. subst p.
      rewrite node_snoc, Hn in Hx; cbn in Hx. unfold child, entry in Hx. by rewrite Ht, Hp in Hx.
    + intros x (p & Hl & Hx). rewrite HL in Hx by done. case_decide; simplify_eq; [by right|].
      left. by exists p.
    + intros x Hu Hx. rewrite !lookup_insert_ne; [done| |].
      * intros <-. done.
      * intros <-. apply Hx. exists q. split; [lia|done].
    + intros x. apply in_use_take.
    + cbn. unfold navail. erewrite count_alter by done. destruct (is_avail e); cbn; lia.
    + eexists _, _, _. split; [reflexivity|]. cbn. auto.
  - intros va. by eapply pt_at_link.
Qed.

Lemma walk_level_spec tot root s q pn idx :
  vm_ok tot root s -> (length q <= 2)%nat -> node (k_frames s) root q = Some pn ->
  exists r s', walk_level (tptr pn) idx true s = Done r s' /\
    vm_ok tot root s' /\ vm_grow root 1 s s' /\ pt_same root s s' /\
    match r with
    | Some v => exists m, v = tptr m /\ node (k_frames s') root (q ++ [idx]) = Some m
    | None => navail (core_map (k_kmem s)) = 0
    end.
Proof.
  intros Hok Hq Hn. pose proof Hok as [Hwf Hid Hc Hpt].
  destruct (wf_table _ _ _ Hpt pn) as [Hu [t Ht]]; [exists q; split; [lia|done]|].
  pose proof (in_use_bound _ _ _ Hwf Hu) as Hb.
  unfold walk_level. mstep tbl_get_eq; [|done|done].
  destruct (PRESENT (default 0 (t !! idx))) eqn:Hp.
  - exists (Some (P2V (PDPT_ADDR (default 0 (t !! idx))))), s. split; [done|]. split; [done|]. split.
    + apply (vm_grow_le _ 0); [lia|]. rewrite <- (set_k_cpu_id s) at 2.
      apply vm_grow_refl. by left.
    + split; [done|]. eexists. split; [apply P2V_ADDR|]. rewrite node_snoc, Hn; cbn. unfold child, entry.
      by rewrite Ht, Hp.
  - cbn [negb]. pose proof (kalloc_eq s tot Hwf Hid Hc) as Hk.
    destruct (first_available (k_kmem s)) as [i|] eqn:Hi; mstep Hk.
    + destruct (first_available_fresh _ _ _ _ Hok Hi) as (_ & Hbi & Hnu & Hnt).
      change (P2V (Z.of_nat i * 4096)) with (tptr (Z.of_nat i)).
      rewrite tptr_neq_0 by done. mstep tbl_zero_eq; [|done].
      mstep tbl_set_eq; [|done|cbn; rewrite lookup_insert_ne; [done|]].
      2:{ intros <-. apply Hnt. exists q. split; [lia|done]. }
      rewrite table_entry_eq by done.
      destruct (link_state_ok tot root s q pn idx t i Hok Hq Hn Ht Hp Hi) as (H1 & H2 & H3 & H4).
      exists (Some (tptr (Z.of_nat i))), (link_state pn idx t i s).
      split; [done|]. split; [done|]. split; [done|]. eauto.
    + exists None, (set_k_cpu (cpu_cs (k_cpu s)) s). split; [done|]. split; [by split|].
      split; [|split; [done|by apply (first_available_None tot)]].
      apply (vm_grow_le _ 0); [lia|]. apply vm_grow_refl. by right.
Qed.

(** [walkpml4] with [alloc]: it returns null only when memory ran out, and
    otherwise the place of the entry of [va] in the tree. *)
Lemma walkpml4_spec tot root s va :
  vm_ok tot root s ->
  exists r s', walkpml4 (tptr root) va true s = Done r s' /\
    vm_ok tot root s' /\ vm_grow root 3 s s' /\ pt_same root s s' /\
    match r with
    | Some (tbl, idx) => idx = PT_INDEX va /\
        exists m, tbl = tptr m /\ node (k_frames s') root (va_path va) = Some m
    | None => navail (core_map (k_kmem s)) < 3
    end.
Proof.
  intros Hok. unfold walkpml4.
  destruct (walk_level_spec tot root s [] root (PML4_INDEX va)) as (r1 & s1 & E1 & O1 & G1 & P1 & R1);
    [done|cbn; lia|done|].
  mstep E1. destruct r1 as [v1|].
  2:{ exists None, s1. split_and!; try done; [by apply (vm_grow_le _ 1)|cbv iota in R1; lia]. }
  destruct R1 as (m1 & -> & N1). cbn [app] in N1.
  destruct (walk_level_spec tot root s1 [PML4_INDEX va] m1 (PDPT_INDEX va) O1 ltac:(cbn; lia) N1)
    as (r2 & s2 & E2 & O2 & G2 & P2 & R2).
  mstep E2. pose proof (vm_grow_trans _ _ _ _ _ _ G1 G2) as G12.
  assert (P12 : pt_same root s s2) by (intros x; by rewrite P2, P1). destruct r2 as [v2|].
  2:{ exists None, s2. split_and!; try done; [by apply (vm_grow_le _ 2)|].
      cbv iota in R2. pose proof (grow_cost _ _ _ _ G1). lia. }
  destruct R2 as (m2 & -> & N2). cbn [app] in N2.
  destruct (walk_level_spec tot root s2 [PML4_INDEX va; PDPT_INDEX va] m2 (PD_INDEX va) O2 ltac:(cbn; lia) N2)
    as (r3 & s3 & E3 & O3 & G3 & P3 & R3).
  mstep E3. pose proof (vm_grow_trans _ _ _ _ _ _ G12 G3) as G.
  assert (P13 : pt_same root s s3) by (intros x; by rewrite P3, P12). destruct r3 as [v3|].
  - destruct R3 as (m3 & -> & N3). exists (Some (tptr m3, PT_INDEX va)), s3.
    split_and!; try done. eauto.
  - exists None, s3. split_and!; try done.
    cbv iota in R3. pose proof (grow_cost _ _ _ _ G12). lia.
Qed.

(** The virtual page number of an address, of which translation uses 36 bits. *)
Definition vpn (va : Z) : Z := va / 4096 mod 2 ^ 36.

Lemma vpn_page v : vpn (v * 4096) = v mod 2 ^ 36.
Proof. unfold vpn. by rewrite Z.div_mul by lia. Qed.

Lemma same_entry va va' :
  va_path va = va_path va' /\ PT_INDEX va = PT_INDEX va' <-> vpn va = vpn va'.
Proof.
  unfold va_path, vpn. rewrite !PML4_INDEX_eq, !PDPT_INDEX_eq, !PD_INDEX_eq, !PT_INDEX_eq.
  split.
  - intros [[= H1 H2 H3] H4]. dlia.
  - intros H. assert (va / 2 ^ 39 mod 512 = va' / 2 ^ 39 mod 512) as -> by dlia.
    assert (va / 2 ^ 30 mod 512 = va' / 2 ^ 30 mod 512) as -> by dlia.
    assert (va / 2 ^ 21 mod 512 = va' / 2 ^ 21 mod 512) as -> by dlia.
    split; [done|dlia].
Qed.

Lemma vm_grow_cpu root n s s' : vm_grow root n s s' -> cpu_room 1 (k_cpu s) -> cpu_room 1 (k_cpu s').
Proof. intros G Hc. destruct (grow_rest _ _ _ _ G) as (c & km & fr & -> & _ & [->| ->]); done. Qed.

(** Writing the entry of [va]. *)
Lemma write_entry tot root s va m v :
  vm_ok tot root s -> node (k_frames s) root (va_path va) = Some m ->
  exists s', tbl_set (tptr m) (PT_INDEX va) v s = Done tt s' /\
    vm_ok tot root s' /\ vm_grow root 0 s s' /\ k_kmem s' = k_kmem s /\
    forall va', pt_at (k_frames s') root va' =
      if decide (vpn va' = vpn va) then v else pt_at (k_frames s) root va'.
Proof.
  intros [Hwf Hid Hc Hpt] Hn.
  assert (Htr : in_tree (k_frames s) root m) by (exists (va_path va); split; [cbn; lia|done]).
  destruct (wf_table _ _ _ Hpt m Htr) as [Hu [t Ht]].
  assert (HL := fun p f => node_leaf_update _ _ _ (va_path va) m f p Hpt eq_refl Hn).
  eexists. split; [apply tbl_set_eq; [by eapply in_use_bound|done]|]. split_and!.
  - split; try done. by apply (pt_wf_leaf _ _ _ (va_path va)).
  - split; cbn; try done.
    + intros p x Hl Hx. by rewrite HL.
    + intros x (p & Hl & Hx). rewrite HL in Hx by done. left. by exists p.
    + intros x _ Hx. rewrite lookup_insert_ne; [done|]. intros <-. by apply Hx.
    + lia.
    + eexists (k_cpu s), (k_kmem s), _. split; [reflexivity|auto].
  - done.
  - intros va'. cbn. rewrite (pt_at_leaf _ _ _ (va_path va) _ _ _ _ va' Hpt eq_refl Hn Ht).
    destruct (decide (vpn va' = vpn va)) as [H|H].
    + by rewrite decide_True by (by apply same_entry).
    + by rewrite decide_False by (by rewrite same_entry).
Qed.

Lemma mark_user_mem_ok tot root s i va :
  vm_ok tot root s -> 0 <= i < npages (k_kmem s) ->
  exists s', mark_user_mem (i * 4096) va s = Done tt s' /\
    vm_ok tot root s' /\ vm_grow root 0 s s' /\ k_frames s' = k_frames s.
Proof.
  intros [Hwf Hid Hc Hpt] Hi. pose proof (wf_npages _ _ Hwf). pose proof (wf_len _ _ Hwf).
  destruct (lookup_lt_is_Some_2 (core_map (k_kmem s)) (Z.to_nat i)) as [e He]; [lia|].
  assert (Hpa : pa2page (i * 4096) s = Done (Z.to_nat i) s).
  { rewrite <- (pa2page_eq s (Z.to_nat i)) by lia. do 2 f_equal. lia. }
  unfold mark_user_mem. mstep Hpa.
  set (f := fun e => set_cm_va va (set_user 1 e)).
  assert (Huse : forall x, in_use (core_map (k_kmem s)) x ->
                   in_use (alter f (Z.to_nat i) (core_map (k_kmem s))) x).
  { intros x [? (e' & He' & ?)]. split; [done|]. rewrite list_lookup_alter.
    case_decide as Hd; [rewrite ?Hd, He'; cbn|]; eauto. }
  assert (Hav : navail (alter f (Z.to_nat i) (core_map (k_kmem s))) = navail (core_map (k_kmem s))).
  { unfold navail. erewrite count_alter by done. change (is_avail (f e)) with (is_avail e). lia. }
  eexists. split; [|split; [|split]].
  - unfold upd_core_map; msimp. rewrite He; msimp. rewrite alter_insert by done. done.
  - split; cbn; try done.
    + destruct Hwf. split; cbn; rewrite ?length_alter, ?Hav; try done.
      intros j e'. rewrite list_lookup_alter. case_decide; [|eauto]. subst j. rewrite He; cbn.
      intros [= <-]. cbn. eauto.
    + by destruct Hid.
    + destruct Hpt as [H1 H2]. split; [|exact H2]. intros pn Hpn. destruct (H1 pn Hpn). auto.
  - split; cbn; try done; [by left|rewrite Hav; lia|].
    eexists (k_cpu s), _, (k_frames s). split; [reflexivity|]. cbn. auto.
  - done.
Qed.

(** Reading the entry of [va]. *)
Lemma read_entry tot root s va m :
  vm_ok tot root s -> node (k_frames s) root (va_path va) = Some m ->
  tbl_get (tptr m) (PT_INDEX va) s = Done (pt_at (k_frames s) root va) s.
Proof.
  intros [Hwf Hid Hc Hpt] Hn.
  destruct (wf_table _ _ _ Hpt m) as [Hu [t Ht]]; [exists (va_path va); split; [cbn; lia|done]|].
  rewrite (tbl_get_eq s m _ t) by (done || by eapply in_use_bound).
  unfold pt_at, entry. by rewrite Hn, Ht.
Qed.

Lemma pn_shiftl v : 0 <= v < 2 ^ 52 -> u64 (Z.shiftl v PT_SHIFT) = v * 4096.
Proof. intros. unfold PT_SHIFT. rewrite Z.shiftl_mul_pow2 by lia. apply u64_small. lia. Qed.

(** The page table maps virtual page [v] with entry [e], and is as before elsewhere. *)
Definition pt_update (root v e : Z) (s s' : kstate) : Prop :=
  forall va, pt_at (k_frames s') root va =
    if decide (vpn va = v mod 2 ^ 36) then e else pt_at (k_frames s) root va.

Lemma map_one_spec tot root s v p perm kern :
  vm_ok tot root s -> 3 <= navail (core_map (k_kmem s)) ->
  0 <= v < 2 ^ 52 -> 0 <= p < 2 ^ 40 -> (kern = false -> p < npages (k_kmem s)) ->
  PRESENT (pt_at (k_frames s) root (v * 4096)) = false ->
  exists s', map_one (tptr root) v p perm kern s = Done tt s' /\
    vm_ok tot root s' /\ vm_grow root 3 s s' /\ pt_update root v (PTE (p * 4096) perm) s s'.
Proof.
  intros Hok Hav Hv Hp Hk Hnp. unfold map_one. rewrite !pn_shiftl by lia.
  destruct (walkpml4_spec tot root s (v * 4096) Hok) as ([[tbl idx]|] & s1 & E1 & O1 & G1 & P1 & R1);
    [|cbv iota in R1; lia].
  destruct R1 as (-> & m & -> & N1). mstep E1. mstep (read_entry tot root s1 _ m O1 N1).
  rewrite P1, Hnp.
  destruct (write_entry tot root s1 _ m (PTE (p * 4096) perm) O1 N1) as (s2 & E2 & O2 & G2 & K2 & P2).
  mstep E2. pose proof (vm_grow_trans _ _ _ _ _ _ G1 G2) as G12.
  assert (Hu : pt_update root v (PTE (p * 4096) perm) s s2).
  { intros va. by rewrite P2, P1, vpn_page. }
  destruct kern; [exists s2; done|].
  destruct (grow_rest _ _ _ _ G1) as (c & km & fr & Hs1 & Hnp1 & _).
  destruct (mark_user_mem_ok tot root s2 p (v * 4096)) as (s3 & E3 & O3 & G3 & F3); [done| |].
  { rewrite K2, Hs1. cbn. rewrite Hnp1. specialize (Hk eq_refl). lia. }
  exists s3. split; [done|]. split; [done|]. split.
  - apply (vm_grow_le _ (3 + 0 + 0)); [lia|]. by eapply vm_grow_trans.
  - unfold pt_update. by rewrite F3.
Qed.

(** The entry that mapping [n] pages from virtual page [v] and physical page [p]
    gives to virtual page [w], and the old one for a page that is not mapped. *)
Fixpoint mapped (n : nat) (v p perm : Z) (w old : Z) : Z :=
  match n with
  | O => old
  | S n => mapped n (v + 1) (p + 1) perm w
             (if decide (w = v mod 2 ^ 36) then PTE (p * 4096) perm else old)
  end.

Lemma mappages_loop_spec tot root perm kern n s v p :
  vm_ok tot root s -> 3 * Z.of_nat n <= navail (core_map (k_kmem s)) ->
  0 <= v -> v + Z.of_nat n <= 2 ^ 52 -> Z.of_nat n <= 2 ^ 36 ->
  0 <= p -> p + Z.of_nat n <= 2 ^ 40 -> (kern = false -> p + Z.of_nat n <= npages (k_kmem s)) ->
  (forall k, 0 <= k < Z.of_nat n -> PRESENT (pt_at (k_frames s) root ((v + k) * 4096)) = false) ->
  exists s', mappages_loop n (tptr root) v p perm kern s = Done tt s' /\
    vm_ok tot root s' /\ vm_grow root (3 * Z.of_nat n) s s' /\
    forall va, pt_at (k_frames s') root va = mapped n v p perm (vpn va) (pt_at (k_frames s) root va).
Proof.
  revert s v p. induction n as [|n IH]; intros s v p Hok Hav Hv Hvn Hn Hp Hpn Hk Hnp.
  { exists s. split; [done|]. split; [done|]. split; [|done].
    rewrite <- (set_k_cpu_id s) at 2. apply vm_grow_refl. by left. }
  destruct (map_one_spec tot root s v p perm kern) as (s1 & E1 & O1 & G1 & P1);
    [done|lia|lia|lia|intros ->; specialize (Hk eq_refl); lia| |].
  { rewrite <- (Z.add_0_r v). apply Hnp. lia. }
  cbn [mappages_loop]. mstep E1. rewrite !u64_small by lia.
  pose proof (grow_cost _ _ _ _ G1).
  destruct (IH s1 (v + 1) (p + 1)) as (s2 & E2 & O2 & G2 & P2); try done; try lia.
  - intros ->. destruct (grow_rest _ _ _ _ G1) as (c & km & fr & -> & Hnpg & _). cbn.
    specialize (Hk eq_refl). lia.
  - intros k Hkb. rewrite P1, decide_False; [|rewrite vpn_page; dlia].
    replace (v + 1 + k) with (v + (k + 1)) by lia. apply Hnp. lia.
  - exists s2. split; [done|]. split; [done|]. split.
    + apply (vm_grow_le _ (3 + 3 * Z.of_nat n)); [lia|]. by eapply vm_grow_trans.
    + intros va. by rewrite P2, P1.
Qed.

Lemma mapped_out n v p perm w old :
  (forall k, 0 <= k < Z.of_nat n -> w <> (v + k) mod 2 ^ 36) -> mapped n v p perm w old = old.
Proof.
  revert v p old. induction n as [|n IH]; intros v p old H; cbn [mapped]; [done|].
  rewrite decide_False by (rewrite <- (Z.add_0_r v); apply H; lia).
  apply IH. intros k Hk. replace (v + 1 + k) with (v + (k + 1)) by lia. apply H. lia.
Qed.

Lemma mapped_in n v p perm k old :
  0 <= k < Z.of_nat n -> Z.of_nat n <= 2 ^ 36 -> 0 <= v ->
  mapped n v p perm ((v + k) mod 2 ^ 36) old = PTE ((p + k) * 4096) perm.
Proof.
  revert v p k old. induction n as [|n IH]; intros v p k old Hk Hn Hv; [lia|]. cbn [mapped].
  destruct (Z.eq_dec k 0) as [->|].
  - rewrite !Z.add_0_r, decide_True by done. apply mapped_out. intros k Hk'. dlia.
  - replace (v + k) with (v + 1 + (k - 1)) by lia. rewrite IH by lia. do 2 f_equal. lia.
Qed.

(** *** Looking up without allocating *)

Lemma walk_level_lookup tot root s q pn idx :
  vm_ok tot root s -> (length q <= 2)%nat -> node (k_frames s) root q = Some pn ->
  walk_level (tptr pn) idx false s =
  Done (tptr <$> node (k_frames s) root (q ++ [idx])) s.
Proof.
  intros [Hwf Hid Hc Hpt] Hq Hn.
  destruct (wf_table _ _ _ Hpt pn) as [Hu [t Ht]]; [exists q; split; [lia|done]|].
  pose proof (in_use_bound _ _ _ Hwf Hu) as Hb.
  unfold walk_level. mstep tbl_get_eq; [|done|done].
  rewrite node_snoc, Hn; cbn. unfold child, entry. rewrite Ht.
  destruct (PRESENT (default 0 (t !! idx))); cbn; [|done]. by rewrite P2V_ADDR.
Qed.

Lemma walkpml4_lookup tot root s va :
  vm_ok tot root s ->
  walkpml4 (tptr root) va false s =
  Done ((fun m => (tptr m, PT_INDEX va)) <$> node (k_frames s) root (va_path va)) s.
Proof.
  intros Hok. unfold walkpml4, va_path.
  mstep (walk_level_lookup tot root s [] root (PML4_INDEX va) Hok); [|cbn; lia|done].
  cbn [app].
  destruct (node (k_frames s) root [PML4_INDEX va]) as [m1|] eqn:N1; cbn [fmap option_fmap option_map];
    [|unfold node in *; cbn in *; by destruct (child _ root (PML4_INDEX va))].
  mstep (walk_level_lookup tot root s [PML4_INDEX va] m1 (PDPT_INDEX va) Hok); [|cbn; lia|done].
  change [PML4_INDEX va; PDPT_INDEX va; PD_INDEX va]
    with ([PML4_INDEX va; PDPT_INDEX va] ++ [PD_INDEX va]).
  rewrite (node_snoc _ _ [PML4_INDEX va; PDPT_INDEX va]). cbn [app].
  destruct (node (k_frames s) root [PML4_INDEX va; PDPT_INDEX va]) as [m2|] eqn:N2; [|done].
  cbn [fmap option_fmap option_map mbind option_bind].
  mstep (walk_level_lookup tot root s [PML4_INDEX va; PDPT_INDEX va] m2 (PD_INDEX va) Hok);
    [|cbn; lia|done].
  rewrite node_snoc, N2. cbn [mbind option_bind].
  by destruct (child (k_frames s) m2 (PD_INDEX va)).
Qed.

Lemma PRESENT_odd e : PRESENT e = Z.odd e.
Proof.
  unfold PRESENT, truthy. change PTE_P with (Z.ones 1).
  rewrite Z.land_ones by lia. change (2 ^ 1) with 2. rewrite Zmod_odd. by destruct (Z.odd e).
Qed.

Lemma PRESENT_PTE pn perm : PRESENT (PTE (pn * 4096) perm) = Z.odd perm.
Proof.
  rewrite PRESENT_odd. unfold PTE, u64. rewrite <- !Z.bit0_odd.
  rewrite Z.mod_pow2_bits_low, Z.lor_spec, !Z.bit0_odd, Z.odd_mul by lia.
  by rewrite andb_false_r.
Qed.

(** A page that is mapped is not mapped again. *)
Lemma remap_lemma tot root n v p perm kern s :
  vm_ok tot root s -> 0 < n -> 0 <= v < 2 ^ 52 -> 3 <= navail (core_map (k_kmem s)) ->
  PRESENT (pt_at (k_frames s) root (v * 4096)) = true ->
  mappages (tptr root) v n p perm kern s = Panic "remap".
Proof.
  intros Hok Hn Hv Hav Hmapped.
  unfold mappages. destruct (Z.to_nat n) as [|n'] eqn:En; [lia|]. cbn [mappages_loop].
  apply bind_panic, bind_panic. unfold map_one. rewrite (pn_shiftl v) by lia.
  destruct (walkpml4_spec tot root s (v * 4096) Hok) as ([[tbl idx]|] & s1 & E1 & O1 & G1 & P1 & R1);
    [|cbv iota in R1; lia].
  destruct R1 as (-> & m & -> & N1). mstep E1. mstep (read_entry tot root s1 _ m O1 N1).
  by rewrite P1, Hmapped.
Qed.

(** ** Properties *)

(** C10: [mappages] implements a partial map from virtual pages to entries.
    With three pages available for each page to map (a walk creates at most
    three tables) and none of the virtual pages mapped, it returns 0; the [k]-th
    virtual page then has the entry of the [k]-th physical page, every other
    address keeps its entry, the tables still form a tree, and no page in use
    outside the tree is touched. *)
Theorem mappages_correct (tot root n v p perm : Z) (kern : bool) (s : kstate)
    (Hok : vm_ok tot root s) (Hn : 0 <= n <= 2 ^ 30)
    (Hav : 3 * n <= navail (core_map (k_kmem s)))
    (Hv : 0 <= v /\ v + n <= 2 ^ 52) (Hp : 0 <= p /\ p + n <= 2 ^ 40)
    (Hk : kern = false -> p + n <= npages (k_kmem s))
    (Hfree : forall k, 0 <= k < n -> PRESENT (pt_at (k_frames s) root ((v + k) * 4096)) = false) :
  exists s', mappages (tptr root) v n p perm kern s = Done 0 s' /\ vm_ok tot root s' /\
    (forall k, 0 <= k < n ->
       pt_at (k_frames s') root ((v + k) * 4096) = PTE ((p + k) * 4096) perm) /\
    (forall va, (forall k, 0 <= k < n -> vpn va <> (v + k) mod 2 ^ 36) ->
       pt_at (k_frames s') root va = pt_at (k_frames s) root va) /\
    (forall pn, in_use (core_map (k_kmem s)) pn -> ~ in_tree (k_frames s) root pn ->
       k_frames s' !! pn = k_frames s !! pn).
Proof.
  assert (Hz : Z.of_nat (Z.to_nat n) = n) by lia.
  destruct (mappages_loop_spec tot root perm kern (Z.to_nat n) s v p)
    as (s' & E & O & G & P); rewrite ?Hz; try done; try lia.
  exists s'. split; [unfold mappages; by mstep E|]. split; [done|]. split; [|split].
  - intros k Hkb. rewrite P, vpn_page. apply mapped_in; lia.
  - intros va Hva. rewrite P. apply mapped_out. intros k Hkb. apply Hva. lia.
  - apply (grow_frame _ _ _ _ G).
Qed.

(** a mapping is never overwritten: after [mappages] has mapped [n] pages
    with a present permission, mapping any of them again panics with [remap]. *)
Theorem mappages_remap_panics (tot root n v p perm k n' p' perm' : Z) (kern kern' : bool) (s : kstate)
    (Hok : vm_ok tot root s) (Hn : 0 <= n <= 2 ^ 30)
    (Hav : 3 * n + 3 <= navail (core_map (k_kmem s)))
    (Hv : 0 <= v /\ v + n <= 2 ^ 52) (Hp : 0 <= p /\ p + n <= 2 ^ 40)
    (Hk : kern = false -> p + n <= npages (k_kmem s))
    (Hfree : forall k, 0 <= k < n -> PRESENT (pt_at (k_frames s) root ((v + k) * 4096)) = false)
    (Hperm : Z.odd perm = true) (Hagain : 0 <= k < n) (Hn' : 0 < n') :
  (mappages (tptr root) v n p perm kern ;; mappages (tptr root) (v + k) n' p' perm' kern') s
  = Panic "remap".
Proof.
  assert (Hz : Z.of_nat (Z.to_nat n) = n) by lia.
  destruct (mappages_loop_spec tot root perm kern (Z.to_nat n) s v p)
    as (s' & E & O & G & P); rewrite ?Hz; try done; try lia.
  pose proof (grow_cost _ _ _ _ G). rewrite Hz in *.
  assert (E' : mappages (tptr root) v n p perm kern s = Done 0 s') by (unfold mappages; by mstep E).
  mstep E'. eapply remap_lemma; [done|lia|lia|lia|].
  rewrite P, vpn_page, mapped_in by lia. by rewrite PRESENT_PTE.
Qed.

(** ** Concrete instances *)

(** A machine with an empty page table in page 1. *)
Definition pt_state (n : nat) : kstate :=
  set_k_frames {[1 := FTable ∅]} (small_state n).

Lemma empty_table_tree p pn : node {[1 := FTable ∅]} 1 p = Some pn -> p = [] /\ pn = 1.
Proof. destruct p as [|i p]; cbn; [by intros [= <-]|]. unfold child, entry. by rewrite lookup_singleton_eq. Qed.

Lemma pt_state_ok n : Z.of_nat n < 2 ^ 18 -> vm_ok (Z.of_nat n) 1 (pt_state n).
Proof.
  intros Hn. split.
  - by apply (small_kmem_wf n).
  - apply small_kmem_idle.
  - split; [cbn; lia|done].
  - split.
    + intros pn (p & _ & [-> ->]%empty_table_tree). split; [|eexists; apply lookup_singleton_eq].
      split; [lia|]. eexists. split; [reflexivity|]. cbn. lia.
    + by intros p q pn _ _ [-> _]%empty_table_tree [-> _]%empty_table_tree.
Qed.

Lemma pt_state_at n va : pt_at (k_frames (pt_state n)) 1 va = 0.
Proof.
  unfold pt_at. destruct (node _ 1 (va_path va)) eqn:E; [|done].
  by apply empty_table_tree in E as [? _].
Qed.

Lemma mappages_correct_witness :
  exists s', mappages (tptr 1) 0x80000 2 3 7 false (pt_state 8) = Done 0 s' /\
    pt_at (k_frames s') 1 0x80001000 = PTE 0x4000 7.
Proof.
  destruct (mappages_correct 8 1 2 0x80000 3 7 false (pt_state 8)) as (s' & H1 & _ & H2 & _);
    [apply (pt_state_ok 8); lia|lia|vm_compute; discriminate|lia|lia|vm_compute; discriminate| |].
  - intros k Hk. by rewrite pt_state_at.
  - exists s'. split; [exact H1|]. apply (H2 1). lia.
Defined.

Lemma mappages_remap_panics_witness :
  (mappages (tptr 1) 0x80000 1 3 7 false ;; mappages (tptr 1) 0x80000 1 4 5 false) (pt_state 8)
  = Panic "remap".
Proof.
  apply (mappages_remap_panics 8 1 1 0x80000 3 7 0 1 4 5 false false (pt_state 8));
    [apply (pt_state_ok 8); lia|lia|vm_compute; discriminate|lia|lia|vm_compute; discriminate| | | |].
  - intros k Hk. by rewrite pt_state_at.
  - reflexivity.
  - lia.
  - lia.
Defined.
