(* ===== verification/Umem.v ===== *)
(** * Access to memory by virtual address

    The kernel runs on the page table of the current process and follows the
    user's pointers as they are.  An access goes through the page table in
    [cr3]; an access to a page that is not mapped (or, as [entry.S] turns on
    [CR0_WP], a write to a page that is not writable) is a page fault in
    kernel mode, for which [trap] panics. *)

From S2P Require Import Prelude Types Spinlock Mmu Kalloc X86vm.

(** The page-table entry of [va] in the current address space. *)
Definition user_pte (s : kstate) (va : Z) : Z :=
  pt_at (k_frames s) (PGNUM (cr3 (k_cpu s))) va.

(** [*va], a byte. *)
Definition load_user (va : Z) : K Z :=
  e <- gets (fun s => user_pte s va) ;;
  if negb (PRESENT e) then panic "trap" else
  o <- gets (fun s => k_frames s !! PGNUM (PTE_ADDR e)) ;;
  match o with
  | Some (FBytes bs) => deref "byte of a page" (bs !! Z.to_nat (va mod PGSIZE))
  | _ => fault "not a page of bytes"
  end.

(** [*va = v], a byte. *)
Definition store_user (va v : Z) : K unit :=
  e <- gets (fun s => user_pte s va) ;;
  if negb (PRESENT e) || (Z.land e PTE_W =? 0) then panic "trap" else
  o <- gets (fun s => k_frames s !! PGNUM (PTE_ADDR e)) ;;
  match o with
  | Some (FBytes bs) => upd_frame (PGNUM (PTE_ADDR e)) (FBytes (<[Z.to_nat (va mod PGSIZE) := u8 v]> bs))
  | _ => fault "not a page of bytes"
  end.

(** [n] bytes from [va]. *)
Fixpoint copyin (n : nat) (va : Z) : K (list Z) :=
  match n with
  | O => ret []
  | S n =>
      c <- load_user va ;;
      cs <- copyin n (u64 (va + 1)) ;;
      ret (c :: cs)
  end.

Fixpoint copyout (va : Z) (bs : list Z) : K unit :=
  match bs with
  | [] => ret tt
  | c :: bs => store_user va c ;; copyout (u64 (va + 1)) bs
  end.

(** The bytes of an [n]-byte little-endian integer, and back. *)
Fixpoint le_bytes (n : nat) (v : Z) : list Z :=
  match n with
  | O => []
  | S n => v mod 256 :: le_bytes n (v / 256)
  end.

Fixpoint le_value (l : list Z) : Z :=
  match l with
  | [] => 0
  | c :: l => c + 256 * le_value l
  end.

(** Reading and writing a C [int] at [va]. *)
Definition load_int (va : Z) : K Z := bs <- copyin 4 va ;; ret (i32 (le_value bs)).
Definition store_int (va v : Z) : K unit := copyout va (le_bytes 4 v).

Lemma le_bytes_value n v : le_value (le_bytes n v) = v mod 256 ^ Z.of_nat n.
Proof.
  revert v. induction n as [|n IH]; intros v; cbn [le_bytes le_value].
  { cbn. by rewrite Z.mod_1_r. }
  rewrite IH, Nat2Z.inj_succ, Z.pow_succ_r by lia.
  rewrite (Z.rem_mul_r v 256 (256 ^ Z.of_nat n)) by lia. lia.
Qed.
