(* ===== verification/Vspace.v ===== *)
(** * Address spaces: [kernel/vspace.c]

    A process's address space is three regions, each with a linked list of
    pages of [vpage_info] records (one per virtual page), and a page table that
    [vspaceupdate] rebuilds from them.  The functions that the C code calls
    with a pointer to a region or to an address space take its value and return
    the new one; a [struct vpage_info *] is the address of its page and an
    index.  The functions that load an executable from a file
    ([vrloaddata], [vspaceloadcode]) are in the file-system part. *)

From S2P Require Import Prelude Types Spinlock Mmu Kalloc X86vm.

(** ** Pages of bytes and of page descriptors *)

Definition zero_vpi_page : vpi_page := mk_vpi_page (replicate VPIPPAGE zero_vpi) 0.
Definition zero_page : frame := FBytes (replicate (Z.to_nat PGSIZE) 0).

(** [memset(p, 0, PGSIZE)] on a page used for what [f] says. *)
Definition memset_page (p : Z) (f : frame) : K unit :=
  if p =? 0 then fault "memset of a null pointer" else upd_frame (PGNUM (V2P p)) f.

Definition vpi_page_get (p : Z) : K vpi_page :=
  o <- gets (fun s => k_frames s !! PGNUM (V2P p)) ;;
  match o with
  | Some (FVpi pg) => if p =? 0 then fault "null vpi_page" else ret pg
  | _ => fault "not a vpi_page"
  end.

Definition vpi_page_set (p : Z) (pg : vpi_page) : K unit := upd_frame (PGNUM (V2P p)) (FVpi pg).

(** [*vpi] and [*vpi = v] for [vpi = &page->infos[idx]]. *)
Definition vpi_get (r : Z * Z) : K vpage_info :=
  pg <- vpi_page_get (fst r) ;;
  if snd r <? 0 then fault "vpage_info index" else
  deref "vpage_info index" (infos pg !! Z.to_nat (snd r)).

Definition vpi_set (r : Z * Z) (v : vpage_info) : K unit :=
  pg <- vpi_page_get (fst r) ;;
  if (0 <=? snd r) && (snd r <? Z.of_nat VPIPPAGE)
  then vpi_page_set (fst r) (set_infos (<[Z.to_nat (snd r) := v]> (infos pg)) pg)
  else fault "vpage_info index".

(** [memmove(p + off, bs, len)] into a page of bytes at kernel address [p]. *)
Definition page_write (p off : Z) (bs : list Z) : K unit :=
  o <- gets (fun s => k_frames s !! PGNUM (V2P p)) ;;
  match o with
  | Some (FBytes old) =>
      if Z.of_nat (Z.to_nat off + length bs) <=? PGSIZE
      then upd_frame (PGNUM (V2P p))
             (FBytes (take (Z.to_nat off) old ++ bs ++ drop (Z.to_nat off + length bs) old))
      else fault "write past the end of a page"
  | _ => fault "not a page of bytes"
  end.

(** The bytes of the page at kernel address [p]. *)
Definition page_read (p : Z) : K (list Z) :=
  o <- gets (fun s => k_frames s !! PGNUM (V2P p)) ;;
  match o with
  | Some (FBytes bs) => ret bs
  | _ => fault "not a page of bytes"
  end.

(** ** Regions *)

(** [VRTOP] and [VRBOT] of [inc/vspace.h]. *)
Definition VRTOP (r : vregion) : Z :=
  if dir r =? VRDIR_UP then u64 (va_base r + vr_size r) else va_base r.
Definition VRBOT (r : vregion) : Z :=
  if dir r =? VRDIR_UP then va_base r else u64 (va_base r - vr_size r).

Definition va2vpi_idx (r : vregion) (va : Z) : K Z :=
  if dir r =? VRDIR_UP then ret (i32 (Z.shiftr (u64 (va - va_base r)) PAGE_SHIFT)) else
  if dir r =? VRDIR_DOWN then ret (i32 (Z.shiftr (u64 (va_base r - 1 - va)) PAGE_SHIFT)) else
  panic "va2vpi_idx: invalid direction".

Definition x86perms (vpi : vpage_info) : Z :=
  let perms := PTE_U in
  let perms := if truthy (present vpi) then Z.lor perms PTE_P else perms in
  if truthy (writable vpi) then Z.lor perms PTE_W else perms.

(** The loop of [va2vpage_info]: [idx >= VPIPPAGE] compares an [int] with an
    [unsigned long]. *)
Fixpoint vpi_walk (fuel : nat) (info idx : Z) : K (option (Z * Z)) :=
  match fuel with
  | O => diverge
  | S fuel =>
      if Z.of_nat VPIPPAGE <=? u64 idx then
        assertm (truthy info) "idx was out of bounds" ;;
        pg <- vpi_page_get info ;;
        if vp_next pg =? 0 then
          next <- kalloc ;;
          pg <- vpi_page_get info ;;
          vpi_page_set info (set_vp_next next pg) ;;
          if next =? 0 then ret None else
          memset_page next (FVpi zero_vpi_page) ;;
          vpi_walk fuel next (i32 (u64 idx - Z.of_nat VPIPPAGE))
        else vpi_walk fuel (vp_next pg) (i32 (u64 idx - Z.of_nat VPIPPAGE))
      else ret (Some (info, idx))
  end.

Definition va2vpage_info (vr : vregion) (va : Z) : K (vregion * option (Z * Z)) :=
  vr <- (if pages vr =? 0 then
           p <- kalloc ;;
           memset_page p (FVpi zero_vpi_page) ;;
           ret (set_pages p vr)
         else ret vr) ;;
  idx <- va2vpi_idx vr va ;;
  o <- vpi_walk (S (Z.to_nat (u32 idx / Z.of_nat VPIPPAGE))) (pages vr) idx ;;
  ret (vr, o).

(** The first loop of [vregionaddmap]; the [bool] says whether it ran to its
    end, and the [Z] is [a] where it stopped. *)
Fixpoint addmap_loop (fuel : nat) (vr : vregion) (a last present' writable' : Z) : K (vregion * Z * bool) :=
  match fuel with
  | O => diverge
  | S fuel =>
      if a <? last then
        let* (vr, o) := va2vpage_info vr a in
        match o with
        | None => ret (vr, a, false)
        | Some vpi =>
            mem <- kalloc ;;
            if mem =? 0 then ret (vr, a, false) else
            memset_page mem zero_page ;;
            vpi_set vpi (mk_vpage_info 1 (PGNUM (V2P mem)) present' writable') ;;
            addmap_loop fuel vr (u64 (a + PGSIZE)) last present' writable'
        end
      else ret (vr, a, true)
  end.

(** The loop at [addmap_failure]. *)
Fixpoint addmap_undo (fuel : nat) (vr : vregion) (a first : Z) : K vregion :=
  match fuel with
  | O => diverge
  | S fuel =>
      if first <=? a then
        let* (vr, o) := va2vpage_info vr a in
        match o with
        | None => panic "vpi info missing"
        | Some r =>
            vpi <- vpi_get r ;;
            kfree (P2V (u64 (Z.shiftl (ppn vpi) PT_SHIFT))) ;;
            vpi_set r zero_vpi ;;
            addmap_undo fuel vr (u64 (a - PGSIZE)) first
        end
      else ret vr
  end.

(** The number of pages from [a] to [last], rounded up. *)
Definition page_span (a last : Z) : nat := Z.to_nat ((last - a + 4095) / 4096).

Definition vregionaddmap (vr : vregion) (from_va sz present' writable' : Z) : K (vregion * Z) :=
  if KERNBASE <=? u64 (sz + from_va) then ret (vr, -1) else
  if sz =? 0 then ret (vr, 0) else
  let first := PGROUNDUP from_va in
  let* (vr, a, ok) := addmap_loop (S (page_span first (u64 (from_va + sz)))) vr first
                    (u64 (from_va + sz)) present' writable' in
  if (ok : bool) then ret (vr, i32 sz) else
  vr <- addmap_undo (S (S (page_span first a))) vr (u64 (a - PGSIZE)) first ;;
  ret (vr, -1).

(** The copy loop of [vradddata]. *)
Fixpoint adddata_loop (fuel : nat) (r : vregion) (va : Z) (data : list Z) (i sz : Z) : K vregion :=
  match fuel with
  | O => diverge
  | S fuel =>
      if i <? u64 sz then
        let* (r, o) := va2vpage_info r (u64 (va + i)) in
        ref <- deref "null vpage_info" o ;;
        vpi <- vpi_get ref ;;
        assertm (truthy (used vpi)) "vpi->used" ;;
        let n := Z.min (u64 (sz - i)) PGSIZE in
        page_write (P2V (u64 (Z.shiftl (ppn vpi) PT_SHIFT))) 0
          (take (Z.to_nat n) (drop (Z.to_nat i) data)) ;;
        adddata_loop fuel r va data (u64 (i + PGSIZE)) sz
      else ret r
  end.

Definition vradddata (r : vregion) (va : Z) (data : list Z) (sz present' writable' : Z) : K (vregion * Z) :=
  let* (r, rc) := vregionaddmap r va (u64 sz) present' writable' in
  if rc <? 0 then ret (r, rc) else
  r <- adddata_loop (S (page_span 0 (u64 sz))) r va data 0 sz ;;
  ret (r, 0).

(** ** Address spaces *)

Definition get_region (vs : vspace) (i : nat) : K vregion := deref "region index" (regions vs !! i).
Definition put_region (i : nat) (r : vregion) (vs : vspace) : vspace :=
  set_regions (<[i := r]> (regions vs)) vs.

Definition vspaceinit (vs : vspace) : K (vspace * Z) :=
  pt <- setupkvm ;;
  if pt =? 0 then ret (set_pgtbl 0 vs, -1) else
  ret (mk_vspace [set_dir VRDIR_UP zero_vregion; set_dir VRDIR_UP zero_vregion;
                  set_dir VRDIR_DOWN zero_vregion] pt, 0).

(** Rebuild the mappings of one region: the inner loop of [vspaceupdate]. *)
Fixpoint vspaceupdate_region (fuel : nat) (pgtbl' : Z) (vr : vregion) (start last : Z) : K vregion :=
  match fuel with
  | O => diverge
  | S fuel =>
      if start <? last then
        let* (vr, o) := va2vpage_info vr start in
        ref <- deref "null vpage_info" o ;;
        vpi <- vpi_get ref ;;
        mappages pgtbl' (Z.shiftr start PT_SHIFT) 1 (ppn vpi) (x86perms vpi) false ;;
        vspaceupdate_region fuel pgtbl' vr (u64 (start + PGSIZE)) last
      else ret vr
  end.

Fixpoint vspaceupdate_regions (pgtbl' : Z) (rs : list vregion) : K (list vregion) :=
  match rs with
  | [] => ret []
  | vr :: rs =>
      assertm (VRBOT vr mod PGSIZE =? 0) "start % PGSIZE == 0" ;;
      vr <- vspaceupdate_region (S (page_span (VRBOT vr) (VRTOP vr))) pgtbl' vr (VRBOT vr) (VRTOP vr) ;;
      rs <- vspaceupdate_regions pgtbl' rs ;;
      ret (vr :: rs)
  end.

Definition vspaceupdate (vs : vspace) : K vspace :=
  mfor (seqZ 0 (PML4_INDEX SZ_4G + 1)) (fun i =>
    e <- tbl_get (pgtbl vs) i ;;
    if PRESENT e then freevm_pdpt (P2V (PDPT_ADDR e)) ;; tbl_set (pgtbl vs) i 0 else ret tt) ;;
  rs <- vspaceupdate_regions (pgtbl vs) (regions vs) ;;
  ret (set_regions rs vs).

Definition vspaceinitcode (vs : vspace) (init : list Z) (size : Z) : K vspace :=
  let stack := SZ_2G in
  r <- get_region vs VR_CODE ;;
  let r := set_vr_size (u64 (PGROUNDUP size + 2 * PGSIZE)) (set_va_base 0x10000 r) in
  let* (r, rc) := vradddata r 0x10000 init (i32 size) VPI_PRESENT VPI_WRITABLE in
  assertm (rc =? 0) "failed to allocate init code data" ;;
  let* (r, rc) := vregionaddmap r (u64 (va_base r + PGROUNDUP size)) (2 * PGSIZE)
                    VPI_PRESENT VPI_WRITABLE in
  assertm (0 <=? rc) "vregionaddmap >= 0" ;;
  let vs := put_region VR_CODE r vs in
  r <- get_region vs VR_USTACK ;;
  let r := set_vr_size PGSIZE (set_va_base stack r) in
  let* (r, rc) := vregionaddmap r (stack - PGSIZE) PGSIZE VPI_PRESENT VPI_WRITABLE in
  assertm (0 <=? rc) "vregionaddmap >= 0" ;;
  vspaceupdate (put_region VR_USTACK r vs).

(** The test of [va2vregion]. *)
Definition in_region (vr : vregion) (va : Z) : bool :=
  if dir vr =? VRDIR_UP
  then (va_base vr <=? va) && (va <? u64 (va_base vr + vr_size vr))
  else (u64 (va_base vr - vr_size vr) <=? va) && (va <? va_base vr).

Definition va2vregion (vs : vspace) (va : Z) : option nat :=
  fst <$> list_find (fun vr => in_region vr va = true) (take NREGIONS (regions vs)).

Definition vregioncontains (vr : vregion) (va size : Z) : Z :=
  if (size =? 0) && (va =? VRTOP vr) then 0 else
  Z.b2z ((VRBOT vr <=? va) && (u64 (va + size) <=? VRTOP vr)).

Definition vspacecontains (vs : vspace) (va size : Z) : Z :=
  match va2vregion vs va ≫= fun i => regions vs !! i with
  | None => -1
  | Some vr => vregioncontains vr va size
  end.

Definition vspacemarknotpresent (vs : vspace) (user_va : Z) : K vspace :=
  assertm (user_va mod PGSIZE =? 0) "user_va % PGSIZE == 0" ;;
  match va2vregion vs user_va with
  | None => panic "vr"
  | Some i =>
      vr <- get_region vs i ;;
      let* (vr, o) := va2vpage_info vr user_va in
      match o with
      | None => panic "vpi"
      | Some ref =>
          vpi <- vpi_get ref ;;
          if truthy (present vpi) then panic "Passed user_va had present vpi." else
          pte <- walkpml4 (pgtbl vs) user_va false ;;
          match pte with
          | Some (tbl, idx) => tbl_set tbl idx 0
          | None => ret tt
          end ;;
          ret (put_region i vr vs)
      end
  end.

(** [lcr3]. *)
Definition lcr3 (pa : Z) : K unit := upd_cpu (set_cr3 pa).

Definition vspaceinstall (p : option nat) : K unit :=
  match p with
  | None => panic "mrinstall: null proc"
  | Some i =>
      o <- gets (fun s => pt_proc (k_pt s) !! i) ;;
      p <- deref "proc index" o ;;
      if kstack p =? 0 then panic "mrinstall: null kstack" else
      if pgtbl (p_vspace p) =? 0 then panic "mrinstall: page table not initialized" else
      pushcli ;;
      upd_cpu (set_rsp0 (u64 (kstack p + KSTACKSIZE))) ;;
      lcr3 (V2P (pgtbl (p_vspace p))) ;;
      popcli
  end.

Definition vspaceinstallkern : K unit :=
  pt <- gets kpml4 ;;
  lcr3 (V2P pt).

(** [seginit] leaves the per-cpu [proc] null; its descriptor tables are in
    [Asm.v]. *)
Definition vspacebootinit : K unit :=
  pt <- setupkvm ;;
  modify (set_kpml4 pt) ;;
  vspaceinstallkern ;;
  upd_cpu (set_c_proc None).

Fixpoint free_page_desc_list (fuel : nat) (page : Z) : K unit :=
  match fuel with
  | O => diverge
  | S fuel =>
      assertm (page mod PGSIZE =? 0) "(uint64_t) page % PGSIZE == 0" ;;
      if page =? 0 then ret tt else
      pg <- vpi_page_get page ;;
      free_page_desc_list fuel (vp_next pg) ;;
      kfree page
  end.

(** A list of pages cannot be longer than memory. *)
Definition chain_fuel : K nat := gets (fun s => S (S (length (core_map (k_kmem s))))).

Definition vspacefree (vs : vspace) : K vspace :=
  fuel <- chain_fuel ;;
  mfor (regions vs) (fun vr => free_page_desc_list fuel (pages vr)) ;;
  freevm (pgtbl vs) ;;
  ret (set_regions (replicate NREGIONS zero_vregion) vs).

(** The loop of [copy_vpi_page] over the records [ks] of a page; it returns
    whether all of them were copied. *)
Fixpoint copy_infos (ks : list nat) (dst src : Z) : K bool :=
  match ks with
  | [] => ret true
  | i :: ks =>
      srcvpi <- vpi_get (src, Z.of_nat i) ;;
      if truthy (used srcvpi) then
        vpi_set (dst, Z.of_nat i)
          (mk_vpage_info (used srcvpi) 0 (present srcvpi) (writable srcvpi)) ;;
        data <- kalloc ;;
        if data =? 0 then ret false else
        bs <- page_read (P2V (u64 (Z.shiftl (ppn srcvpi) PT_SHIFT))) ;;
        upd_frame (PGNUM (V2P data)) (FBytes bs) ;;
        vpi_set (dst, Z.of_nat i)
          (mk_vpage_info (used srcvpi) (PGNUM (V2P data)) (present srcvpi) (writable srcvpi)) ;;
        copy_infos ks dst src
      else copy_infos ks dst src
  end.

(** [copy_vpi_page(dst, src)]: the new value of [*dst] and the result. *)
Fixpoint copy_vpi_page (fuel : nat) (src : Z) : K (Z * Z) :=
  match fuel with
  | O => diverge
  | S fuel =>
      if src =? 0 then ret (0, 0) else
      dst <- kalloc ;;
      if dst =? 0 then ret (0, -1) else
      memset_page dst (FVpi zero_vpi_page) ;;
      ok <- copy_infos (seq 0 VPIPPAGE) dst src ;;
      if negb ok then ret (dst, -1) else
      pg <- vpi_page_get src ;;
      let* (next, r) := copy_vpi_page fuel (vp_next pg) in
      dpg <- vpi_page_get dst ;;
      vpi_page_set dst (set_vp_next next dpg) ;;
      ret (dst, r)
  end.

(** The loop of [vspacecopy]: the copied regions, and whether all were copied. *)
Fixpoint copy_regions (fuel : nat) (rs : list vregion) : K (list vregion * bool) :=
  match rs with
  | [] => ret ([], true)
  | vr :: rs =>
      let* (p, r) := copy_vpi_page fuel (pages vr) in
      if r <? 0 then ret (set_pages p vr :: rs, false) else
      let* (rs, ok) := copy_regions fuel rs in
      ret (set_pages p vr :: rs, ok)
  end.

Definition vspacecopy (dst src : vspace) : K (vspace * Z) :=
  fuel <- chain_fuel ;;
  let* (rs, ok) := copy_regions fuel (regions src) in
  let dst := set_regions rs dst in
  if negb ok then ret (dst, -1) else
  dst <- vspaceupdate dst ;;
  ret (dst, 0).

Definition vspaceinitstack (vs : vspace) (start : Z) : K (vspace * Z) :=
  vr <- get_region vs VR_USTACK ;;
  let vr := set_vr_size PGSIZE (set_va_base start vr) in
  let* (vr, rc) := vregionaddmap vr (u64 (start - PGSIZE)) PGSIZE VPI_PRESENT VPI_WRITABLE in
  let vs := put_region VR_USTACK vr vs in
  if rc <? 0 then ret (vs, -1) else
  vs <- vspaceupdate vs ;;
  ret (vs, 0).

(** The loop of [vspacewritetova]. *)
Fixpoint writetova_loop (fuel : nat) (vs : vspace) (va last : Z) (data : list Z) (sz : Z) : K (vspace * Z) :=
  match fuel with
  | O => diverge
  | S fuel =>
      if va <? last then
        let wsz := u64 (Z.min (i32 (u64 (PGROUNDUP va - va))) sz) in
        match va2vregion vs va with
        | None => ret (vs, -1)
        | Some i =>
            vr <- get_region vs i ;;
            let* (vr, o) := va2vpage_info vr va in
            let vs := put_region i vr vs in
            ref <- deref "null vpage_info" o ;;
            vpi <- vpi_get ref ;;
            assertm (truthy (used vpi)) "vpi->used" ;;
            if negb (truthy (writable vpi)) then ret (vs, -1) else
            page_write (P2V (u64 (Z.shiftl (ppn vpi) PT_SHIFT))) (va mod PGSIZE)
              (take (Z.to_nat wsz) data) ;;
            writetova_loop fuel vs (u64 (va + wsz)) last (drop (Z.to_nat wsz) data) (i32 (sz - wsz))
        end
      else ret (vs, 0)
  end.

Definition vspacewritetova (vs : vspace) (va : Z) (data : list Z) (sz : Z) : K (vspace * Z) :=
  assertm (0 <? sz) "sz less than or equal to 0" ;;
  assertm (u64 (va + sz) <? KERNBASE) "went over kernel vm base" ;;
  writetova_loop (S (Z.to_nat sz)) vs va (u64 (va + sz)) data sz.
