(* ===== verification/Frame.v ===== *)
(** * What the memory functions leave alone

    The allocator, the page tables, the address spaces and the copies to and
    from user memory change the allocator's globals, the contents of page
    frames and the processor's own record, but none of the kernel's tables and
    not the current process.  So they maintain every predicate that only
    depends on [rest], and they never give up the processor. *)

From S2P Require Import Prelude Logic Types Strings Spinlock Mmu Kalloc X86vm Umem Vspace.

(** The part of the state that the kernel's invariants are about. *)
Definition rest (s : kstate) :=
  (pt_proc (k_pt s), nextpid (k_pt s), initproc (k_pt s), file_table (k_ft s), ic_inode (k_ic s),
   bc_buf (k_bc s), (input (k_cons s), crt (k_cons s), cursor (k_cons s)), c_proc (k_cpu s)).

Definition rest_only (J : kstate -> Prop) : Prop := forall s s', rest s' = rest s -> J s -> J s'.

(** A lock that is not part of [rest]. *)
Class LockFrame (L : lockref) : Prop := rest_lock : forall s l, rest (lk_set L l s) = rest s.

#[global] Instance kmem_lk_frame : LockFrame kmem_lk.
Proof. done. Qed.
#[global] Instance ptable_lk_frame : LockFrame ptable_lk.
Proof. done. Qed.
#[global] Instance file_table_lk_frame : LockFrame file_table_lk.
Proof. done. Qed.
#[global] Instance icache_lk_frame : LockFrame icache_lk.
Proof. done. Qed.
#[global] Instance bcache_lk_frame : LockFrame bcache_lk.
Proof. done. Qed.
#[global] Instance ide_lk_frame : LockFrame ide_lk.
Proof. done. Qed.
#[global] Instance cons_lk_frame : LockFrame cons_lk.
Proof. done. Qed.
#[global] Instance ticks_lk_frame : LockFrame ticks_lk.
Proof. done. Qed.

Section frame.
Context (I R J : kstate -> Prop) (HJ : rest_only J).

Abbreviation maintains m := (gives I R J m (fun _ => True)).

Lemma gives_modify_rest f : (forall s, rest (f s) = rest s) -> maintains (modify f).
Proof. intros H. apply gives_modify. intros s Hs. eapply HJ; [apply H|done]. Qed.

(** A lock whose setting maintains [J]. *)
Definition lock_ok (L : lockref) : Prop := forall s l, J s -> J (lk_set L l s).

Lemma lock_frame_ok L : LockFrame L -> lock_ok L.
Proof. intros H s l. apply HJ, H. Qed.
Hint Resolve gives_modify_rest : keeps.

Lemma keeps_upd_cpu f : (forall c, c_proc (f c) = c_proc c) -> maintains (upd_cpu f).
Proof. intros H. apply gives_modify_rest. intros s. unfold rest; cbn. by rewrite H. Qed.

Lemma keeps_pushcli : maintains pushcli.
Proof.
  unfold pushcli, readeflags_if, cli. kauto; by apply keeps_upd_cpu.
Qed.

Lemma keeps_sti : maintains sti.
Proof. by apply keeps_upd_cpu. Qed.

Lemma keeps_popcli : maintains popcli.
Proof. unfold popcli, readeflags_if. kauto; first [by apply keeps_upd_cpu | apply keeps_sti]. Qed.
Hint Resolve keeps_pushcli keeps_popcli keeps_sti : keeps.

Lemma keeps_holding L : maintains (holding L).
Proof. unfold holding. kauto. Qed.
Hint Resolve keeps_holding : keeps.

Lemma keeps_acquire L : lock_ok L -> maintains (acquire L).
Proof. intros H. unfold acquire. kauto. apply gives_modify. intros; by apply H. Qed.

Lemma keeps_release L : lock_ok L -> maintains (release L).
Proof. intros H. unfold release. kauto. apply gives_modify. intros; by apply H. Qed.

Lemma keeps_initlock L : lock_ok L -> maintains (initlock L).
Proof. intros H. apply gives_modify. intros; by apply H. Qed.

(** ** The allocator *)

Lemma keeps_upd_kmem f : maintains (upd_kmem f).
Proof. by apply gives_modify_rest. Qed.

Lemma keeps_upd_frame pn fr : maintains (upd_frame pn fr).
Proof. by apply gives_modify_rest. Qed.
Hint Resolve keeps_upd_kmem keeps_upd_frame keeps_acquire keeps_release keeps_initlock : keeps.

Lemma kmem_lk_ok : lock_ok kmem_lk.
Proof. by apply lock_frame_ok. Qed.
Hint Resolve kmem_lk_ok : keeps.

Lemma keeps_pa2page pa : maintains (pa2page pa).
Proof. unfold pa2page. kauto. Qed.
Hint Resolve keeps_pa2page : keeps.

Lemma keeps_upd_core_map pp f : maintains (upd_core_map pp f).
Proof. unfold upd_core_map. kauto. Qed.
Hint Resolve keeps_upd_core_map : keeps.

Lemma keeps_kalloc : maintains kalloc.
Proof. unfold kalloc. kauto. Qed.

Lemma keeps_kfree v : maintains (kfree v).
Proof. unfold kfree. kauto. Qed.

Hint Resolve keeps_kalloc keeps_kfree : keeps.

Lemma keeps_detect_memory es : maintains (detect_memory es).
Proof. apply keeps_upd_kmem. Qed.

Lemma keeps_freerange vstart vend : maintains (freerange vstart vend).
Proof.
  unfold freerange. generalize (S (Z.to_nat ((vend - PGROUNDUP vstart) / PGSIZE))) as fuel.
  generalize (PGROUNDUP vstart) as p. intros p fuel. revert p.
  induction fuel as [|fuel IH]; intros; cbn [freerange_loop]; kauto.
Qed.
Hint Resolve keeps_freerange : keeps.

Lemma keeps_mem_init vstart : maintains (mem_init vstart).
Proof. unfold mem_init, setrand. kauto. Qed.

Lemma keeps_mark_user_mem pa va : maintains (mark_user_mem pa va).
Proof. unfold mark_user_mem. kauto. Qed.
Hint Resolve keeps_mark_user_mem : keeps.

(** ** Page tables *)

Lemma keeps_tbl_get tbl idx : maintains (tbl_get tbl idx).
Proof. unfold tbl_get. kauto. Qed.

Lemma keeps_tbl_set tbl idx v : maintains (tbl_set tbl idx v).
Proof. unfold tbl_set. kauto. Qed.
Hint Resolve keeps_tbl_get keeps_tbl_set : keeps.

Lemma keeps_walk_level tbl idx al : maintains (walk_level tbl idx al).
Proof. unfold walk_level, tbl_zero. kauto. Qed.
Hint Resolve keeps_walk_level : keeps.

Lemma keeps_walkpml4 pml4 va al : maintains (walkpml4 pml4 va al).
Proof. unfold walkpml4. kauto. Qed.
Hint Resolve keeps_walkpml4 : keeps.

Lemma keeps_mappages pml4 vpn n ppn' perm kern : maintains (mappages pml4 vpn n ppn' perm kern).
Proof.
  unfold mappages. kauto.
  generalize (Z.to_nat n) as k. intros k. revert vpn ppn'.
  induction k as [|k IH]; intros; cbn [mappages_loop]; [by apply gives_ret|].
  unfold map_one. kauto.
Qed.
Hint Resolve keeps_mappages : keeps.

Lemma keeps_setupkvm : maintains setupkvm.
Proof.
  unfold setupkvm, tbl_zero. kauto. revert a1.
  intros km. generalize (kmap km) as ks. intros ks. induction ks as [|[[[v ps] pe] pm] ks IH];
    cbn [setupkvm_loop]; kauto.
Qed.

Lemma keeps_find_next pml4 va : maintains (find_next_possible_page pml4 va).
Proof. unfold find_next_possible_page. kauto. Qed.
Hint Resolve keeps_setupkvm keeps_find_next : keeps.

Lemma keeps_deallocuvm pml4 start oldsz newsz : maintains (deallocuvm pml4 start oldsz newsz).
Proof.
  unfold deallocuvm. kauto. generalize (S (Z.to_nat ((u64 (start + oldsz) -
    PGROUNDUP (u64 (start + newsz)) + PGSIZE) / PGSIZE))) as fuel. intros fuel.
  generalize (PGROUNDUP (u64 (start + newsz))) as a.
  induction fuel as [|fuel IH]; intros; cbn [deallocuvm_loop]; kauto.
Qed.

Lemma keeps_freevm_pdpt p : maintains (freevm_pdpt p).
Proof. unfold freevm_pdpt, freevm_pgdir. kauto. Qed.
Hint Resolve keeps_deallocuvm keeps_freevm_pdpt : keeps.

Lemma keeps_freevm p : maintains (freevm p).
Proof. unfold freevm. kauto. Qed.
Hint Resolve keeps_freevm : keeps.

(** ** User memory *)

Lemma keeps_load_user va : maintains (load_user va).
Proof. unfold load_user. kauto. Qed.

Lemma keeps_store_user va v : maintains (store_user va v).
Proof. unfold store_user. kauto. Qed.
Hint Resolve keeps_load_user keeps_store_user : keeps.

Lemma keeps_copyin n va : maintains (copyin n va).
Proof. revert va. induction n as [|n IH]; intros; cbn [copyin]; kauto. Qed.

Lemma keeps_copyout va bs : maintains (copyout va bs).
Proof. revert va. induction bs as [|c bs IH]; intros; cbn [copyout]; kauto. Qed.
Hint Resolve keeps_copyin keeps_copyout : keeps.

Lemma keeps_load_int va : maintains (load_int va).
Proof. unfold load_int. kauto. Qed.

Lemma keeps_store_int va v : maintains (store_int va v).
Proof. apply keeps_copyout. Qed.

(** ** Address spaces *)

Lemma keeps_memset_page p f : maintains (memset_page p f).
Proof. unfold memset_page. kauto. Qed.

Lemma keeps_vpi_page_get p : maintains (vpi_page_get p).
Proof. unfold vpi_page_get. kauto. Qed.
Hint Resolve keeps_load_int keeps_store_int keeps_memset_page keeps_vpi_page_get : keeps.

Lemma keeps_vpi_get r : maintains (vpi_get r).
Proof. unfold vpi_get. kauto. Qed.

Lemma keeps_vpi_set r v : maintains (vpi_set r v).
Proof. unfold vpi_set, vpi_page_set. kauto. Qed.

Lemma keeps_page_write p off bs : maintains (page_write p off bs).
Proof. unfold page_write. kauto. Qed.

Lemma keeps_page_read p : maintains (page_read p).
Proof. unfold page_read. kauto. Qed.

Lemma keeps_va2vpi_idx r va : maintains (va2vpi_idx r va).
Proof. unfold va2vpi_idx. kauto. Qed.

Lemma keeps_vpi_walk fuel info idx : maintains (vpi_walk fuel info idx).
Proof.
  revert info idx. induction fuel as [|fuel IH]; intros; cbn [vpi_walk]; unfold vpi_page_set; kauto.
Qed.
Hint Resolve keeps_vpi_get keeps_vpi_set keeps_page_write keeps_page_read keeps_va2vpi_idx
  keeps_vpi_walk : keeps.

Lemma keeps_va2vpage_info vr va : maintains (va2vpage_info vr va).
Proof. unfold va2vpage_info. kauto. Qed.
Hint Resolve keeps_va2vpage_info : keeps.

Lemma keeps_addmap_loop fuel vr a last pr wr : maintains (addmap_loop fuel vr a last pr wr).
Proof. revert vr a. induction fuel as [|fuel IH]; intros; cbn [addmap_loop]; kauto. Qed.

Lemma keeps_addmap_undo fuel vr a first : maintains (addmap_undo fuel vr a first).
Proof. revert vr a. induction fuel as [|fuel IH]; intros; cbn [addmap_undo]; kauto. Qed.
Hint Resolve keeps_addmap_loop keeps_addmap_undo : keeps.

Lemma keeps_vregionaddmap vr va sz pr wr : maintains (vregionaddmap vr va sz pr wr).
Proof. unfold vregionaddmap. kauto. Qed.
Hint Resolve keeps_vregionaddmap : keeps.

Lemma keeps_adddata_loop fuel r va data i sz : maintains (adddata_loop fuel r va data i sz).
Proof. revert r i. induction fuel as [|fuel IH]; intros; cbn [adddata_loop]; kauto. Qed.
Hint Resolve keeps_adddata_loop : keeps.

Lemma keeps_vradddata r va data sz pr wr : maintains (vradddata r va data sz pr wr).
Proof. unfold vradddata. kauto. Qed.
Hint Resolve keeps_vradddata : keeps.

Lemma keeps_vspaceupdate_region fuel pt vr start last :
  maintains (vspaceupdate_region fuel pt vr start last).
Proof. revert vr start. induction fuel as [|fuel IH]; intros; cbn [vspaceupdate_region]; kauto. Qed.
Hint Resolve keeps_vspaceupdate_region : keeps.

Lemma gives_vspaceupdate_regions pt rs :
  gives I R J (vspaceupdate_regions pt rs) (fun rs' => length rs' = length rs).
Proof.
  induction rs as [|vr rs IH]; cbn [vspaceupdate_regions]; kauto. cbn. by f_equal.
Qed.
Hint Resolve gives_vspaceupdate_regions : keeps.

(** An address space with the same page table and as many regions. *)
Definition same_shape (vs vs' : vspace) : Prop :=
  length (regions vs') = length (regions vs) /\ pgtbl vs' = pgtbl vs.

Lemma gives_vspaceupdate vs : gives I R J (vspaceupdate vs) (same_shape vs).
Proof. unfold vspaceupdate. kauto. Qed.

Lemma gives_vspaceinit vs :
  gives I R J (vspaceinit vs) (fun '(vs', r) =>
    (length (regions vs) = NREGIONS -> length (regions vs') = NREGIONS) /\ (r = 0 -> pgtbl vs' <> 0)).
Proof. unfold vspaceinit. kauto. split; [done|]. cbn. by bprop. Qed.

Lemma gives_get_region vs i :
  gives I R J (get_region vs i) (fun r => regions vs !! i = Some r).
Proof. apply gives_deref. Qed.
Hint Resolve gives_vspaceupdate gives_vspaceinit gives_get_region : keeps.

Lemma gives_vspaceinitcode vs init size :
  gives I R J (vspaceinitcode vs init size) (same_shape vs).
Proof.
  unfold vspaceinitcode. kauto. unfold same_shape in *. cbn in *. by rewrite !length_insert in *.
Qed.

Lemma keeps_copy_infos ks dst src : maintains (copy_infos ks dst src).
Proof. induction ks as [|i ks IH]; cbn [copy_infos]; kauto. Qed.
Hint Resolve keeps_copy_infos : keeps.

Lemma keeps_copy_vpi_page fuel src : maintains (copy_vpi_page fuel src).
Proof.
  revert src. induction fuel as [|fuel IH]; intros; cbn [copy_vpi_page]; unfold vpi_page_set; kauto.
Qed.
Hint Resolve keeps_copy_vpi_page : keeps.

Lemma gives_copy_regions fuel rs :
  gives I R J (copy_regions fuel rs) (fun x => length (fst x) = length rs).
Proof.
  induction rs as [|vr rs IH]; cbn [copy_regions]; kauto. cbn in *. by f_equal.
Qed.
Hint Resolve gives_copy_regions : keeps.

Lemma gives_vspacecopy dst src :
  gives I R J (vspacecopy dst src) (fun x =>
    length (regions (fst x)) = length (regions src) /\ pgtbl (fst x) = pgtbl dst).
Proof. unfold vspacecopy, chain_fuel. kauto. unfold same_shape in *. cbn in *. intuition congruence. Qed.

Lemma keeps_free_page_desc_list fuel page : maintains (free_page_desc_list fuel page).
Proof. revert page. induction fuel as [|fuel IH]; intros; cbn [free_page_desc_list]; kauto. Qed.
Hint Resolve keeps_free_page_desc_list : keeps.

Lemma gives_vspacefree vs :
  gives I R J (vspacefree vs) (fun vs' => length (regions vs') = NREGIONS /\ pgtbl vs' = pgtbl vs).
Proof. unfold vspacefree, chain_fuel. kauto. Qed.

Lemma keeps_vspaceinstall p : maintains (vspaceinstall p).
Proof. unfold vspaceinstall, lcr3. kauto; by apply keeps_upd_cpu. Qed.

Lemma keeps_vspaceinstallkern : maintains vspaceinstallkern.
Proof. unfold vspaceinstallkern, lcr3. kauto. by apply keeps_upd_cpu. Qed.
End frame.

#[export] Hint Resolve keeps_upd_frame keeps_upd_kmem keeps_pushcli keeps_popcli keeps_sti keeps_holding
  keeps_acquire keeps_release keeps_initlock keeps_kalloc keeps_kfree keeps_load_user
  keeps_store_user keeps_copyin keeps_copyout keeps_load_int keeps_store_int keeps_setupkvm
  gives_vspaceupdate gives_vspaceinit gives_vspaceinitcode gives_vspacecopy gives_vspacefree
  gives_get_region keeps_detect_memory keeps_mem_init keeps_vspaceinstall keeps_vspaceinstallkern : keeps.
