(* ===== verification/Sched.v ===== *)
(** * Processes and the scheduler: [kernel/proc.c], first part

    The process table and the operations on it that do not touch files:
    allocating a slot, giving up the processor, sleeping and waking up,
    killing, and the scheduler.  A [struct proc *] is an index of the table.
    [swtch] to the scheduler is the [Block] of the kernel monad. *)

From S2P Require Import Prelude Types Spinlock Mmu Kalloc X86vm Vspace.

(** ** Access to the process table *)

Definition upd_pt (f : ptable -> ptable) : K unit := modify (fun s => set_k_pt (f (k_pt s)) s).

Definition get_proc (i : nat) : K proc :=
  o <- gets (fun s => pt_proc (k_pt s) !! i) ;;
  deref "proc pointer" o.

Definition upd_proc (i : nat) (f : proc -> proc) : K unit :=
  p <- get_proc i ;;
  upd_pt (fun t => set_pt_proc (<[i := f p]> (pt_proc t)) t).

(** [myproc()], and [myproc()] where it is dereferenced. *)
Definition myproc : K (option nat) := gets (fun s => c_proc (k_cpu s)).
Definition me : K nat := o <- myproc ;; deref "null proc pointer" o.
Definition my : K proc := i <- me ;; get_proc i.

(** ** The operations *)

Definition pinit : K unit := initlock ptable_lk.

(** A new context starts at [forkret]. *)
Definition new_context : context := set_cx_rip at_forkret zero_context.

(** The trap frame is at the top of the new kernel stack and holds whatever the
    page held; both callers overwrite it. *)
Definition allocproc : K (option nat) :=
  acquire ptable_lk ;;
  t <- gets k_pt ;;
  match list_find (fun p => p_state p = UNUSED) (pt_proc t) with
  | None => release ptable_lk ;; ret None
  | Some (i, _) =>
      upd_proc i (fun p => set_killed 0 (set_p_pid (nextpid t) (set_p_state EMBRYO p))) ;;
      upd_pt (fun t => set_nextpid (i32 (nextpid t + 1)) t) ;;
      release ptable_lk ;;
      sp <- kalloc ;;
      upd_proc i (set_kstack sp) ;;
      if sp =? 0 then upd_proc i (set_p_state UNUSED) ;; ret None else
      upd_proc i (set_p_context new_context) ;;
      ret (Some i)
  end.

(** [swtch(&myproc()->context, mycpu()->scheduler)]. *)
Definition swtch : K unit := fun s => Block s (fun s' => Done tt s').

Definition sched : K unit :=
  h <- holding ptable_lk ;;
  if negb h then panic "sched ptable.lock" else
  c <- gets k_cpu ;;
  if negb (ncli c =? 1) then panic "sched locks" else
  p <- my ;;
  if decide (p_state p = RUNNING) then panic "sched running" else
  fl <- readeflags_if ;;
  if (fl : bool) then panic "sched interruptible" else
  i <- me ;;
  upd_proc i (fun p => set_p_context (set_cx_rip at_sched (p_context p)) p) ;;
  swtch ;;
  upd_cpu (set_intena (intena c)).

Definition yield : K unit :=
  acquire ptable_lk ;;
  i <- me ;;
  upd_proc i (set_p_state RUNNABLE) ;;
  sched ;;
  release ptable_lk.

(** The lock passed to [sleep]: [&ptable.lock] itself, or another one. *)
Inductive sleep_lock := sl_ptable | sl_other (L : lockref).

Definition sleep (ch : chan) (lk : sleep_lock) : K unit :=
  o <- myproc ;;
  match o with
  | None => panic "sleep"
  | Some _ =>
      match lk with
      | sl_ptable => ret tt
      | sl_other L => acquire ptable_lk ;; release L
      end ;;
      i <- me ;;
      upd_proc i (set_p_chan (Some ch)) ;;
      i <- me ;;
      upd_proc i (set_p_state SLEEPING) ;;
      sched ;;
      i <- me ;;
      upd_proc i (set_p_chan None) ;;
      match lk with
      | sl_ptable => ret tt
      | sl_other L => release ptable_lk ;; acquire L
      end
  end.

(** How often a loop around [sleep] may be woken in vain before the model gives
    up on it: as often as [k_env] says beyond [WAKEUPS]. *)
Definition WAKEUPS : nat := 1000.

Definition wakeups : K nat := gets (fun s => (WAKEUPS + env_wakeups (k_env s))%nat).

Definition wake (ch : option chan) (p : proc) : proc :=
  if decide (p_state p = SLEEPING /\ p_chan p = ch) then set_p_state RUNNABLE p else p.

Definition wakeup1 (ch : option chan) : K unit :=
  upd_pt (fun t => set_pt_proc (wake ch <$> pt_proc t) t).

Definition wakeup (ch : chan) : K unit :=
  acquire ptable_lk ;;
  wakeup1 (Some ch) ;;
  release ptable_lk.

Definition find_pid (pid : Z) (ps : list proc) : option nat :=
  fst <$> list_find (fun p => p_pid p = pid) ps.

Definition kill (pid : Z) : K Z :=
  acquire ptable_lk ;;
  t <- gets k_pt ;;
  match find_pid pid (pt_proc t) with
  | Some i =>
      upd_proc i (fun p =>
        let p := set_killed 1 p in
        if decide (p_state p = SLEEPING) then set_p_state RUNNABLE p else p) ;;
      release ptable_lk ;;
      ret 0
  | None => release ptable_lk ;; ret (-1)
  end.

Definition findproc (pid : Z) : K (option nat) := gets (fun s => find_pid pid (pt_proc (k_pt s))).

(** The body of the scheduler's inner loop: its [swtch] runs the process. *)
Definition scheduler_slot (i : nat) : K unit :=
  p <- get_proc i ;;
  if decide (p_state p <> RUNNABLE) then ret tt else
  upd_cpu (set_c_proc (Some i)) ;;
  vspaceinstall (Some i) ;;
  upd_proc i (set_p_state RUNNING) ;;
  swtch ;;
  vspaceinstallkern ;;
  upd_cpu (set_c_proc None).

(** One round of the scheduler's outer loop. *)
Definition scheduler_round : K unit :=
  sti ;;
  acquire ptable_lk ;;
  mfor (seq 0 NPROC) scheduler_slot ;;
  release ptable_lk.

(** [scheduler] for [n] rounds; the code's loop has no end. *)
Definition scheduler (n : nat) : K unit := times n scheduler_round.

(** ** Facts *)

(** The state with process [i] replaced. *)
Definition put_proc (i : nat) (p : proc) (s : kstate) : kstate :=
  set_k_pt (set_pt_proc (<[i := p]> (pt_proc (k_pt s))) (k_pt s)) s.

Definition proc_at (s : kstate) (i : nat) : option proc := pt_proc (k_pt s) !! i.

(** There is always a wakeup or two left to begin with. *)
Definition wakeups_left (s : kstate) : nat := (998 + env_wakeups (k_env s))%nat.

Lemma wakeups_eq s : wakeups s = Done (S (S (wakeups_left s))) s.
Proof. reflexivity. Qed.

Lemma get_proc_eq s i p : proc_at s i = Some p -> get_proc i s = Done p s.
Proof. intros H. unfold get_proc; msimp. unfold proc_at in H. by rewrite H. Qed.

Lemma upd_proc_eq s i f p : proc_at s i = Some p -> upd_proc i f s = Done tt (put_proc i (f p) s).
Proof. intros H. unfold upd_proc. by mstep (get_proc_eq s i p H). Qed.

Lemma me_eq s i : c_proc (k_cpu s) = Some i -> me s = Done i s.
Proof. intros H. unfold me, myproc; msimp. by rewrite H. Qed.

Lemma my_eq s i p : c_proc (k_cpu s) = Some i -> proc_at s i = Some p -> my s = Done p s.
Proof. intros Hc Hp. unfold my. mstep (me_eq s i Hc). by apply get_proc_eq. Qed.

Lemma proc_at_put s i p q : proc_at s i = Some p -> proc_at (put_proc i q s) i = Some q.
Proof.
  intros H%lookup_lt_Some. unfold proc_at; cbn. by rewrite list_lookup_insert_eq.
Qed.

Lemma proc_at_put_ne s i j q : i <> j -> proc_at (put_proc i q s) j = proc_at s j.
Proof. intros. unfold proc_at; cbn. by rewrite list_lookup_insert_ne. Qed.

Lemma put_proc_put s i p q : put_proc i p (put_proc i q s) = put_proc i p s.
Proof. unfold put_proc; cbn. by rewrite list_insert_insert_eq. Qed.

(** The processor inside a critical section of the process table and no other. *)
Record in_ptable (s : kstate) : Prop := {
  ip_lock : pt_lock (k_pt s) = mk_spinlock 1 true;
  ip_ncli : ncli (k_cpu s) = 1;
  ip_if : eflags_if (k_cpu s) = false
}.

Definition save_context (p : proc) : proc := set_p_context (set_cx_rip at_sched (p_context p)) p.

(** [sched] leaves the processor to the scheduler in the state it was called
    in; when it comes back, it restores [intena]. *)
Lemma sched_eq s i p :
  in_ptable s -> c_proc (k_cpu s) = Some i -> proc_at s i = Some p -> p_state p <> RUNNING ->
  sched s = Block (put_proc i (save_context p) s)
              (fun s' => Done tt (set_k_cpu (set_intena (intena (k_cpu s)) (k_cpu s')) s')).
Proof.
  intros [Hl Hn Hf] Hc Hp Hst. unfold sched.
  erewrite (bind_holding ptable_lk) by (cbn; rewrite Hl; reflexivity). cbn; msimp.
  rewrite Hn; cbn [Z.eqb Pos.eqb negb]. mstep (my_eq s i p Hc Hp).
  rewrite decide_False by done. unfold readeflags_if; msimp. rewrite Hf.
  mstep (me_eq s i Hc). mstep (upd_proc_eq s i save_context p Hp). reflexivity.
Qed.

(** Holding a second lock when giving up the processor is caught. *)
Lemma sched_locks s i p :
  pt_lock (k_pt s) = mk_spinlock 1 true -> ncli (k_cpu s) <> 1 ->
  c_proc (k_cpu s) = Some i -> proc_at s i = Some p -> sched s = Panic "sched locks".
Proof.
  intros Hl Hn Hc Hp. unfold sched.
  erewrite (bind_holding ptable_lk) by (cbn; rewrite Hl; reflexivity). cbn; msimp.
  by rewrite (proj2 (Z.eqb_neq _ _) Hn).
Qed.

(** A lock that is not part of the process table. *)
Class LockApart (L : lockref) : Prop := {
  apart_get : forall s t, lk_get L (set_k_pt t s) = lk_get L s;
  apart_set : forall s t l, lk_set L l (set_k_pt t s) = set_k_pt t (lk_set L l s);
  apart_pt : forall s l, k_pt (lk_set L l s) = k_pt s
}.

#[global] Instance kmem_lk_apart : LockApart kmem_lk.
Proof. by split. Qed.
#[global] Instance file_table_lk_apart : LockApart file_table_lk.
Proof. by split. Qed.
#[global] Instance icache_lk_apart : LockApart icache_lk.
Proof. by split. Qed.
#[global] Instance bcache_lk_apart : LockApart bcache_lk.
Proof. by split. Qed.
#[global] Instance ide_lk_apart : LockApart ide_lk.
Proof. by split. Qed.
#[global] Instance cons_lk_apart : LockApart cons_lk.
Proof. by split. Qed.
#[global] Instance ticks_lk_apart : LockApart ticks_lk.
Proof. by split. Qed.

(** A processor inside exactly one critical section. *)
Definition one_deep (c : cpu) : Prop := ncli c = 1 /\ eflags_if c = false.

Lemma one_deep_cs c : one_deep c -> cpu_pop (cpu_push c) = c.
Proof.
  intros [Hn Hf]. rewrite cpu_pop_push by (split; [lia|done]). unfold cpu_cs.
  rewrite Hn. cbn. by destruct c.
Qed.

Lemma one_deep_room c n : one_deep c -> 0 <= n <= 2 ^ 30 -> cpu_room n c.
Proof. intros [Hn Hf] ?. split; [lia|done]. Qed.

Lemma one_deep_pop c :
  one_deep c -> cpu_room 1 (cpu_pop c) /\ cpu_push (cpu_pop c) = c.
Proof.
  destruct c as [n i f pr r t]; intros [Hn Hf]; cbn in Hn, Hf; subst.
  split; [split; cbn; [lia|lia]|]. by destruct i.
Qed.

(** The two locks of [sleep]: take the process table's, then release [L]. *)
Definition handed_over (L : lockref) (s : kstate) : kstate :=
  lk_set ptable_lk (mk_spinlock 1 true) (lk_set L (mk_spinlock 0 false) s).

Section sleep.
Context (L : lockref) `{!LockLaws L, !LockApart L}.

Lemma hand_over_eq s :
  lk_get L s = Some (mk_spinlock 1 true) -> pt_lock (k_pt s) = mk_spinlock 0 false ->
  one_deep (k_cpu s) ->
  (acquire ptable_lk ;; release L) s = Done tt (handed_over L s).
Proof.
  intros HL Hp Hc. pose proof (one_deep_room _ 1 Hc ltac:(lia)) as Hr.
  mstep (acquire_eq ptable_lk); [|cbn; by rewrite Hp|done|done].
  assert (Hg : lk_get L (lk_set ptable_lk (mk_spinlock 1 true) (set_k_cpu (cpu_push (k_cpu s)) s))
               = Some (mk_spinlock 1 true)) by (cbn; by rewrite apart_get, lk_get_cpu).
  destruct Hc as [Hn Hf].
  rewrite (release_eq L _ _ Hg eq_refl eq_refl); cbn; [|lia|done]. f_equal.
  rewrite one_deep_cs by done. unfold handed_over; cbn.
  rewrite apart_set, lk_set_cpu, apart_pt. cbn. rewrite <- (lk_cpu_set s (mk_spinlock 0 false)).
  by destruct (lk_set L (mk_spinlock 0 false) s).
Qed.

Lemma handed_over_facts s l :
  lk_get L s = Some l -> one_deep (k_cpu s) ->
  in_ptable (handed_over L s) /\ k_cpu (handed_over L s) = k_cpu s /\
  lk_get L (handed_over L s) = Some (mk_spinlock 0 false) /\
  (forall j, proc_at (handed_over L s) j = proc_at s j).
Proof.
  intros HL [Hn Hf].
  assert (Hc : k_cpu (handed_over L s) = k_cpu s) by (cbn; by rewrite lk_cpu_set).
  split_and!.
  - split; [done|by rewrite Hc|by rewrite Hc].
  - done.
  - unfold handed_over; cbn. rewrite apart_get. by eapply lk_get_set.
  - intros j. unfold proc_at, handed_over; cbn. by rewrite apart_pt.
Qed.

(** Where [sleep] leaves the process. *)
Definition asleep (ch : chan) (p : proc) : proc :=
  save_context (set_p_state SLEEPING (set_p_chan (Some ch) p)).

(** What [sleep] does when it is resumed in [s2], having saved [intena]. *)
Definition wake_up (i : nat) (int : bool) (s2 : kstate) : res kstate unit :=
  (i <- me ;; upd_proc i (set_p_chan None) ;; release ptable_lk ;; acquire L)
    (set_k_cpu (set_intena int (k_cpu s2)) s2).

Lemma sleep_eq s ch i p :
  lk_get L s = Some (mk_spinlock 1 true) -> pt_lock (k_pt s) = mk_spinlock 0 false ->
  one_deep (k_cpu s) -> c_proc (k_cpu s) = Some i -> proc_at s i = Some p ->
  sleep ch (sl_other L) s =
  Block (put_proc i (asleep ch p) (handed_over L s)) (wake_up i (intena (k_cpu s))).
Proof.
  intros HL Hpl Hd Hc Hp.
  destruct (handed_over_facts s _ HL Hd) as (Hin & Hcpu & HgL & Hpr).
  unfold sleep, myproc; msimp. rewrite Hc. mstep (hand_over_eq s HL Hpl Hd).
  assert (Hc' : c_proc (k_cpu (handed_over L s)) = Some i) by (by rewrite Hcpu).
  assert (Hp' : proc_at (handed_over L s) i = Some p) by (by rewrite Hpr).
  mstep (me_eq _ i Hc'). mstep (upd_proc_eq _ i _ p Hp'). mstep (me_eq _ i); [|done].
  mstep (upd_proc_eq _ i); [|by eapply proc_at_put]. rewrite put_proc_put.
  unfold bind at 1. erewrite (sched_eq _ i); cycle 1.
  - by destruct Hin.
  - done.
  - by eapply proc_at_put.
  - done.
  - cbn [bindr]. f_equal; [by rewrite put_proc_put|]. unfold wake_up. cbn. by rewrite lk_cpu_set.
Qed.

Lemma lk_get_ptable_lk s l : lk_get L (lk_set ptable_lk l s) = lk_get L s.
Proof. apply apart_get. Qed.

Lemma lk_get_put_proc s i p : lk_get L (put_proc i p s) = lk_get L s.
Proof. apply apart_get. Qed.

Lemma wake_up_eq i int s2 p2 :
  in_ptable s2 -> c_proc (k_cpu s2) = Some i -> proc_at s2 i = Some p2 ->
  lk_get L s2 = Some (mk_spinlock 0 false) ->
  exists s3, wake_up i int s2 = Done tt s3 /\
    lk_get L s3 = Some (mk_spinlock 1 true) /\ pt_lock (k_pt s3) = mk_spinlock 0 false /\
    one_deep (k_cpu s3) /\ intena (k_cpu s3) = int /\ c_proc (k_cpu s3) = Some i /\
    pt_proc (k_pt s3) = <[i := set_p_chan None p2]> (pt_proc (k_pt s2)) /\
    (exists c3 t3, s3 = lk_set L (mk_spinlock 1 true) (set_k_cpu c3 (set_k_pt t3 s2))).
Proof.
  intros [Hl Hn Hf] Hc Hp HL. unfold wake_up.
  set (s1 := set_k_cpu (set_intena int (k_cpu s2)) s2).
  mstep (me_eq s1 i Hc). mstep (upd_proc_eq s1 i _ p2 Hp).
  mstep (release_eq ptable_lk _ (mk_spinlock 1 true)); cycle 1.
  1: by cbn; rewrite Hl. 1-2: done. 1: by cbn; rewrite Hn. 1: by cbn; rewrite Hf.
  eexists. split.
  - apply (acquire_eq L _ (mk_spinlock 0 false)).
    + rewrite lk_get_cpu, lk_get_ptable_lk, lk_get_put_proc. unfold s1. by rewrite lk_get_cpu.
    + done.
    + apply (one_deep_pop (k_cpu s1)). by split.
  - assert (Hpt : forall l s, k_pt (lk_set L l s) = k_pt s) by (intros; apply apart_pt).
    rewrite lk_cpu_set, Hpt. cbn [k_cpu set_k_cpu k_pt].
    change (k_cpu (put_proc i (set_p_chan None p2) s1)) with (k_cpu s1).
    rewrite (proj2 (one_deep_pop (k_cpu s1) (conj Hn Hf))). split_and!; try done.
    + eapply lk_get_set. rewrite !lk_get_cpu, lk_get_ptable_lk, lk_get_put_proc. unfold s1.
      by rewrite lk_get_cpu.
    + do 2 eexists. by f_equal.
Qed.
End sleep.

(** [wakeup1] is [wake] at every process. *)
Lemma wakeup1_at s ch j :
  exists s', wakeup1 ch s = Done tt s' /\ proc_at s' j = wake ch <$> proc_at s j /\
    k_cpu s' = k_cpu s.
Proof. eexists. split; [reflexivity|]. cbn. split; [|done]. unfold proc_at; cbn. apply list_lookup_fmap. Qed.

Lemma cpu_cs_push c : 0 <= ncli c -> cpu_cs (cpu_push c) = cpu_push c.
Proof.
  intros H. unfold cpu_cs. cbn. destruct (Z.eqb_spec (ncli c + 1) 0); [lia|]. by destruct c.
Qed.

(** The process table after a wakeup. *)
Definition woken (ch : option chan) (s : kstate) : kstate :=
  set_k_pt (set_pt_proc (wake ch <$> pt_proc (k_pt s)) (k_pt s)) s.

Lemma wakeup_eq s ch :
  pt_lock (k_pt s) = zero_lock -> cpu_room 1 (k_cpu s) ->
  wakeup ch s = Done tt (set_k_cpu (cpu_cs (k_cpu s)) (woken (Some ch) s)).
Proof.
  intros Hl Hc. unfold wakeup. mstep (acquire_eq ptable_lk); [|cbn; by rewrite Hl|done|done].
  unfold wakeup1, upd_pt at 1. msimp.
  rewrite (release_cs ptable_lk _ (k_cpu s)) by done. f_equal. unfold woken. cbn.
  change (mk_spinlock 0 false) with zero_lock. rewrite <- Hl.
  by destruct s as [? ? ? [] ? ? ? ? ? ? ? ? ? ?].
Qed.

(** ** Properties *)

(** C8: the [sleep]/[wakeup] hand-over.  A process that holds exactly the
    lock [L] and calls [sleep] on [ch] is switched out in a state where it is
    marked sleeping on [ch], the process table is locked and [L] is free.  From
    there a wakeup on [ch] makes it runnable, and when the scheduler resumes it,
    whatever the others did in between, it returns holding [L] again and nothing
    else, with its interrupt state restored and its channel cleared.  The
    statement is about the state at the switch: kernel code runs without
    interleaving between two switches here, so it does not tell apart the two
    orders in which [sleep] could exchange the locks. *)
Theorem sleep_wakeup_protocol (L : lockref) `{!LockLaws L, !LockApart L} (s : kstate) (ch : chan)
    (i : nat) (p : proc)
    (HL : lk_get L s = Some (mk_spinlock 1 true)) (Hpt : pt_lock (k_pt s) = mk_spinlock 0 false)
    (Hd : one_deep (k_cpu s)) (Hc : c_proc (k_cpu s) = Some i) (Hp : proc_at s i = Some p) :
  exists s1 k p1, sleep ch (sl_other L) s = Block s1 k /\
    (in_ptable s1 /\ lk_get L s1 = Some (mk_spinlock 0 false) /\ proc_at s1 i = Some p1 /\
     p_state p1 = SLEEPING /\ p_chan p1 = Some ch /\ p_pid p1 = p_pid p /\
     (forall j, i <> j -> proc_at s1 j = proc_at s j)) /\
    (exists s1', wakeup1 (Some ch) s1 = Done tt s1' /\
       proc_at s1' i = Some (set_p_state RUNNABLE p1)) /\
    (forall s2 p2, in_ptable s2 -> c_proc (k_cpu s2) = Some i -> proc_at s2 i = Some p2 ->
       lk_get L s2 = Some (mk_spinlock 0 false) ->
       exists s3, k s2 = Done tt s3 /\ lk_get L s3 = Some (mk_spinlock 1 true) /\
         pt_lock (k_pt s3) = mk_spinlock 0 false /\ one_deep (k_cpu s3) /\
         intena (k_cpu s3) = intena (k_cpu s) /\
         pt_proc (k_pt s3) = <[i := set_p_chan None p2]> (pt_proc (k_pt s2))).
Proof.
  destruct (handed_over_facts L s _ HL Hd) as (Hin & Hcpu & HgL & Hpr).
  exists (put_proc i (asleep ch p) (handed_over L s)), (wake_up L i (intena (k_cpu s))), (asleep ch p).
  assert (Hat : proc_at (put_proc i (asleep ch p) (handed_over L s)) i = Some (asleep ch p))
    by (eapply proc_at_put; by rewrite Hpr).
  split; [by apply sleep_eq|]. split; [|split].
  - split_and!; try done.
    + by destruct Hin.
    + unfold put_proc. by rewrite apart_get.
    + intros j Hj. by rewrite proc_at_put_ne, Hpr.
  - destruct (wakeup1_at (put_proc i (asleep ch p) (handed_over L s)) (Some ch) i) as (s1' & E & H & _).
    exists s1'. split; [done|]. rewrite H, Hat. cbn. unfold wake.
    by rewrite decide_True by done.
  - intros s2 p2 H1 H2 H3 H4.
    destruct (wake_up_eq L i (intena (k_cpu s)) s2 p2 H1 H2 H3 H4) as (s3 & ? & ? & ? & ? & ? & _ & ? & _).
    by exists s3.
Qed.

(** Process 0 runs inside a critical section of the disk lock. *)
Definition sleep_demo : kstate :=
  put_proc 0 (set_p_state RUNNING (set_p_pid 1 zero_proc))
    (lk_set ide_lk (mk_spinlock 1 true)
       (set_k_cpu (mk_cpu 1 true false (Some 0%nat) 0 0) (zero_state 0x200000 ∅))).

(** The scheduler has just resumed process 0. *)
Definition resume_demo : kstate :=
  put_proc 0 (set_p_state RUNNING (set_p_pid 1 zero_proc))
    (lk_set ptable_lk (mk_spinlock 1 true)
       (set_k_cpu (mk_cpu 1 true false (Some 0%nat) 0 0) (zero_state 0x200000 ∅))).

Lemma sleep_wakeup_protocol_witness :
  exists s1 k s1' s3, sleep ch_ticks (sl_other ide_lk) sleep_demo = Block s1 k /\
    wakeup1 (Some ch_ticks) s1 = Done tt s1' /\ k resume_demo = Done tt s3.
Proof.
  destruct (sleep_wakeup_protocol ide_lk sleep_demo ch_ticks 0
              (set_p_state RUNNING (set_p_pid 1 zero_proc)))
    as (s1 & k & p1 & E & _ & (s1' & E' & _) & Hk); [reflexivity..| |reflexivity|reflexivity|].
  { by split. }
  destruct (Hk resume_demo (set_p_state RUNNING (set_p_pid 1 zero_proc))) as (s3 & E3 & _);
    [by split|reflexivity..|].
  by exists s1, k, s1', s3.
Defined.
