(* ===== verification/Console.v ===== *)
(** * The console: [kernel/console.c], [kernel/uart.c], [procdump] of [kernel/proc.c]

    Output goes to the serial port and to the text screen; input arrives one
    character at a time in the interrupt handlers and is read by line.  A
    [char] is an integer in [0, 256). *)

From S2P Require Import Prelude Types Strings Spinlock Mmu Kalloc X86vm Vspace Sched.

Definition upd_cons (f : console -> console) : K unit :=
  modify (fun s => set_k_cons (f (k_cons s)) s).
Definition upd_input (f : input_t -> input_t) : K unit :=
  upd_cons (fun c => set_input (f (input c)) c).

(** ** Output *)

Definition BACKSPACE : Z := 0x100.
Definition NL : Z := 10.
Definition CR : Z := 13.

Definition uartputc (c : Z) : K unit :=
  k <- gets k_cons ;;
  if negb (uart k) then ret tt else
  upd_cons (fun k => set_c_out (c_out k ++ [u8 c]) k).

(** [crt[pos] = v]; video memory beyond the screen is not kept. *)
Definition crt_set (pos v : Z) : K unit :=
  upd_cons (fun k => set_crt (<[Z.to_nat pos := v]> (crt k)) k).

(** The position of the cursor after [c], before scrolling. *)
Definition advance (c pos : Z) : Z :=
  if c =? NL then pos + (80 - pos mod 80) else
  if c =? BACKSPACE then (if 0 <? pos then pos - 1 else pos) else pos + 1.

(** One line up: [memmove(crt, crt + 80, ...)] and [memset(crt + pos, 0, ...)],
    where [pos] is the cursor after it moved up too. *)
Definition scroll (pos : Z) (cells : list Z) : list Z :=
  let moved := take (Z.to_nat (23 * 80)) (drop 80 cells) ++ drop (Z.to_nat (23 * 80)) cells in
  let n := Z.to_nat (24 * 80 - pos) in
  take (Z.to_nat pos) moved ++ replicate n 0 ++ drop (Z.to_nat pos + n) moved.

Definition cgaputc (c : Z) : K unit :=
  k <- gets k_cons ;;
  let pos := cursor k in
  (if (c =? NL) || (c =? BACKSPACE) then ret tt
   else crt_set pos (Z.lor (Z.land c 0xff) 0x0700)) ;;
  let pos := advance c pos in
  if (pos <? 0) || (25 * 80 <? pos) then panic "pos under/overflow" else
  pos <- (if 24 <=? pos / 80 then
            let pos := pos - 80 in
            upd_cons (fun k => set_crt (scroll pos (crt k)) k) ;;
            ret pos
          else ret pos) ;;
  upd_cons (set_cursor (u16 pos)) ;;
  crt_set pos (Z.lor 32 0x0700).

Definition consputc (c : Z) : K unit :=
  k <- gets k_cons ;;
  if panicked k then diverge else
  (if c =? BACKSPACE then uartputc 8 ;; uartputc 32 ;; uartputc 8 else uartputc c) ;;
  cgaputc c.

Definition puts (cs : list Z) : K unit := mfor cs consputc.

(** [digits[d]]. *)
Definition digit (d : Z) : Z := if d <? 10 then 48 + d else 97 + (d - 10).

(** [do buf[i++] = digits[x % base]; while ((x /= base) != 0);], least
    significant digit first; a 64-bit number has at most 64 digits. *)
Fixpoint digits_rev (fuel : nat) (x base : Z) : list Z :=
  match fuel with
  | O => []
  | S fuel =>
      digit (x mod base) :: (if x / base =? 0 then [] else digits_rev fuel (x / base) base)
  end.

(** The characters [printint] and [printint64] print: [w] is the width. *)
Definition int_chars (x : Z) (neg : bool) (base : Z) : list Z :=
  (if neg then [45] else []) ++ reverse (digits_rev 64 x base).

Definition printint64 (xx base : Z) (sign : bool) : K unit :=
  let neg := sign && (xx <? 0) in
  let x := u64 (if neg then - xx else xx) in
  puts (int_chars x neg base).

Definition printint (xx base : Z) (sign : bool) : K unit :=
  let neg := sign && (xx <? 0) in
  let x := u32 (if neg then - xx else xx) in
  puts (int_chars x neg base).

(** The variable arguments of [cprintf]: a 64-bit register each, or a string. *)
Inductive vararg := va_int (z : Z) | va_str (s : option (list Z)).

(** The characters of a string literal. *)
Definition chars (s : string) : list Z :=
  (fun a => Z.of_N (Ascii.N_of_ascii a)) <$> String.list_ascii_of_string s.

(** The end of a line in a format string. *)
Definition nl : string := String.String (Ascii.ascii_of_nat 10) String.EmptyString.

(** The states of the loop of [cprintf]: plain text, or after a percent sign
    with [lflag]. *)
Fixpoint cprintf_loop (fmt : list Z) (pct : option bool) (args : list vararg) : K unit :=
  match fmt with
  | [] => ret tt
  | c :: fmt =>
      if c =? 0 then ret tt else
      match pct with
      | None => if c =? 37 then cprintf_loop fmt (Some false) args
                else consputc c ;; cprintf_loop fmt None args
      | Some lflag =>
          if c =? 108 then cprintf_loop fmt (Some (negb lflag)) args else
          if c =? 100 then
            match args with
            | va_int z :: args =>
                (if lflag then printint64 (i64 z) 10 true else printint (i32 z) 10 true) ;;
                cprintf_loop fmt None args
            | _ => fault "va_arg"
            end
          else if c =? 120 then
            match args with
            | va_int z :: args =>
                (if lflag then printint64 (i64 z) 16 false else printint (i32 z) 16 false) ;;
                cprintf_loop fmt None args
            | _ => fault "va_arg"
            end
          else if c =? 112 then
            match args with
            | va_int z :: args => printint64 (i64 z) 16 false ;; cprintf_loop fmt None args
            | _ => fault "va_arg"
            end
          else if c =? 115 then
            match args with
            | va_str o :: args => puts (default (chars "(null)") o) ;; cprintf_loop fmt None args
            | _ => fault "va_arg"
            end
          else if c =? 37 then consputc 37 ;; cprintf_loop fmt None args
          else consputc 37 ;; consputc c ;; cprintf_loop fmt None args
      end
  end.

Definition cprintf (fmt : string) (args : list vararg) : K unit :=
  k <- gets k_cons ;;
  (if locking k then acquire cons_lk else ret tt) ;;
  cprintf_loop (chars fmt) None args ;;
  if locking k then release cons_lk else ret tt.

(** ** Input *)

Definition ctrl (x : Z) : Z := x - 64.

(** [input.buf[i % INPUT_BUF]]. *)
Definition in_char (k : input_t) (i : Z) : K Z :=
  deref "input.buf" (in_buf k !! Z.to_nat (i mod INPUT_BUF)).

(** [case C('U')]: the line is at most [INPUT_BUF] characters. *)
Fixpoint kill_line (fuel : nat) : K unit :=
  match fuel with
  | O => diverge
  | S fuel =>
      k <- gets (fun s => input (k_cons s)) ;;
      if in_e k =? in_w k then ret tt else
      c <- in_char k (u32 (in_e k - 1)) ;;
      if c =? NL then ret tt else
      upd_input (fun k => set_in_e (u32 (in_e k - 1)) k) ;;
      consputc BACKSPACE ;;
      kill_line fuel
  end.

(** One character of input other than [C('P')], the body of the loop of
    [consoleintr]. *)
Definition console_char (c : Z) : K unit :=
  k <- gets (fun s => input (k_cons s)) ;;
  if c =? ctrl 85 then kill_line (S (Z.to_nat (u32 (in_e k - in_w k)))) else
  if (c =? ctrl 72) || (c =? 127) then
    if in_e k =? in_w k then ret tt else
    upd_input (fun k => set_in_e (u32 (in_e k - 1)) k) ;;
    consputc BACKSPACE
  else
    if (c =? 0) || negb (u32 (in_e k - in_r k) <? INPUT_BUF) then ret tt else
    let c := if c =? CR then NL else c in
    upd_input (fun k => set_in_e (u32 (in_e k + 1))
                          (set_in_buf (<[Z.to_nat (in_e k mod INPUT_BUF) := u8 c]> (in_buf k)) k)) ;;
    consputc c ;;
    k <- gets (fun s => input (k_cons s)) ;;
    if (c =? NL) || (c =? ctrl 68) || (in_e k =? u32 (in_r k + INPUT_BUF)) then
      upd_input (fun k => set_in_w (in_e k) k) ;;
      wakeup ch_input
    else ret tt.

(** [while ((c = getc()) >= 0)]; the caller knows how many bytes wait.  [dump]
    is [doprocdump]. *)
Fixpoint consoleintr_loop (fuel : nat) (getc : K Z) (dump : bool) : K bool :=
  match fuel with
  | O => diverge
  | S fuel =>
      c <- getc ;;
      if c <? 0 then ret dump else
      if c =? ctrl 80 then consoleintr_loop fuel getc true else
      console_char c ;;
      consoleintr_loop fuel getc dump
  end.

(** [procdump] of [proc.c].  [getcallerpcs] of [spinlock.c] does not look at the
    frame pointer that it is given: it walks the stack that it runs on. *)
Definition state_name (st : procstate) : string :=
  match st with
  | UNUSED => "unused"
  | EMBRYO => "embryo"
  | SLEEPING => "sleep "
  | RUNNABLE => "runble"
  | RUNNING => "run   "
  | ZOMBIE => "zombie"
  end.

Fixpoint callerpcs (n : nat) (l : list Z) : list Z :=
  match n, l with
  | S n, pc :: l => if pc =? 0 then [] else pc :: callerpcs n l
  | _, _ => []
  end.

Definition procdump : K unit :=
  mfor (seq 0 NPROC) (fun i =>
    p <- get_proc i ;;
    if bool_decide (p_state p = UNUSED) then ret tt else
    cprintf "%d %s %s" [va_int (p_pid p); va_str (Some (chars (state_name (p_state p)))); va_str (Some (cstr (p_name p)))] ;;
    (if bool_decide (p_state p = SLEEPING) then
       pcs <- gets (fun s => callerpcs 10 (env_callers (k_env s))) ;;
       mfor pcs (fun pc => cprintf " %p" [va_int pc])
     else ret tt) ;;
    cprintf nl []).

Definition consoleintr (pending : nat) (getc : K Z) : K unit :=
  acquire cons_lk ;;
  dump <- consoleintr_loop (S pending) getc false ;;
  release cons_lk ;;
  if (dump : bool) then procdump else ret tt.

(** [while (input.r == input.w)]: true if the process was killed. *)
Fixpoint consoleread_wait (fuel : nat) : K bool :=
  match fuel with
  | O => diverge
  | S fuel =>
      k <- gets (fun s => input (k_cons s)) ;;
      if in_r k =? in_w k then
        p <- my ;;
        if truthy (killed p) then ret true else
        sleep ch_input (sl_other cons_lk) ;;
        consoleread_wait fuel
      else ret false
  end.

(** The outer loop of [consoleread] with [n] characters left of [target]: the
    characters stored at [dst], and whether the process was killed. *)
Fixpoint consoleread_loop (n target : nat) : K (bool * list Z) :=
  match n with
  | O => ret (false, [])
  | S n' =>
      w <- wakeups ;;
      dead <- consoleread_wait w ;;
      if (dead : bool) then ret (true, []) else
      k <- gets (fun s => input (k_cons s)) ;;
      c <- in_char k (in_r k) ;;
      upd_input (fun k => set_in_r (u32 (in_r k + 1)) k) ;;
      if c =? ctrl 68 then
        (if (n <? target)%nat then upd_input (fun k => set_in_r (u32 (in_r k - 1)) k) else ret tt) ;;
        ret (false, [])
      else if c =? NL then ret (false, [c]) else
      let* (dead, l) := consoleread_loop n' target in
      ret (dead, c :: l)
  end.

(** The result and the characters stored at [dst].  A killed reader has
    released the lock and returns -1. *)
Definition consoleread (n : Z) : K (Z * list Z) :=
  acquire cons_lk ;;
  let* (dead, l) := consoleread_loop (Z.to_nat n) (Z.to_nat n) in
  release cons_lk ;;
  ret (if (dead : bool) then -1 else Z.of_nat (length l), l).

Definition consolewrite (buf : list Z) (n : Z) : K Z :=
  acquire cons_lk ;;
  puts (u8 <$> take (Z.to_nat n) buf) ;;
  release cons_lk ;;
  ret n.

Definition CONSOLE : nat := 1.

Definition consoleinit : K unit :=
  initlock cons_lk ;;
  modify (fun s => set_k_devsw (<[CONSOLE := Some drv_console]> (k_devsw s)) s) ;;
  upd_cons (set_locking true).

(** ** The serial port *)

(** [present]: whether the status register reads other than [0xFF]. *)
Definition uartinit (present : bool) : K unit :=
  if negb present then ret tt else
  upd_cons (set_uart true) ;;
  mfor (chars "xk..." ++ [NL]) uartputc.

Definition uartgetc : K Z :=
  k <- gets k_cons ;;
  if negb (uart k) then ret (-1) else
  match uart_data k with
  | [] => ret (-1)
  | c :: cs => upd_cons (set_uart_data cs) ;; ret (u8 c)
  end.

Definition uartintr : K unit :=
  k <- gets k_cons ;;
  consoleintr (length (uart_data k)) uartgetc.

(** A character moves the cursor by at most a line, to the end of the screen at
    the farthest. *)
Lemma advance_range c pos :
  0 <= pos < 24 * 80 -> 0 <= advance c pos <= 24 * 80 /\ (24 <= advance c pos / 80 <-> advance c pos = 24 * 80).
Proof.
  unfold advance. intros H.
  destruct (c =? NL); [|destruct (c =? BACKSPACE); [destruct (0 <? pos) eqn:E|]]; bprop; dlia.
Qed.
