(* ===== verification/Tty.v ===== *)
(** * The console as a line editor

    No code of its own: the ring buffer of [kernel/console.c] refines a pair of
    lists, the characters that can be read and the line that is being edited,
    and what is written goes to the serial port unchanged. *)

From S2P Require Import Prelude Types Spinlock Mmu Kalloc X86vm Vspace Sched Console.

(** ** Output *)

Definition SCREEN : Z := 24 * 80.

Record screen_ok (k : console) : Prop := {
  so_alive : panicked k = false;
  so_cursor : 0 <= cursor k < SCREEN
}.

(** [l] went to the serial port, if there is one, and the screen changed. *)
Definition shows (l : list Z) (k k' : console) : Prop :=
  exists cells cur, 0 <= cur < SCREEN /\
    k' = set_cursor cur (set_crt cells (set_c_out (c_out k ++ if uart k then l else []) k)).

(** What [consputc] sends for a character. *)
Definition serial (c : Z) : list Z := if c =? BACKSPACE then [8; 32; 8] else [u8 c].

Lemma shows_nil k : screen_ok k -> shows [] k k.
Proof.
  intros [_ H]. exists (crt k), (cursor k). split; [done|]. replace (if uart k then [] else []) with (@nil Z) by (by destruct (uart k)).
  rewrite app_nil_r. by destruct k.
Qed.

Lemma shows_app a b k k1 k2 : shows a k k1 -> shows b k1 k2 -> shows (a ++ b) k k2.
Proof.
  intros (c1 & p1 & _ & ->) (c2 & p2 & H & ->). exists c2, p2. split; [done|]. cbn.
  destruct k as [? ? ? ? [] ? ? ? ? ? ?]; cbn; by rewrite ?app_nil_r, <- ?app_assoc.
Qed.

Lemma shows_ok l k k' : panicked k = false -> shows l k k' -> screen_ok k'.
Proof. intros Hp (c & p & H & ->). by split. Qed.

Lemma set_k_cons_id s : set_k_cons (k_cons s) s = s.
Proof. by destruct s. Qed.

Lemma uartputc_eq c s :
  uartputc c s =
  Done tt (set_k_cons (set_c_out (c_out (k_cons s) ++ if uart (k_cons s) then [u8 c] else []) (k_cons s)) s).
Proof.
  unfold uartputc. msimp. destruct (uart (k_cons s)) eqn:E; cbn [negb]; [done|].
  rewrite app_nil_r. replace (set_c_out _ _) with (k_cons s) by (by destruct (k_cons s)). by rewrite set_k_cons_id.
Qed.

(** After a character the cursor is in the first 25 lines, and a scroll brings
    it back into the first 24. *)
Lemma cgaputc_eq c s :
  screen_ok (k_cons s) ->
  exists cells cur, 0 <= cur < SCREEN /\
    cgaputc c s = Done tt (set_k_cons (set_cursor cur (set_crt cells (k_cons s))) s).
Proof.
  intros [Hp Hc]. destruct (advance_range c (cursor (k_cons s)) Hc) as [Hr H24]. set (pos := advance _ _) in *.
  unfold cgaputc. msimp. fold pos.
  set (s1 := if (c =? NL) || (c =? BACKSPACE) then s else
    set_k_cons (set_crt (<[Z.to_nat (cursor (k_cons s)) := Z.lor (Z.land c 0xff) 0x0700]> (crt (k_cons s))) (k_cons s)) s).
  rewrite (bind_done _ _ _ tt s1) by (unfold s1; by destruct ((c =? NL) || (c =? BACKSPACE))).
  assert (Hs1 : exists cells, s1 = set_k_cons (set_crt cells (k_cons s)) s).
  { unfold s1. destruct (_ || _); [|by eexists]. exists (crt (k_cons s)).
    replace (set_crt _ _) with (k_cons s) by (by destruct (k_cons s)). by rewrite set_k_cons_id. }
  destruct Hs1 as [cells ->].
  replace ((pos <? 0) || (25 * 80 <? pos)) with false by (unfold SCREEN in *; symmetry; apply orb_false_iff; split; lia).
  unfold SCREEN in *. destruct (Z.leb_spec 24 (pos / 80)) as [H|H].
  - assert (pos = 1920) as -> by (apply H24, H). eexists _, _. split; cycle 1.
    + unfold upd_cons, crt_set. msimp. unfold modify. reflexivity.
    + cbn; unfold u16; dlia.
  - eexists _, _. split; cycle 1.
    + unfold upd_cons, crt_set. msimp. unfold modify. reflexivity.
    + cbn; unfold u16; dlia.
Qed.

Lemma consputc_eq c s :
  screen_ok (k_cons s) ->
  exists k', consputc c s = Done tt (set_k_cons k' s) /\ shows (serial c) (k_cons s) k'.
Proof.
  intros Ho. pose proof Ho as [Hp _]. unfold consputc. msimp. rewrite Hp.
  set (s1 := set_k_cons (set_c_out (c_out (k_cons s) ++ if uart (k_cons s) then serial c else []) (k_cons s)) s).
  assert (E : (if c =? BACKSPACE then uartputc 8 ;; uartputc 32 ;; uartputc 8 else uartputc c) s = Done tt s1).
  { unfold s1, serial. destruct (c =? BACKSPACE); [|apply uartputc_eq].
    do 2 mstep uartputc_eq. rewrite uartputc_eq. cbn.
    destruct (uart (k_cons s)); cbn; by rewrite ?app_nil_r, <- ?app_assoc. }
  mstep E. destruct (cgaputc_eq c s1) as (cells & cur & Hc & E1); [by destruct Ho|].
  eexists. split; [exact E1|]. by exists cells, cur.
Qed.

Lemma puts_shows l s :
  screen_ok (k_cons s) ->
  exists k', puts l s = Done tt (set_k_cons k' s) /\ shows (concat (serial <$> l)) (k_cons s) k'.
Proof.
  revert s. induction l as [|c l IH]; intros s Ho.
  { exists (k_cons s). split; [by destruct s|by apply shows_nil]. }
  destruct (consputc_eq c s Ho) as (k1 & E1 & H1). unfold puts. cbn [mfor]. mstep E1.
  destruct (IH (set_k_cons k1 s)) as (k2 & E2 & H2); [eapply shows_ok; [apply Ho|done]|].
  exists k2. split; [exact E2|]. cbn. by eapply shows_app.
Qed.

(** ** Programs that print *)

(** The console can be printed to. *)
Record can_print (s : kstate) : Prop := {
  cp_screen : screen_ok (k_cons s);
  cp_lock : cons_lock (k_cons s) = zero_lock;
  cp_cpu : cpu_room 1 (k_cpu s)
}.

(** [m] returns and prints [l]. *)
Definition prints (l : list Z) (m : K unit) : Prop :=
  forall s, can_print s -> exists s', m s = Done tt s' /\ can_print s' /\ uart (k_cons s') = uart (k_cons s) /\
    c_out (k_cons s') = c_out (k_cons s) ++ if uart (k_cons s) then l else [].

Lemma prints_ret : prints [] (ret tt).
Proof. intros s Hs. exists s. split_and!; try done. destruct (uart _); by rewrite app_nil_r. Qed.

Lemma prints_bind a b m (k : K unit) : prints a m -> prints b k -> prints (a ++ b) (m ;; k).
Proof.
  intros Hm Hk s Hs. destruct (Hm s Hs) as (s1 & E1 & H1 & Hu1 & Ho1).
  destruct (Hk s1 H1) as (s2 & E2 & H2 & Hu2 & Ho2). exists s2.
  split_and!; [by mstep E1|done|by rewrite Hu2, Hu1|]. rewrite Ho2, Ho1, Hu1, <- app_assoc.
  by destruct (uart (k_cons s)).
Qed.

Lemma prints_mfor {A} (f : A -> K unit) (g : A -> list Z) l :
  (forall x, x ∈ l -> prints (g x) (f x)) -> prints (concat (g <$> l)) (mfor l f).
Proof.
  induction l as [|x l IH]; intros H; cbn [mfor fmap list_fmap concat]; [apply prints_ret|].
  apply prints_bind; [apply H; set_solver|]. apply IH. set_solver.
Qed.

(** What [cprintf] prints for a format whose only conversions are of strings. *)
Fixpoint rendered (fmt : list Z) (pct : option bool) (args : list vararg) : option (list Z) :=
  match fmt with
  | [] => Some []
  | c :: fmt =>
      if c =? 0 then Some [] else
      match pct with
      | None => if c =? 37 then rendered fmt (Some false) args else (fun l => c :: l) <$> rendered fmt None args
      | Some lflag =>
          if c =? 108 then rendered fmt (Some (negb lflag)) args else
          match args with
          | va_str o :: args' =>
              if c =? 115 then (fun l => default (chars "(null)") o ++ l) <$> rendered fmt None args' else None
          | _ => None
          end
      end
  end.

Lemma chars_bytes s : Forall (fun c => 0 <= c < 256) (chars s).
Proof.
  apply Forall_fmap, Forall_true. intros a. cbn. pose proof (Ascii.N_ascii_bounded a). lia.
Qed.

Lemma serial_bytes l : Forall (fun c => 0 <= c < 256) l -> concat (serial <$> l) = l.
Proof.
  induction 1 as [|c l Hc _ IH]; [done|]. cbn. rewrite IH. unfold serial, BACKSPACE.
  destruct (Z.eqb_spec c 0x100); [lia|]. by rewrite u8_small.
Qed.

Lemma puts_bytes l s :
  Forall (fun c => 0 <= c < 256) l -> screen_ok (k_cons s) ->
  exists k', puts l s = Done tt (set_k_cons k' s) /\ shows l (k_cons s) k'.
Proof.
  intros Hl Ho. destruct (puts_shows l s Ho) as (k' & E & H). exists k'. split; [done|]. by rewrite serial_bytes in H.
Qed.

Lemma cprintf_loop_shows fmt pct args l s :
  rendered fmt pct args = Some l -> Forall (fun c => 0 <= c < 256) l -> screen_ok (k_cons s) ->
  exists k', cprintf_loop fmt pct args s = Done tt (set_k_cons k' s) /\ shows l (k_cons s) k'.
Proof.
  assert (Hnil : forall s, screen_ok (k_cons s) ->
    exists k', ret tt s = Done tt (set_k_cons k' s) /\ shows [] (k_cons s) k').
  { intros s0 H0. exists (k_cons s0). rewrite set_k_cons_id. split; [done|by apply shows_nil]. }
  assert (Hseq : forall a b s k1 (m : K unit), shows a (k_cons s) k1 -> screen_ok (k_cons s) ->
    (screen_ok k1 -> exists k', m (set_k_cons k1 s) = Done tt (set_k_cons k' (set_k_cons k1 s)) /\ shows b k1 k') ->
    exists k', m (set_k_cons k1 s) = Done tt (set_k_cons k' s) /\ shows (a ++ b) (k_cons s) k').
  { intros a b s0 k1 m Ha Ho Hm. destruct Hm as (k' & E & Hb); [eapply shows_ok; [apply Ho|done]|].
    exists k'. split; [done|by eapply shows_app]. }
  revert pct args l s. induction fmt as [|c fmt IH]; intros pct args l s Hr Hl Ho; cbn [rendered cprintf_loop] in *.
  { injection Hr as <-. by apply Hnil. }
  destruct (c =? 0); [injection Hr as <-; by apply Hnil|]. destruct pct as [lflag|].
  - destruct (c =? 108); [by apply (IH (Some (negb lflag)) args)|]. destruct args as [|[z|o] args]; [done..|].
    destruct (Z.eqb_spec c 115) as [->|]; [|done]. cbn [Z.eqb Pos.eqb].
    destruct (rendered fmt None args) as [l'|] eqn:E; [|done]. injection Hr as <-. apply Forall_app in Hl as [Hl1 Hl2].
    destruct (puts_bytes _ s Hl1 Ho) as (k1 & E1 & H1). mstep E1. apply Hseq; [done|done|]. intros Ho1. by apply (IH None args).
  - destruct (c =? 37); [by apply (IH (Some false) args)|].
    destruct (rendered fmt None args) as [l'|] eqn:E; [|done]. injection Hr as <-. apply Forall_cons in Hl as [Hl1 Hl2].
    destruct (puts_bytes [c] s) as (k1 & E1 & H1); [by constructor; [|constructor]|done|]. unfold puts in E1. cbn [mfor] in E1.
    apply bind_inv in E1 as ([] & s1 & E1 & E2). injection E2 as ->. mstep E1.
    apply (Hseq [c] l'); [done|done|]. intros Ho1. by apply (IH None args).
Qed.

Lemma cprintf_prints fmt args l :
  rendered (chars fmt) None args = Some l -> Forall (fun c => 0 <= c < 256) l -> prints l (cprintf fmt args).
Proof.
  intros Hr Hl s [Ho Hk Hc]. unfold cprintf. msimp.
  assert (Hend : forall k', shows l (k_cons s) k' -> can_print (set_k_cons k' s) /\ uart k' = uart (k_cons s) /\
    c_out k' = c_out (k_cons s) ++ if uart (k_cons s) then l else []).
  { intros k' H. pose proof (shows_ok _ _ _ (so_alive _ Ho) H) as Ho'. destruct H as (cells & cur & _ & ->). by split_and!. }
  destruct (locking (k_cons s)).
  - mstep (acquire_eq cons_lk s zero_lock); [|cbn; by rewrite Hk|done|done]. set (s1 := lk_set cons_lk _ _).
    destruct (cprintf_loop_shows (chars fmt) None args l s1 Hr Hl) as (k' & E & H); [by destruct Ho|]. mstep E.
    rewrite (release_cs cons_lk _ (k_cpu s)); [|by destruct H as (? & ? & _ & ->)|done|done]. eexists. split; [done|].
    destruct H as (cells & cur & Hcur & ->). split_and!; [|done|done]. split; [by destruct Ho|done|done].
  - msimp. destruct (cprintf_loop_shows (chars fmt) None args l s Hr Hl Ho) as (k' & E & H). mstep E.
    exists (set_k_cons k' s). split; [done|]. by apply Hend.
Qed.

(** ** The ring of input *)

(** [u] can be read, and [p] is the line being edited. *)
Record lines (k : input_t) (u p : list Z) : Prop := {
  ln_buf : length (in_buf k) = 128%nat;
  ln_r : 0 <= in_r k < 2 ^ 32;
  ln_w : in_w k = u32 (in_r k + Z.of_nat (length u));
  ln_e : in_e k = u32 (in_r k + Z.of_nat (length u) + Z.of_nat (length p));
  ln_room : (length u + length p <= 128)%nat;
  ln_at : forall i c, (u ++ p) !! i = Some c -> in_buf k !! Z.to_nat ((in_r k + Z.of_nat i) mod 128) = Some c;
  ln_nl : NL ∉ p
}.

Lemma lines_empty k u p : lines k u p -> (in_e k =? in_w k) = bool_decide (p = []).
Proof.
  intros [Hb Hr Hw He Hroom _ _]. rewrite Hw, He. destruct p as [|c p]; cbn [length] in *.
  - rewrite bool_decide_true by done. apply Z.eqb_eq. f_equal. lia.
  - rewrite bool_decide_false by done. apply Z.eqb_neq. word.
Qed.

Lemma lines_unread k u p : lines k u p -> (in_r k =? in_w k) = bool_decide (u = []).
Proof.
  intros [Hb Hr Hw He Hroom _ _]. rewrite Hw. destruct u as [|c u]; cbn [length] in *.
  - rewrite bool_decide_true by done. apply Z.eqb_eq. word.
  - rewrite bool_decide_false by done. apply Z.eqb_neq. word.
Qed.

Lemma lines_count k u p : lines k u p -> u32 (in_e k - in_r k) = Z.of_nat (length u + length p).
Proof. intros [Hb Hr Hw He Hroom _ _]. rewrite He. word. Qed.

Lemma lines_last k u p c :
  lines k u (p ++ [c]) ->
  in_buf k !! Z.to_nat (u32 (in_e k - 1) mod 128) = Some c /\ lines (set_in_e (u32 (in_e k - 1)) k) u p.
Proof.
  intros [Hb Hr Hw He Hroom Hat Hnl]. rewrite length_app in He, Hroom. cbn [length] in *. split.
  - rewrite <- (Hat (length u + length p)%nat c).
    + f_equal. f_equal. rewrite He. word.
    + rewrite app_assoc, lookup_app_r; rewrite length_app; [|lia]. by rewrite Nat.sub_diag.
  - split; cbn; try done; [rewrite He; word|lia| |set_solver].
    intros i x Hx. apply Hat. rewrite app_assoc. by apply lookup_app_l_Some.
Qed.

(** The ring after a character is stored behind the line. *)
Lemma ring_push k u p c i x :
  lines k u p -> (length u + length p < 128)%nat -> (u ++ p ++ [c]) !! i = Some x ->
  <[Z.to_nat (in_e k mod 128) := c]> (in_buf k) !! Z.to_nat ((in_r k + Z.of_nat i) mod 128) = Some x.
Proof.
  intros [Hb Hr Hw He Hroom Hat Hnl] Hlt. rewrite app_assoc. intros [Hx|[Hi Hx]]%lookup_app_Some.
  - pose proof (lookup_lt_Some _ _ _ Hx) as Hi. rewrite length_app in Hi.
    rewrite list_lookup_insert_ne; [by apply Hat|]. rewrite He. word.
  - rewrite length_app in Hi, Hx. pose proof (lookup_lt_Some _ _ _ Hx) as Hl. cbn in Hl.
    replace (i - (length u + length p))%nat with 0%nat in Hx by lia. injection Hx as ->.
    replace (Z.to_nat ((in_r k + Z.of_nat i) mod 128)) with (Z.to_nat (in_e k mod 128)) by (rewrite He; word).
    apply list_lookup_insert_eq. rewrite Hb. dlia.
Qed.

(** The input after [input.buf[input.e++ % INPUT_BUF] = c]. *)
Definition stored (c : Z) (k : input_t) : input_t :=
  set_in_e (u32 (in_e k + 1)) (set_in_buf (<[Z.to_nat (in_e k mod INPUT_BUF) := c]> (in_buf k)) k).

Lemma lines_push k u p c :
  lines k u p -> (length u + length p < 128)%nat -> c <> NL -> lines (stored c k) u (p ++ [c]).
Proof.
  intros Hk Hlt Hc. pose proof Hk as [Hb Hr Hw He Hroom _ Hnl].
  split; cbn; rewrite ?length_insert, ?length_app; cbn [length]; try done.
  - rewrite He. word.
  - lia.
  - intros i x. by apply ring_push.
  - set_solver.
Qed.

Lemma lines_commit k u p c :
  lines k u p -> (length u + length p < 128)%nat ->
  lines (set_in_w (in_e (stored c k)) (stored c k)) (u ++ p ++ [c]) [].
Proof.
  intros Hk Hlt. pose proof Hk as [Hb Hr Hw He Hroom _ Hnl].
  split; cbn; rewrite ?length_insert, ?length_app; cbn [length]; try done.
  - rewrite He. word.
  - rewrite He. word.
  - lia.
  - intros i x. rewrite app_nil_r. by apply ring_push.
  - set_solver.
Qed.

Lemma lines_take k c u p :
  lines k (c :: u) p ->
  in_buf k !! Z.to_nat (in_r k mod 128) = Some c /\ lines (set_in_r (u32 (in_r k + 1)) k) u p.
Proof.
  intros [Hb Hr Hw He Hroom Hat Hnl]. cbn [length] in *. split.
  - rewrite <- (Hat 0%nat c) by done. f_equal. f_equal. f_equal. lia.
  - split; cbn; try done; [word|rewrite Hw; word|rewrite He; word|lia|].
    intros i x Hx. rewrite <- (Hat (S i) x Hx). f_equal. word.
Qed.

(** ** The editor *)

Definition CTRL_D : Z := ctrl 68.
Definition CTRL_U : Z := ctrl 85.

(** The character that is stored for one that was typed. *)
Definition typed_as (c : Z) : Z := if c =? CR then NL else c.

(** Whether [n] characters in the ring leave room for [c]. *)
Definition accepts (c : Z) (n : nat) : bool := negb (c =? 0) && (n <? 128)%nat.

(** Whether the line ends with [c], the [n]-th character in the ring. *)
Definition ends_line (c : Z) (n : nat) : bool := (c =? NL) || (c =? CTRL_D) || (n =? 128)%nat.

(** One character typed: the state of the editor after it. *)
Definition edit (st : list Z * list Z) (c : Z) : list Z * list Z :=
  let '(u, p) := st in
  let n := (length u + length p)%nat in
  if c =? ctrl 80 then st else
  if c =? CTRL_U then (u, []) else
  if (c =? ctrl 72) || (c =? 127) then (u, take (length p - 1) p) else
  if negb (accepts c n) then st else
  if ends_line (typed_as c) (S n) then (u ++ p ++ [typed_as c], []) else (u, p ++ [typed_as c]).

(** What it echoes. *)
Definition echo (st : list Z * list Z) (c : Z) : list Z :=
  let '(u, p) := st in
  let n := (length u + length p)%nat in
  if c =? ctrl 80 then [] else
  if c =? CTRL_U then concat (replicate (length p) [8; 32; 8]) else
  if (c =? ctrl 72) || (c =? 127) then match p with [] => [] | _ => [8; 32; 8] end else
  if negb (accepts c n) then [] else [typed_as c].

(** The console with another input, after an echo. *)
Definition edits (l : list Z) (i : input_t) (k k' : console) : Prop := shows l (set_input i k) k'.

Lemma set_input_id k : set_input (input k) k = k.
Proof. by destruct k. Qed.

Lemma edits_app a b i j k k1 k2 : edits a i k k1 -> edits b j k1 k2 -> edits (a ++ b) j k k2.
Proof.
  intros (c1 & p1 & _ & ->) (c2 & p2 & H & ->). exists c2, p2. split; [done|]. cbn.
  destruct k as [? ? ? ? [] ? ? ? ? ? ?]; cbn; by rewrite ?app_nil_r, <- ?app_assoc.
Qed.

Lemma in_char_eq k i c s : in_buf k !! Z.to_nat (i mod 128) = Some c -> in_char k i s = Done c s.
Proof. intros H. unfold in_char, INPUT_BUF. by rewrite H. Qed.

(** [C('U')]. *)
Lemma kill_line_eq u p fuel s :
  screen_ok (k_cons s) -> lines (input (k_cons s)) u p -> (length p < fuel)%nat ->
  exists i k', kill_line fuel s = Done tt (set_k_cons k' s) /\ lines i u [] /\
    edits (concat (replicate (length p) [8; 32; 8])) i (k_cons s) k'.
Proof.
  revert fuel s. induction p as [|c p IH] using rev_ind; intros fuel s Ho Hl Hf;
    (destruct fuel as [|fuel]; [lia|]); cbn [kill_line]; msimp; rewrite (lines_empty _ _ _ Hl).
  - rewrite bool_decide_true by done. exists (input (k_cons s)), (k_cons s). rewrite set_k_cons_id. split_and!; [done|done|].
    unfold edits. rewrite set_input_id. by apply shows_nil.
  - rewrite bool_decide_false by (by destruct p). destruct (lines_last _ _ _ _ Hl) as [Hc Hl1].
    mstep (in_char_eq _ _ c); [|exact Hc]. pose proof (ln_nl _ _ _ Hl) as Hnl.
    destruct (Z.eqb_spec c NL) as [->|_]; [set_solver|].
    unfold upd_input at 1, upd_cons at 1. msimp. set (s1 := set_k_cons _ s).
    destruct (consputc_eq BACKSPACE s1) as (k1 & E1 & H1); [by destruct Ho|]. mstep E1.
    destruct (IH fuel (set_k_cons k1 s1)) as (i & k2 & E2 & Hi & H2).
    + eapply shows_ok; [|exact H1]. by destruct Ho.
    + destruct H1 as (? & ? & _ & ->). exact Hl1.
    + rewrite length_app in Hf. cbn in Hf. lia.
    + exists i, k2. split_and!; [exact E2|done|]. rewrite length_app, Nat.add_comm. cbn [length Nat.add replicate concat].
      eapply edits_app; [|exact H2]. exact H1.
Qed.

(** Whether the character hands the line to the readers. *)
Definition commits (st : list Z * list Z) (c : Z) : bool :=
  let n := (length st.1 + length st.2)%nat in
  negb (c =? ctrl 80) && negb (c =? CTRL_U) && negb ((c =? ctrl 72) || (c =? 127)) && accepts c n &&
  ends_line (typed_as c) (S n).

(** The state after a character, when the console is [k']. *)
Definition after_char (st : list Z * list Z) (c : Z) (k' : console) (s : kstate) : kstate :=
  if commits st c then set_k_cpu (cpu_cs (k_cpu s)) (woken (Some ch_input) (set_k_cons k' s)) else set_k_cons k' s.

Lemma console_char_eq c u p s :
  screen_ok (k_cons s) -> lines (input (k_cons s)) u p -> 0 <= c < 256 -> (c =? ctrl 80) = false ->
  pt_lock (k_pt s) = zero_lock -> cpu_room 1 (k_cpu s) ->
  exists i k', console_char c s = Done tt (after_char (u, p) c k' s) /\
    lines i (edit (u, p) c).1 (edit (u, p) c).2 /\ edits (echo (u, p) c) i (k_cons s) k'.
Proof.
  intros Ho Hl Hc H80 Hpt Hcpu. unfold console_char, edit, echo, after_char, commits, CTRL_U. cbn [fst snd]. msimp.
  assert (Hsame : exists i k', ret tt s = Done tt (set_k_cons k' s) /\ lines i u p /\ edits [] i (k_cons s) k').
  { exists (input (k_cons s)), (k_cons s). rewrite set_k_cons_id. split_and!; [done|done|].
    unfold edits. rewrite set_input_id. by apply shows_nil. }
  rewrite H80. destruct (c =? ctrl 85).
  { apply kill_line_eq; [done|done|]. destruct Hl as [_ Hr Hw He Hroom _ _]. rewrite Hw, He. word. }
  destruct ((c =? ctrl 72) || (c =? 127)).
  { rewrite (lines_empty _ _ _ Hl). destruct p as [|x p _] using rev_ind; [by rewrite bool_decide_true|].
    rewrite bool_decide_false by (by destruct p). destruct (lines_last _ _ _ _ Hl) as [_ Hl1].
    unfold upd_input at 1, upd_cons at 1. msimp. set (s1 := set_k_cons _ s).
    destruct (consputc_eq BACKSPACE s1) as (k1 & E1 & H1); [by destruct Ho|].
    exists (set_in_e (u32 (in_e (input (k_cons s)) - 1)) (input (k_cons s))), k1. split_and!; [exact E1| |].
    - cbn [fst snd]. rewrite length_app, Nat.add_sub. cbn [length]. by rewrite take_app_length.
    - destruct p; exact H1. }
  rewrite (lines_count _ _ _ Hl). unfold INPUT_BUF.
  replace ((c =? 0) || negb (Z.of_nat (length u + length p) <? 128)) with (negb (accepts c (length u + length p)))
    by (unfold accepts; destruct (c =? 0), (Nat.ltb_spec (length u + length p) 128),
      (Z.ltb_spec (Z.of_nat (length u + length p)) 128); try done; lia).
  destruct (accepts c (length u + length p)) eqn:Ha; cbn [negb andb]; [|exact Hsame].
  unfold accepts in Ha. apply andb_true_iff in Ha as [H0 Hlt%Nat.ltb_lt]. fold (typed_as c).
  assert (Ht : 0 <= typed_as c < 256) by (unfold typed_as, NL; by destruct (c =? CR)).
  assert (Hu : u8 (typed_as c) = typed_as c) by word.
  unfold upd_input at 1, upd_cons at 1. msimp. rewrite Hu. set (s1 := set_k_cons _ s).
  destruct (consputc_eq (typed_as c) s1) as (k1 & E1 & H1); [by destruct Ho|]. mstep E1. msimp.
  assert (Hser : serial (typed_as c) = [typed_as c]).
  { unfold serial, BACKSPACE. destruct (Z.eqb_spec (typed_as c) 0x100); [lia|by rewrite Hu]. }
  rewrite Hser in H1. assert (Hin : input k1 = stored (typed_as c) (input (k_cons s))).
  { destruct H1 as (? & ? & _ & ->). done. }
  assert (Hed : edits [typed_as c] (input k1) (k_cons s) k1) by (rewrite Hin; exact H1).
  assert (Hful : (in_e (input k1) =? u32 (in_r (input k1) + 128)) = (S (length u + length p) =? 128)%nat).
  { rewrite Hin. unfold stored. cbn [in_e in_r set_in_e set_in_buf]. destruct Hl as [_ Hr Hw He Hroom _ _]. rewrite He.
    destruct (Nat.eqb_spec (S (length u + length p)) 128); [apply Z.eqb_eq|apply Z.eqb_neq]; word. }
  cbn [k_cons set_k_cons]. rewrite Hful. fold CTRL_D. unfold ends_line.
  destruct ((typed_as c =? NL) || (typed_as c =? CTRL_D) || (S (length u + length p) =? 128)%nat) eqn:Hend.
  - unfold upd_input at 1, upd_cons at 1. msimp.
    exists (set_in_w (in_e (input k1)) (input k1)), (set_input (set_in_w (in_e (input k1)) (input k1)) k1). split; [by rewrite wakeup_eq|]. split.
    + rewrite Hin. by apply lines_commit.
    + destruct Hed as (cells & cur & Hcur & ->). by exists cells, cur.
  - exists (input k1), k1. split_and!; [done| |done]. rewrite Hin. apply lines_push; [done|done|].
    intros Hnl. rewrite Hnl in Hend. done.
Qed.

(** *** Interrupts of the serial port *)

(** Nobody uses the console. *)
Record tty_ready (s : kstate) : Prop := {
  tr_screen : screen_ok (k_cons s);
  tr_lock : cons_lock (k_cons s) = zero_lock;
  tr_uart : uart (k_cons s) = true;
  tr_pt : pt_lock (k_pt s) = zero_lock;
  tr_cpu : cpu_room 2 (k_cpu s)
}.

(** The characters typed, one after the other, and what they echo. *)
Fixpoint echoes (st : list Z * list Z) (cs : list Z) : list Z :=
  match cs with
  | [] => []
  | c :: cs => echo st c ++ echoes (edit st c) cs
  end.

Lemma uartgetc_eq s :
  uart (k_cons s) = true ->
  uartgetc s = match uart_data (k_cons s) with
               | [] => Done (-1) s
               | c :: cs => Done (u8 c) (set_k_cons (set_uart_data cs (k_cons s)) s)
               end.
Proof. intros Hu. unfold uartgetc. msimp. rewrite Hu. by destruct (uart_data (k_cons s)). Qed.

Lemma consoleintr_loop_eq cs dump st s :
  screen_ok (k_cons s) -> uart (k_cons s) = true -> uart_data (k_cons s) = cs -> Forall (fun c => 0 <= c < 256) cs ->
  lines (input (k_cons s)) st.1 st.2 -> pt_lock (k_pt s) = zero_lock -> cpu_room 1 (k_cpu s) ->
  exists s', consoleintr_loop (S (length cs)) uartgetc dump s = Done (dump || existsb (Z.eqb (ctrl 80)) cs) s' /\
    screen_ok (k_cons s') /\ uart (k_cons s') = true /\ uart_data (k_cons s') = [] /\
    cons_lock (k_cons s') = cons_lock (k_cons s) /\
    lines (input (k_cons s')) (foldl edit st cs).1 (foldl edit st cs).2 /\
    c_out (k_cons s') = c_out (k_cons s) ++ echoes st cs /\
    pt_lock (k_pt s') = zero_lock /\ (exists b, k_cpu s' = set_intena b (k_cpu s)).
Proof.
  revert dump st s. induction cs as [|c cs IH]; intros dump st s Ho Hu Hd Hcs Hl Hpt Hcpu; cbn [length consoleintr_loop existsb]; pose proof (uartgetc_eq s Hu) as Eg; rewrite Hd in Eg; mstep Eg.
  - exists s. cbn. rewrite app_nil_r, orb_false_r. split_and!; try done.
    exists (intena (k_cpu s)). by destruct (k_cpu s).
  - apply Forall_cons in Hcs as [Hc Hcs].
    rewrite (u8_small c) by done. destruct (Z.ltb_spec c 0); [lia|]. set (s1 := set_k_cons _ s). destruct st as [u p].
    rewrite (Z.eqb_sym (ctrl 80) c). destruct (c =? ctrl 80) eqn:H80.
    { destruct (IH true (u, p) s1) as (s' & E' & H1 & H2 & H3 & H4 & H5 & H6 & H7 & b & H8); try done; [by destruct Ho|].
      assert (Hsame : edit (u, p) c = (u, p) /\ echo (u, p) c = []) by (unfold edit, echo; by rewrite H80).
      destruct Hsame as [He1 He2]. exists s'. cbn [foldl echoes]. rewrite He1, He2, orb_true_r. split_and!; try done. by exists b. }
    destruct (console_char_eq c u p s1) as (i & k' & E & Hi & He); [by destruct Ho|done..|]. mstep E.
    assert (Hsh : screen_ok k' /\ input k' = i /\ uart k' = true /\ uart_data k' = cs /\
      cons_lock k' = cons_lock (k_cons s) /\ c_out k' = c_out (k_cons s) ++ echo (u, p) c).
    { destruct He as (cells & cur & Hcur & ->). cbn. rewrite Hu. by destruct Ho. }
    destruct Hsh as (Ho' & Hin & Hu' & Hd' & Hlk & Hout).
    destruct (IH dump (edit (u, p) c) (after_char (u, p) c k' s1)) as (s' & E' & H1 & H2 & H3 & H4 & H5 & H6 & H7 & b & H8);
      try done; try (unfold after_char; destruct (commits _ _); cbn; rewrite ?Hin; done).
    exists s'. unfold echoes; fold echoes. split_and!; try done.
    + rewrite H4, <- Hlk. unfold after_char. by destruct (commits _ _).
    + rewrite H6, app_assoc, <- Hout. unfold after_char. by destruct (commits _ _).
    + unfold after_char in H8. destruct (commits _ _); exists b; by rewrite H8.
Qed.

(** ** Reading *)

(** What a read of [n] characters takes from those that can be read: a line, or
    what is before an end of file, which is consumed only when it is first; none
    when the reader has to wait. *)
Fixpoint take_line (first : bool) (n : nat) (u : list Z) : option (list Z * list Z) :=
  match n, u with
  | O, _ => Some ([], u)
  | S _, [] => None
  | S n, c :: u' =>
      if c =? CTRL_D then Some ([], if first then u' else u) else
      if c =? NL then Some ([c], u') else
      '(l, r) ← take_line false n u'; Some (c :: l, r)
  end.

Lemma consoleread_loop_eq first n target u p l r s :
  lines (input (k_cons s)) u p -> (n <= target)%nat -> (first = true <-> n = target) ->
  take_line first n u = Some (l, r) ->
  exists i, consoleread_loop n target s = Done (false, l) (set_k_cons (set_input i (k_cons s)) s) /\ lines i r p.
Proof.
  revert first u l s. induction n as [|n IH]; intros first u l s Hl Hn Hfst Ht; cbn [consoleread_loop take_line] in *.
  { injection Ht as <- <-. exists (input (k_cons s)). by rewrite set_input_id, set_k_cons_id. }
  destruct u as [|c u]; [done|]. destruct (lines_take _ _ _ _ Hl) as [Hc Hl1].
  mstep (wakeups_eq s). rewrite (bind_done _ _ s false s); cycle 1.
  { cbn [consoleread_wait]. msimp. by rewrite (lines_unread _ _ _ Hl), bool_decide_false. }
  msimp. mstep (in_char_eq _ _ c); [|exact Hc]. unfold upd_input at 1, upd_cons at 1. msimp.
  set (i1 := set_in_r (u32 (in_r (input (k_cons s)) + 1)) (input (k_cons s))) in *. fold CTRL_D.
  destruct (c =? CTRL_D).
  - injection Ht as <- <-. destruct first.
    + destruct (Nat.ltb_spec (S n) target); [apply proj1 in Hfst; lia|]. msimp. by exists i1.
    + destruct (Nat.ltb_spec (S n) target); [|apply proj2 in Hfst; discriminate Hfst; lia]. unfold upd_input, upd_cons. msimp.
      exists (input (k_cons s)). split; [|done]. cbn. unfold ret. f_equal.
      replace (u32 (u32 (in_r (input (k_cons s)) + 1) - 1)) with (in_r (input (k_cons s)))
        by (destruct Hl as [_ Hr _ _ _ _ _]; word).
      by destruct s as [? ? ? ? ? ? ? ? ? [? ? ? [] ? ? ? ? ? ? ?] ? ? ? ?].
  - destruct (c =? NL); [injection Ht as <- <-; by exists i1|].
    destruct (take_line false n u) as [[l' r']|] eqn:E; [|done]. injection Ht as <- <-.
    destruct (IH false u l' (set_k_cons (set_input i1 (k_cons s)) s)) as (i & E' & Hi); [done|lia|split; [done|lia]|done|].
    mstep E'. by exists i.
Qed.

(** ** Properties *)

(** C38: The console edits lines.  When the serial port interrupts with the
    characters [cs], the handler takes all of them, and the ring buffer, which
    held the characters [u] for readers and the unfinished line [p], then holds
    what the line editor makes of them: backspace and control-U erase only the
    unfinished line, a return, a control-D or a full buffer hands it over, and
    what does not fit is dropped.  The echo is exactly what the editor echoes,
    no character is lost or reordered by the indices that wrap around, and the
    locks are free again.  The handler then returns, unless a control-P was
    among the characters: then it goes on, from that state, to print the process
    listing ([procdump]). *)
Theorem console_edits_lines (s : kstate) (u p cs : list Z)
    (Hready : tty_ready s) (Hl : lines (input (k_cons s)) u p)
    (Hcs : uart_data (k_cons s) = cs) (Hbytes : Forall (fun c => 0 <= c < 256) cs) :
  exists s', uartintr s = (if existsb (Z.eqb (ctrl 80)) cs then procdump s' else Done tt s') /\ tty_ready s' /\
    lines (input (k_cons s')) (foldl edit (u, p) cs).1 (foldl edit (u, p) cs).2 /\
    c_out (k_cons s') = c_out (k_cons s) ++ echoes (u, p) cs /\ uart_data (k_cons s') = [].
Proof.
  destruct Hready as [Ho Hk Hu Hpt Hc]. assert (Hc1 : cpu_room 1 (k_cpu s)) by (eapply cpu_room_le; [|exact Hc]; lia).
  unfold uartintr. msimp. rewrite Hcs. unfold consoleintr.
  mstep (acquire_eq cons_lk s zero_lock); [|cbn; by rewrite Hk|done|done]. set (s1 := lk_set cons_lk _ _).
  destruct (consoleintr_loop_eq cs false (u, p) s1) as (s2 & E & H1 & H2 & H3 & H4 & H5 & H6 & H7 & b & H8);
    [by destruct Ho|done..|by apply cpu_room_push|].
  mstep E. pose proof (release_eq cons_lk s2 (mk_spinlock 1 true)) as Er. cbn [lk_get cons_lk] in Er. rewrite H4 in Er.
  specialize (Er eq_refl eq_refl eq_refl ltac:(rewrite H8; destruct Hc; cbn; lia) ltac:(by rewrite H8)).
  mstep Er. eexists. split; [by destruct (existsb _ cs)|]. split_and!; try done.
  split; cbn; try done; [by destruct H1|]. rewrite H8.
  destruct Hc as [Hc Hf]. split; cbn; [lia|]. intros Hn. destruct (Z.eqb_spec (ncli (k_cpu s) + 1 - 1) 0); [lia|done].
Qed.

(** C39: A read of the console gives a line.  When the characters [u] can be
    read, a reader of [n] characters gets the first line, or the first [n]
    characters of it, or what is before a control-D; the control-D itself is
    the end of the file for the reader that finds it first, and is kept for the
    next reader otherwise.  The rest stays in the buffer, with the unfinished
    line.  When there is nothing to read the process is put to sleep until there
    is, without the lock and with the input as it was. *)
Theorem console_reads_lines (s : kstate) (u p : list Z) (n : Z)
    (Hready : tty_ready s) (Hl : lines (input (k_cons s)) u p) :
  (forall l r, take_line true (Z.to_nat n) u = Some (l, r) ->
     exists s', consoleread n s = Done (Z.of_nat (length l), l) s' /\ tty_ready s' /\
       lines (input (k_cons s')) r p /\ c_out (k_cons s') = c_out (k_cons s)) /\
  (forall j q, u = [] -> 0 < n -> c_proc (k_cpu s) = Some j -> proc_at s j = Some q -> killed q = 0 -> ncli (k_cpu s) = 0 ->
     exists s1 resume, consoleread n s = Block s1 resume /\ proc_at s1 j = Some (asleep ch_input q) /\
       cons_lock (k_cons s1) = zero_lock /\ lines (input (k_cons s1)) [] p).
Proof.
  destruct Hready as [Ho Hk Hu Hpt Hc]. assert (Hc1 : cpu_room 1 (k_cpu s)) by (eapply cpu_room_le; [|exact Hc]; lia).
  unfold consoleread. pose proof (acquire_eq cons_lk s zero_lock) as Ea. cbn [lk_get cons_lk] in Ea. rewrite Hk in Ea.
  specialize (Ea eq_refl eq_refl Hc1). set (s1 := lk_set cons_lk _ _) in Ea. split.
  - intros l r Ht. mstep Ea.
    destruct (consoleread_loop_eq true (Z.to_nat n) (Z.to_nat n) u p l r s1) as (i & E & Hi); [done|lia|done|done|].
    mstep E. mstep (release_cs cons_lk _ (k_cpu s)); [|done|done|done].
    eexists. split; [done|]. split_and!; try done. split; try done; by destruct Ho.
  - intros j q -> Hn Hj Hq Hkl Hncli. mstep Ea. destruct (Z.to_nat n) as [|m] eqn:En; [lia|]. cbn [consoleread_loop].
    assert (E : exists r, consoleread_wait (S (S (wakeups_left s1))) s1 = Block (put_proc j (asleep ch_input q) (handed_over cons_lk s1)) r).
    { cbn [consoleread_wait]. msimp.
      rewrite (lines_unread (input (k_cons s1)) [] p) by exact Hl. rewrite bool_decide_true by done.
      mstep (my_eq s1 j q); [|done|done]. rewrite Hkl. cbn [truthy negb Z.eqb].
      eexists. apply bind_block. apply (sleep_eq cons_lk s1 ch_input j q); try done.
      split; [change (ncli (k_cpu s) + 1 = 1); lia|done]. }
    destruct E as [r E]. eexists _, _. split; [apply bind_block; mstep (wakeups_eq s1); apply bind_block, E|]. split_and!.
    + eapply proc_at_put. exact Hq.
    + done.
    + exact Hl.
Qed.

Definition edit_demo : kstate :=
  set_k_cons (mk_console zero_lock true false (mk_input_t (replicate 128 0) (2 ^ 32 - 2) (2 ^ 32 - 2) (2 ^ 32 - 2)) true [] [] 0 0 []
    [97; 120; 8; 98; 13; 99]) (set_k_cpu (mk_cpu 0 true true None 0 0) (zero_state 0x200000 ∅)).

Lemma edit_demo_ready : tty_ready edit_demo /\ lines (input (k_cons edit_demo)) [] [].
Proof.
  split; [repeat split; cbn; unfold SCREEN; try lia; intros; lia|]. split; cbn; try done; [lia|set_solver].
Qed.

(** The indices wrap around while [a x backspace b return c] is typed. *)
Lemma console_edits_lines_witness :
  exists s', uartintr edit_demo = Done tt s' /\ lines (input (k_cons s')) [97; 98; 10] [99] /\
    c_out (k_cons s') = [97; 120; 8; 32; 8; 98; 10; 99].
Proof.
  destruct edit_demo_ready as [Hr Hl].
  destruct (console_edits_lines edit_demo [] [] [97; 120; 8; 98; 13; 99] Hr Hl eq_refl) as (s' & E & _ & H & Ho & _).
  - repeat (constructor; [lia|]). constructor.
  - exists s'. split_and!; [exact E|exact H|exact Ho].
Defined.

(** The line that was typed is read, and then a reader sleeps. *)
Definition read_demo : kstate :=
  put_proc 0 zero_proc (set_k_cons (mk_console zero_lock true false
    (mk_input_t ([97; 10; 98] ++ replicate 125 0) 0 2 3) true [] [] 0 0 [] [])
    (set_k_cpu (mk_cpu 0 true true (Some 0%nat) 0 0) (zero_state 0x200000 ∅))).

Lemma console_reads_lines_witness :
  exists s', consoleread 10 read_demo = Done (2, [97; 10]) s' /\ lines (input (k_cons s')) [] [98].
Proof.
  destruct (console_reads_lines read_demo [97; 10] [98] 10) as [H _].
  - repeat split; cbn; unfold SCREEN; try lia; intros; lia.
  - split; cbn; try done; [lia| |set_solver].
    intros i c Hi. pose proof (lookup_lt_Some _ _ _ Hi) as Hlt. cbn in Hlt.
    destruct i as [|[|[|i]]]; [exact Hi..|lia].
  - destruct (H [97; 10] [] eq_refl) as (s' & E & _ & Hl & _). by exists s'.
Defined.
