(* ===== verification/Cpuid.v ===== *)
(** * Processor identification: [kernel/cpuid.c], [inc/cpuid.h]

    What the [cpuid] instruction answers is an argument: the registers [eax],
    [ebx], [ecx], [edx] for a value of [eax]. *)

From S2P Require Import Prelude Types Strings Spinlock Mmu Kalloc X86vm Vspace Sched Console Tty.

Definition CPUID_BIT (base off : Z) : Z := base * 32 + off.

Definition CPUID_1_EDX : Z := 0.
Definition CPUID_1_ECX : Z := 1.
Definition CPUID_7_EBX : Z := 2.
Definition CPUID_80000001_EDX : Z := 3.
Definition CPUID_80000001_ECX : Z := 4.
Definition CPUID_NR_FLAGS : Z := 5.

(** The enumerators of the feature bits. *)
Inductive cpuid_feature :=
| CPUID_FEATURE_FPU | CPUID_FEATURE_VME | CPUID_FEATURE_DE | CPUID_FEATURE_PSE | CPUID_FEATURE_TSC
| CPUID_FEATURE_MSR | CPUID_FEATURE_PAE | CPUID_FEATURE_MCE | CPUID_FEATURE_CX8 | CPUID_FEATURE_APIC
| CPUID_FEATURE_SEP | CPUID_FEATURE_MTRR | CPUID_FEATURE_PGE | CPUID_FEATURE_MCA | CPUID_FEATURE_CMOV
| CPUID_FEATURE_PAT | CPUID_FEATURE_PSE36 | CPUID_FEATURE_PN | CPUID_FEATURE_CLFLUSH | CPUID_FEATURE_DS
| CPUID_FEATURE_ACPI | CPUID_FEATURE_MMX | CPUID_FEATURE_FXSR | CPUID_FEATURE_SSE | CPUID_FEATURE_SSE2
| CPUID_FEATURE_SS | CPUID_FEATURE_HT | CPUID_FEATURE_TM | CPUID_FEATURE_IA64 | CPUID_FEATURE_PBE
| CPUID_FEATURE_SSE3 | CPUID_FEATURE_PCLMULQDQ | CPUID_FEATURE_DTES64 | CPUID_FEATURE_MONITOR
| CPUID_FEATURE_DSCPL | CPUID_FEATURE_VMX | CPUID_FEATURE_SMX | CPUID_FEATURE_EST | CPUID_FEATURE_TM2
| CPUID_FEATURE_SSSE3 | CPUID_FEATURE_CID | CPUID_FEATURE_SDBG | CPUID_FEATURE_FMA | CPUID_FEATURE_CX16
| CPUID_FEATURE_XTPR | CPUID_FEATURE_PDCM | CPUID_FEATURE_PCID | CPUID_FEATURE_DCA | CPUID_FEATURE_SSE41
| CPUID_FEATURE_SSE42 | CPUID_FEATURE_X2APIC | CPUID_FEATURE_MOVBE | CPUID_FEATURE_POPCNT
| CPUID_FEATURE_TSC_DEADLINE | CPUID_FEATURE_AES | CPUID_FEATURE_XSAVE | CPUID_FEATURE_OSXSAVE
| CPUID_FEATURE_AVX | CPUID_FEATURE_F16C | CPUID_FEATURE_RDRAND | CPUID_FEATURE_HYPERVISOR
| CPUID_FEATURE_SYSCALL | CPUID_FEATURE_MP | CPUID_FEATURE_NX | CPUID_FEATURE_MMXEXT | CPUID_FEATURE_FXSR_OPT
| CPUID_FEATURE_PDPE1GB | CPUID_FEATURE_RDTSCP | CPUID_FEATURE_LM | CPUID_FEATURE_3DNOWEXT
| CPUID_FEATURE_3DNOW | CPUID_FEATURE_LAHF_LM | CPUID_FEATURE_CMP_LEGACY | CPUID_FEATURE_SVM
| CPUID_FEATURE_EXTAPIC | CPUID_FEATURE_CR8LEGACY | CPUID_FEATURE_ABM | CPUID_FEATURE_SSE4A
| CPUID_FEATURE_MISALIGNSSE | CPUID_FEATURE_3DNOWPREFETCH | CPUID_FEATURE_OSVW | CPUID_FEATURE_IBS
| CPUID_FEATURE_XOP | CPUID_FEATURE_SKINIT | CPUID_FEATURE_WDT | CPUID_FEATURE_LWP | CPUID_FEATURE_FMA4
| CPUID_FEATURE_TCE | CPUID_FEATURE_NODEID_MSR | CPUID_FEATURE_TBM | CPUID_FEATURE_TOPOEXT
| CPUID_FEATURE_PERFCTR_CORE | CPUID_FEATURE_PERFCTR_NB.

Definition feature_bit (f : cpuid_feature) : Z :=
  match f with
  | CPUID_FEATURE_FPU => CPUID_BIT CPUID_1_EDX 0
  | CPUID_FEATURE_VME => CPUID_BIT CPUID_1_EDX 1
  | CPUID_FEATURE_DE => CPUID_BIT CPUID_1_EDX 2
  | CPUID_FEATURE_PSE => CPUID_BIT CPUID_1_EDX 3
  | CPUID_FEATURE_TSC => CPUID_BIT CPUID_1_EDX 4
  | CPUID_FEATURE_MSR => CPUID_BIT CPUID_1_EDX 5
  | CPUID_FEATURE_PAE => CPUID_BIT CPUID_1_EDX 6
  | CPUID_FEATURE_MCE => CPUID_BIT CPUID_1_EDX 7
  | CPUID_FEATURE_CX8 => CPUID_BIT CPUID_1_EDX 8
  | CPUID_FEATURE_APIC => CPUID_BIT CPUID_1_EDX 9
  | CPUID_FEATURE_SEP => CPUID_BIT CPUID_1_EDX 11
  | CPUID_FEATURE_MTRR => CPUID_BIT CPUID_1_EDX 12
  | CPUID_FEATURE_PGE => CPUID_BIT CPUID_1_EDX 13
  | CPUID_FEATURE_MCA => CPUID_BIT CPUID_1_EDX 14
  | CPUID_FEATURE_CMOV => CPUID_BIT CPUID_1_EDX 15
  | CPUID_FEATURE_PAT => CPUID_BIT CPUID_1_EDX 16
  | CPUID_FEATURE_PSE36 => CPUID_BIT CPUID_1_EDX 17
  | CPUID_FEATURE_PN => CPUID_BIT CPUID_1_EDX 18
  | CPUID_FEATURE_CLFLUSH => CPUID_BIT CPUID_1_EDX 19
  | CPUID_FEATURE_DS => CPUID_BIT CPUID_1_EDX 21
  | CPUID_FEATURE_ACPI => CPUID_BIT CPUID_1_EDX 22
  | CPUID_FEATURE_MMX => CPUID_BIT CPUID_1_EDX 23
  | CPUID_FEATURE_FXSR => CPUID_BIT CPUID_1_EDX 24
  | CPUID_FEATURE_SSE => CPUID_BIT CPUID_1_EDX 25
  | CPUID_FEATURE_SSE2 => CPUID_BIT CPUID_1_EDX 26
  | CPUID_FEATURE_SS => CPUID_BIT CPUID_1_EDX 27
  | CPUID_FEATURE_HT => CPUID_BIT CPUID_1_EDX 28
  | CPUID_FEATURE_TM => CPUID_BIT CPUID_1_EDX 29
  | CPUID_FEATURE_IA64 => CPUID_BIT CPUID_1_EDX 30
  | CPUID_FEATURE_PBE => CPUID_BIT CPUID_1_EDX 31
  | CPUID_FEATURE_SSE3 => CPUID_BIT CPUID_1_ECX 0
  | CPUID_FEATURE_PCLMULQDQ => CPUID_BIT CPUID_1_ECX 1
  | CPUID_FEATURE_DTES64 => CPUID_BIT CPUID_1_ECX 2
  | CPUID_FEATURE_MONITOR => CPUID_BIT CPUID_1_ECX 3
  | CPUID_FEATURE_DSCPL => CPUID_BIT CPUID_1_ECX 4
  | CPUID_FEATURE_VMX => CPUID_BIT CPUID_1_ECX 5
  | CPUID_FEATURE_SMX => CPUID_BIT CPUID_1_ECX 6
  | CPUID_FEATURE_EST => CPUID_BIT CPUID_1_ECX 7
  | CPUID_FEATURE_TM2 => CPUID_BIT CPUID_1_ECX 8
  | CPUID_FEATURE_SSSE3 => CPUID_BIT CPUID_1_ECX 9
  | CPUID_FEATURE_CID => CPUID_BIT CPUID_1_ECX 10
  | CPUID_FEATURE_SDBG => CPUID_BIT CPUID_1_ECX 11
  | CPUID_FEATURE_FMA => CPUID_BIT CPUID_1_ECX 12
  | CPUID_FEATURE_CX16 => CPUID_BIT CPUID_1_ECX 13
  | CPUID_FEATURE_XTPR => CPUID_BIT CPUID_1_ECX 14
  | CPUID_FEATURE_PDCM => CPUID_BIT CPUID_1_ECX 15
  | CPUID_FEATURE_PCID => CPUID_BIT CPUID_1_ECX 17
  | CPUID_FEATURE_DCA => CPUID_BIT CPUID_1_ECX 18
  | CPUID_FEATURE_SSE41 => CPUID_BIT CPUID_1_ECX 19
  | CPUID_FEATURE_SSE42 => CPUID_BIT CPUID_1_ECX 20
  | CPUID_FEATURE_X2APIC => CPUID_BIT CPUID_1_ECX 21
  | CPUID_FEATURE_MOVBE => CPUID_BIT CPUID_1_ECX 22
  | CPUID_FEATURE_POPCNT => CPUID_BIT CPUID_1_ECX 23
  | CPUID_FEATURE_TSC_DEADLINE => CPUID_BIT CPUID_1_ECX 24
  | CPUID_FEATURE_AES => CPUID_BIT CPUID_1_ECX 25
  | CPUID_FEATURE_XSAVE => CPUID_BIT CPUID_1_ECX 26
  | CPUID_FEATURE_OSXSAVE => CPUID_BIT CPUID_1_ECX 27
  | CPUID_FEATURE_AVX => CPUID_BIT CPUID_1_ECX 28
  | CPUID_FEATURE_F16C => CPUID_BIT CPUID_1_ECX 29
  | CPUID_FEATURE_RDRAND => CPUID_BIT CPUID_1_ECX 30
  | CPUID_FEATURE_HYPERVISOR => CPUID_BIT CPUID_1_ECX 31
  | CPUID_FEATURE_SYSCALL => CPUID_BIT CPUID_80000001_EDX 11
  | CPUID_FEATURE_MP => CPUID_BIT CPUID_80000001_EDX 19
  | CPUID_FEATURE_NX => CPUID_BIT CPUID_80000001_EDX 20
  | CPUID_FEATURE_MMXEXT => CPUID_BIT CPUID_80000001_EDX 22
  | CPUID_FEATURE_FXSR_OPT => CPUID_BIT CPUID_80000001_EDX 25
  | CPUID_FEATURE_PDPE1GB => CPUID_BIT CPUID_80000001_EDX 26
  | CPUID_FEATURE_RDTSCP => CPUID_BIT CPUID_80000001_EDX 27
  | CPUID_FEATURE_LM => CPUID_BIT CPUID_80000001_EDX 29
  | CPUID_FEATURE_3DNOWEXT => CPUID_BIT CPUID_80000001_EDX 30
  | CPUID_FEATURE_3DNOW => CPUID_BIT CPUID_80000001_EDX 31
  | CPUID_FEATURE_LAHF_LM => CPUID_BIT CPUID_80000001_ECX 0
  | CPUID_FEATURE_CMP_LEGACY => CPUID_BIT CPUID_80000001_ECX 1
  | CPUID_FEATURE_SVM => CPUID_BIT CPUID_80000001_ECX 2
  | CPUID_FEATURE_EXTAPIC => CPUID_BIT CPUID_80000001_ECX 3
  | CPUID_FEATURE_CR8LEGACY => CPUID_BIT CPUID_80000001_ECX 4
  | CPUID_FEATURE_ABM => CPUID_BIT CPUID_80000001_ECX 5
  | CPUID_FEATURE_SSE4A => CPUID_BIT CPUID_80000001_ECX 6
  | CPUID_FEATURE_MISALIGNSSE => CPUID_BIT CPUID_80000001_ECX 7
  | CPUID_FEATURE_3DNOWPREFETCH => CPUID_BIT CPUID_80000001_ECX 8
  | CPUID_FEATURE_OSVW => CPUID_BIT CPUID_80000001_ECX 9
  | CPUID_FEATURE_IBS => CPUID_BIT CPUID_80000001_ECX 10
  | CPUID_FEATURE_XOP => CPUID_BIT CPUID_80000001_ECX 11
  | CPUID_FEATURE_SKINIT => CPUID_BIT CPUID_80000001_ECX 12
  | CPUID_FEATURE_WDT => CPUID_BIT CPUID_80000001_ECX 13
  | CPUID_FEATURE_LWP => CPUID_BIT CPUID_80000001_ECX 15
  | CPUID_FEATURE_FMA4 => CPUID_BIT CPUID_80000001_ECX 16
  | CPUID_FEATURE_TCE => CPUID_BIT CPUID_80000001_ECX 17
  | CPUID_FEATURE_NODEID_MSR => CPUID_BIT CPUID_80000001_ECX 19
  | CPUID_FEATURE_TBM => CPUID_BIT CPUID_80000001_ECX 21
  | CPUID_FEATURE_TOPOEXT => CPUID_BIT CPUID_80000001_ECX 22
  | CPUID_FEATURE_PERFCTR_CORE => CPUID_BIT CPUID_80000001_ECX 23
  | CPUID_FEATURE_PERFCTR_NB => CPUID_BIT CPUID_80000001_ECX 24
  end.

(** [names], the initialisers in their order. *)
Definition names : list (cpuid_feature * string) :=
  [(CPUID_FEATURE_FPU, "fpu"); (CPUID_FEATURE_VME, "vme"); (CPUID_FEATURE_DE, "de");
   (CPUID_FEATURE_PSE, "pse"); (CPUID_FEATURE_TSC, "tsc"); (CPUID_FEATURE_MSR, "msr");
   (CPUID_FEATURE_PAE, "pae"); (CPUID_FEATURE_MCE, "mce"); (CPUID_FEATURE_CX8, "cx8");
   (CPUID_FEATURE_APIC, "apic"); (CPUID_FEATURE_SEP, "sep"); (CPUID_FEATURE_MTRR, "mtrr");
   (CPUID_FEATURE_PGE, "pge"); (CPUID_FEATURE_MCA, "mca"); (CPUID_FEATURE_CMOV, "cmov");
   (CPUID_FEATURE_PAT, "pat"); (CPUID_FEATURE_PSE36, "pse36"); (CPUID_FEATURE_PN, "pn");
   (CPUID_FEATURE_CLFLUSH, "clflush"); (CPUID_FEATURE_DS, "ds"); (CPUID_FEATURE_ACPI, "acpi");
   (CPUID_FEATURE_MMX, "mmx"); (CPUID_FEATURE_FXSR, "fxsr"); (CPUID_FEATURE_SSE, "sse");
   (CPUID_FEATURE_SSE2, "sse2"); (CPUID_FEATURE_SS, "ss"); (CPUID_FEATURE_HT, "ht");
   (CPUID_FEATURE_TM, "tm"); (CPUID_FEATURE_IA64, "ia64"); (CPUID_FEATURE_PBE, "pbe");
   (CPUID_FEATURE_SSE3, "sse3"); (CPUID_FEATURE_PCLMULQDQ, "pclmulqdq"); (CPUID_FEATURE_DTES64, "dtes64");
   (CPUID_FEATURE_MONITOR, "monitor"); (CPUID_FEATURE_DSCPL, "ds_cpl"); (CPUID_FEATURE_VMX, "vmx");
   (CPUID_FEATURE_SMX, "smx"); (CPUID_FEATURE_EST, "est"); (CPUID_FEATURE_TM2, "tm2");
   (CPUID_FEATURE_SSSE3, "ssse3"); (CPUID_FEATURE_CID, "cid"); (CPUID_FEATURE_SDBG, "sdbg");
   (CPUID_FEATURE_FMA, "fma"); (CPUID_FEATURE_CX16, "cx16"); (CPUID_FEATURE_XTPR, "xtpr");
   (CPUID_FEATURE_PDCM, "pdcm"); (CPUID_FEATURE_PCID, "pcid"); (CPUID_FEATURE_DCA, "dca");
   (CPUID_FEATURE_SSE41, "sse4.1"); (CPUID_FEATURE_SSE42, "sse4.2"); (CPUID_FEATURE_X2APIC, "x2apic");
   (CPUID_FEATURE_MOVBE, "movbe"); (CPUID_FEATURE_POPCNT, "popcnt");
   (CPUID_FEATURE_TSC_DEADLINE, "tsc-deadline"); (CPUID_FEATURE_AES, "aes"); (CPUID_FEATURE_XSAVE, "xsave");
   (CPUID_FEATURE_OSXSAVE, "osxsave"); (CPUID_FEATURE_AVX, "avx"); (CPUID_FEATURE_F16C, "f16c");
   (CPUID_FEATURE_RDRAND, "rdrand"); (CPUID_FEATURE_HYPERVISOR, "hypervisor");
   (CPUID_FEATURE_SYSCALL, "syscall"); (CPUID_FEATURE_MP, "mp"); (CPUID_FEATURE_NX, "nx");
   (CPUID_FEATURE_MMXEXT, "mmxext"); (CPUID_FEATURE_FXSR_OPT, "fxsr_opt");
   (CPUID_FEATURE_PDPE1GB, "pdpe1gb"); (CPUID_FEATURE_RDTSCP, "rdtscp"); (CPUID_FEATURE_LM, "lm");
   (CPUID_FEATURE_3DNOWEXT, "3dnowext"); (CPUID_FEATURE_3DNOW, "3dnow"); (CPUID_FEATURE_LAHF_LM, "lahf_lm");
   (CPUID_FEATURE_CMP_LEGACY, "cmp_legacy"); (CPUID_FEATURE_SVM, "svm"); (CPUID_FEATURE_EXTAPIC, "extapic");
   (CPUID_FEATURE_CR8LEGACY, "cr8legacy"); (CPUID_FEATURE_ABM, "abm"); (CPUID_FEATURE_SSE4A, "sse4a");
   (CPUID_FEATURE_MISALIGNSSE, "misalignsse"); (CPUID_FEATURE_3DNOWPREFETCH, "3dnowprefetch");
   (CPUID_FEATURE_OSVW, "osvw"); (CPUID_FEATURE_IBS, "ibs"); (CPUID_FEATURE_XOP, "xop");
   (CPUID_FEATURE_SKINIT, "skinit"); (CPUID_FEATURE_WDT, "wdt"); (CPUID_FEATURE_LWP, "lwp");
   (CPUID_FEATURE_FMA4, "fma4"); (CPUID_FEATURE_TCE, "tce"); (CPUID_FEATURE_NODEID_MSR, "nodeid_msr");
   (CPUID_FEATURE_TBM, "tbm"); (CPUID_FEATURE_TOPOEXT, "topoext");
   (CPUID_FEATURE_PERFCTR_CORE, "perfctr_core"); (CPUID_FEATURE_PERFCTR_NB, "perfctr_nb")]%string.

(** [names[bit]], none for the null pointer where there is no initialiser; a
    later initialiser would win. *)
Definition name_of (bit : Z) : option string :=
  foldl (fun o x => if feature_bit x.1 =? bit then Some x.2 else o) None names.

Definition BIT32 (n : Z) : Z := u32 (Z.shiftl 1 n).

Definition print_feature (feature : list Z) : K unit :=
  mfor (seqZ 0 CPUID_NR_FLAGS) (fun i =>
    f <- deref "feature" (feature !! Z.to_nat i) ;;
    if f =? 0 then ret tt else
    cprintf " " [] ;;
    mfor (seqZ 0 32) (fun j =>
      match name_of (CPUID_BIT i j) with
      | Some name => if truthy (Z.land f (BIT32 j)) then cprintf " %s" [va_str (Some (chars name))] else ret tt
      | None => ret tt
      end) ;;
    cprintf nl []).

Definition cpuid_has (feature : list Z) (bit : Z) : bool :=
  truthy (Z.land (default 0 (feature !! Z.to_nat (bit / 32))) (BIT32 (bit mod 32))).

(** The bytes of an array of 32-bit words. *)
Definition word_bytes (w : Z) : list Z := [w mod 256; w / 2 ^ 8 mod 256; w / 2 ^ 16 mod 256; w / 2 ^ 24 mod 256].

Definition regs (r : Z * Z * Z * Z) : list Z := let '(a, b, c, d) := r in [a; b; c; d].

(** The string at the beginning of [brand]; without a NUL the reads of [cprintf]
    leave the array. *)
Definition brand_string (brand : list Z) : K (list Z) :=
  let bs := concat (word_bytes <$> brand) in
  if decide (0 ∈ bs) then ret (cstr bs) else fault "brand".

(** The elements of [feature], in the order of their indices. *)
Definition features (cpuid : Z -> Z * Z * Z * Z) : list Z :=
  let '(_, _, ecx1, edx1) := cpuid 1 in
  let '(_, _, ecx8, edx8) := cpuid 0x80000001 in
  [edx1; ecx1; 0; edx8; ecx8].

Definition cpuid_print (cpuid : Z -> Z * Z * Z * Z) : K unit :=
  let '(eax, _, _, _) := cpuid 0x80000000 in
  if eax <? 0x80000004 then panic "CPU too old!" else
  brand <- brand_string (regs (cpuid 0x80000002) ++ regs (cpuid 0x80000003) ++ regs (cpuid 0x80000004)) ;;
  cprintf (String.append "CPU: %s" nl) [va_str (Some brand)] ;;
  print_feature (features cpuid) ;;
  assertm (cpuid_has (features cpuid) (feature_bit CPUID_FEATURE_PSE)) "cpuid_has(feature, CPUID_FEATURE_PSE)" ;;
  assertm (cpuid_has (features cpuid) (feature_bit CPUID_FEATURE_APIC)) "cpuid_has(feature, CPUID_FEATURE_APIC)".

(** ** What is printed *)

(** The names in the table of the bits that are set in word [i]. *)
Definition word_names (i w : Z) : list string :=
  snd <$> filter (fun x => feature_bit x.1 / 32 = i /\ Z.testbit w (feature_bit x.1 mod 32)) names.

(** The report of word [i]: nothing if no bit is set. *)
Definition word_report (i w : Z) : list Z :=
  if w =? 0 then [] else chars " " ++ concat ((fun n => chars " " ++ chars n) <$> word_names i w) ++ [10].

(** Whether a feature is there. *)
Definition has_feature (fs : list Z) (f : cpuid_feature) : bool :=
  Z.testbit (default 0 (fs !! Z.to_nat (feature_bit f / 32))) (feature_bit f mod 32).

Lemma BIT32_pow n : 0 <= n < 32 -> BIT32 n = 2 ^ n.
Proof.
  intros Hn. unfold BIT32. rewrite Z.shiftl_1_l. apply u32_small. split; [by apply Z.pow_nonneg|].
  apply Z.pow_lt_mono_r; lia.
Qed.

Lemma cpuid_has_bit fs f : cpuid_has fs (feature_bit f) = has_feature fs f.
Proof.
  unfold cpuid_has, has_feature. rewrite BIT32_pow by (apply Z.mod_pos_bound; lia).
  apply truthy_bit, Z.mod_pos_bound. lia.
Qed.

(** The table lists the features of each word in the order of their bits, no bit twice. *)
Definition table_of (i : Z) : list (Z * string) :=
  (fun x => (feature_bit x.1 mod 32, x.2)) <$> filter (fun x => feature_bit x.1 / 32 = i) names.

Lemma table_scan i :
  0 <= i < CPUID_NR_FLAGS -> omap (fun j => (fun n => (j, n)) <$> name_of (CPUID_BIT i j)) (seqZ 0 32) = table_of i.
Proof.
  intros Hi. assert (Hin : i ∈ [0; 1; 2; 3; 4]) by (unfold CPUID_NR_FLAGS in Hi; set_unfold; lia).
  revert Hin. rewrite !elem_of_cons, elem_of_nil.
  intros [->|[->|[->|[->|[->|[]]]]]]; vm_compute; reflexivity.
Qed.

Lemma concat_omap {A B} (f : A -> option B) (g : B -> list Z) l :
  concat ((fun x => match f x with Some y => g y | None => [] end) <$> l) = concat (g <$> omap f l).
Proof. induction l as [|x l IH]; [done|]. cbn. destruct (f x); cbn; by rewrite IH. Qed.

Definition shown_name (w : Z) (jn : Z * string) : list Z :=
  if Z.testbit w jn.1 then chars " " ++ chars jn.2 else [].

Lemma shown_names i w : concat (shown_name w <$> table_of i) = concat ((fun n => chars " " ++ chars n) <$> word_names i w).
Proof.
  unfold table_of, word_names. induction names as [|x l IH]; [done|]. rewrite !filter_cons.
  destruct (decide (feature_bit x.1 / 32 = i)) as [Hi|Hi].
  - cbn [fmap list_fmap concat]. rewrite IH. unfold shown_name at 1. cbn [fst snd].
    destruct (Z.testbit w (feature_bit x.1 mod 32)) eqn:E.
    + by rewrite decide_True by done.
    + by rewrite decide_False by (intros [_ []]).
  - rewrite IH. by rewrite decide_False by naive_solver.
Qed.

Lemma print_word i w :
  0 <= i < CPUID_NR_FLAGS ->
  prints (concat ((fun n => chars " " ++ chars n) <$> word_names i w))
    (mfor (seqZ 0 32) (fun j =>
      match name_of (CPUID_BIT i j) with
      | Some name => if truthy (Z.land w (BIT32 j)) then cprintf " %s" [va_str (Some (chars name))] else ret tt
      | None => ret tt
      end)).
Proof.
  intros Hi. rewrite <- shown_names, <- table_scan by done. rewrite <- concat_omap. apply prints_mfor.
  intros j Hj%elem_of_seqZ. destruct (name_of (CPUID_BIT i j)) as [n|] eqn:E; cbn [fmap option_fmap option_map]; [|apply prints_ret].
  rewrite BIT32_pow, truthy_bit by lia. unfold shown_name. cbn [fst snd].
  destruct (Z.testbit w j); [|apply prints_ret]. apply cprintf_prints.
  - change (chars " %s") with [32; 37; 115]. cbn. by rewrite app_nil_r.
  - apply Forall_app. split; apply chars_bytes.
Qed.

Lemma print_feature_prints fs :
  length fs = 5%nat -> prints (concat (imap (fun i w => word_report (Z.of_nat i) w) fs)) (print_feature fs).
Proof.
  intros Hl. replace (imap (fun i w => word_report (Z.of_nat i) w) fs)
    with ((fun i => word_report i (default 0 (fs !! Z.to_nat i))) <$> seqZ 0 CPUID_NR_FLAGS)
    by (by do 6 (destruct fs as [|? fs]; try done)).
  apply prints_mfor. intros i Hi%elem_of_seqZ. unfold CPUID_NR_FLAGS in Hi.
  destruct (lookup_lt_is_Some_2 fs (Z.to_nat i)) as [w Hw]; [lia|]. rewrite Hw. cbn [default from_option].
  unfold word_report. intros s Hs. msimp. revert s Hs. change (prints
    (if w =? 0 then [] else chars " " ++ concat ((fun n => chars " " ++ chars n) <$> word_names i w) ++ [10])
    (if w =? 0 then ret tt else cprintf " " [] ;;
     mfor (seqZ 0 32) (fun j => match name_of (CPUID_BIT i j) with
       | Some name => if truthy (Z.land w (BIT32 j)) then cprintf " %s" [va_str (Some (chars name))] else ret tt
       | None => ret tt end) ;; cprintf nl [])).
  destruct (w =? 0); [apply prints_ret|]. apply prints_bind; [|apply prints_bind; [by apply print_word|]].
  - apply cprintf_prints; [done|apply chars_bytes].
  - apply cprintf_prints; [done|apply (chars_bytes nl)].
Qed.

(** ** Properties *)

(** The brand: the bytes before the first NUL of twelve registers. *)
Definition brand_bytes (cpuid : Z -> Z * Z * Z * Z) : list Z :=
  concat (word_bytes <$> (regs (cpuid 0x80000002) ++ regs (cpuid 0x80000003) ++ regs (cpuid 0x80000004))).

Lemma cstr_Forall (P : Z -> Prop) l : Forall P l -> Forall P (cstr l).
Proof. induction 1 as [|c l Hc _ IH]; cbn; [constructor|]. destruct (c =? 0); by constructor. Qed.

Lemma brand_range cpuid : Forall (fun c => 0 <= c < 256) (cstr (brand_bytes cpuid)).
Proof.
  apply cstr_Forall. unfold brand_bytes. generalize (regs (cpuid 0x80000002) ++ regs (cpuid 0x80000003) ++ regs (cpuid 0x80000004)).
  intros l. induction l as [|w l IH]; [constructor|]. cbn [fmap list_fmap concat]. apply Forall_app. split; [|done].
  repeat (constructor; [apply Z.mod_pos_bound; lia|]). constructor.
Qed.

(** [cpuid_print] checks and reports the processor.  A processor whose
    extended functions do not reach the brand string is refused.  For any other,
    with a brand string that ends, the brand is printed, and for each of the
    five words of flags that is not zero a line with the names of exactly the
    flags that are set, in the order of their bits; flags without a name are
    passed over.  Then the boot goes on if the processor has large pages and a
    local APIC, and panics if it lacks one of them. *)
Theorem cpuid_print_correct (cpuid : Z -> Z * Z * Z * Z) (s : kstate) (Hs : can_print s) :
  ((cpuid 0x80000000).1.1.1 < 0x80000004 -> cpuid_print cpuid s = Panic "CPU too old!") /\
  (0x80000004 <= (cpuid 0x80000000).1.1.1 -> 0 ∈ brand_bytes cpuid ->
   if has_feature (features cpuid) CPUID_FEATURE_PSE && has_feature (features cpuid) CPUID_FEATURE_APIC
   then exists s', cpuid_print cpuid s = Done tt s' /\ can_print s' /\
     c_out (k_cons s') = c_out (k_cons s) ++
       if uart (k_cons s)
       then chars "CPU: " ++ cstr (brand_bytes cpuid) ++ [10] ++
            concat (imap (fun i w => word_report (Z.of_nat i) w) (features cpuid))
       else []
   else exists msg, cpuid_print cpuid s = Panic msg).
Proof.
  unfold cpuid_print. destruct (cpuid 0x80000000) as [[[eax ebx] ecx] edx] eqn:E0. cbn [fst].
  split; intros He; [by destruct (Z.ltb_spec eax 0x80000004); [|lia]|]. intros Hnul.
  destruct (Z.ltb_spec eax 0x80000004); [lia|]. rewrite !cpuid_has_bit.
  assert (Hb : brand_string (regs (cpuid 0x80000002) ++ regs (cpuid 0x80000003) ++ regs (cpuid 0x80000004)) s =
    Done (cstr (brand_bytes cpuid)) s) by (unfold brand_string; by rewrite decide_True).
  assert (Hlen : length (features cpuid) = 5%nat)
    by (unfold features; by destruct (cpuid 1) as [[[? ?] ?] ?], (cpuid 0x80000001) as [[[? ?] ?] ?]).
  assert (Hp : prints (chars "CPU: " ++ cstr (brand_bytes cpuid) ++ [10] ++
      concat (imap (fun i w => word_report (Z.of_nat i) w) (features cpuid)))
    (cprintf (String.append "CPU: %s" nl) [va_str (Some (cstr (brand_bytes cpuid)))] ;; print_feature (features cpuid))).
  { rewrite !app_assoc. apply prints_bind; [|by apply print_feature_prints]. rewrite <- app_assoc. apply cprintf_prints; [done|].
    rewrite !Forall_app. split_and!; [apply chars_bytes|apply brand_range|apply (chars_bytes nl)]. }
  destruct (Hp s Hs) as (s' & E & Hs' & _ & Ho). apply bind_inv in E as ([] & s1 & E1 & E2).
  rewrite !(bind_done _ _ _ _ _ Hb), !(bind_done _ _ _ _ _ E1), !(bind_done _ _ _ _ _ E2).
  destruct (has_feature (features cpuid) CPUID_FEATURE_PSE); cbn [andb]; [|by eexists]. unfold assertm at 1. msimp.
  destruct (has_feature (features cpuid) CPUID_FEATURE_APIC); [by exists s'|by eexists].
Qed.

(** A processor called X with large pages, a local APIC and no other flag. *)
Definition cpuid_demo (x : Z) : Z * Z * Z * Z :=
  if x =? 0x80000000 then (0x80000004, 0, 0, 0) else
  if x =? 0x80000002 then (88, 0, 0, 0) else
  if x =? 1 then (0, 0, 0, 2 ^ 3 + 2 ^ 9) else (0, 0, 0, 0).

Definition print_demo : kstate :=
  set_k_cons (set_uart true (k_cons (zero_state 0x200000 ∅))) (zero_state 0x200000 ∅).

Lemma cpuid_print_correct_witness :
  exists s', cpuid_print cpuid_demo print_demo = Done tt s' /\ can_print s' /\
    c_out (k_cons s') = chars "CPU: X" ++ [10] ++ chars "  pse apic" ++ [10].
Proof.
  destruct (cpuid_print_correct cpuid_demo print_demo) as [_ H].
  - repeat split; cbn; unfold SCREEN; try lia; intros; lia.
  - destruct H as (s' & E & Hs & Ho); [cbn; lia|apply (bool_decide_unpack _); vm_compute; exact I|].
    exists s'. split_and!; [exact E|exact Hs|]. rewrite Ho. vm_compute. reflexivity.
Defined.
