(* ===== verification/Kbd.v ===== *)
(** * The keyboard: [kernel/kbd.c] and the tables of [inc/kbd.h] *)

From S2P Require Import Prelude Types Spinlock Mmu Kalloc X86vm Vspace Sched Console.

Definition SHIFT : Z := Z.shiftl 1 0.
Definition CTL : Z := Z.shiftl 1 1.
Definition ALT : Z := Z.shiftl 1 2.
Definition CAPSLOCK : Z := Z.shiftl 1 3.
Definition NUMLOCK : Z := Z.shiftl 1 4.
Definition SCROLLLOCK : Z := Z.shiftl 1 5.
Definition E0ESC : Z := Z.shiftl 1 6.

(** A C array of 256 bytes: the values given in order, then the designated
    ones; the rest is zero. *)
Definition kbd_table (pre : list Z) (des : list (Z * Z)) (i : Z) : Z :=
  match list_find (fun p => fst p = i) des with
  | Some (_, (_, v)) => v
  | None => default 0 (pre !! Z.to_nat i)
  end.

Definition shiftcode : Z -> Z := kbd_table []
  [(0x1D, CTL); (0x2A, SHIFT); (0x36, SHIFT); (0x38, ALT); (0x9D, CTL); (0xB8, ALT)].

Definition togglecode : Z -> Z := kbd_table []
  [(0x3A, CAPSLOCK); (0x45, NUMLOCK); (0x46, SCROLLLOCK)].

Definition normalmap : Z -> Z := kbd_table
  [0; 27; 49; 50; 51; 52; 53; 54; 55; 56; 57; 48; 45; 61; 8; 9;
   113; 119; 101; 114; 116; 121; 117; 105; 111; 112; 91; 93; 10; 0; 97; 115;
   100; 102; 103; 104; 106; 107; 108; 59; 39; 96; 0; 92; 122; 120; 99; 118;
   98; 110; 109; 44; 46; 47; 0; 42; 0; 32; 0; 0; 0; 0; 0; 0;
   0; 0; 0; 0; 0; 0; 0; 55; 56; 57; 45; 52; 53; 54; 43; 49;
   50; 51; 48; 46; 0; 0; 0; 0]
  [(0x9c, 10); (0xb5, 47); (0xc8, 226); (0xd0, 227); (0xc9, 230); (0xd1, 231);
   (0xcb, 228); (0xcd, 229); (0x97, 224); (0xcf, 225); (0xd2, 232); (0xd3, 233)].

Definition shiftmap : Z -> Z := kbd_table
  [0; 27; 33; 64; 35; 36; 37; 94; 38; 42; 40; 41; 95; 43; 8; 9;
   81; 87; 69; 82; 84; 89; 85; 73; 79; 80; 123; 125; 10; 0; 65; 83;
   68; 70; 71; 72; 74; 75; 76; 58; 34; 126; 0; 124; 90; 88; 67; 86;
   66; 78; 77; 60; 62; 63; 0; 42; 0; 32; 0; 0; 0; 0; 0; 0;
   0; 0; 0; 0; 0; 0; 0; 55; 56; 57; 45; 52; 53; 54; 43; 49;
   50; 51; 48; 46; 0; 0; 0; 0]
  [(0x9c, 10); (0xb5, 47); (0xc8, 226); (0xd0, 227); (0xc9, 230); (0xd1, 231);
   (0xcb, 228); (0xcd, 229); (0x97, 224); (0xcf, 225); (0xd2, 232); (0xd3, 233)].

Definition ctlmap : Z -> Z := kbd_table
  [0; 0; 0; 0; 0; 0; 0; 0; 0; 0; 0; 0; 0; 0; 0; 0;
   17; 23; 5; 18; 20; 25; 21; 9; 15; 16; 0; 0; 13; 0; 1; 19;
   4; 6; 7; 8; 10; 11; 12; 0; 0; 0; 0; 28; 26; 24; 3; 22;
   2; 14; 13; 0; 0; 239; 0; 0]
  [(0x9c, 13); (0xb5, 239); (0xc8, 226); (0xd0, 227); (0xc9, 230); (0xd1, 231);
   (0xcb, 228); (0xcd, 229); (0x97, 224); (0xcf, 225); (0xd2, 232); (0xd3, 233)].

(** [charcode[i]]. *)
Definition charcode (i : Z) : Z -> Z :=
  if i =? 0 then normalmap else if i =? 1 then shiftmap else ctlmap.

(** The effect of one scan code on the static [shift], and the character. *)
Definition kbd_step (shift data : Z) : Z * Z :=
  if data =? 0xE0 then (Z.lor shift E0ESC, 0) else
  if truthy (Z.land data 0x80) then
    let data := if truthy (Z.land shift E0ESC) then data else Z.land data 0x7F in
    (Z.land shift (Z.lnot (Z.lor (shiftcode data) E0ESC)), 0)
  else
    let esc := truthy (Z.land shift E0ESC) in
    let data := if esc then Z.lor data 0x80 else data in
    let shift := if esc then Z.land shift (Z.lnot E0ESC) else shift in
    let shift := Z.lor shift (shiftcode data) in
    let shift := Z.lxor shift (togglecode data) in
    let c := charcode (Z.land shift (Z.lor CTL SHIFT)) data in
    (shift,
     if truthy (Z.land shift CAPSLOCK) then
       if (97 <=? c) && (c <=? 122) then c + (65 - 97) else
       if (65 <=? c) && (c <=? 90) then c + (97 - 65) else c
     else c).

Definition kbdgetc : K Z :=
  k <- gets k_cons ;;
  match kbd_data k with
  | [] => ret (-1)
  | data :: rest =>
      let '(shift, c) := kbd_step (kbd_shift k) data in
      upd_cons (fun k => set_kbd_data rest (set_kbd_shift shift k)) ;;
      ret c
  end.

Definition kbdintr : K unit :=
  k <- gets k_cons ;;
  consoleintr (length (kbd_data k)) kbdgetc.
