(* ===== verification/Sleeplock.v ===== *)
(** * Sleep locks: [kernel/sleeplock.c]

    A [struct sleeplock *] is a way to find the lock in the kernel state and
    the channel that its address is for [sleep] and [wakeup]. *)

From S2P Require Import Prelude Types Spinlock Mmu Kalloc X86vm Vspace Sched.

Record slpref := mk_slpref {
  sp_get : kstate -> option sleeplock;
  sp_set : sleeplock -> kstate -> kstate;
  sp_chan : chan
}.

(** [&lk->lk]. *)
Definition slp_spin (R : slpref) : lockref :=
  mk_lockref (fun s => slp_lk <$> sp_get R s)
    (fun l s => match sp_get R s with Some k => sp_set R (set_slp_lk l k) s | None => s end).

Definition slp_deref (R : slpref) : K sleeplock :=
  o <- gets (sp_get R) ;;
  deref "sleeplock pointer" o.

Definition slp_upd (R : slpref) (f : sleeplock -> sleeplock) : K unit :=
  k <- slp_deref R ;;
  modify (sp_set R (f k)).

Definition initsleeplock (R : slpref) : K unit :=
  initlock (slp_spin R) ;;
  slp_upd R (set_slp_locked 0) ;;
  slp_upd R (set_slp_pid 0).

(** [while (lk->locked) sleep(lk, &lk->lk);] *)
Fixpoint acquiresleep_wait (fuel : nat) (R : slpref) : K unit :=
  match fuel with
  | O => diverge
  | S fuel =>
      k <- slp_deref R ;;
      if truthy (slp_locked k)
      then sleep (sp_chan R) (sl_other (slp_spin R)) ;; acquiresleep_wait fuel R
      else ret tt
  end.

Definition acquiresleep (R : slpref) : K unit :=
  acquire (slp_spin R) ;;
  w <- wakeups ;;
  acquiresleep_wait w R ;;
  slp_upd R (set_slp_locked 1) ;;
  p <- my ;;
  slp_upd R (set_slp_pid (p_pid p)) ;;
  release (slp_spin R).

Definition releasesleep (R : slpref) : K unit :=
  acquire (slp_spin R) ;;
  slp_upd R (set_slp_locked 0) ;;
  slp_upd R (set_slp_pid 0) ;;
  wakeup (sp_chan R) ;;
  release (slp_spin R).

Definition holdingsleep (R : slpref) : K bool :=
  acquire (slp_spin R) ;;
  k <- slp_deref R ;;
  r <- (if truthy (slp_locked k) then p <- my ;; ret (slp_pid k =? p_pid p) else ret false) ;;
  release (slp_spin R) ;;
  ret r.

(** ** The sleep locks of the kernel *)

(** [&b->lock] for buffer [i]. *)
Definition buf_slp (i : nat) : slpref :=
  mk_slpref (fun s => b_lock <$> bc_buf (k_bc s) !! i)
    (fun l s => set_k_bc (set_bc_buf (alter (set_b_lock l) i (bc_buf (k_bc s))) (k_bc s)) s)
    (ch_buflock i).

(** [&ip->lock]. *)
Definition inode_slp (ip : iptr) : slpref :=
  match ip with
  | ip_cache i =>
      mk_slpref (fun s => i_lock <$> ic_inode (k_ic s) !! i)
        (fun l s => set_k_ic (set_ic_inode (alter (set_i_lock l) i (ic_inode (k_ic s))) (k_ic s)) s)
        (ch_inodelock i)
  | ip_inodefile =>
      mk_slpref (fun s => Some (i_lock (ic_inodefile (k_ic s))))
        (fun l s => set_k_ic (set_ic_inodefile (set_i_lock l (ic_inodefile (k_ic s))) (k_ic s)) s)
        ch_inodefilelock
  end.

(** ** Facts *)

(** What a sleep lock promises: it names one place of the state, apart from the
    processor's record and the process table. *)
Class SlpLaws (R : slpref) : Prop := {
  sp_get_set : forall s k k0, sp_get R s = Some k0 -> sp_get R (sp_set R k s) = Some k;
  sp_set_set : forall s k k', sp_set R k' (sp_set R k s) = sp_set R k' s;
  sp_set_get : forall s k, sp_get R s = Some k -> sp_set R k s = s;
  sp_get_cpu : forall s c, sp_get R (set_k_cpu c s) = sp_get R s;
  sp_set_cpu : forall s k c, sp_set R k (set_k_cpu c s) = set_k_cpu c (sp_set R k s);
  sp_cpu_set : forall s k, k_cpu (sp_set R k s) = k_cpu s;
  sp_get_pt : forall s t, sp_get R (set_k_pt t s) = sp_get R s;
  sp_set_pt : forall s k t, sp_set R k (set_k_pt t s) = set_k_pt t (sp_set R k s);
  sp_pt_set : forall s k, k_pt (sp_set R k s) = k_pt s
}.

#[global] Instance buf_slp_laws i : SlpLaws (buf_slp i).
Proof.
  split; intros; cbn in *; try done.
  - rewrite list_lookup_alter_eq. apply fmap_Some in H as (b & -> & ->). done.
  - unfold set_k_bc, set_bc_buf; cbn. by rewrite alter_alter.
  - apply fmap_Some in H as (b & Hb & ->).
    replace (alter (set_b_lock (b_lock b)) i (bc_buf (k_bc s))) with (bc_buf (k_bc s)).
    + by destruct s as [? ? ? ? ? ? ? [] ? ? ? ? ? ?].
    + symmetry. apply alter_same. intros b' Hb'. rewrite Hb in Hb'. simplify_eq. by destruct b'.
Qed.

#[global] Instance inode_slp_laws ip : SlpLaws (inode_slp ip).
Proof.
  destruct ip as [i|]; split; intros; cbn in *; try done.
  - rewrite list_lookup_alter_eq. apply fmap_Some in H as (b & -> & ->). done.
  - unfold set_k_ic, set_ic_inode; cbn. by rewrite alter_alter.
  - apply fmap_Some in H as (b & Hb & ->).
    replace (alter (set_i_lock (i_lock b)) i (ic_inode (k_ic s))) with (ic_inode (k_ic s)).
    + by destruct s as [? ? ? ? ? [] ? ? ? ? ? ? ? ?].
    + symmetry. apply alter_same. intros b' Hb'. rewrite Hb in Hb'. simplify_eq. by destruct b'.
  - simplify_eq. by destruct s as [? ? ? ? ? [? ? []] ? ? ? ? ? ? ? ?].
Qed.

Section sleeplock.
Context (R : slpref) `{!SlpLaws R}.

#[global] Instance slp_spin_laws : LockLaws (slp_spin R).
Proof.
  split; cbn.
  - intros s l l0 (k & Hk & ->)%fmap_Some. rewrite Hk. by erewrite sp_get_set.
  - intros s l l'. destruct (sp_get R s) as [k|] eqn:E; [|by rewrite E].
    erewrite sp_get_set by done. by rewrite sp_set_set.
  - intros s l (k & Hk & ->)%fmap_Some. rewrite Hk. apply sp_set_get. rewrite Hk. by destruct k.
  - intros. by rewrite sp_get_cpu.
  - intros. rewrite sp_get_cpu. destruct (sp_get R s); [apply sp_set_cpu|done].
  - intros. destruct (sp_get R s); [apply sp_cpu_set|done].
Qed.

#[global] Instance slp_spin_apart : LockApart (slp_spin R).
Proof.
  split; cbn; intros.
  - by rewrite sp_get_pt.
  - rewrite sp_get_pt. destruct (sp_get R s); [apply sp_set_pt|done].
  - destruct (sp_get R s); [apply sp_pt_set|done].
Qed.

Lemma slp_deref_eq s k : sp_get R s = Some k -> slp_deref R s = Done k s.
Proof. intros H. unfold slp_deref; msimp. by rewrite H. Qed.

Lemma slp_upd_eq s k f : sp_get R s = Some k -> slp_upd R f s = Done tt (sp_set R (f k) s).
Proof. intros H. unfold slp_upd. by mstep (slp_deref_eq s k H). Qed.

(** Enter and leave the spin lock inside the sleep lock. *)
Lemma slp_acquire_eq s k :
  sp_get R s = Some k -> slp_lk k = zero_lock -> cpu_room 1 (k_cpu s) ->
  acquire (slp_spin R) s =
  Done tt (sp_set R (set_slp_lk (mk_spinlock 1 true) k) (set_k_cpu (cpu_push (k_cpu s)) s)).
Proof.
  intros H Hl Hc. rewrite (acquire_eq _ s zero_lock) by (cbn; rewrite ?H; cbn; by rewrite ?Hl).
  cbn. by rewrite sp_get_cpu, H.
Qed.

Lemma slp_release_eq s k c :
  cpu_room 1 c -> sp_get R s = Some (set_slp_lk (mk_spinlock 1 true) k) -> k_cpu s = cpu_push c ->
  release (slp_spin R) s = Done tt (set_k_cpu (cpu_cs c) (sp_set R (set_slp_lk zero_lock k) s)).
Proof.
  intros Hr H Hc. rewrite (release_cs _ s c) by (cbn; rewrite ?H; done). cbn. by rewrite H.
Qed.

Lemma holdingsleep_eq s k i p :
  sp_get R s = Some k -> slp_lk k = zero_lock -> cpu_room 1 (k_cpu s) ->
  c_proc (k_cpu s) = Some i -> proc_at s i = Some p ->
  holdingsleep R s =
  Done (truthy (slp_locked k) && (slp_pid k =? p_pid p)) (set_k_cpu (cpu_cs (k_cpu s)) s).
Proof.
  intros H Hl Hc Hi Hp. unfold holdingsleep. mstep (slp_acquire_eq s k H Hl Hc).
  set (s1 := sp_set R _ _).
  assert (H1 : sp_get R s1 = Some (set_slp_lk (mk_spinlock 1 true) k))
    by (eapply sp_get_set; by rewrite sp_get_cpu).
  assert (Hc1 : k_cpu s1 = cpu_push (k_cpu s)) by (unfold s1; by rewrite sp_cpu_set).
  assert (Hp1 : proc_at s1 i = Some p) by (unfold proc_at, s1; by rewrite sp_pt_set).
  mstep (slp_deref_eq s1 _ H1). cbn [slp_locked set_slp_lk].
  assert (E : (if truthy (slp_locked k)
               then p0 <- my ;; ret (slp_pid k =? p_pid p0) else ret false) s1
              = Done (truthy (slp_locked k) && (slp_pid k =? p_pid p)) s1).
  { destruct (truthy _); [|done]. mstep (my_eq s1 i p); [done|by rewrite Hc1|done]. }
  mstep E. mstep (slp_release_eq s1 k (k_cpu s)); [|done..]. unfold ret. f_equal. unfold s1.
  rewrite sp_set_set, sp_set_cpu, <- Hl. rewrite sp_set_get; [done|]. rewrite H. by destruct k.
Qed.

(** The end of [acquiresleep], with the spin lock held. *)
Definition take_sleeplock : K unit :=
  slp_upd R (set_slp_locked 1) ;;
  p <- my ;;
  slp_upd R (set_slp_pid (p_pid p)) ;;
  release (slp_spin R).

Lemma take_sleeplock_eq s k i p :
  sp_get R s = Some k -> slp_lk k = mk_spinlock 1 true -> 0 < ncli (k_cpu s) < 2 ^ 31 ->
  eflags_if (k_cpu s) = false -> c_proc (k_cpu s) = Some i -> proc_at s i = Some p ->
  take_sleeplock s =
  Done tt (set_k_cpu (cpu_pop (k_cpu s)) (sp_set R (mk_sleeplock 1 zero_lock (p_pid p)) s)).
Proof.
  intros H Hl Hn Hf Hi Hp. unfold take_sleeplock. mstep (slp_upd_eq s _ _ H). set (s1 := sp_set R _ s).
  assert (Hc1 : k_cpu s1 = k_cpu s) by (unfold s1; by rewrite sp_cpu_set).
  mstep (my_eq s1 i p); [|by rewrite Hc1|unfold proc_at, s1; by rewrite sp_pt_set].
  assert (H1 : sp_get R s1 = Some (set_slp_locked 1 k)) by (by eapply sp_get_set).
  mstep (slp_upd_eq s1 _ _ H1). set (s2 := sp_set R _ s1).
  assert (Hc2 : k_cpu s2 = k_cpu s) by (unfold s2; by rewrite sp_cpu_set).
  assert (H2 : sp_get R s2 = Some (set_slp_pid (p_pid p) (set_slp_locked 1 k))) by (by eapply sp_get_set).
  rewrite (release_eq (slp_spin R) s2 (mk_spinlock 1 true)); rewrite ?Hc2; try done.
  - cbn. rewrite H2. unfold s2, s1. by rewrite !sp_set_set.
  - cbn. rewrite H2. cbn. by rewrite Hl.
Qed.

Lemma acquiresleep_free s k i p :
  sp_get R s = Some k -> slp_locked k = 0 -> slp_lk k = zero_lock -> cpu_room 1 (k_cpu s) ->
  c_proc (k_cpu s) = Some i -> proc_at s i = Some p ->
  acquiresleep R s =
  Done tt (set_k_cpu (cpu_cs (k_cpu s)) (sp_set R (mk_sleeplock 1 zero_lock (p_pid p)) s)).
Proof.
  intros H H0 Hl Hc Hi Hp. unfold acquiresleep. mstep (slp_acquire_eq s k H Hl Hc).
  set (s1 := sp_set R _ _).
  assert (H1 : sp_get R s1 = Some (set_slp_lk (mk_spinlock 1 true) k))
    by (eapply sp_get_set; by rewrite sp_get_cpu).
  assert (Hc1 : k_cpu s1 = cpu_push (k_cpu s)) by (unfold s1; by rewrite sp_cpu_set).
  mstep (wakeups_eq s1). assert (E : acquiresleep_wait (S (S (wakeups_left s1))) R s1 = Done tt s1).
  { cbn [acquiresleep_wait]. mstep (slp_deref_eq s1 _ H1). cbn. by rewrite H0. }
  mstep E. destruct Hc as [Hn Hf].
  refine (eq_trans (take_sleeplock_eq s1 _ i p H1 _ _ _ _ _) _); rewrite ?Hc1; cbn; try done; try lia.
  - unfold proc_at, s1. by rewrite sp_pt_set.
  - rewrite cpu_pop_push by (split; [lia|done]). unfold s1. by rewrite sp_set_set, !sp_set_cpu.
Qed.

(** A waiting process gives up the processor. *)
Lemma wait_held fuel s k i p :
  sp_get R s = Some k -> truthy (slp_locked k) = true -> slp_lk k = mk_spinlock 1 true ->
  pt_lock (k_pt s) = zero_lock -> one_deep (k_cpu s) -> c_proc (k_cpu s) = Some i -> proc_at s i = Some p ->
  acquiresleep_wait (S fuel) R s =
  Block (put_proc i (asleep (sp_chan R) p) (handed_over (slp_spin R) s))
    (fun s2 => bindr (wake_up (slp_spin R) i (intena (k_cpu s)) s2) (fun _ => acquiresleep_wait fuel R)).
Proof.
  intros H Hk Hl Hpt Hd Hi Hp. cbn [acquiresleep_wait]. mstep (slp_deref_eq s k H). rewrite Hk.
  unfold bind at 1. erewrite (sleep_eq (slp_spin R) s (sp_chan R) i p); [done| |done..].
  cbn. rewrite H. cbn. by rewrite Hl.
Qed.

(** The lock [k] is held and process [i] is about to ask for it. *)
Definition finds_held (s : kstate) (k : sleeplock) (i : nat) (p : proc) : Prop :=
  sp_get R s = Some k /\ truthy (slp_locked k) = true /\ slp_lk k = zero_lock /\
  pt_lock (k_pt s) = zero_lock /\ ncli (k_cpu s) = 0 /\
  c_proc (k_cpu s) = Some i /\ proc_at s i = Some p.

(** What is left of [acquiresleep] when [sleep] returns in [s2]. *)
Definition resumed (fuel i : nat) (int : bool) (s2 : kstate) : res kstate unit :=
  bindr (bindr (wake_up (slp_spin R) i int s2) (fun _ => acquiresleep_wait fuel R)) (fun _ => take_sleeplock).

Lemma acquiresleep_held s k i p :
  finds_held s k i p ->
  exists s1 n, acquiresleep R s = Block s1 (resumed (S n) i (intena (cpu_push (k_cpu s)))) /\
    sp_get R s1 = Some k /\ proc_at s1 i = Some (asleep (sp_chan R) p) /\
    (forall j, i <> j -> proc_at s1 j = proc_at s j) /\ in_ptable s1.
Proof.
  intros (H & Hk & Hl & Hpt & Hn & Hi & Hp). assert (Hc : cpu_room 1 (k_cpu s)) by (split; lia).
  set (s0 := sp_set R (set_slp_lk (mk_spinlock 1 true) k) (set_k_cpu (cpu_push (k_cpu s)) s)).
  assert (H0 : sp_get R s0 = Some (set_slp_lk (mk_spinlock 1 true) k))
    by (eapply sp_get_set; by rewrite sp_get_cpu).
  assert (HL : lk_get (slp_spin R) s0 = Some (mk_spinlock 1 true)) by (cbn; by rewrite H0).
  assert (Hc0 : k_cpu s0 = cpu_push (k_cpu s)) by (unfold s0; by rewrite sp_cpu_set).
  assert (Hpt0 : k_pt s0 = k_pt s) by (unfold s0; by rewrite sp_pt_set).
  assert (Hd : one_deep (k_cpu s0)) by (rewrite Hc0; split; cbn; [lia|done]).
  assert (Hp0 : proc_at s0 i = Some p) by (unfold proc_at; by rewrite Hpt0).
  destruct (handed_over_facts (slp_spin R) s0 _ HL Hd) as ([Hin1 Hin2 Hin3] & Hcpu & HgL & Hpr).
  exists (put_proc i (asleep (sp_chan R) p) (handed_over (slp_spin R) s0)), (wakeups_left s0). split_and!.
  - unfold acquiresleep. mstep (slp_acquire_eq s k H Hl Hc). fold s0. mstep (wakeups_eq s0). unfold bind at 1.
    erewrite (wait_held _ s0 _ i p H0); [|done|done|by rewrite Hpt0|done|by rewrite Hc0|done].
    cbn [bindr]. by rewrite Hc0.
  - unfold put_proc, handed_over. cbn. rewrite !sp_get_pt, H0. erewrite sp_get_set by done. f_equal.
    destruct k; cbn in *. by subst.
  - eapply proc_at_put. by rewrite Hpr.
  - intros j Hj. rewrite proc_at_put_ne, Hpr by done. unfold proc_at. by rewrite Hpt0.
  - by split.
Qed.

(** A process that is resumed when the lock is free gets it. *)
Lemma resumed_free fuel i int s2 p2 k2 :
  in_ptable s2 -> c_proc (k_cpu s2) = Some i -> proc_at s2 i = Some p2 ->
  sp_get R s2 = Some k2 -> slp_lk k2 = zero_lock -> slp_locked k2 = 0 ->
  exists s3, resumed (S fuel) i int s2 = Done tt s3 /\
    sp_get R s3 = Some (mk_sleeplock 1 zero_lock (p_pid p2)) /\
    proc_at s3 i = Some (set_p_chan None p2) /\ ncli (k_cpu s3) = 0 /\ pt_lock (k_pt s3) = zero_lock.
Proof.
  intros Hin Hi Hp H Hl H0.
  destruct (wake_up_eq (slp_spin R) i int s2 p2 Hin Hi Hp) as (s & E & _ & Hpt & [Hn Hf] & _ & Hc & Hpr & c3 & t3 & Es);
    [cbn; rewrite H; cbn; by rewrite Hl|].
  assert (Hs : sp_get R s = Some (set_slp_lk (mk_spinlock 1 true) k2)).
  { subst s. cbn. rewrite sp_get_cpu, sp_get_pt, H. eapply sp_get_set. by rewrite sp_get_cpu, sp_get_pt. }
  assert (Hpi : proc_at s i = Some (set_p_chan None p2)).
  { unfold proc_at. rewrite Hpr. apply list_lookup_insert_eq. unfold proc_at in Hp. by apply lookup_lt_Some in Hp. }
  unfold resumed. rewrite E. cbn [bindr acquiresleep_wait]. unfold bind at 1. rewrite (slp_deref_eq s _ Hs).
  cbn [bindr slp_locked set_slp_lk]. rewrite H0. cbn [truthy negb Z.eqb ret bindr].
  eexists. split; [apply (take_sleeplock_eq s _ i (set_p_chan None p2) Hs eq_refl); [lia|done|done|exact Hpi]|].
  split_and!; cbn; rewrite ?sp_get_cpu, ?sp_pt_set; try done.
  - by eapply sp_get_set.
  - unfold proc_at; cbn. by rewrite sp_pt_set.
  - rewrite Hn. done.
Qed.

(** Giving the lock back. *)
Lemma releasesleep_eq s k :
  sp_get R s = Some k -> slp_lk k = zero_lock -> pt_lock (k_pt s) = zero_lock -> cpu_room 2 (k_cpu s) ->
  exists s1, releasesleep R s = Done tt s1 /\ sp_get R s1 = Some (mk_sleeplock 0 zero_lock 0) /\
    (forall j, proc_at s1 j = wake (Some (sp_chan R)) <$> proc_at s j) /\ k_cpu s1 = cpu_cs (k_cpu s) /\
    pt_lock (k_pt s1) = zero_lock.
Proof.
  intros H Hl Hpt Hc. assert (Hc1 : cpu_room 1 (k_cpu s)) by (eapply cpu_room_le, Hc; lia).
  unfold releasesleep. mstep (slp_acquire_eq s k H Hl Hc1). set (s1 := sp_set R _ _).
  assert (H1 : sp_get R s1 = Some (set_slp_lk (mk_spinlock 1 true) k))
    by (eapply sp_get_set; by rewrite sp_get_cpu).
  mstep (slp_upd_eq s1 _ _ H1). set (s2 := sp_set R _ s1).
  assert (H2 : sp_get R s2 = Some (set_slp_locked 0 (set_slp_lk (mk_spinlock 1 true) k))) by (by eapply sp_get_set).
  mstep (slp_upd_eq s2 _ _ H2). set (s3 := sp_set R _ s2).
  assert (H3 : sp_get R s3 = Some (set_slp_lk (mk_spinlock 1 true) (mk_sleeplock 0 zero_lock 0))) by (by eapply sp_get_set).
  assert (Hc3 : k_cpu s3 = cpu_push (k_cpu s)) by (unfold s3, s2, s1; by rewrite !sp_cpu_set).
  assert (Hpt3 : k_pt s3 = k_pt s) by (unfold s3, s2, s1; by rewrite !sp_pt_set).
  mstep (wakeup_eq s3 (sp_chan R)); [|by rewrite Hpt3|rewrite Hc3; by apply cpu_room_push].
  destruct Hc as [Hn Hf]. rewrite Hc3, cpu_cs_push by lia. unfold woken. eexists. split.
  { apply (slp_release_eq _ (mk_sleeplock 0 zero_lock 0) (k_cpu s)); [done| |done].
    by rewrite sp_get_cpu, sp_get_pt. }
  split_and!; cbn; rewrite ?sp_get_cpu, ?sp_pt_set; cbn.
  - eapply sp_get_set. by rewrite sp_get_cpu, sp_get_pt.
  - intros j. unfold proc_at; cbn. rewrite sp_pt_set. cbn. by rewrite list_lookup_fmap, Hpt3.
  - done.
  - by rewrite Hpt3.
Qed.
End sleeplock.

(** ** Properties *)

(** C23: A sleep lock excludes.  A process that asks for a free lock gets it:
    the lock records its number, and [holdingsleep] then answers yes to it.  A
    process that asks for a lock that is held does not return: it is switched
    out, asleep on the lock, and the lock still belongs to its holder. *)
Theorem sleeplock_exclusive (R : slpref) `{!SlpLaws R} (s : kstate) (k : sleeplock) (i : nat) (p : proc)
    (H : sp_get R s = Some k) (Hl : slp_lk k = zero_lock) (Hpt : pt_lock (k_pt s) = zero_lock)
    (Hn : ncli (k_cpu s) = 0) (Hi : c_proc (k_cpu s) = Some i) (Hp : proc_at s i = Some p) :
  (slp_locked k = 0 ->
   exists s1, acquiresleep R s = Done tt s1 /\ sp_get R s1 = Some (mk_sleeplock 1 zero_lock (p_pid p)) /\
     exists s2, holdingsleep R s1 = Done true s2) /\
  (truthy (slp_locked k) = true ->
   exists s1 resume p1, acquiresleep R s = Block s1 resume /\ sp_get R s1 = Some k /\
     proc_at s1 i = Some p1 /\ p_state p1 = SLEEPING /\ p_chan p1 = Some (sp_chan R)).
Proof.
  assert (Hc : cpu_room 1 (k_cpu s)) by (split; lia). split; intros Hk.
  - eexists. split; [by apply (acquiresleep_free R s k i p)|].
    assert (Hg : sp_get R (sp_set R (mk_sleeplock 1 zero_lock (p_pid p)) s) = Some (mk_sleeplock 1 zero_lock (p_pid p)))
      by (by eapply sp_get_set).
    split; [by rewrite sp_get_cpu|]. eexists. erewrite (holdingsleep_eq R _ (mk_sleeplock 1 zero_lock (p_pid p)) i p).
    + cbn [slp_locked slp_pid]. rewrite Z.eqb_refl. reflexivity.
    + by rewrite sp_get_cpu.
    + done.
    + done.
    + done.
    + unfold proc_at; cbn. by rewrite sp_pt_set.
  - destruct (acquiresleep_held R s k i p) as (s1 & n & E & Hg & H1 & _); [by split_and!|].
    by eexists s1, _, _.
Qed.

(** Process 0 runs, and [l] is the lock of buffer 0. *)
Definition sleeplock_demo (l : sleeplock) : kstate :=
  put_proc 0 (set_p_pid 1 zero_proc)
    (sp_set (buf_slp 0) l (set_k_cpu (mk_cpu 0 false true (Some 0%nat) 0 0) (zero_state 0x200000 ∅))).

Lemma sleeplock_exclusive_witness :
  (exists s1, acquiresleep (buf_slp 0) (sleeplock_demo (mk_sleeplock 0 zero_lock 0)) = Done tt s1) /\
  (exists s1 resume, acquiresleep (buf_slp 0) (sleeplock_demo (mk_sleeplock 1 zero_lock 2)) = Block s1 resume).
Proof.
  split.
  - destruct (sleeplock_exclusive (buf_slp 0) (sleeplock_demo (mk_sleeplock 0 zero_lock 0)) (mk_sleeplock 0 zero_lock 0) 0
      (set_p_pid 1 zero_proc)) as [Hf _]; [reflexivity..|]. destruct (Hf eq_refl) as (s1 & E & _). by exists s1.
  - destruct (sleeplock_exclusive (buf_slp 0) (sleeplock_demo (mk_sleeplock 1 zero_lock 2)) (mk_sleeplock 1 zero_lock 2) 0
      (set_p_pid 1 zero_proc)) as [_ Hh]; [reflexivity..|]. destruct (Hh eq_refl) as (s1 & r & p1 & E & _). by exists s1, r.
Defined.

(** C24: A sleep lock that is given back goes to a process that waits for it.
    A process that found the lock held sleeps.  From then on, if the holder
    releases the lock while it sleeps there, the lock is free and the process
    is runnable; and if the scheduler resumes it in a state where the lock is
    free, [acquiresleep] returns with the lock in its name and no spin lock
    held. *)
Theorem sleeplock_handoff (R : slpref) `{!SlpLaws R} (s : kstate) (k : sleeplock) (i : nat) (p : proc)
    (Hheld : finds_held R s k i p) :
  exists s1 resume, acquiresleep R s = Block s1 resume /\
    (forall sh kh ph, sp_get R sh = Some kh -> slp_lk kh = zero_lock -> pt_lock (k_pt sh) = zero_lock ->
       cpu_room 2 (k_cpu sh) -> proc_at sh i = Some ph -> p_state ph = SLEEPING -> p_chan ph = Some (sp_chan R) ->
       exists s', releasesleep R sh = Done tt s' /\ sp_get R s' = Some (mk_sleeplock 0 zero_lock 0) /\
         proc_at s' i = Some (set_p_state RUNNABLE ph)) /\
    (forall s2 p2 k2, in_ptable s2 -> c_proc (k_cpu s2) = Some i -> proc_at s2 i = Some p2 ->
       sp_get R s2 = Some k2 -> slp_lk k2 = zero_lock -> slp_locked k2 = 0 ->
       exists s3, resume s2 = Done tt s3 /\ sp_get R s3 = Some (mk_sleeplock 1 zero_lock (p_pid p2)) /\
         ncli (k_cpu s3) = 0 /\ pt_lock (k_pt s3) = zero_lock).
Proof.
  destruct (acquiresleep_held R s k i p Hheld) as (s1 & n & E & _). exists s1. eexists. split; [exact E|]. split.
  - intros sh kh ph H Hl Hpt Hc Hp Hst Hch. destruct (releasesleep_eq R sh kh H Hl Hpt Hc) as (s' & E' & Hg & Hw & _).
    exists s'. split_and!; [done|done|]. rewrite Hw, Hp. cbn. unfold wake. by rewrite decide_True by done.
  - intros s2 p2 k2 Hin Hi Hp H Hl H0.
    destruct (resumed_free R n i (intena (cpu_push (k_cpu s))) s2 p2 k2) as (s3 & E3 & Hg & _ & Hn & Hpt);
      [done..|]. by exists s3.
Qed.

Lemma sleeplock_handoff_witness :
  exists s1 resume s3, acquiresleep (buf_slp 0) (sleeplock_demo (mk_sleeplock 1 zero_lock 2)) = Block s1 resume /\
    resume (lk_set ptable_lk (mk_spinlock 1 true)
      (set_k_cpu (mk_cpu 1 true false (Some 0%nat) 0 0) (sleeplock_demo (mk_sleeplock 0 zero_lock 0)))) = Done tt s3 /\
    sp_get (buf_slp 0) s3 = Some (mk_sleeplock 1 zero_lock 1).
Proof.
  destruct (sleeplock_handoff (buf_slp 0) (sleeplock_demo (mk_sleeplock 1 zero_lock 2)) (mk_sleeplock 1 zero_lock 2) 0
    (set_p_pid 1 zero_proc)) as (s1 & r & E & _ & Hr); [by split_and!|].
  destruct (Hr (lk_set ptable_lk (mk_spinlock 1 true)
      (set_k_cpu (mk_cpu 1 true false (Some 0%nat) 0 0) (sleeplock_demo (mk_sleeplock 0 zero_lock 0))))
    (set_p_pid 1 zero_proc) (mk_sleeplock 0 zero_lock 0)) as (s3 & E3 & Hg & _); [by split|reflexivity..|].
  by exists s1, r, s3.
Defined.
