(* ===== verification/Ide.v ===== *)
(** * The disk driver: [kernel/ide.c]

    The controller is modelled by what the driver relies on: it accepts a
    command when it is ready, a write command stores the sector that follows
    it, and a read command makes the sector available when the interrupt
    comes.  A sector that was never written reads as zeros. *)

From S2P Require Import Prelude Types Spinlock Mmu Kalloc X86vm Vspace Sched Sleeplock.

Definition B_VALID : Z := 0x2.
Definition B_DIRTY : Z := 0x4.
Definition SECTOR_SIZE : Z := 512.

Definition upd_bc (f : bcache -> bcache) : K unit := modify (fun s => set_k_bc (f (k_bc s)) s).
Definition upd_ide (f : ide -> ide) : K unit := modify (fun s => set_k_ide (f (k_ide s)) s).

Definition get_buf (i : nat) : K buf :=
  o <- gets (fun s => bc_buf (k_bc s) !! i) ;;
  deref "buf pointer" o.

Definition upd_buf (i : nat) (f : buf -> buf) : K unit :=
  b <- get_buf i ;;
  upd_bc (fun bc => set_bc_buf (<[i := f b]> (bc_buf bc)) bc).

(** The contents of a sector. *)
Definition sector (d : ide) (k : Z * Z) : list Z := default (replicate 512 0) (d_blocks d !! k).

(** [idewait]: the controller is ready and reports no error. *)
Definition idewait : K Z := ret 0.

(** The probe of disk 1 succeeds if the machine has it. *)
Definition ideinit (disk1 : bool) : K unit :=
  initlock ide_lk ;;
  idewait ;;
  if disk1 then upd_ide (set_havedisk1 true) else ret tt.

Definition idestart (i : nat) : K unit :=
  b <- get_buf i ;;
  if FSSIZE <=? b_blockno b then panic "incorrect blockno" else
  let sector_per_block := BSIZE / SECTOR_SIZE in
  let sec := i32 (u32 (b_blockno b * sector_per_block)) in
  if 7 <? sector_per_block then panic "idestart" else
  idewait ;;
  let k := (Z.land (b_dev b) 1, sec) in
  upd_ide (set_d_req (Some k)) ;;
  if truthy (Z.land (b_flags b) B_DIRTY)
  then upd_ide (fun d => set_d_blocks (<[k := b_data b]> (d_blocks d)) d)
  else ret tt.

Definition ideintr : K unit :=
  acquire ide_lk ;;
  q <- gets (fun s => idequeue (k_ide s)) ;;
  match q with
  | None => release ide_lk
  | Some i =>
      b <- get_buf i ;;
      upd_ide (set_idequeue (b_qnext b)) ;;
      (if negb (truthy (Z.land (b_flags b) B_DIRTY)) then
         r <- idewait ;;
         if 0 <=? r then
           d <- gets k_ide ;;
           upd_buf i (set_b_data (match d_req d with
                                  | Some k => sector d k
                                  | None => b_data b
                                  end))
         else ret tt
       else ret tt) ;;
      upd_buf i (fun b => set_b_flags (Z.lor (b_flags b) B_VALID) b) ;;
      upd_buf i (fun b => set_b_flags (Z.land (b_flags b) (Z.lnot B_DIRTY)) b) ;;
      wakeup (ch_buf i) ;;
      q <- gets (fun s => idequeue (k_ide s)) ;;
      match q with
      | Some j => idestart j
      | None => ret tt
      end ;;
      release ide_lk
  end.

(** The loop of [iderw] that appends buffer [i] to the queue, from the queued
    buffer [j]: the queue goes through distinct buffers. *)
Fixpoint ide_append (fuel : nat) (j i : nat) : K unit :=
  match fuel with
  | O => diverge
  | S fuel =>
      b <- get_buf j ;;
      match b_qnext b with
      | None => upd_buf j (set_b_qnext (Some i))
      | Some j' => ide_append fuel j' i
      end
  end.

(** [(b->flags & (B_VALID | B_DIRTY)) == B_VALID]. *)
Definition buf_synced (b : buf) : bool := Z.land (b_flags b) (Z.lor B_VALID B_DIRTY) =? B_VALID.

Fixpoint iderw_wait (fuel : nat) (i : nat) : K unit :=
  match fuel with
  | O => diverge
  | S fuel =>
      b <- get_buf i ;;
      if buf_synced b then ret tt
      else sleep (ch_buf i) (sl_other ide_lk) ;; iderw_wait fuel i
  end.

Definition iderw (i : nat) : K unit :=
  h <- holdingsleep (buf_slp i) ;;
  if negb h then panic "iderw: buf not locked" else
  b <- get_buf i ;;
  if buf_synced b then panic "iderw: nothing to do" else
  d <- gets k_ide ;;
  if negb (b_dev b =? 0) && negb (havedisk1 d) then panic "iderw: ide disk 1 not present" else
  acquire ide_lk ;;
  upd_buf i (set_b_qnext None) ;;
  q <- gets (fun s => idequeue (k_ide s)) ;;
  match q with
  | None => upd_ide (set_idequeue (Some i))
  | Some j => ide_append (S NBUF) j i
  end ;;
  q <- gets (fun s => idequeue (k_ide s)) ;;
  (if decide (q = Some i) then idestart i else ret tt) ;;
  w <- wakeups ;;
  iderw_wait w i ;;
  release ide_lk.

(** ** Facts *)

Definition bufs (s : kstate) : list buf := bc_buf (k_bc s).
Definition with_bufs (bs : list buf) (s : kstate) : kstate := set_k_bc (set_bc_buf bs (k_bc s)) s.

Lemma get_buf_eq s i b : bufs s !! i = Some b -> get_buf i s = Done b s.
Proof. intros H. unfold get_buf; msimp. unfold bufs in H. by rewrite H. Qed.

Lemma upd_buf_eq s i f :
  is_Some (bufs s !! i) -> upd_buf i f s = Done tt (with_bufs (alter f i (bufs s)) s).
Proof.
  intros [b H]. unfold upd_buf. mstep (get_buf_eq s i b H). unfold upd_bc, modify, with_bufs.
  by rewrite <- (alter_insert f _ i b) by done.
Qed.

Lemma with_bufs_twice bs bs' s : with_bufs bs (with_bufs bs' s) = with_bufs bs s.
Proof. done. Qed.

Lemma bufs_with bs s : bufs (with_bufs bs s) = bs.
Proof. done. Qed.
