(* ===== verification/Memide.v ===== *)
(** * The memory disk: [kernel/memide.c]

    The replacement of [ide.c] that keeps the disk in memory.  The file system
    image that the linker puts into the kernel is an argument; the disk is
    passed and returned. *)

From S2P Require Import Prelude Types Spinlock Mmu Kalloc X86vm Vspace Sched Sleeplock Ide.

(** [disksize] and the bytes from [memdisk] on. *)
Record memdisk := mk_memdisk {
  disksize : Z;
  md_bytes : list Z
}.

Definition ideinit (img : list Z) : memdisk := mk_memdisk (i32 (Z.of_nat (length img) / BSIZE)) img.

Definition ideintr : K unit := ret tt.

Definition iderw (d : memdisk) (i : nat) : K memdisk :=
  h <- holdingsleep (buf_slp i) ;;
  if negb h then panic "iderw: buf not locked" else
  b <- get_buf i ;;
  if buf_synced b then panic "iderw: nothing to do" else
  if negb (b_dev b =? 1) then panic "iderw: request not for disk 1" else
  if u32 (disksize d) <=? b_blockno b then panic "iderw: block out of range" else
  let p := Z.to_nat (u32 (b_blockno b * BSIZE)) in
  d <- (if truthy (Z.land (b_flags b) B_DIRTY) then
          upd_buf i (fun b => set_b_flags (Z.land (b_flags b) (Z.lnot B_DIRTY)) b) ;;
          if Z.of_nat (p + Z.to_nat BSIZE) <=? Z.of_nat (length (md_bytes d))
          then ret (mk_memdisk (disksize d) (blit p (take (Z.to_nat BSIZE) (b_data b)) (md_bytes d)))
          else fault "write past the end of the disk"
        else
          if Z.of_nat (p + Z.to_nat BSIZE) <=? Z.of_nat (length (md_bytes d))
          then upd_buf i (set_b_data (take (Z.to_nat BSIZE) (drop p (md_bytes d)))) ;; ret d
          else fault "read past the end of the disk") ;;
  upd_buf i (fun b => set_b_flags (Z.lor (b_flags b) B_VALID) b) ;;
  ret d.

(** ** Properties *)

(** A block of the disk. *)
Definition md_block (d : memdisk) (n : Z) : list Z := take 512 (drop (Z.to_nat (n * BSIZE)) (md_bytes d)).

(** A disk as [ideinit] sets it up, with an image of whole blocks. *)
Definition disk_ok (d : memdisk) : Prop :=
  0 <= disksize d /\ disksize d * BSIZE < 2 ^ 31 /\ Z.of_nat (length (md_bytes d)) = disksize d * BSIZE.

Lemma md_block_blit d n n' bs :
  disk_ok d -> 0 <= n < disksize d -> 0 <= n' < disksize d -> length bs = 512%nat ->
  md_block (mk_memdisk (disksize d) (blit (Z.to_nat (n * BSIZE)) bs (md_bytes d))) n' =
  if n' =? n then bs else md_block d n'.
Proof.
  intros (H0 & H1 & Hl) Hn Hn' Hbs. unfold md_block, BSIZE in *. cbn [md_bytes].
  assert (Hfit : (Z.to_nat (n * 512) + length bs <= length (md_bytes d))%nat) by nia.
  assert (Hfit' : (Z.to_nat (n' * 512) + 512 <= length (md_bytes d))%nat) by nia.
  apply (list_eq_same_length _ _ 512).
  - destruct (n' =? n); [done|]. rewrite length_take, length_drop. lia.
  - rewrite length_take, length_drop, length_blit by done. lia.
  - intros i x y Hi. rewrite lookup_take_lt, lookup_drop, lookup_blit by done. destruct (Z.eqb_spec n' n) as [->|Hne].
    + intros Hx Hy. case_decide as Hc; [|lia]. replace (Z.to_nat (n * 512) + i - Z.to_nat (n * 512))%nat with i in Hx by lia.
      congruence.
    + rewrite lookup_take_lt, lookup_drop by done. intros Hx Hy. case_decide as Hc; [nia|congruence].
Qed.

(** Process [j], which is [p], runs, and buffer [i] is [b]. *)
Record asks_buf (s : kstate) (i j : nat) (b : buf) (p : proc) : Prop := {
  ab_buf : bufs s !! i = Some b;
  ab_lk : slp_lk (b_lock b) = zero_lock;
  ab_cpu : cpu_room 1 (k_cpu s);
  ab_me : c_proc (k_cpu s) = Some j;
  ab_proc : proc_at s j = Some p
}.

(** The process has locked the buffer. *)
Definition locked_by (b : buf) (p : proc) : bool := truthy (slp_locked (b_lock b)) && (slp_pid (b_lock b) =? p_pid p).

Lemma asks_buf_held s i j b p :
  asks_buf s i j b p -> holdingsleep (buf_slp i) s = Done (locked_by b p) (set_k_cpu (cpu_cs (k_cpu s)) s).
Proof.
  intros [Hb Hl Hc Hj Hpr]. rewrite (holdingsleep_eq (buf_slp i) s (b_lock b) j p); try done.
  cbn. unfold bufs in Hb. by rewrite Hb.
Qed.

Lemma valid_bits f : Z.testbit (Z.lor f B_VALID) 1 = true /\ Z.testbit (Z.lor f B_VALID) 2 = Z.testbit f 2.
Proof. rewrite !Z.lor_spec. split; [by rewrite orb_true_r|by rewrite orb_false_r]. Qed.

(** The end of [iderw]: the buffer is changed by [f] and made valid. *)
Lemma iderw_end (d' : memdisk) s i b (f : buf -> buf) :
  bufs s !! i = Some b -> b_blockno (f b) = b_blockno b -> b_dev (f b) = b_dev b ->
  exists s2 s' b', (upd_buf i f ;; ret d') s = Done d' s2 /\
    (upd_buf i (fun b => set_b_flags (Z.lor (b_flags b) B_VALID) b) ;; ret d') s2 = Done d' s' /\
    bufs s' !! i = Some b' /\ (forall k, k <> i -> bufs s' !! k = bufs s !! k) /\ b_dev b' = b_dev b /\
    b_blockno b' = b_blockno b /\ b_data b' = b_data (f b) /\ b_flags b' = Z.lor (b_flags (f b)) B_VALID.
Proof.
  intros Hb Ef1 Ef2. eexists _, _, _. split; [mstep upd_buf_eq; [done|by eexists]|].
  split; [mstep upd_buf_eq; [done|eexists; cbn; by rewrite list_lookup_alter_eq, Hb]|].
  unfold bufs, with_bufs in *. cbn in *. rewrite !list_lookup_alter_eq, Hb. cbn. split_and!; try done.
  intros k Hk. by rewrite !list_lookup_alter_ne by done.
Qed.

(** C40: The memory disk synchronises a buffer with its block, and its four
    panics are exactly the documented ones.  A buffer that the running process
    has not locked is a panic, one that is valid and clean is another, then one
    that is not for disk 1, then one for a block outside the disk, in this order.
    In every other case: a dirty buffer is written to its block and to no other,
    and one that is neither dirty nor valid is filled with its block and leaves
    the disk alone; in both cases the buffer then is valid and clean, equal to
    its block, and no other buffer changed.  The disk is an image of whole
    blocks, of less than 2^31 bytes; the spin lock inside the buffer's lock is
    free. *)
Theorem memide_iderw_correct (d : memdisk) (s : kstate) (i j : nat) (b : buf) (p : proc)
    (Hd : disk_ok d) (H : asks_buf s i j b p) (Hlen : length (b_data b) = 512%nat)
    (Hflags : 0 <= b_flags b) (Hn : 0 <= b_blockno b) :
  (locked_by b p = false -> iderw d i s = Panic "iderw: buf not locked") /\
  (locked_by b p = true -> buf_synced b = true -> iderw d i s = Panic "iderw: nothing to do") /\
  (locked_by b p = true -> buf_synced b = false -> b_dev b <> 1 ->
   iderw d i s = Panic "iderw: request not for disk 1") /\
  (locked_by b p = true -> buf_synced b = false -> b_dev b = 1 -> disksize d <= b_blockno b ->
   iderw d i s = Panic "iderw: block out of range") /\
  (locked_by b p = true -> buf_synced b = false -> b_dev b = 1 -> b_blockno b < disksize d ->
   exists d' s' b', iderw d i s = Done d' s' /\ bufs s' !! i = Some b' /\
     (forall k, k <> i -> bufs s' !! k = bufs s !! k) /\ disk_ok d' /\ disksize d' = disksize d /\
     b_dev b' = b_dev b /\ b_blockno b' = b_blockno b /\ b_data b' = md_block d' (b_blockno b) /\
     Z.testbit (b_flags b') 1 = true /\ Z.testbit (b_flags b') 2 = false /\
     (if Z.testbit (b_flags b) 2
      then b_data b' = b_data b /\ forall n, 0 <= n < disksize d -> n <> b_blockno b -> md_block d' n = md_block d n
      else d' = d)).
Proof.
  destruct Hd as (H0 & H1 & Hl). unfold iderw.
  rewrite !(bind_done _ _ _ _ _ (asks_buf_held s i j b p H)). set (s1 := set_k_cpu _ s).
  assert (Hb1 : bufs s1 !! i = Some b) by apply H. split; [by intros ->|].
  destruct (locked_by b p); [|by split_and!]. cbn [negb]. rewrite !(bind_done _ _ _ _ _ (get_buf_eq s1 i b Hb1)).
  split; [by intros _ ->|]. destruct (buf_synced b); [by split_and!|].
  split; [by intros _ _ Hdev; destruct (Z.eqb_spec (b_dev b) 1)|].
  destruct (Z.eqb_spec (b_dev b) 1) as [Hdev|]; [|by split]. cbn [negb]. rewrite u32_small by (unfold BSIZE in *; lia).
  split; [intros _ _ _ ?; by destruct (Z.leb_spec (disksize d) (b_blockno b)); [|lia]|].
  intros _ _ _ Hlt. destruct (Z.leb_spec (disksize d) (b_blockno b)); [lia|].
  rewrite u32_small by (unfold BSIZE in *; lia). unfold BSIZE in *. change (Z.to_nat 512) with 512%nat.
  set (o := Z.to_nat (b_blockno b * 512)). assert (Hfit : (o + 512 <= length (md_bytes d))%nat) by (unfold o; nia).
  replace (Z.of_nat (o + 512) <=? Z.of_nat (length (md_bytes d))) with true by (symmetry; apply Z.leb_le; lia).
  change B_DIRTY with (2 ^ 2). rewrite (truthy_bit (b_flags b) 2) by lia.
  destruct (Z.testbit (b_flags b) 2) eqn:Hdirty.
  - rewrite take_ge by lia. set (d' := mk_memdisk _ _).
    destruct (iderw_end d' s1 i b (fun b => set_b_flags (Z.land (b_flags b) (Z.lnot (2 ^ 2))) b) Hb1 eq_refl eq_refl)
      as (s2 & s' & b' & E1 & E2 & Hb' & Hoth & Hd' & Hn' & Hdat & Hfl).
    assert (Hblk := md_block_blit d (b_blockno b)). unfold BSIZE in Hblk. fold o in Hblk.
    rewrite (bind_done _ _ _ _ _ E1). exists d', s', b'. rewrite Hdat, Hfl. cbn [b_data b_flags set_b_flags].
    split_and!; try done; try apply valid_bits; try congruence.
    + unfold disk_ok. cbn. rewrite length_blit by lia. done.
    + unfold d'. rewrite Hblk by (done || lia). by rewrite Z.eqb_refl.
    + rewrite (proj2 (valid_bits _)), Z.land_spec. cbn. by rewrite andb_false_r.
    + intros n Hn0 Hne. unfold d'. rewrite Hblk by (done || lia). by destruct (Z.eqb_spec n (b_blockno b)).
  - destruct (iderw_end d s1 i b (set_b_data (take 512 (drop o (md_bytes d)))) Hb1 eq_refl eq_refl)
      as (s2 & s' & b' & E1 & E2 & Hb' & Hoth & Hd' & Hn' & Hdat & Hfl).
    rewrite (bind_done _ _ _ _ _ E1). exists d, s', b'. rewrite Hdat, Hfl. cbn [b_data b_flags set_b_data].
    split_and!; try done; try apply valid_bits; try congruence. by rewrite (proj2 (valid_bits _)).
Qed.

(** Process 0 holds buffer 0, for block 1 of a disk of two blocks. *)
Definition memide_demo (flags dev holder : Z) : kstate :=
  with_bufs [mk_buf flags dev 1 (mk_sleeplock 1 zero_lock holder) 1 0 0 None (replicate 512 9)]
    (put_proc 0 (set_p_pid 7 zero_proc) (set_k_cpu (mk_cpu 0 false true (Some 0%nat) 0 0) (zero_state 0x200000 ∅))).
Definition memide_disk : memdisk := ideinit (replicate 1024 5).

Definition memide_buf (flags dev holder : Z) : buf :=
  mk_buf flags dev 1 (mk_sleeplock 1 zero_lock holder) 1 0 0 None (replicate 512 9).

(** A dirty buffer and one to be filled; one that is locked by process 8, and
    one for disk 0. *)
Lemma memide_iderw_correct_witness :
  (exists d' s', iderw memide_disk 0 (memide_demo B_DIRTY 1 7) = Done d' s' /\ md_block d' 1 = replicate 512 9 /\
     md_block d' 0 = replicate 512 5) /\
  (exists s' b', iderw memide_disk 0 (memide_demo 0 1 7) = Done memide_disk s' /\ bufs s' !! 0%nat = Some b' /\
     b_data b' = replicate 512 5) /\
  iderw memide_disk 0 (memide_demo 0 1 8) = Panic "iderw: buf not locked" /\
  iderw memide_disk 0 (memide_demo 0 0 7) = Panic "iderw: request not for disk 1".
Proof.
  assert (Hd : disk_ok memide_disk) by (split_and!; vm_compute; congruence).
  assert (Hh : forall f d h, asks_buf (memide_demo f d h) 0 0 (memide_buf f d h) (set_p_pid 7 zero_proc))
    by (split; try reflexivity; split; cbn; lia).
  split_and!.
  - destruct (memide_iderw_correct memide_disk (memide_demo B_DIRTY 1 7) 0 0 _ _ Hd (Hh B_DIRTY 1 7)) as (_ & _ & _ & _ & Hr);
      [done|done|done|].
    destruct Hr as (d' & s' & b' & E & _ & _ & _ & _ & _ & _ & Hblk & _ & _ & Ho); [done..|].
    destruct Ho as [Ho Hk]. exists d', s'. split_and!; [done|exact (eq_trans (eq_sym Hblk) Ho)|]. rewrite Hk; [by vm_compute|split; vm_compute; congruence|done].
  - destruct (memide_iderw_correct memide_disk (memide_demo 0 1 7) 0 0 _ _ Hd (Hh 0 1 7)) as (_ & _ & _ & _ & Hr);
      [done|done|done|].
    destruct Hr as (d' & s' & b' & E & Hb' & _ & _ & _ & _ & _ & Hblk & _ & _ & Ho); [done..|].
    change (d' = memide_disk) in Ho. subst d'. exists s', b'. split_and!; [done|done|]. rewrite Hblk. by vm_compute.
  - by apply (memide_iderw_correct memide_disk (memide_demo 0 1 8) 0 0 _ _ Hd (Hh 0 1 8)).
  - by apply (memide_iderw_correct memide_disk (memide_demo 0 0 7) 0 0 _ _ Hd (Hh 0 0 7)).
Defined.
