(* ===== verification/Bio.v ===== *)
(** * The buffer cache: [kernel/bio.c]

    [bcache.buf] and [bcache.head] are one table of [NBUF + 1] buffers whose
    last entry is the head of the doubly linked list. *)

From S2P Require Import Prelude Types Spinlock Mmu Kalloc X86vm Vspace Sched Sleeplock Ide.

(** [&bcache.head]. *)
Definition bhead : nat := NBUF.

Definition binit_buf (i : nat) : K unit :=
  h <- get_buf bhead ;;
  upd_buf i (set_b_next (b_next h)) ;;
  upd_buf i (set_b_prev bhead) ;;
  initsleeplock (buf_slp i) ;;
  h <- get_buf bhead ;;
  upd_buf (b_next h) (set_b_prev i) ;;
  upd_buf bhead (set_b_next i).

Definition binit : K unit :=
  initlock bcache_lk ;;
  upd_buf bhead (set_b_prev bhead) ;;
  upd_buf bhead (set_b_next bhead) ;;
  mfor (seq 0 NBUF) binit_buf.

(** A walk along [next] (or [prev]) from buffer [b] to the first buffer that
    passes the test; a list longer than the table has a cycle. *)
Fixpoint bscan (fuel : nat) (link : buf -> nat) (test : buf -> bool) (b : nat) : K (option nat) :=
  match fuel with
  | O => diverge
  | S fuel =>
      if decide (b = bhead) then ret None else
      x <- get_buf b ;;
      if test x then ret (Some b) else bscan fuel link test (link x)
  end.

Definition bget (dev blockno : Z) : K nat :=
  acquire bcache_lk ;;
  h <- get_buf bhead ;;
  o <- bscan (S (S NBUF)) b_next (fun x => (b_dev x =? dev) && (b_blockno x =? blockno)) (b_next h) ;;
  match o with
  | Some b =>
      upd_buf b (fun x => set_b_refcnt (u32 (b_refcnt x + 1)) x) ;;
      release bcache_lk ;;
      acquiresleep (buf_slp b) ;;
      ret b
  | None =>
      h <- get_buf bhead ;;
      o <- bscan (S (S NBUF)) b_prev
             (fun x => (b_refcnt x =? 0) && (Z.land (b_flags x) B_DIRTY =? 0)) (b_prev h) ;;
      match o with
      | Some b =>
          upd_buf b (fun x => set_b_refcnt 1 (set_b_flags 0 (set_b_blockno blockno (set_b_dev dev x)))) ;;
          release bcache_lk ;;
          acquiresleep (buf_slp b) ;;
          ret b
      | None => panic "bget: no buffers"
      end
  end.

Definition bread (dev blockno : Z) : K nat :=
  upd_bc (fun bc => set_num_disk_reads (i32 (num_disk_reads bc + 1)) bc) ;;
  b <- bget dev blockno ;;
  x <- get_buf b ;;
  (if negb (truthy (Z.land (b_flags x) B_VALID)) then iderw b else ret tt) ;;
  ret b.

(** [reboot] resets the machine and never returns. *)
Definition reboot {A} : K A := diverge.

Definition bwrite (b : nat) : K unit :=
  bc <- gets k_bc ;;
  (if truthy (crashn_enable bc) then
     upd_bc (fun bc => set_crashn (i32 (crashn bc - 1)) bc) ;;
     bc <- gets k_bc ;;
     if crashn bc <? 0 then reboot else ret tt
   else ret tt) ;;
  h <- holdingsleep (buf_slp b) ;;
  if negb h then panic "bwrite" else
  upd_buf b (fun x => set_b_flags (Z.lor (b_flags x) B_DIRTY) x) ;;
  iderw b.

(** Unlink buffer [b] and put it at the front of the list. *)
Definition move_to_front (b : nat) : K unit :=
  x <- get_buf b ;;
  upd_buf (b_next x) (set_b_prev (b_prev x)) ;;
  x <- get_buf b ;;
  upd_buf (b_prev x) (set_b_next (b_next x)) ;;
  h <- get_buf bhead ;;
  upd_buf b (set_b_next (b_next h)) ;;
  upd_buf b (set_b_prev bhead) ;;
  h <- get_buf bhead ;;
  upd_buf (b_next h) (set_b_prev b) ;;
  upd_buf bhead (set_b_next b).

Definition brelse (b : nat) : K unit :=
  h <- holdingsleep (buf_slp b) ;;
  if negb h then panic "brelse" else
  releasesleep (buf_slp b) ;;
  acquire bcache_lk ;;
  upd_buf b (fun x => set_b_refcnt (u32 (b_refcnt x - 1)) x) ;;
  x <- get_buf b ;;
  (if b_refcnt x =? 0 then move_to_front b else ret tt) ;;
  release bcache_lk.

(** ** The least-recently-used list

    [path f a l z]: following [f] from [a] goes through [l] to [z]. *)

Fixpoint path (f : nat -> option nat) (a : nat) (l : list nat) (z : nat) : Prop :=
  match l with
  | [] => f a = Some z
  | x :: l => f a = Some x /\ path f x l z
  end.

Section path.
Implicit Types f : nat -> option nat.

Lemma last_cons_default (x d : nat) l : List.last (x :: l) d = List.last l x.
Proof.
  revert x d. induction l as [|y l IH]; intros x d; [done|].
  change (List.last (y :: l) d = List.last (y :: l) x). by rewrite !IH.
Qed.

Lemma last_in (x : nat) l : List.last l x ∈ x :: l.
Proof.
  revert x. induction l as [|y l IH]; intros x; [left|]. rewrite last_cons_default. right. apply IH.
Qed.

Lemma path_app f a l1 x l2 z : path f a (l1 ++ x :: l2) z <-> path f a l1 x /\ path f x l2 z.
Proof. revert a. induction l1 as [|y l1 IH]; intros a; cbn; [done|]. rewrite IH. tauto. Qed.

(** Where a path starts only matters for its first step. *)
Lemma path_from f f' a a' l z :
  path f a l z -> f' a' = f a -> (forall i, i ∈ l -> f' i = f i) -> path f' a' l z.
Proof.
  revert a a'. induction l as [|x l IH]; cbn; intros a a' H Ha Hl; [congruence|].
  destruct H as [H1 H2]. split; [congruence|]. eapply IH; [done| |].
  - apply Hl. left.
  - intros i Hi. apply Hl. by right.
Qed.

Lemma path_ext f f' a l z :
  path f a l z -> (forall i, i ∈ a :: l -> f' i = f i) -> path f' a l z.
Proof. intros H Hi. eapply path_from; [done|apply Hi; left|]. intros. apply Hi. by right. Qed.

(** Take [b] out of a path: the node before it steps over it. *)
Lemma path_unlink f f' a l1 b l2 z :
  path f a (l1 ++ b :: l2) z -> NoDup (a :: l1 ++ b :: l2) ->
  f' (List.last l1 a) = f b ->
  (forall i, i ∈ a :: l1 ++ l2 -> i <> List.last l1 a -> f' i = f i) ->
  path f' a (l1 ++ l2) z.
Proof.
  revert a. induction l1 as [|x l1 IH]; intros a H Hnd Hl Hi.
  - destruct H as [_ H]. cbn in *. eapply path_from; [done|done|].
    intros i Hi2. apply Hi; [by right|]. intros ->. apply NoDup_cons in Hnd as [Hn _].
    apply Hn. by right.
  - destruct H as [H1 H2]. cbn [app] in *. apply NoDup_cons in Hnd as [Hn Hnd].
    rewrite last_cons_default in Hl, Hi. split.
    + rewrite Hi; [done|left|]. intros E. apply Hn. rewrite E.
      destruct (proj1 (elem_of_cons _ _ _) (last_in x l1)) as [->|]; [left|].
      right. apply elem_of_app. by left.
    + apply IH; [done..|]. intros i Hi2 Hne. apply Hi; [by right|done].
Qed.

(** Lead a path to another end: only its last node changes. *)
Lemma path_to f f' a l z z' :
  path f a l z -> NoDup (a :: l) -> f' (List.last l a) = Some z' ->
  (forall i, i ∈ a :: l -> i <> List.last l a -> f' i = f i) -> path f' a l z'.
Proof.
  revert a. induction l as [|x l IH]; intros a H Hnd Hl Hi; [done|].
  destruct H as [H1 H2]. apply NoDup_cons in Hnd as [Hn Hnd].
  rewrite last_cons_default in Hl, Hi. split.
  - rewrite Hi; [done|left|]. intros E. apply Hn. rewrite E. apply last_in.
  - apply IH; [done..|]. intros i Hi2 Hne. apply Hi; [by right|done].
Qed.
End path.

Definition nxt (bs : list buf) (i : nat) : option nat := b_next <$> bs !! i.
Definition prv (bs : list buf) (i : nat) : option nat := b_prev <$> bs !! i.

(** [l] is the list from the most to the least recently used buffer: the links
    of the head and of the buffers go round through it in both directions, and
    it has every buffer once. *)
Record lru (bs : list buf) (l : list nat) : Prop := {
  lru_len : length bs = S NBUF;
  lru_perm : l ≡ₚ seq 0 NBUF;
  lru_next : path (nxt bs) bhead l bhead;
  lru_prev : path (prv bs) bhead (reverse l) bhead
}.

(** What the cache keeps about a buffer, apart from its place in the list. *)
Definition buf_core (b : buf) : buf := set_b_next 0 (set_b_prev 0 b).

Lemma lru_nodup bs l : lru bs l -> NoDup (bhead :: l).
Proof.
  intros H. constructor.
  - rewrite (lru_perm _ _ H), elem_of_seq. unfold bhead. lia.
  - rewrite (lru_perm _ _ H). apply NoDup_seq.
Qed.

Lemma lru_some bs l i : lru bs l -> i ∈ bhead :: l -> exists b, bs !! i = Some b.
Proof.
  intros H Hi. apply lookup_lt_is_Some. rewrite (lru_len _ _ H).
  rewrite (lru_perm _ _ H) in Hi. apply elem_of_cons in Hi as [->|Hi]; [unfold bhead; lia|].
  apply elem_of_seq in Hi. lia.
Qed.

Lemma alter_some (bs : list buf) f i j : is_Some (bs !! j) -> is_Some (alter f i bs !! j).
Proof. rewrite !lookup_lt_is_Some. by rewrite length_alter. Qed.

Lemma nxt_set_next bs i v j :
  is_Some (bs !! i) ->
  nxt (alter (set_b_next v) i bs) j = if decide (i = j) then Some v else nxt bs j.
Proof.
  intros [b H]. unfold nxt. destruct (decide (i = j)) as [->|].
  - by rewrite list_lookup_alter_eq, H.
  - by rewrite list_lookup_alter_ne.
Qed.

Lemma prv_set_prev bs i v j :
  is_Some (bs !! i) ->
  prv (alter (set_b_prev v) i bs) j = if decide (i = j) then Some v else prv bs j.
Proof.
  intros [b H]. unfold prv. destruct (decide (i = j)) as [->|].
  - by rewrite list_lookup_alter_eq, H.
  - by rewrite list_lookup_alter_ne.
Qed.

Lemma nxt_alter bs i f j : (forall b, b_next (f b) = b_next b) -> nxt (alter f i bs) j = nxt bs j.
Proof.
  intros H. unfold nxt. destruct (decide (i = j)) as [->|].
  - rewrite list_lookup_alter_eq. destruct (bs !! j); cbn; [by rewrite H|done].
  - by rewrite list_lookup_alter_ne.
Qed.

Lemma prv_alter bs i f j : (forall b, b_prev (f b) = b_prev b) -> prv (alter f i bs) j = prv bs j.
Proof.
  intros H. unfold prv. destruct (decide (i = j)) as [->|].
  - rewrite list_lookup_alter_eq. destruct (bs !! j); cbn; [by rewrite H|done].
  - by rewrite list_lookup_alter_ne.
Qed.

(** Changing anything but the links keeps the list. *)
Lemma lru_alter bs l i f :
  (forall b, b_next (f b) = b_next b) -> (forall b, b_prev (f b) = b_prev b) ->
  lru bs l -> lru (alter f i bs) l.
Proof.
  intros Hn Hp [H1 H2 H3 H4]. split; [by rewrite length_alter|done| |].
  - eapply path_ext; [done|]. intros j _. by apply nxt_alter.
  - eapply path_ext; [done|]. intros j _. by apply prv_alter.
Qed.

(** The first buffer of [l] that passes the test. *)
Definition bfind (bs : list buf) (test : buf -> bool) (l : list nat) : option nat :=
  List.find (fun i => from_option test false (bs !! i)) l.

(** The scans of [bget] look at the buffers in the order of the list. *)
Lemma bscan_path fuel link test s a l :
  path (fun i => link <$> bufs s !! i) a l bhead -> bhead ∉ l -> (length l < fuel)%nat ->
  forall x, link <$> bufs s !! a = Some x -> bscan fuel link test x s = Done (bfind (bufs s) test l) s.
Proof.
  revert a fuel. induction l as [|y l IH]; intros a [|fuel] Hp Hn Hf x Hx; try (cbn in *; lia).
  - cbn in Hp. simplify_eq. cbn. by rewrite decide_True.
  - destruct Hp as [Hy Hp]. rewrite Hx in Hy. injection Hy as <-. apply not_elem_of_cons in Hn as [Hn1 Hn2].
    cbn [bscan]. rewrite decide_False by done.
    assert (exists b, bufs s !! x = Some b) as [b Hb].
    { destruct (bufs s !! x) as [b|] eqn:E; [by exists b|].
      destruct l; cbn in Hp; rewrite E in Hp; [done|by destruct Hp]. }
    mstep (get_buf_eq s x b Hb). cbn [bfind List.find]. rewrite Hb. cbn [from_option id].
    destruct (test b); [done|]. apply (IH x); [done|done|cbn in Hf; lia|]. by rewrite Hb.
Qed.

Lemma bfind_some bs test l i :
  bfind bs test l = Some i -> i ∈ l /\ exists x, bs !! i = Some x /\ test x = true.
Proof.
  intros [Hin Ht]%List.find_some. split; [by apply list_elem_of_In|].
  destruct (bs !! i) as [x|]; [|done]. by exists x.
Qed.

Lemma bscan_next s l test h :
  lru (bufs s) l -> bufs s !! bhead = Some h ->
  bscan (S (S NBUF)) b_next test (b_next h) s = Done (bfind (bufs s) test l) s.
Proof.
  intros Hl Hh. apply (bscan_path _ b_next test s bhead l); [apply (lru_next _ _ Hl)| | |by rewrite Hh].
  - apply lru_nodup in Hl. by apply NoDup_cons in Hl as [? _].
  - rewrite (lru_perm _ _ Hl), length_seq. lia.
Qed.

Lemma bscan_prev s l test h :
  lru (bufs s) l -> bufs s !! bhead = Some h ->
  bscan (S (S NBUF)) b_prev test (b_prev h) s = Done (bfind (bufs s) test (reverse l)) s.
Proof.
  intros Hl Hh. apply (bscan_path _ b_prev test s bhead (reverse l)); [apply (lru_prev _ _ Hl)| | |by rewrite Hh].
  - apply lru_nodup in Hl. apply NoDup_cons in Hl as [? _]. by rewrite elem_of_reverse.
  - rewrite length_reverse, (lru_perm _ _ Hl), length_seq. lia.
Qed.

Lemma path_last f a l z : path f a l z -> f (List.last l a) = Some z.
Proof.
  revert a. induction l as [|x l IH]; intros a; [done|]. intros [_ H]. rewrite last_cons_default. auto.
Qed.

Lemma path_head f a l z : path f a (reverse l) z -> f a = Some (List.last l z).
Proof.
  intros H. destruct (decide (l = [])) as [->|Hl]; [done|].
  destruct (exists_last Hl) as (k & x & ->). rewrite reverse_app in H. destruct H as [H _].
  by rewrite List.last_last.
Qed.

(** The buffers after [move_to_front], given the neighbours of [b]. *)
Definition unlinked (pb nb : nat) (bs : list buf) : list buf :=
  alter (set_b_next nb) pb (alter (set_b_prev pb) nb bs).
Definition front (b n1 : nat) (bs : list buf) : list buf :=
  alter (set_b_next b) bhead (alter (set_b_prev b) n1
    (alter (set_b_prev bhead) b (alter (set_b_next n1) b bs))).

Lemma nxt_some bs i v : nxt bs i = Some v -> exists x, bs !! i = Some x /\ b_next x = v.
Proof. unfold nxt. destruct (bs !! i) as [x|]; cbn; intros; simplify_eq. by exists x. Qed.

Lemma prv_some bs i v : prv bs i = Some v -> exists x, bs !! i = Some x /\ b_prev x = v.
Proof. unfold prv. destruct (bs !! i) as [x|]; cbn; intros; simplify_eq. by exists x. Qed.

Lemma get_next_eq {B} s i v (k : buf -> K B) :
  nxt (bufs s) i = Some v ->
  exists x, b_next x = v /\ bind (get_buf i) k s = k x s.
Proof. intros (x & Hx & <-)%nxt_some. exists x. split; [done|]. by mstep (get_buf_eq s i x Hx). Qed.

Ltac in_table := apply lookup_lt_is_Some; rewrite ?length_alter; first [assumption|lia].

Lemma move_to_front_eq s b pb nb n1 :
  prv (bufs s) b = Some pb -> nxt (bufs s) b = Some nb -> nb <> b -> pb <> b -> b <> bhead ->
  (pb < length (bufs s))%nat -> (nb < length (bufs s))%nat -> (bhead < length (bufs s))%nat ->
  (n1 < length (bufs s))%nat -> nxt (unlinked pb nb (bufs s)) bhead = Some n1 ->
  move_to_front b s = Done tt (with_bufs (front b n1 (unlinked pb nb (bufs s))) s).
Proof.
  intros (x & Hx & Hxp)%prv_some (x' & Hx' & Hxn)%nxt_some Hnb Hpb Hbh Lp Ln Lh L1 Hn1. simplify_eq.
  pose proof (lookup_lt_Some _ _ _ Hx) as Lb. unfold move_to_front.
  mstep (get_buf_eq s b x Hx). mstep upd_buf_eq; [|in_table].
  mstep (get_buf_eq _ b x); [|cbn; by rewrite list_lookup_alter_ne].
  mstep upd_buf_eq; [|cbn; in_table]. rewrite with_bufs_twice.
  rewrite ?bufs_with. fold (unlinked (b_prev x) (b_next x) (bufs s)).
  set (bs2 := unlinked (b_prev x) (b_next x) (bufs s)) in *.
  assert (Hlen : length bs2 = length (bufs s)) by (unfold bs2, unlinked; by rewrite !length_alter).
  destruct (get_next_eq (with_bufs bs2 s) bhead n1
    (fun h => upd_buf b (set_b_next (b_next h)) ;; upd_buf b (set_b_prev bhead) ;;
       h <- get_buf bhead ;; upd_buf (b_next h) (set_b_prev b) ;; upd_buf bhead (set_b_next b)))
    as (h & Hh & E); [done|]. rewrite E, Hh.
  mstep upd_buf_eq; [|cbn; in_table]. mstep upd_buf_eq; [|cbn; in_table].
  rewrite !with_bufs_twice. rewrite ?bufs_with.
  destruct (get_next_eq (with_bufs (alter (set_b_prev bhead) b (alter (set_b_next n1) b bs2)) s) bhead n1
    (fun h => upd_buf (b_next h) (set_b_prev b) ;; upd_buf bhead (set_b_next b)))
    as (h' & Hh' & E').
  { cbn. rewrite nxt_alter by done. rewrite nxt_set_next by in_table. by rewrite decide_False. }
  rewrite E', Hh'. mstep upd_buf_eq; [|cbn; in_table]. rewrite upd_buf_eq; [|cbn; in_table].
  done.
Qed.

Lemma reverse_nodup (a : nat) l : NoDup (a :: l) -> NoDup (a :: reverse l).
Proof. intros H. rewrite reverse_Permutation. exact H. Qed.

(** Membership in a list, by cases. *)
Ltac memb := rewrite ?elem_of_cons, ?elem_of_app, ?elem_of_cons in *; naive_solver.

Lemma elem_of_cons_reverse (a : nat) l i : (i ∈ a :: reverse l) <-> (i ∈ a :: l).
Proof. by rewrite !elem_of_cons, elem_of_reverse. Qed.

Lemma buf_core_alter f i (bs : list buf) :
  (forall b, buf_core (f b) = buf_core b) -> buf_core <$> alter f i bs = buf_core <$> bs.
Proof.
  intros H. revert i. induction bs as [|b bs IH]; intros [|i]; [done..| |]; cbn; f_equal; [apply H|].
  apply IH.
Qed.

(** Taking a buffer out of the list joins its neighbours. *)
Lemma unlinked_paths bs l1 b l2 pb nb :
  lru bs (l1 ++ b :: l2) -> pb = List.last l1 bhead -> nb = List.last (reverse l2) bhead ->
  path (nxt (unlinked pb nb bs)) bhead (l1 ++ l2) bhead /\
  path (prv (unlinked pb nb bs)) bhead (reverse (l1 ++ l2)) bhead.
Proof.
  intros H -> ->. pose proof (lru_nodup _ _ H) as Hnd. destruct H as [Hlen Hperm Hn Hp].
  pose proof Hp as Hp'. pose proof Hn as Hn'. apply path_app in Hn' as [Hn1 Hn2].
  rewrite reverse_app, reverse_cons, <- app_assoc in Hp, Hp'. cbn [app] in Hp, Hp'.
  apply path_app in Hp' as [Hp1 Hp2].
  assert (Sp : is_Some (bs !! List.last l1 bhead)).
  { apply path_last in Hn1. destruct (nxt_some _ _ _ Hn1) as (? & ? & _). by eexists. }
  assert (Sn : is_Some (bs !! List.last (reverse l2) bhead)).
  { apply path_last in Hp1. destruct (prv_some _ _ _ Hp1) as (? & ? & _). by eexists. }
  unfold unlinked. split.
  - eapply path_unlink; [exact Hn|done| |].
    + rewrite nxt_set_next by (auto using alter_some).
      rewrite decide_True by done. symmetry. apply path_head. by rewrite reverse_involutive.
    + intros i _ Hi. rewrite nxt_set_next, decide_False by (auto using alter_some).
      by apply nxt_alter.
  - rewrite reverse_app. eapply path_unlink; [exact Hp| | |].
    + apply (reverse_nodup bhead) in Hnd.
      by rewrite reverse_app, reverse_cons, <- app_assoc in Hnd.
    + rewrite prv_alter, prv_set_prev, decide_True by done. symmetry. by apply path_head.
    + intros i _ Hi. by rewrite prv_alter, prv_set_prev, decide_False.
Qed.

(** Putting an unlinked buffer at the front. *)
Lemma front_paths bs b m n1 :
  path (nxt bs) bhead m bhead -> path (prv bs) bhead (reverse m) bhead -> nxt bs bhead = Some n1 ->
  NoDup (bhead :: b :: m) -> is_Some (bs !! b) -> is_Some (bs !! n1) -> is_Some (bs !! bhead) ->
  path (nxt (front b n1 bs)) bhead (b :: m) bhead /\
  path (prv (front b n1 bs)) bhead (reverse (b :: m)) bhead.
Proof.
  intros Hn Hp H1 Hnd Lb L1 Lh.
  assert (En : forall i, nxt (front b n1 bs) i =
    if decide (bhead = i) then Some b else if decide (b = i) then Some n1 else nxt bs i).
  { intros i. unfold front. rewrite nxt_set_next by (auto using alter_some).
    destruct (decide _); [done|]. rewrite !nxt_alter by done. by rewrite nxt_set_next. }
  assert (Ep : forall i, prv (front b n1 bs) i =
    if decide (n1 = i) then Some b else if decide (b = i) then Some bhead else prv bs i).
  { intros i. unfold front. rewrite prv_alter by done.
    rewrite prv_set_prev by (auto using alter_some).
    destruct (decide _); [done|]. rewrite prv_set_prev by (auto using alter_some).
    destruct (decide _); [done|]. by apply prv_alter. }
  apply NoDup_cons in Hnd as [Hh Hnd]. apply NoDup_cons in Hnd as [Hb Hnd].
  assert (E1 : n1 = List.last (reverse m) bhead).
  { assert (nxt bs bhead = Some (List.last (reverse m) bhead)); [|congruence].
    apply path_head. by rewrite reverse_involutive. }
  assert (Hn1 : n1 <> b).
  { intros ->. destruct (proj1 (elem_of_cons _ _ _) (last_in bhead (reverse m))) as [E|Hin].
    - apply Hh. rewrite <- E, <- E1. left.
    - apply Hb. by rewrite E1, <- elem_of_reverse. }
  split.
  - split; [by rewrite En, decide_True|]. eapply path_from; [exact Hn| |].
    + rewrite En, decide_False by set_solver. by rewrite decide_True.
    + intros i Hi. rewrite En, !decide_False; [done|set_solver..].
  - rewrite reverse_cons. apply path_app. split; [|cbn [path]; by rewrite Ep, decide_False, decide_True].
    eapply path_to; [exact Hp| | |].
    + apply reverse_nodup. constructor; [set_solver|done].
    + by rewrite Ep, decide_True.
    + intros i Hi Hne. rewrite Ep, !decide_False; [done|set_solver|congruence].
Qed.

(** [move_to_front] moves the buffer to the front of the list and changes
    nothing else. *)
Lemma move_to_front_lru s l1 b l2 :
  lru (bufs s) (l1 ++ b :: l2) ->
  exists bs, move_to_front b s = Done tt (with_bufs bs s) /\ lru bs (b :: l1 ++ l2) /\
    buf_core <$> bs = buf_core <$> bufs s.
Proof.
  intros H. pose proof (lru_nodup _ _ H) as Hnd.
  assert (Hne : b <> bhead /\ (b ∉ l1) /\ (b ∉ l2)).
  { apply NoDup_cons in Hnd as [Hh Hnd]. apply NoDup_app in Hnd as (_ & Hd & Hnd).
    apply NoDup_cons in Hnd as [Hb _]. split_and!; [memb| |done].
    intros Hi. apply (Hd _ Hi). left. }
  destruct Hne as (Hbh & Hb1 & Hb2).
  destruct (unlinked_paths _ l1 b l2 _ _ H eq_refl eq_refl) as [Hn Hp].
  set (pb := List.last l1 bhead) in *. set (nb := List.last (reverse l2) bhead) in *.
  assert (Hpb : pb ∈ bhead :: l1) by apply last_in.
  assert (Hnb : nb ∈ bhead :: l2) by (rewrite <- (elem_of_cons_reverse bhead l2); apply last_in).
  assert (Hin : forall i, i ∈ bhead :: l1 ++ b :: l2 -> is_Some (bufs s !! i))
    by (intros i Hi; destruct (lru_some _ _ i H Hi) as [? ->]; done).
  assert (Hnd' : NoDup (bhead :: b :: l1 ++ l2)) by (by rewrite (Permutation_middle l1 l2 b)).
  set (bs2 := unlinked pb nb (bufs s)) in *.
  assert (Hin2 : forall i, i ∈ bhead :: l1 ++ b :: l2 -> is_Some (bs2 !! i))
    by (intros; unfold bs2, unlinked; auto using alter_some).
  set (n1 := List.last (reverse (l1 ++ l2)) bhead).
  assert (Hn1 : nxt bs2 bhead = Some n1) by (apply path_head; by rewrite reverse_involutive).
  assert (Hn1i : n1 ∈ bhead :: l1 ++ l2) by (rewrite <- elem_of_cons_reverse; apply last_in).
  exists (front b n1 bs2). split; [|split].
  - destruct H as [Hlen _ Hn0 Hp0]. apply path_app in Hn0 as [_ Hn0].
    rewrite reverse_app, reverse_cons, <- app_assoc in Hp0. apply path_app in Hp0 as [_ Hp0].
    apply move_to_front_eq; try (apply lookup_lt_is_Some; apply Hin; memb).
    + by apply path_head.
    + apply path_head. by rewrite reverse_involutive.
    + memb.
    + memb.
    + memb.
    + done.
  - destruct (front_paths bs2 b (l1 ++ l2) n1) as [Hn2 Hp2]; try done; [apply Hin2; memb..|].
    split; [|by rewrite Permutation_middle; apply (lru_perm _ _ H)|done|done].
    unfold front, bs2, unlinked. rewrite !length_alter. apply (lru_len _ _ H).
  - unfold front, bs2, unlinked. by rewrite !buf_core_alter.
Qed.

(** ** [binit] *)

(** The buffers that [binit] leaves, given that they were all zero. *)
Definition binit_bufs : list buf :=
  match binit (zero_state 0 ∅) with Done _ s => bufs s | _ => [] end.

Lemma binit_eq s :
  bufs s = replicate (S NBUF) zero_buf ->
  binit s = Done tt (with_bufs binit_bufs (lk_set bcache_lk zero_lock s)).
Proof.
  destruct s as [c km fr pt ft ic sb [lk bs n1 n2 n3] id co dv ti kp ev]. unfold bufs. cbn. intros ->.
  vm_compute. reflexivity.
Qed.

Lemma binit_lru : lru binit_bufs (reverse (seq 0 NBUF)).
Proof.
  split; [reflexivity|apply reverse_Permutation| |].
  - vm_compute. repeat split.
  - rewrite reverse_involutive. vm_compute. repeat split.
Qed.

Lemma binit_keys i x : binit_bufs !! i = Some x -> b_dev x = 0 /\ b_blockno x = 0.
Proof.
  assert (H : Forall (fun x => b_dev x = 0 /\ b_blockno x = 0) binit_bufs)
    by (vm_compute; repeat constructor).
  by apply (Forall_lookup_1 _ _ i x H).
Qed.
#[global] Opaque binit_bufs.
