(* ===== verification/Fs.v ===== *)
(** * The file system: [kernel/fs.c]

    The block bitmap, the inode cache, reading files, directories and path
    names.  A function that fills a buffer of its caller returns the bytes
    instead.  A path is the list of its characters; the end of the list is the
    terminating NUL. *)

From S2P Require Import Prelude Types Strings Spinlock Mmu Kalloc X86vm Umem Vspace Sched.
From S2P Require Import Console Sleeplock Ide Bio.

Definition INODEFILEINO : Z := 0.
Definition ROOTINO : Z := 1.
Definition BPB : Z := BSIZE * 8.
Definition sizeof_dinode : Z := 64.
Definition sizeof_dirent : Z := 16.

(** [INODEOFF] and [BBLOCK] of [inc/fs.h]. *)
Definition INODEOFF (inum : Z) : Z := u64 (inum * sizeof_dinode).
Definition BBLOCK (b : Z) (sb : superblock) : Z := u32 (b / BPB + sb_bmapstart sb).

(** ** Reading structures out of bytes (little endian) *)

Definition byte_at (l : list Z) (i : nat) : Z := default 0 (l !! i).
Definition le16 (l : list Z) (i : nat) : Z := byte_at l i + 256 * byte_at l (i + 1).
Definition le32 (l : list Z) (i : nat) : Z := le16 l i + 65536 * le16 l (i + 2).

Definition decode_superblock (l : list Z) : superblock :=
  mk_superblock (le32 l 0) (le32 l 4) (le32 l 8) (le32 l 12).

Definition decode_dinode (l : list Z) : dinode :=
  mk_dinode (i16 (le16 l 0)) (i16 (le16 l 2)) (le32 l 4) (mk_extent (le32 l 8) (le32 l 12)).

Definition decode_dirent (l : list Z) : dirent := mk_dirent (le16 l 0) (take DIRSIZ (drop 2 l)).

(** ** Blocks *)

Definition readsb (dev : Z) : K superblock :=
  bp <- bread dev 1 ;;
  b <- get_buf bp ;;
  let sb := decode_superblock (b_data b) in
  brelse bp ;;
  ret sb.

(** [data[bi/8]] of a bitmap block, changed by [f]. *)
Definition upd_byte (bp : nat) (bi : Z) (f : Z -> Z) : K unit :=
  b <- get_buf bp ;;
  v <- deref "bitmap index" (b_data b !! Z.to_nat (bi / 8)) ;;
  upd_buf bp (set_b_data (<[Z.to_nat (bi / 8) := u8 (f v)]> (b_data b))).

Fixpoint bmark_loop (fuel : nat) (bp : nat) (bi last : Z) (used' : bool) : K unit :=
  match fuel with
  | O => diverge
  | S fuel =>
      if u32 bi <=? last then
        let m := Z.shiftl 1 (bi mod 8) in
        (if used' then upd_byte bp bi (fun v => Z.lor v m)
         else
           b <- get_buf bp ;;
           v <- deref "bitmap index" (b_data b !! Z.to_nat (bi / 8)) ;;
           if Z.land v m =? 0 then panic "freeing free block"
           else upd_byte bp bi (fun v => Z.land v (Z.lnot m))) ;;
        bmark_loop fuel bp (i32 (bi + 1)) last used'
      else ret tt
  end.

Definition bmark (bp : nat) (start last : Z) (used' : bool) : K unit :=
  bmark_loop (S (Z.to_nat (last - start + 1))) bp (i32 start) last used' ;;
  upd_buf bp (fun b => set_b_flags (Z.lor (b_flags b) B_DIRTY) b).

(** The inner loop of [balloc] over one bitmap block: the first run of [n] free
    blocks, as its first and last bit. *)
Fixpoint balloc_scan (fuel : nat) (data : list Z) (b bi sz i size n : Z) : option (Z * Z) :=
  match fuel with
  | O => None
  | S fuel =>
      if (bi <? BPB) && (u32 (b + bi) <? size) then
        let m := Z.shiftl 1 (bi mod 8) in
        if Z.land (byte_at data (Z.to_nat (bi / 8))) m =? 0 then
          let sz := u32 (sz + 1) in
          let i := if sz =? 1 then bi else i in
          if sz =? n then Some (i, bi) else balloc_scan fuel data b (bi + 1) sz i size n
        else balloc_scan fuel data b (bi + 1) 0 0 size n
      else None
  end.

Fixpoint balloc_loop (fuel : nat) (dev b n : Z) : K Z :=
  match fuel with
  | O => diverge
  | S fuel =>
      sb <- gets k_sb ;;
      if u32 b <? sb_size sb then
        bp <- bread dev (BBLOCK b sb) ;;
        x <- get_buf bp ;;
        match balloc_scan (S (Z.to_nat BPB)) (b_data x) b 0 0 0 (sb_size sb) n with
        | Some (i, bi) =>
            bmark bp i bi true ;;
            brelse bp ;;
            ret (u32 (b + i))
        | None =>
            brelse bp ;;
            balloc_loop fuel dev (i32 (b + BPB)) n
        end
      else panic "balloc: can't allocate contiguous blocks"
  end.

Definition balloc (dev n : Z) : K Z :=
  sb <- gets k_sb ;;
  balloc_loop (S (S (Z.to_nat (sb_size sb / BPB)))) dev 0 n.

Definition bfree (dev b n : Z) : K unit :=
  assertm (1 <=? n) "freeing less than 1 block" ;;
  sb <- gets k_sb ;;
  assertm (BBLOCK b sb =? BBLOCK (u32 (b + n - 1)) sb)
    "returned blocks live in different bitmap sectors" ;;
  bp <- bread dev (BBLOCK b sb) ;;
  bmark bp (b mod BPB) (u32 (b + n - 1) mod BPB) false ;;
  brelse bp.

(** ** The inode cache *)

Definition upd_ic (f : icache -> icache) : K unit := modify (fun s => set_k_ic (f (k_ic s)) s).

Definition get_inode (ip : iptr) : K inode :=
  match ip with
  | ip_inodefile => gets (fun s => ic_inodefile (k_ic s))
  | ip_cache i =>
      o <- gets (fun s => ic_inode (k_ic s) !! i) ;;
      deref "inode pointer" o
  end.

Definition upd_inode (ip : iptr) (f : inode -> inode) : K unit :=
  x <- get_inode ip ;;
  upd_ic (fun c =>
    match ip with
    | ip_inodefile => set_ic_inodefile (f x) c
    | ip_cache i => set_ic_inode (<[i := f x]> (ic_inode c)) c
    end).

(** The fields of an in-memory inode that come from the disk. *)
Definition load_dinode (di : dinode) (x : inode) : inode :=
  set_i_data (d_data di) (set_i_size (d_size di) (set_i_devid (d_devid di) (set_i_type (d_type di) x))).

Definition init_inodefile (dev : Z) : K unit :=
  sb <- gets k_sb ;;
  bp <- bread dev (sb_inodestart sb) ;;
  b <- get_buf bp ;;
  let di := decode_dinode (b_data b) in
  upd_inode ip_inodefile (fun x =>
    load_dinode di (set_i_ref 1 (set_i_valid 1 (set_i_dev (u32 dev) (set_i_inum INODEFILEINO x))))) ;;
  brelse bp.

Definition iinit (dev : Z) : K unit :=
  initlock icache_lk ;;
  mfor (seq 0 NINODE) (fun i => initsleeplock (inode_slp (ip_cache i))) ;;
  initsleeplock (inode_slp ip_inodefile) ;;
  sb <- readsb dev ;;
  modify (set_k_sb sb) ;;
  cprintf (String.append "sb: size %d nblocks %d bmap start %d inodestart %d" nl)
    [va_int (sb_size sb); va_int (sb_nblocks sb); va_int (sb_bmapstart sb); va_int (sb_inodestart sb)] ;;
  init_inodefile dev.

(** The scan of [iget]: the cached inode, or else the first empty slot. *)
Fixpoint iget_scan (l : list inode) (i : nat) (empty : option nat) (dev inum : Z) : nat + option nat :=
  match l with
  | [] => inr empty
  | x :: l =>
      if (0 <? i_ref x) && (i_dev x =? dev) && (i_inum x =? inum) then inl i else
      let empty := match empty with
                   | None => if i_ref x =? 0 then Some i else None
                   | Some _ => empty
                   end in
      iget_scan l (S i) empty dev inum
  end.

Definition iget (dev inum : Z) : K iptr :=
  acquire icache_lk ;;
  c <- gets k_ic ;;
  match iget_scan (ic_inode c) 0 None dev inum with
  | inl i =>
      upd_inode (ip_cache i) (fun x => set_i_ref (i32 (i_ref x + 1)) x) ;;
      release icache_lk ;;
      ret (ip_cache i)
  | inr None => panic "iget: no inodes"
  | inr (Some i) =>
      upd_inode (ip_cache i) (fun x =>
        set_i_inum inum (set_i_dev dev (set_i_valid 0 (set_i_ref 1 x)))) ;;
      release icache_lk ;;
      ret (ip_cache i)
  end.

Definition idup (ip : iptr) : K iptr :=
  acquire icache_lk ;;
  upd_inode ip (fun x => set_i_ref (i32 (i_ref x + 1)) x) ;;
  release icache_lk ;;
  ret ip.

Definition irelease (ip : iptr) : K unit :=
  acquire icache_lk ;;
  x <- get_inode ip ;;
  (if i_ref x =? 1 then upd_inode ip (set_i_type 0) else ret tt) ;;
  upd_inode ip (fun x => set_i_ref (i32 (i_ref x - 1)) x) ;;
  release icache_lk.

(** ** Reading and writing *)

(** [devsw[ip->devid]], if the device number has a driver. *)
Definition dev_driver (x : inode) : K (option driver) :=
  t <- gets k_devsw ;;
  ret (if (i_devid x <? 0) || (NDEV <=? i_devid x) then None
       else mjoin (t !! Z.to_nat (i_devid x))).

(** The copy loop of [readi]: the bytes stored at [dst]. *)
Fixpoint readi_loop (fuel : nat) (x : inode) (off tot n : Z) : K (list Z) :=
  match fuel with
  | O => diverge
  | S fuel =>
      if tot <? n then
        bp <- bread (i_dev x) (u32 (startblkno (i_data x) + off / BSIZE)) ;;
        let m := Z.min (u32 (n - tot)) (u32 (BSIZE - off mod BSIZE)) in
        b <- get_buf bp ;;
        let bs := take (Z.to_nat m) (drop (Z.to_nat (off mod BSIZE)) (b_data b)) in
        brelse bp ;;
        rest <- readi_loop fuel x (u32 (off + m)) (u32 (tot + m)) n ;;
        ret (bs ++ rest)
      else ret []
  end.

(** [readi(ip, dst, off, n)]: the result and the bytes stored at [dst]. *)
Definition readi (ip : iptr) (off n : Z) : K (Z * list Z) :=
  h <- holdingsleep (inode_slp ip) ;;
  if negb h then panic "not holding lock" else
  x <- get_inode ip ;;
  if i_type x =? T_DEV then
    o <- dev_driver x ;;
    match o with
    | None => ret (-1, [])
    | Some drv_console => consoleread (i32 n)
    end
  else
  if (i_size x <? off) || (u32 (off + n) <? off) then ret (-1, []) else
  let n := if i_size x <? u32 (off + n) then u32 (i_size x - off) else n in
  bs <- readi_loop (Z.to_nat (n / BSIZE) + 3) x off 0 n ;;
  ret (i32 n, bs).

(** [src] is an address. *)
Definition writei (ip : iptr) (src off n : Z) : K Z :=
  h <- holdingsleep (inode_slp ip) ;;
  if negb h then panic "not holding lock" else
  x <- get_inode ip ;;
  if i_type x =? T_DEV then
    o <- dev_driver x ;;
    match o with
    | None => ret (-1)
    | Some drv_console => buf <- copyin (Z.to_nat (i32 n)) src ;; consolewrite buf (i32 n)
    end
  else ret (-1).

Definition unlocki (ip : iptr) : K unit :=
  h <- holdingsleep (inode_slp ip) ;;
  if negb h then panic "unlocki" else
  x <- get_inode ip ;;
  if i_ref x <? 1 then panic "unlocki" else
  releasesleep (inode_slp ip).

(** [read_dinode], given [locki(&icache.inodefile)].  If [readi] comes back
    short, the fields of the record are uninitialised. *)
Definition read_dinode (lock_inodefile : K unit) (inum : Z) : K dinode :=
  h <- holdingsleep (inode_slp ip_inodefile) ;;
  (if (h : bool) then ret tt else lock_inodefile) ;;
  let* (_, bs) := readi ip_inodefile (u32 (INODEOFF inum)) sizeof_dinode in
  (if (h : bool) then ret tt else unlocki ip_inodefile) ;;
  if (length bs <? 16)%nat then fault "uninitialised dinode" else
  ret (decode_dinode bs).

(** [locki] calls itself on the inode file only. *)
Fixpoint locki_rec (fuel : nat) (ip : iptr) : K unit :=
  match fuel with
  | O => diverge
  | S fuel =>
      x <- get_inode ip ;;
      if i_ref x <? 1 then panic "locki" else
      acquiresleep (inode_slp ip) ;;
      x <- get_inode ip ;;
      if i_valid x =? 0 then
        (if decide (ip = ip_inodefile) then ret tt else locki_rec fuel ip_inodefile) ;;
        dip <- read_dinode (locki_rec fuel ip_inodefile) (i_inum x) ;;
        (if decide (ip = ip_inodefile) then ret tt else unlocki ip_inodefile) ;;
        upd_inode ip (load_dinode dip) ;;
        upd_inode ip (set_i_valid 1) ;;
        x <- get_inode ip ;;
        if i_type x =? 0 then panic "iget: no type" else ret tt
      else ret tt
  end.

Definition locki (ip : iptr) : K unit := locki_rec 3 ip.

Definition stati (ip : iptr) : K stat :=
  h <- holdingsleep (inode_slp ip) ;;
  if negb h then panic "not holding lock" else
  x <- get_inode ip ;;
  ret (mk_stat (i_type x) (i32 (i_dev x)) (i_inum x) (i_size x)).

Definition concurrent_stati (ip : iptr) : K stat :=
  locki ip ;;
  st <- stati ip ;;
  unlocki ip ;;
  ret st.

Definition concurrent_readi (ip : iptr) (off n : Z) : K (Z * list Z) :=
  locki ip ;;
  r <- readi ip off n ;;
  unlocki ip ;;
  ret r.

Definition concurrent_writei (ip : iptr) (src off n : Z) : K Z :=
  locki ip ;;
  r <- writei ip src off n ;;
  unlocki ip ;;
  ret r.

(** ** Directories and paths *)

Definition namecmp (s t : list Z) : Z := strncmp_list DIRSIZ s t.

(** The loop of [dirlookup]: the entry found and its offset. *)
Fixpoint dirlookup_loop (fuel : nat) (dp : iptr) (name : list Z) (off : Z) : K (option (iptr * Z)) :=
  match fuel with
  | O => diverge
  | S fuel =>
      x <- get_inode dp ;;
      if off <? i_size x then
        let* (r, bs) := readi dp off sizeof_dirent in
        if negb (r =? sizeof_dirent) then panic "dirlink read" else
        let de := decode_dirent bs in
        if de_inum de =? 0 then dirlookup_loop fuel dp name (u32 (off + sizeof_dirent)) else
        if namecmp name (de_name de) =? 0 then
          ip <- iget (i_dev x) (de_inum de) ;;
          ret (Some (ip, off))
        else dirlookup_loop fuel dp name (u32 (off + sizeof_dirent))
      else ret None
  end.

Definition dirlookup (dp : iptr) (name : list Z) : K (option (iptr * Z)) :=
  x <- get_inode dp ;;
  if negb (i_type x =? T_DIR) then panic "dirlookup not DIR" else
  dirlookup_loop (S (S (Z.to_nat (i_size x / sizeof_dirent)))) dp name 0.

Definition slash : Z := 47.

(** [while ( *path == '/') path++;] *)
Fixpoint skip_slashes (path : list Z) : list Z :=
  match path with
  | c :: rest => if c =? slash then skip_slashes rest else path
  | [] => []
  end.

(** The characters up to the next slash or the end of the string. *)
Fixpoint take_elem (path : list Z) : list Z * list Z :=
  match path with
  | c :: rest =>
      if (c =? slash) || (c =? 0) then ([], path)
      else let '(e, r) := take_elem rest in (c :: e, r)
  | [] => ([], [])
  end.

(** [skipelem]: the rest of the path and the element copied into [name]. *)
Definition skipelem (path : list Z) : option (list Z * list Z) :=
  let path := skip_slashes path in
  match path with
  | [] => None
  | c :: _ =>
      if c =? 0 then None else
      let '(s, rest) := take_elem path in
      Some (skip_slashes rest, take DIRSIZ s)
  end.

(** The end of a path. *)
Definition at_end (path : list Z) : bool :=
  match path with [] => true | c :: _ => c =? 0 end.

(** The loop of [namex] from inode [ip]; the result is the inode and the last
    element copied into [name]. *)
Fixpoint namex_loop (fuel : nat) (ip : iptr) (path : list Z) (parent' : bool) (name : list Z)
    : K (option (iptr * list Z)) :=
  match fuel with
  | O => diverge
  | S fuel =>
      match skipelem path with
      | None => if parent' then irelease ip ;; ret None else ret (Some (ip, name))
      | Some (path, name) =>
          locki ip ;;
          x <- get_inode ip ;;
          if negb (i_type x =? T_DIR) then unlocki ip ;; irelease ip ;; ret None else
          if parent' && at_end path then unlocki ip ;; ret (Some (ip, name)) else
          o <- dirlookup ip name ;;
          match o with
          | None => unlocki ip ;; irelease ip ;; ret None
          | Some (next, _) =>
              unlocki ip ;;
              irelease ip ;;
              namex_loop fuel next path parent' name
          end
      end
  end.

(** [namei] of the path made of one slash. *)
Definition namei_root : K (option iptr) :=
  ip <- iget ROOTDEV ROOTINO ;;
  o <- namex_loop 2 ip [slash] false [] ;;
  ret (fst <$> o).

Definition namex (path : list Z) (parent' : bool) : K (option (iptr * list Z)) :=
  ip <- (if bool_decide (head path = Some slash) then iget ROOTDEV ROOTINO
         else o <- namei_root ;; ip <- deref "null inode" o ;; idup ip) ;;
  namex_loop (S (length path)) ip path parent' [].

Definition namei (path : list Z) : K (option iptr) :=
  o <- namex path false ;;
  ret (fst <$> o).

Definition nameiparent (path : list Z) : K (option (iptr * list Z)) := namex path true.

Definition rootlookup (name : list Z) : K (option iptr) :=
  o <- namei [slash] ;;
  dp <- deref "null inode" o ;;
  r <- dirlookup dp name ;;
  ret (fst <$> r).

Definition iopen (path : list Z) : K (option iptr) :=
  o <- namei path ;;
  match o with
  | None => ret None
  | Some ip => locki ip ;; unlocki ip ;; ret (Some ip)
  end.
