(* ===== verification/Elf.v ===== *)
(** * Loading programs: the ELF loader of [kernel/vspace.c]

    [vrloaddata] and [vspaceloadcode] with the formats of [inc/elf.h], and the
    two dumps of an address space.  The code to call them, [exec], is a stub.
    An address space is passed and returned as in [Vspace]; what a failed
    load left in it is part of the result. *)

From S2P Require Import Prelude Types Strings Spinlock Mmu Kalloc X86vm Umem Vspace Sched.
From S2P Require Import Console Sleeplock Ide Bio Fs.

(** ** [inc/elf.h] *)

Definition ELF_MAGIC : Z := 0x464C457F.
Definition ELF_PROG_LOAD : Z := 1.
Definition ELF_PROG_FLAG_WRITE : Z := 2.
Definition sizeof_elfhdr : Z := 64.
Definition sizeof_proghdr : Z := 56.

Definition le64 (l : list Z) (i : nat) : Z := le32 l i + 2 ^ 32 * le32 l (i + 4).

(** The fields of [struct elfhdr] that the loader reads. *)
Record elfhdr := mk_elfhdr {
  eh_magic : Z;
  eh_entry : Z;
  eh_phoff : Z;
  eh_phnum : Z
}.
Definition decode_elfhdr (l : list Z) : elfhdr := mk_elfhdr (le32 l 0) (le64 l 24) (le64 l 32) (le16 l 56).

(** The fields of [struct proghdr] that the loader reads. *)
Record proghdr := mk_proghdr {
  ph_type : Z;
  ph_flags : Z;
  ph_off : Z;
  ph_vaddr : Z;
  ph_filesz : Z;
  ph_memsz : Z
}.
Definition decode_proghdr (l : list Z) : proghdr :=
  mk_proghdr (le32 l 0) (le32 l 4) (le64 l 8) (le64 l 16) (le64 l 32) (le64 l 40).

(** ** The loader *)

Fixpoint loaddata_loop (fuel : nat) (r : vregion) (va : Z) (ip : iptr) (offset i sz : Z) : K (vregion * Z) :=
  match fuel with
  | O => diverge
  | S fuel =>
      if i <? sz then
        let* (r, o) := va2vpage_info r (u64 (va + i)) in
        ref <- deref "null vpage_info" o ;;
        vpi <- vpi_get ref ;;
        assertm (truthy (used vpi)) "page must be allocated" ;;
        let n := Z.min (u32 (sz - i)) PGSIZE in
        let* (rc, bs) := readi ip (u32 (offset + i)) n in
        page_write (P2V (u64 (Z.shiftl (ppn vpi) PT_SHIFT))) 0 bs ;;
        if negb (u32 rc =? n) then ret (r, -1) else
        loaddata_loop fuel r va ip offset (u32 (i + PGSIZE)) sz
      else ret (r, 0)
  end.

Definition vrloaddata (r : vregion) (va : Z) (ip : iptr) (offset sz : Z) : K (vregion * Z) :=
  assertm (va mod PGSIZE =? 0) "va must be page aligned" ;;
  loaddata_loop (S (S (page_span 0 sz))) r va ip offset 0 sz.

(** What the loop over the program headers leaves: whether none was loaded
    yet, the size that the last [vregionaddmap] returned and [code_end]; or
    the failure of the load. *)
Inductive load_state :=
| load_ok (vs : vspace) (first_section : bool) (sz code_end : Z)
| load_fail (vs : vspace).

(** One loadable segment. *)
Definition load_segment (vs : vspace) (ip : iptr) (ph : proghdr) (first_section : bool) : K load_state :=
  if ph_memsz ph <? ph_filesz ph then ret (load_fail vs) else
  if u64 (ph_vaddr ph + ph_memsz ph) <? ph_vaddr ph then ret (load_fail vs) else
  r <- get_region vs VR_CODE ;;
  let r := if first_section then set_va_base (PGROUNDDOWN (ph_vaddr ph)) r else r in
  let w := if truthy (Z.land (ph_flags ph) ELF_PROG_FLAG_WRITE) then VPI_WRITABLE else VPI_READONLY in
  let* (r, sz) := vregionaddmap r (ph_vaddr ph) (ph_memsz ph) VPI_PRESENT w in
  if sz <? 0 then ret (load_fail (put_region VR_CODE r vs)) else
  if negb (ph_vaddr ph mod PGSIZE =? 0) then ret (load_fail (put_region VR_CODE r vs)) else
  let code_end := u64 (ph_vaddr ph + ph_memsz ph) in
  let* (r, rc) := vrloaddata r (ph_vaddr ph) ip (u32 (ph_off ph)) (u32 (ph_filesz ph)) in
  if rc <? 0 then ret (load_fail (put_region VR_CODE r vs)) else
  ret (load_ok (put_region VR_CODE r vs) false sz code_end).

(** The loop, with [more] headers to go from offset [off]. *)
Fixpoint load_segments (more : nat) (vs : vspace) (ip : iptr) (off : Z) (first_section : bool) (sz code_end : Z)
    : K load_state :=
  match more with
  | O => ret (load_ok vs first_section sz code_end)
  | S more =>
      let* (rc, bs) := readi ip (u32 off) sizeof_proghdr in
      if negb (rc =? sizeof_proghdr) then ret (load_fail vs) else
      let ph := decode_proghdr bs in
      if negb (ph_type ph =? ELF_PROG_LOAD)
      then load_segments more vs ip (i32 (off + sizeof_proghdr)) first_section sz code_end
      else
        st <- load_segment vs ip ph first_section ;;
        match st with
        | load_fail vs => ret (load_fail vs)
        | load_ok vs first_section sz code_end =>
            load_segments more vs ip (i32 (off + sizeof_proghdr)) first_section sz code_end
        end
  end.

(** The label [elf_failure]. *)
Definition elf_failure (vs : vspace) (ip : iptr) : K (vspace * Z * option Z) :=
  unlocki ip ;;
  irelease ip ;;
  ret (vs, 0, None).

(** The address space, the result, and the entry point stored through [rip]. *)
Definition vspaceloadcode (vs : vspace) (path : list Z) : K (vspace * Z * option Z) :=
  o <- namei path ;;
  match o with
  | None => ret (vs, 0, None)
  | Some ip =>
      locki ip ;;
      let* (rc, bs) := readi ip 0 sizeof_elfhdr in
      if negb (rc =? sizeof_elfhdr) then elf_failure vs ip else
      let elf := decode_elfhdr bs in
      if negb (eh_magic elf =? ELF_MAGIC) then elf_failure vs ip else
      st <- load_segments (Z.to_nat (eh_phnum elf)) vs ip (i32 (eh_phoff elf)) true 0 0 ;;
      match st with
      | load_fail vs => elf_failure vs ip
      | load_ok vs first_section sz code_end =>
          assertm (negb first_section) "!first_section" ;;
          code <- get_region vs VR_CODE ;;
          heap <- get_region vs VR_HEAP ;;
          let vs := put_region VR_CODE (set_vr_size (u64 (code_end - va_base code)) code) vs in
          let vs := put_region VR_HEAP
                      (set_vr_size 0 (set_va_base (u64 (PGROUNDUP code_end + PGSIZE)) heap)) vs in
          unlocki ip ;;
          irelease ip ;;
          ret (vs, sz, Some (eh_entry elf))
      end
  end.

(** ** The dumps *)

(** The 64-bit word at offset [o] of the page of [vpi]. *)
Definition page_word (vpi : vpage_info) (o : Z) : K Z :=
  bs <- page_read (P2V (u64 (Z.shiftl (ppn vpi) PT_SHIFT))) ;;
  ret (le64 bs (Z.to_nat o)).

(** The loop of [vspacedumpstack]: one [vpi] for all the words. *)
Fixpoint dumpstack_loop (fuel : nat) (vpi : vpage_info) (va ending_va : Z) : K unit :=
  match fuel with
  | O => diverge
  | S fuel =>
      if ending_va <=? va then
        data <- page_word vpi (va mod PGSIZE) ;;
        cprintf (String.append "virtual address: %p data: %lx" nl) [va_int va; va_int data] ;;
        dumpstack_loop fuel vpi (u64 (va - 8)) ending_va
      else ret tt
  end.

Definition vspacedumpstack (fuel : nat) (vs : vspace) : K vspace :=
  vr <- get_region vs VR_USTACK ;;
  let starting_va := u64 (va_base vr - 8) in
  let ending_va := Z.max (u64 (va_base vr - vr_size vr)) (u64 (va_base vr - 10 * 8)) in
  let* (vr, o) := va2vpage_info vr starting_va in
  ref <- deref "null vpage_info" o ;;
  vpi <- vpi_get ref ;;
  cprintf (String.append "dumping stack: base=%p size=%d" nl) [va_int (va_base vr); va_int (vr_size vr)] ;;
  dumpstack_loop fuel vpi starting_va ending_va ;;
  ret (put_region VR_USTACK vr vs).

(** The inner loop of [vspacedumpcode]; [va] is an [int]. *)
Fixpoint dumpcode_page (fuel : nat) (vpi : vpage_info) (va ending_va : Z) : K Z :=
  match fuel with
  | O => diverge
  | S fuel =>
      if u64 va <? ending_va then
        data <- page_word vpi (Z.rem va PGSIZE) ;;
        cprintf (String.append "virtual address: %p data: %lx" nl) [va_int va; va_int data] ;;
        dumpcode_page fuel vpi (i32 (va + 8)) ending_va
      else ret va
  end.

Fixpoint dumpcode_loop (fuel : nat) (vr : vregion) (o : option (Z * Z)) (va : Z) : K vregion :=
  match fuel with
  | O => diverge
  | S fuel =>
      match o with
      | None => ret vr
      | Some ref =>
          vpi <- vpi_get ref ;;
          if truthy (used vpi) then
            va <- dumpcode_page (S (Z.to_nat (PGSIZE / 8))) vpi va (u64 (va + PGSIZE)) ;;
            let* (vr, o) := va2vpage_info vr (u64 va) in
            dumpcode_loop fuel vr o va
          else ret vr
      end
  end.

Definition vspacedumpcode (fuel : nat) (vs : vspace) : K vspace :=
  vr <- get_region vs VR_CODE ;;
  let starting_va := va_base vr in
  let* (vr, o) := va2vpage_info vr starting_va in
  cprintf (String.append "dumping code: base=%p size=%d" nl) [va_int (va_base vr); va_int (vr_size vr)] ;;
  vr <- dumpcode_loop fuel vr o (i32 starting_va) ;;
  ret (put_region VR_CODE vr vs).
