(* ===== verification/Mkfs.v ===== *)
(** * The image builder: [mkfs.c]

    The program of the build host that lays out the file system that the kernel
    reads.  The image is the file [fsfd], as its sectors; a structure on the
    stack is the list of its bytes; the host is little endian.  A file to copy
    is its path and the blocks in which [read] delivers it.  [exit(1)] and a
    failed [assert] are the [Panic] outcome, and what is printed is left out. *)

From S2P Require Import Prelude Types Strings Spinlock Mmu Kalloc X86vm Umem Vspace Sched.
From S2P Require Import Console Sleeplock Ide Bio Fs.

(** ** The code *)

Definition IPB : Z := BSIZE / sizeof_dinode.
Definition CONSOLE : Z := 1.
Definition nbitmap : Z := FSSIZE / (BSIZE * 8) + 1.
Definition nmeta : Z := 2 + nbitmap.
Definition nblocks_ : Z := FSSIZE - nmeta.

(** The globals [fsfd], [freeinode], [freeblock], [sb]. *)
Record mkfs := mk_mkfs {
  img : gmap Z (list Z);
  freeinode : Z;
  freeblock : Z;
  sb : superblock
}.
Definition set_img (v : gmap Z (list Z)) (r : mkfs) : mkfs := mk_mkfs v (freeinode r) (freeblock r) (sb r).
Definition set_freeinode (v : Z) (r : mkfs) : mkfs := mk_mkfs (img r) v (freeblock r) (sb r).
Definition set_freeblock (v : Z) (r : mkfs) : mkfs := mk_mkfs (img r) (freeinode r) v (sb r).
Definition set_sb (v : superblock) (r : mkfs) : mkfs := mk_mkfs (img r) (freeinode r) (freeblock r) v.

Abbreviation F := (M mkfs).

Definition xshort (x : Z) : Z := le_value [u8 x; u8 (Z.shiftr x 8)].
Definition xint (x : Z) : Z := le_value [u8 x; u8 (Z.shiftr x 8); u8 (Z.shiftr x 16); u8 (Z.shiftr x 24)].

(** The sector that [lseek(fsfd, sec * BSIZE, 0)] goes to. *)
Definition sector (sec : Z) : Z := u32 (sec * BSIZE) / BSIZE.

Definition rsect (sec : Z) : F (list Z) :=
  o <- gets (fun s => img s !! sector sec) ;;
  match o with Some b => ret b | None => panic "read" end.

Definition wsect (sec : Z) (buf : list Z) : F unit :=
  modify (fun s => set_img (<[sector sec := buf]> (img s)) s).

(** The sector of an inode, and its place in it. *)
Definition inode_sector (inum : Z) : F Z :=
  gets (fun s => u32 (xint (sb_inodestart (sb s)) + INODEOFF inum / BSIZE)).
Definition inode_place (inum : Z) : nat := Z.to_nat (sizeof_dinode * (inum mod IPB)).

Definition winode (inum : Z) (ip : list Z) : F unit :=
  bn <- inode_sector inum ;;
  buf <- rsect bn ;;
  wsect bn (blit (inode_place inum) ip buf).

Definition rinode (inum : Z) : F (list Z) :=
  bn <- inode_sector inum ;;
  buf <- rsect bn ;;
  ret (take (Z.to_nat sizeof_dinode) (drop (inode_place inum) buf)).

(** [din.type], [din.devid], [din.size], [din.data.startblkno] and
    [din.data.nblocks] are at these places of the structure. *)
Definition put16 (off : nat) (v : Z) (din : list Z) : list Z := blit off (le_bytes 2 v) din.
Definition put32 (off : nat) (v : Z) (din : list Z) : list Z := blit off (le_bytes 4 v) din.
Definition din_type : nat := 0.
Definition din_devid : nat := 2.
Definition din_size : nat := 4.
Definition din_start : nat := 8.
Definition din_nblocks : nat := 12.

Definition ialloc (type : Z) : F Z :=
  inum <- gets freeinode ;;
  modify (set_freeinode (u32 (inum + 1))) ;;
  winode inum (put32 din_size (xint 0) (put16 din_type (xshort type) (replicate 64 0))) ;;
  ret inum.

Definition iallocblocks (inum start numblks : Z) : F unit :=
  din <- rinode inum ;;
  winode inum (put32 din_nblocks (xint numblks) (put32 din_start (xint start) din)).

(** The loop of [iappend]: the offset after it. *)
Fixpoint iappend_loop (fuel : nat) (start off : Z) (p : list Z) : F Z :=
  match fuel with
  | O => diverge
  | S fuel =>
      if (0 <? length p)%nat then
        let fbn := off / BSIZE in
        let n1 := Z.min (Z.of_nat (length p)) (u32 ((fbn + 1) * BSIZE - off)) in
        buf <- rsect (u32 (xint start + fbn)) ;;
        wsect (u32 (xint start + fbn)) (blit (Z.to_nat (off - fbn * BSIZE)) (take (Z.to_nat n1) p) buf) ;;
        iappend_loop fuel start (u32 (off + n1)) (drop (Z.to_nat n1) p)
      else ret off
  end.

Definition iappend (inum : Z) (p : list Z) : F unit :=
  din <- rinode inum ;;
  off <- iappend_loop (S (length p)) (le32 din din_start) (xint (le32 din din_size)) p ;;
  winode inum (put32 din_size (xint off) din).

(** One block of the bitmap with its first [n] bits set. *)
Definition set_bit (buf : list Z) (i : Z) : list Z :=
  <[Z.to_nat (i / 8) := Z.lor (byte_at buf (Z.to_nat (i / 8))) (Z.shiftl 1 (i mod 8))]> buf.

Definition bitmap_block (n : Z) : list Z :=
  foldl (fun b i => set_bit b (Z.of_nat i)) (replicate (Z.to_nat BSIZE) 0) (seq 0 (Z.to_nat (Z.min n (BSIZE * 8)))).

Fixpoint balloc_blocks (fuel : nat) (remaining nbuf : Z) : F unit :=
  match fuel with
  | O => diverge
  | S fuel =>
      if 0 <? remaining then
        start <- gets (fun s => sb_bmapstart (sb s)) ;;
        wsect (u32 (start + nbuf)) (bitmap_block remaining) ;;
        balloc_blocks fuel (i32 (remaining - BSIZE * 8)) (i32 (nbuf + 1))
      else ret tt
  end.

Definition balloc (used : Z) : F unit := balloc_blocks (S (Z.to_nat used)) used 0.

(** ** [main] *)

(** A [struct dirent] that was cleared before its name was copied into it. *)
Definition dirent_bytes (inum : Z) (name : list Z) : list Z :=
  le_bytes 2 (xshort inum) ++ take DIRSIZ (name ++ replicate DIRSIZ 0).

Definition add_entry (inum : Z) (name : list Z) : F unit := iappend ROOTINO (dirent_bytes inum name).

Record infile := mk_infile { path : list Z; chunks : option (list (list Z)) }.

Definition prefix : list Z := [111; 117; 116; 47; 117; 115; 101; 114; 47].

(** [while((cc = read(fd, buf, sizeof(buf))) > 0) iappend(inum, buf, cc);] *)
Fixpoint copy_chunks (inum : Z) (cs : list (list Z)) : F unit :=
  match cs with
  | [] | [] :: _ => ret tt
  | c :: cs => iappend inum c ;; copy_chunks inum cs
  end.

(** The name without a leading underscore. *)
Definition skip_underscore (name : list Z) : list Z :=
  match name with 95 :: name => name | _ => name end.

(** [n] bytes are this many blocks. *)
Definition blocks_for (n : Z) : Z := n / BSIZE + (if n mod BSIZE =? 0 then 0 else 1).

Definition add_file (f : infile) : F unit :=
  let name := drop 9 (path f) in
  if negb (bool_decide (take 9 (path f) = prefix)) then panic "assert" else
  if bool_decide (47 ∈ name) then panic "assert" else
  match chunks f with
  | None => panic "open"
  | Some cs =>
      inum <- ialloc T_FILE ;;
      add_entry inum (skip_underscore name) ;;
      din <- rinode inum ;;
      fb <- gets freeblock ;;
      winode inum (put32 din_start (xint fb) din) ;;
      copy_chunks inum cs ;;
      din <- rinode inum ;;
      let din := put32 din_nblocks (xint (u32 (blocks_for (xint (le32 din din_size))))) din in
      modify (fun s => set_freeblock (u32 (freeblock s + xint (le32 din din_nblocks))) s) ;;
      winode inum din
  end.

(** The inode file, which has an inode of its own. *)
Definition make_inodefile (inum_count : Z) : F unit :=
  ino <- ialloc T_FILE ;;
  assertm (ino =? INODEFILEINO) "inodefileino == INODEFILEINO" ;;
  din <- rinode ino ;;
  start <- gets (fun s => sb_inodestart (sb s)) ;;
  let n := inum_count / IPB in
  let n := if (n =? 0) || negb ((inum_count * sizeof_dinode) mod BSIZE =? 0) then n + 1 else n in
  winode ino (put32 din_size (xint (inum_count * sizeof_dinode))
    (put32 din_nblocks (xint n) (put32 din_start start din))) ;;
  modify (fun s => set_freeblock (u32 (freeblock s + n)) s).

(** The root directory with its first entries; [size] is what it will hold. *)
Definition make_root (size : Z) : F unit :=
  ino <- ialloc T_DIR ;;
  assertm (ino =? ROOTINO) "rootino == ROOTINO" ;;
  fb <- gets freeblock ;;
  let n := blocks_for size in
  iallocblocks ino fb n ;;
  modify (fun s => set_freeblock (u32 (freeblock s + n)) s) ;;
  add_entry ino [46] ;;
  add_entry ino [46; 46].

Definition make_console : F unit :=
  inum <- ialloc T_DEV ;;
  din <- rinode inum ;;
  winode inum (put16 din_devid (xshort CONSOLE) din) ;;
  add_entry inum [99; 111; 110; 115; 111; 108; 101].

Definition make_super : F unit :=
  modify (set_sb (mk_superblock (xint FSSIZE) (xint nblocks_) (xint 2) (xint (2 + nbitmap)))) ;;
  modify (set_freeblock nmeta) ;;
  mfor (seq 0 (Z.to_nat FSSIZE)) (fun i => wsect (Z.of_nat i) (replicate (Z.to_nat BSIZE) 0)) ;;
  b <- gets sb ;;
  wsect 1 (blit 0 (le_bytes 4 (sb_size b) ++ le_bytes 4 (sb_nblocks b) ++ le_bytes 4 (sb_bmapstart b)
    ++ le_bytes 4 (sb_inodestart b)) (replicate (Z.to_nat BSIZE) 0)).

(** [argc] is two more than the number of files. *)
Definition mkfs_main (files : list infile) : F unit :=
  let argc := Z.of_nat (length files) + 2 in
  make_super ;;
  make_inodefile (argc + 1) ;;
  make_root ((argc + 1) * sizeof_dirent) ;;
  make_console ;;
  mfor files add_file ;;
  din <- rinode ROOTINO ;;
  winode ROOTINO (put32 din_size (xint ((argc + 1) * sizeof_dirent)) din) ;;
  fb <- gets freeblock ;;
  balloc (i32 fb).

(** ** The image as bytes *)

Definition byte_of (im : gmap Z (list Z)) (a : Z) : option Z :=
  im !! (a / BSIZE) ≫= fun b => b !! Z.to_nat (a mod BSIZE).

(** Every sector of the file system is there. *)
Definition full (im : gmap Z (list Z)) : Prop :=
  forall sec, 0 <= sec < FSSIZE -> exists b, im !! sec = Some b /\ length b = Z.to_nat BSIZE.

(** The bytes from address [a] on are [bs]. *)
Definition holds (im : gmap Z (list Z)) (a : Z) (bs : list Z) : Prop :=
  forall k c, bs !! k = Some c -> byte_of im (a + Z.of_nat k) = Some c.

Definition range (a n x : Z) : Prop := a <= x < a + n.

(** Only bytes in [D] have changed. *)
Definition only (D : Z -> Prop) (im im' : gmap Z (list Z)) : Prop :=
  full im' /\ forall x, ~ D x -> byte_of im' x = byte_of im x.

Lemma only_trans D1 D2 im1 im2 im3 :
  only D1 im1 im2 -> only D2 im2 im3 -> only (fun x => D1 x \/ D2 x) im1 im3.
Proof. intros [_ H1] [F H2]. split; [done|]. intros x Hx. rewrite H2, H1 by tauto. done. Qed.

Lemma only_weaken (D D' : Z -> Prop) im im' : (forall x, D x -> D' x) -> only D im im' -> only D' im im'.
Proof. intros HD [F H]. split; [done|]. intros x Hx. apply H. auto. Qed.

Lemma holds_keep D im im' a bs :
  holds im a bs -> only D im im' -> (forall x, range a (Z.of_nat (length bs)) x -> ~ D x) -> holds im' a bs.
Proof.
  intros H [_ Ho] Hd k c Hk. rewrite Ho; [by apply H|]. apply Hd. unfold range.
  apply lookup_lt_Some in Hk. lia.
Qed.

Lemma holds_app im a b1 b2 :
  holds im a (b1 ++ b2) <-> holds im a b1 /\ holds im (a + Z.of_nat (length b1)) b2.
Proof.
  split.
  - intros H. split; intros k c Hk.
    + apply H. by apply lookup_app_l_Some.
    + replace (a + Z.of_nat (length b1) + Z.of_nat k) with (a + Z.of_nat (length b1 + k)) by lia. apply H.
      by rewrite lookup_app_r, Nat.add_comm, Nat.add_sub by lia.
  - intros [H1 H2] k c Hk. apply lookup_app_Some in Hk as [Hk|[Hl Hk]]; [by apply H1|].
    rewrite <- (H2 _ _ Hk). f_equal. lia.
Qed.

Lemma byte_of_at im sec b off : im !! sec = Some b -> 0 <= off < BSIZE -> byte_of im (BSIZE * sec + off) = b !! Z.to_nat off.
Proof.
  intros H Ho. unfold byte_of. replace ((BSIZE * sec + off) / BSIZE) with sec by (unfold BSIZE in *; dlia).
  replace ((BSIZE * sec + off) mod BSIZE) with off by (unfold BSIZE in *; dlia). by rewrite H.
Qed.

(** Overwriting a part of a sector. *)
Lemma write_part im sec b off bs :
  full im -> 0 <= sec < FSSIZE -> im !! sec = Some b -> length b = Z.to_nat BSIZE ->
  0 <= off -> off + Z.of_nat (length bs) <= BSIZE ->
  let im' := <[sec := blit (Z.to_nat off) bs b]> im in
  only (range (BSIZE * sec + off) (Z.of_nat (length bs))) im im' /\ holds im' (BSIZE * sec + off) bs.
Proof.
  intros Hf Hs Hb Hl H0 Ho im'. assert (Hfit : (Z.to_nat off + length bs <= length b)%nat) by (unfold BSIZE in *; lia).
  split; [split|].
  - intros sec' Hs'. destruct (decide (sec' = sec)) as [->|Hn].
    + eexists. split; [apply lookup_insert_eq|]. by rewrite length_blit.
    + unfold im'. rewrite lookup_insert_ne by done. by apply Hf.
  - intros x Hx. unfold byte_of, im'. destruct (decide (x / BSIZE = sec)) as [E|Hn].
    + rewrite E, lookup_insert_eq, Hb. cbn. rewrite lookup_blit by done. rewrite decide_False; [done|].
      unfold range, BSIZE in *. dlia.
    + by rewrite lookup_insert_ne.
  - intros k c Hk. pose proof (lookup_lt_Some _ _ _ Hk) as Hkl.
    replace (BSIZE * sec + off + Z.of_nat k) with (BSIZE * sec + (off + Z.of_nat k)) by lia.
    rewrite (byte_of_at im' sec (blit (Z.to_nat off) bs b)); [|apply lookup_insert_eq|lia].
    rewrite lookup_blit by done. rewrite decide_True by lia. rewrite <- Hk. f_equal. lia.
Qed.

(** Reading a part of a sector. *)
Lemma read_part im sec b off bs :
  im !! sec = Some b -> 0 <= off -> off + Z.of_nat (length bs) <= BSIZE -> holds im (BSIZE * sec + off) bs ->
  take (length bs) (drop (Z.to_nat off) b) = bs.
Proof.
  intros Hb H0 Ho Hh. apply list_eq. intros k. destruct (decide (k < length bs)%nat) as [Hk|Hk].
  - rewrite lookup_take_lt, lookup_drop by done. destruct (lookup_lt_is_Some_2 bs k Hk) as [c Hc].
    rewrite Hc, <- (Hh k c Hc). replace (BSIZE * sec + off + Z.of_nat k) with (BSIZE * sec + (off + Z.of_nat k)) by lia.
    rewrite (byte_of_at im sec b) by (done || lia). f_equal. lia.
  - rewrite lookup_take_ge, lookup_ge_None_2 by lia. done.
Qed.

Lemma sector_id sec : 0 <= sec < FSSIZE -> sector sec = sec.
Proof. intros H. unfold sector, BSIZE, FSSIZE in *. word. Qed.

Lemma xint_id x : 0 <= x < 2 ^ 32 -> xint x = x.
Proof. intros H. unfold xint; cbn [le_value]. rewrite !Z.shiftr_div_pow2 by lia. word. Qed.

Lemma xshort_id x : 0 <= x < 2 ^ 16 -> xshort x = x.
Proof. intros H. unfold xshort; cbn [le_value]. rewrite !Z.shiftr_div_pow2 by lia. word. Qed.

Lemma rsect_eq s sec b : 0 <= sec < FSSIZE -> img s !! sec = Some b -> rsect sec s = Done b s.
Proof. intros Hs Hb. unfold rsect. msimp. by rewrite sector_id, Hb. Qed.

Lemma wsect_eq s sec b : 0 <= sec < FSSIZE -> wsect sec b s = Done tt (set_img (<[sec := b]> (img s)) s).
Proof. intros Hs. unfold wsect. msimp. by rewrite sector_id. Qed.

(** ** Inodes *)

Ltac consts :=
  change IPB with 8 in *; change nmeta with 15 in *; change sizeof_dinode with 64 in *; change sizeof_dirent with 16 in *;
  change BSIZE with 512 in *; change FSSIZE with 50000 in *.

(** The superblock that [main] writes. *)
Definition the_sb : superblock := mk_superblock FSSIZE nblocks_ 2 nmeta.

Definition inode_addr (inum : Z) : Z := BSIZE * nmeta + sizeof_dinode * inum.

(** An inode as it is on disk. *)
Definition dinode_bytes (type devid size start nblk : Z) : list Z :=
  le_bytes 2 type ++ le_bytes 2 devid ++ le_bytes 4 size ++ le_bytes 4 start ++ le_bytes 4 nblk ++ replicate 48 0.

Lemma put_type v t d sz st nb : put16 din_type v (dinode_bytes t d sz st nb) = dinode_bytes v d sz st nb.
Proof. reflexivity. Qed.
Lemma put_devid v t d sz st nb : put16 din_devid v (dinode_bytes t d sz st nb) = dinode_bytes t v sz st nb.
Proof. reflexivity. Qed.
Lemma put_size v t d sz st nb : put32 din_size v (dinode_bytes t d sz st nb) = dinode_bytes t d v st nb.
Proof. reflexivity. Qed.
Lemma put_start v t d sz st nb : put32 din_start v (dinode_bytes t d sz st nb) = dinode_bytes t d sz v nb.
Proof. reflexivity. Qed.
Lemma put_nblocks v t d sz st nb : put32 din_nblocks v (dinode_bytes t d sz st nb) = dinode_bytes t d sz st v.
Proof. reflexivity. Qed.

Lemma get_size t d sz st nb : 0 <= sz < 2 ^ 32 -> le32 (dinode_bytes t d sz st nb) din_size = sz.
Proof. intros H. unfold le32, le16, byte_at. cbn. dlia. Qed.
Lemma get_start t d sz st nb : 0 <= st < 2 ^ 32 -> le32 (dinode_bytes t d sz st nb) din_start = st.
Proof. intros H. unfold le32, le16, byte_at. cbn. dlia. Qed.
Lemma get_nblocks t d sz st nb : 0 <= nb < 2 ^ 32 -> le32 (dinode_bytes t d sz st nb) din_nblocks = nb.
Proof. intros H. unfold le32, le16, byte_at. cbn. dlia. Qed.

(** The kernel reads the fields back. *)
Lemma decode_dinode_bytes t d sz st nb :
  0 <= t < 2 ^ 15 -> 0 <= d < 2 ^ 15 -> 0 <= sz < 2 ^ 32 -> 0 <= st < 2 ^ 32 -> 0 <= nb < 2 ^ 32 ->
  decode_dinode (dinode_bytes t d sz st nb) = mk_dinode t d sz (mk_extent st nb).
Proof.
  intros. unfold decode_dinode.
  assert (i16 (le16 (dinode_bytes t d sz st nb) 0) = t) as -> by (unfold le16, byte_at; cbn; word).
  assert (i16 (le16 (dinode_bytes t d sz st nb) 2) = d) as -> by (unfold le16, byte_at; cbn; word).
  f_equal; [by apply get_size|]. f_equal; [by apply get_start|by apply get_nblocks].
Qed.

Section ops.
Context (s : mkfs) (Hsb : sb s = the_sb) (Hfull : full (img s)).

(** The inode is in the file system. *)
Definition inode_fits (inum : Z) : Prop := 0 <= inum /\ nmeta + inum / IPB < FSSIZE.

Lemma inode_sector_eq inum : inode_fits inum -> inode_sector inum s = Done (nmeta + inum / IPB) s.
Proof.
  intros [H0 H1]. unfold inode_sector, gets. cbn beta. rewrite Hsb. cbn [the_sb sb_inodestart]. f_equal.
  rewrite xint_id by (consts; lia). unfold INODEOFF. consts. word.
Qed.

Lemma inode_addr_sector inum :
  0 <= inum -> inode_addr inum = BSIZE * (nmeta + inum / IPB) + sizeof_dinode * (inum mod IPB) /\
  0 <= sizeof_dinode * (inum mod IPB) <= BSIZE - 64.
Proof. intros H. unfold inode_addr. consts. dlia. Qed.

Lemma inode_sector_range inum : inode_fits inum -> 0 <= nmeta + inum / IPB < FSSIZE.
Proof. intros [H0 H1]. split; [|done]. consts. dlia. Qed.

Lemma winode_eq inum ip :
  inode_fits inum -> length ip = 64%nat ->
  exists im', winode inum ip s = Done tt (set_img im' s) /\
    only (range (inode_addr inum) 64) (img s) im' /\ holds im' (inode_addr inum) ip.
Proof.
  intros Hi Hl. pose proof (inode_sector_range inum Hi) as Hr. destruct (Hfull _ Hr) as (b & Hb & Hbl).
  destruct (inode_addr_sector inum (proj1 Hi)) as [Ea Hp]. rewrite Ea. change 64 with (Z.of_nat 64). rewrite <- Hl.
  eexists. split; [|apply write_part; try done; lia].
  unfold winode. mstep (inode_sector_eq inum Hi). mstep (rsect_eq s _ b Hr Hb). by rewrite wsect_eq.
Qed.

Lemma rinode_eq inum ip :
  inode_fits inum -> length ip = 64%nat -> holds (img s) (inode_addr inum) ip -> rinode inum s = Done ip s.
Proof.
  intros Hi Hl Hh. pose proof (inode_sector_range inum Hi) as Hr. destruct (Hfull _ Hr) as (b & Hb & Hbl).
  destruct (inode_addr_sector inum (proj1 Hi)) as [Ea Hp]. rewrite Ea in Hh.
  unfold rinode. mstep (inode_sector_eq inum Hi). mstep (rsect_eq s _ b Hr Hb). unfold ret. f_equal.
  change (Z.to_nat sizeof_dinode) with 64%nat. rewrite <- Hl. apply (read_part (img s) (nmeta + inum / IPB) b); [done|lia|lia|done].
Qed.
End ops.

(** Appending the bytes [p] at offset [off] of the blocks from [st] on. *)
Lemma iappend_loop_eq fuel s st off p :
  full (img s) -> (length p < fuel)%nat -> 0 <= st -> 0 <= off ->
  BSIZE * st + off + Z.of_nat (length p) <= BSIZE * FSSIZE ->
  exists im', iappend_loop fuel st off p s = Done (off + Z.of_nat (length p)) (set_img im' s) /\
    only (range (BSIZE * st + off) (Z.of_nat (length p))) (img s) im' /\ holds im' (BSIZE * st + off) p.
Proof.
  revert s off p. induction fuel as [|fuel IH]; intros s off p Hf Hl Hst Hoff Hfit; [lia|]. cbn [iappend_loop].
  destruct (Nat.ltb_spec 0 (length p)) as [Hp|Hp].
  2:{ assert (p = []) as -> by (apply nil_length_inv; lia). exists (img s). cbn [length]. rewrite Z.add_0_r.
      split; [by destruct s|]. split; [by split|]. by intros k c Hk. }
  set (fbn := off / BSIZE). set (n1 := Z.min (Z.of_nat (length p)) (u32 ((fbn + 1) * BSIZE - off))).
  assert (Hn1 : n1 = Z.min (Z.of_nat (length p)) ((fbn + 1) * BSIZE - off)) by (unfold n1, fbn, BSIZE, FSSIZE in *; word).
  assert (Hb : 0 < n1 <= Z.of_nat (length p) /\ off - fbn * BSIZE + n1 <= BSIZE /\ 0 <= off - fbn * BSIZE /\ 0 <= fbn)
    by (rewrite Hn1; unfold fbn, BSIZE in *; dlia).
  assert (Hsec : u32 (xint st + fbn) = st + fbn /\ 0 <= st + fbn < FSSIZE).
  { rewrite xint_id by (unfold BSIZE, FSSIZE in *; lia). unfold fbn, BSIZE, FSSIZE in *. word. }
  destruct Hsec as [-> Hsec]. destruct (Hf _ Hsec) as (b & Hsb & Hbl).
  destruct (write_part (img s) (st + fbn) b (off - fbn * BSIZE) (take (Z.to_nat n1) p)) as [Ho Hh];
    [done|done|done|done|lia|rewrite length_take; lia|].
  set (im1 := <[_ := _]> (img s)) in *.
  replace (BSIZE * (st + fbn) + (off - fbn * BSIZE)) with (BSIZE * st + off) in Ho, Hh by lia.
  assert (Hlt : Z.of_nat (length (take (Z.to_nat n1) p)) = n1) by (rewrite length_take; lia). rewrite Hlt in Ho.
  assert (Hld : Z.of_nat (length (drop (Z.to_nat n1) p)) = Z.of_nat (length p) - n1) by (rewrite length_drop; lia).
  assert (Hu : u32 (off + n1) = off + n1) by (unfold BSIZE, FSSIZE in *; word).
  destruct (IH (set_img im1 s) (off + n1) (drop (Z.to_nat n1) p)) as (im' & E & Ho' & Hh');
    [apply Ho|lia|done|lia|lia|]. cbn [img set_img] in Ho', Hh'. rewrite Hld in Ho'.
  exists im'. split; [|split].
  - mstep (rsect_eq s _ b Hsec Hsb). mstep (wsect_eq s (st + fbn)); [|done]. rewrite Hu. fold im1. rewrite E.
    rewrite Hld. f_equal. lia.
  - eapply only_weaken, only_trans; [|done..]. unfold range. cbn. lia.
  - rewrite <- (take_drop (Z.to_nat n1) p). apply holds_app. rewrite Hlt. split.
    + eapply holds_keep; [done..|]. rewrite Hlt. unfold range. lia.
    + by replace (BSIZE * st + off + n1) with (BSIZE * st + (off + n1)) by lia.
Qed.

(** ** The operations of [main] *)

Lemma length_dinode_bytes t d sz st nb : length (dinode_bytes t d sz st nb) = 64%nat.
Proof. reflexivity. Qed.

Lemma ialloc_eq s type :
  sb s = the_sb -> full (img s) -> inode_fits (freeinode s) -> 0 <= type < 2 ^ 16 ->
  exists im', ialloc type s = Done (freeinode s) (set_img im' (set_freeinode (freeinode s + 1) s)) /\
    only (range (inode_addr (freeinode s)) 64) (img s) im' /\
    holds im' (inode_addr (freeinode s)) (dinode_bytes type 0 0 0 0).
Proof.
  intros Hsb Hf Hi Ht. assert (u32 (freeinode s + 1) = freeinode s + 1) as Eu
    by (destruct Hi; consts; word).
  unfold ialloc, gets, modify. cbn beta. rewrite (bind_done _ _ s (freeinode s) s) by done. cbn beta.
  rewrite Eu. set (s1 := set_freeinode _ s). rewrite (bind_done _ _ s tt s1) by done.
  assert (E0 : put32 din_size (xint 0) (put16 din_type (xshort type) (replicate 64 0)) = dinode_bytes type 0 0 0 0).
  { rewrite xint_id, xshort_id by lia. change (replicate 64 0) with (dinode_bytes 0 0 0 0 0).
    by rewrite put_type, put_size. }
  rewrite E0. destruct (winode_eq s1 Hsb Hf (freeinode s) (dinode_bytes type 0 0 0 0)) as (im' & E & Ho & Hh);
    [done|done|]. exists im'. split; [|by split]. by mstep E.
Qed.

Lemma iappend_eq s inum t d off st nb p :
  sb s = the_sb -> full (img s) -> inode_fits inum -> 0 <= st -> 0 <= off ->
  holds (img s) (inode_addr inum) (dinode_bytes t d off st nb) ->
  inode_addr inum + 64 <= BSIZE * st -> BSIZE * st + off + Z.of_nat (length p) <= BSIZE * FSSIZE ->
  exists im', iappend inum p s = Done tt (set_img im' s) /\
    only (fun x => range (BSIZE * st + off) (Z.of_nat (length p)) x \/ range (inode_addr inum) 64 x) (img s) im' /\
    holds im' (inode_addr inum) (dinode_bytes t d (off + Z.of_nat (length p)) st nb) /\
    holds im' (BSIZE * st + off) p.
Proof.
  intros Hsb Hf Hi Hst Hoff Hdin Hdis Hfit. set (din := dinode_bytes t d off st nb) in *.
  assert (Hr : 0 <= st < 2 ^ 32 /\ 0 <= off < 2 ^ 32 /\ 0 <= off + Z.of_nat (length p) < 2 ^ 32) by (consts; lia).
  unfold iappend. mstep (rinode_eq s Hsb Hf inum din); [|done|done|done].
  unfold din. rewrite get_start, get_size, xint_id by lia.
  destruct (iappend_loop_eq (S (length p)) s st off p) as (im1 & E1 & Ho1 & Hh1); [done|lia|done|done|done|].
  mstep E1. rewrite xint_id, put_size by lia.
  destruct (winode_eq (set_img im1 s) Hsb (proj1 Ho1) inum (dinode_bytes t d (off + Z.of_nat (length p)) st nb))
    as (im' & E & Ho & Hh); [done|done|]. exists im'. split_and!; [exact E| |done|].
  - by eapply only_trans.
  - eapply holds_keep; [done..|]. unfold range. lia.
Qed.

(** All chunks of a file. *)
Lemma copy_chunks_eq cs s inum t d st nb pre :
  sb s = the_sb -> full (img s) -> inode_fits inum -> 0 <= st ->
  Forall (fun c => c <> []) cs -> inode_addr inum + 64 <= BSIZE * st ->
  BSIZE * st + Z.of_nat (length (pre ++ concat cs)) <= BSIZE * FSSIZE ->
  holds (img s) (inode_addr inum) (dinode_bytes t d (Z.of_nat (length pre)) st nb) ->
  holds (img s) (BSIZE * st) pre ->
  exists im', copy_chunks inum cs s = Done tt (set_img im' s) /\
    only (fun x => range (BSIZE * st) (Z.of_nat (length (pre ++ concat cs))) x \/ range (inode_addr inum) 64 x) (img s) im' /\
    holds im' (inode_addr inum) (dinode_bytes t d (Z.of_nat (length (pre ++ concat cs))) st nb) /\
    holds im' (BSIZE * st) (pre ++ concat cs).
Proof.
  revert s pre. induction cs as [|c cs IH]; intros s pre Hsb Hf Hi Hst Hne Hdis Hfit Hdin Hpre.
  { cbn. rewrite app_nil_r in *. exists (img s). split_and!; [by destruct s|by split|done|done]. }
  apply Forall_cons in Hne as [Hc Hne]. cbn [concat] in *. rewrite app_assoc in *.
  destruct (iappend_eq s inum t d (Z.of_nat (length pre)) st nb c) as (im1 & E1 & Ho1 & Hh1 & Hc1);
    [done..|lia|done|done| |].
  { rewrite !length_app in Hfit. lia. }
  rewrite <- Nat2Z.inj_add, <- length_app in Hh1.
  destruct (IH (set_img im1 s) (pre ++ c)) as (im' & E & Ho & Hh & Hcs); try done; [apply Ho1| |].
  { cbn [img set_img]. apply holds_app. split; [|done]. eapply holds_keep; [done..|]. unfold range. lia. }
  exists im'. split_and!; [|eapply only_weaken, only_trans; [|done..]|done|done].
  - destruct c as [|c0 c]; [done|]. cbn [copy_chunks]. mstep E1. exact E.
  - intros x. rewrite !length_app. unfold range. lia.
Qed.

Lemma length_dirent inum name : length (dirent_bytes inum name) = 16%nat.
Proof.
  unfold dirent_bytes. cbn [le_bytes app length]. rewrite length_take, length_app, length_replicate.
  unfold DIRSIZ. lia.
Qed.

Lemma blocks_for_bound n : 0 <= n -> n <= BSIZE * blocks_for n < n + BSIZE.
Proof. intros H. unfold blocks_for. consts. destruct (Z.eqb_spec (n mod 512) 0); dlia. Qed.

(** ** The layout *)

Definition data (f : infile) : list Z := concat (default [] (chunks f)).
Definition size_of (f : infile) : Z := Z.of_nat (length (data f)).
Definition dname (f : infile) : list Z := skip_underscore (drop 9 (path f)).

(** A file that [main] accepts. *)
Definition file_ok (f : infile) : Prop :=
  take 9 (path f) = prefix /\ (47 ∉ drop 9 (path f)) /\
  exists cs, chunks f = Some cs /\ Forall (fun c => c <> []) cs.

(** The blocks of the files. *)
Fixpoint total (fs : list infile) : Z :=
  match fs with [] => 0 | f :: fs => blocks_for (size_of f) + total fs end.

(** The blocks of the inode file, for [n] inodes. *)
Definition inode_blocks (n : Z) : Z :=
  if (n / IPB =? 0) || negb ((n * sizeof_dinode) mod BSIZE =? 0) then n / IPB + 1 else n / IPB.

(** The first entries of the root directory, and those of the files. *)
Fixpoint entries (inum : Z) (fs : list infile) : list Z :=
  match fs with
  | [] => []
  | f :: fs => dirent_bytes inum (dname f) ++ entries (inum + 1) fs
  end.

Definition console_name : list Z := [99; 111; 110; 115; 111; 108; 101].

Definition dir_bytes (fs : list infile) : list Z :=
  dirent_bytes ROOTINO [46] ++ dirent_bytes ROOTINO [46; 46] ++ dirent_bytes 2 console_name ++ entries 3 fs.

(** File [f] is there, with inode [inum] and its data from block [st] on. *)
Definition placed (im : gmap Z (list Z)) (inum st : Z) (f : infile) : Prop :=
  holds im (inode_addr inum) (dinode_bytes T_FILE 0 (size_of f) st (blocks_for (size_of f))) /\
  holds im (BSIZE * st) (data f).

Fixpoint placed_all (im : gmap Z (list Z)) (inum st : Z) (fs : list infile) : Prop :=
  match fs with
  | [] => True
  | f :: fs => placed im inum st f /\ placed_all im (inum + 1) (st + blocks_for (size_of f)) fs
  end.

Lemma size_of_nonneg f : 0 <= size_of f.
Proof. unfold size_of. lia. Qed.

Lemma blocks_nonneg f : 0 <= blocks_for (size_of f) /\ size_of f <= BSIZE * blocks_for (size_of f).
Proof. pose proof (blocks_for_bound _ (size_of_nonneg f)). pose proof (size_of_nonneg f). consts. lia. Qed.

Lemma total_nonneg fs : 0 <= total fs.
Proof. induction fs as [|f fs IH]; cbn [total]; [done|]. pose proof (blocks_nonneg f). lia. Qed.

Lemma total_app fs gs : total (fs ++ gs) = total fs + total gs.
Proof. induction fs as [|f fs IH]; cbn [total app]; [done|]. rewrite IH. lia. Qed.

Lemma length_entries inum fs : length (entries inum fs) = (16 * length fs)%nat.
Proof. revert inum. induction fs as [|f fs IH]; intros inum; cbn [entries length]; [done|]. rewrite length_app, length_dirent, IH. lia. Qed.

Lemma entries_app inum fs gs : entries inum (fs ++ gs) = entries inum fs ++ entries (inum + Z.of_nat (length fs)) gs.
Proof.
  revert inum. induction fs as [|f fs IH]; intros inum; cbn [entries app length]; [by rewrite Z.add_0_r|].
  rewrite IH, <- app_assoc. do 3 f_equal. lia.
Qed.

Lemma length_dir_bytes fs : length (dir_bytes fs) = (16 * (3 + length fs))%nat.
Proof. unfold dir_bytes. rewrite !length_app, !length_dirent, length_entries. lia. Qed.

Lemma placed_all_app im inum st fs gs :
  placed_all im inum st (fs ++ gs) <->
  placed_all im inum st fs /\ placed_all im (inum + Z.of_nat (length fs)) (st + total fs) gs.
Proof.
  revert inum st. induction fs as [|f fs IH]; intros inum st; cbn [placed_all app length total].
  { rewrite !Z.add_0_r. tauto. }
  rewrite IH. replace (inum + 1 + Z.of_nat (length fs)) with (inum + Z.of_nat (S (length fs))) by lia.
  replace (st + blocks_for (size_of f) + total fs) with (st + (blocks_for (size_of f) + total fs)) by lia. tauto.
Qed.

(** A change elsewhere keeps the files. *)
Lemma placed_all_keep D im im' inum st fs :
  placed_all im inum st fs -> only D im im' ->
  (forall x, range (inode_addr inum) (64 * Z.of_nat (length fs)) x -> ~ D x) ->
  (forall x, range (BSIZE * st) (BSIZE * total fs) x -> ~ D x) ->
  placed_all im' inum st fs.
Proof.
  revert inum st. induction fs as [|f fs IH]; intros inum st; cbn [placed_all total length]; [done|].
  intros [[Hi Hd] Hfs] Ho Hx Hy. pose proof (blocks_nonneg f) as Hb. pose proof (total_nonneg fs) as Ht.
  unfold range, inode_addr in *. consts. split; [split|].
  - eapply holds_keep; [done..|]. intros x. rewrite length_dinode_bytes. unfold range, inode_addr. intros Hr. apply Hx. consts. lia.
  - eapply holds_keep; [done..|]. intros x. fold (size_of f). unfold range. intros Hr. apply Hy. consts. lia.
  - apply IH; [done|done| |]; intros x Hr; [apply Hx|apply Hy]; lia.
Qed.

(** ** Before the files *)

Lemma zero_sectors (z : list Z) a k s :
  Z.of_nat (a + k) <= FSSIZE ->
  exists im', mfor (seq a k) (fun i => wsect (Z.of_nat i) z) s = Done tt (set_img im' s) /\
    forall sec, im' !! sec = if decide (Z.of_nat a <= sec < Z.of_nat (a + k)) then Some z else img s !! sec.
Proof.
  revert a s. induction k as [|k IH]; intros a s Hk.
  { exists (img s). split; [by destruct s|]. intros sec. by rewrite decide_False by lia. }
  cbn [seq mfor]. destruct (IH (S a) (set_img (<[Z.of_nat a := z]> (img s)) s)) as (im' & E & H); [lia|].
  exists im'. split; [mstep (wsect_eq s (Z.of_nat a) z); [exact E|lia]|].
  intros sec. rewrite H. cbn [img set_img]. destruct (decide (sec = Z.of_nat a)) as [->|Hne].
  - rewrite decide_False, decide_True by lia. apply lookup_insert_eq.
  - rewrite lookup_insert_ne by done. repeat case_decide; try done; lia.
Qed.

(** The superblock as it is on disk. *)
Definition sb_bytes : list Z := le_bytes 4 FSSIZE ++ le_bytes 4 nblocks_ ++ le_bytes 4 2 ++ le_bytes 4 nmeta.

(** The state after [make_super]. *)
Record blank (s : mkfs) : Prop := {
  bl_sb : sb s = the_sb;
  bl_full : full (img s);
  bl_inode : freeinode s = 0;
  bl_block : freeblock s = nmeta;
  bl_super : holds (img s) BSIZE sb_bytes;
  bl_bitmap : holds (img s) (BSIZE * 2) (replicate (Z.to_nat (BSIZE * nbitmap)) 0)
}.

Lemma make_super_eq s : freeinode s = 0 -> exists s', make_super s = Done tt s' /\ blank s'.
Proof.
  intros Hi. unfold make_super.
  assert (mk_superblock (xint FSSIZE) (xint nblocks_) (xint 2) (xint (2 + nbitmap)) = the_sb) as -> by reflexivity.
  rewrite (bind_done _ _ s tt (set_sb the_sb s)) by done.
  set (s1 := set_freeblock nmeta (set_sb the_sb s)). rewrite (bind_done _ _ _ tt s1) by done.
  set (z := replicate (Z.to_nat BSIZE) 0).
  destruct (zero_sectors z 0 (Z.to_nat FSSIZE) s1) as (im1 & E1 & H1); [consts; lia|]. mstep E1.
  set (s2 := set_img im1 s1). rewrite (bind_done _ _ s2 the_sb s2) by done.
  change (le_bytes 4 (sb_size the_sb) ++ le_bytes 4 (sb_nblocks the_sb) ++ le_bytes 4 (sb_bmapstart the_sb)
    ++ le_bytes 4 (sb_inodestart the_sb)) with sb_bytes.
  assert (Hz : length z = Z.to_nat BSIZE) by apply length_replicate.
  assert (Hat : forall sec, 0 <= sec < FSSIZE -> im1 !! sec = Some z).
  { intros sec Hs. rewrite H1, decide_True; [done|]. consts. lia. }
  assert (Hf1 : full im1) by (intros sec Hs; exists z; split; [by apply Hat|done]).
  destruct (write_part im1 1 z 0 sb_bytes) as [Ho Hh]; [done|consts; lia|apply Hat; consts; lia|done|lia|done|].
  rewrite (wsect_eq s2 1) by (consts; lia). eexists. split; [reflexivity|].
  split; cbn [img sb freeinode freeblock set_img]; [done|apply Ho|done|done|exact Hh|].
  eapply holds_keep; [|exact Ho|].
  - intros k c Hk. pose proof (lookup_lt_Some _ _ _ Hk) as Hl. rewrite length_replicate in Hl.
    change nbitmap with 13 in *. apply lookup_replicate in Hk as [-> _]. unfold byte_of.
    rewrite Hat by (consts; dlia). cbn [mbind option_bind]. unfold z. apply lookup_replicate. split; [done|]. consts. dlia.
  - rewrite length_replicate. change (length sb_bytes) with 16%nat. change nbitmap with 13. unfold range. consts. lia.
Qed.

(** ** The state between two files *)

Section layout.
(** [n] inodes, of which three are not for files. *)
Context (n : Z) (Hn : 3 <= n).

Definition root_start : Z := nmeta + inode_blocks n.
Definition root_size : Z := n * sizeof_dirent.
Definition data_start : Z := root_start + blocks_for root_size.

Record inv (done : list infile) (s : mkfs) : Prop := {
  i_sb : sb s = the_sb;
  i_full : full (img s);
  i_inode : freeinode s = 3 + Z.of_nat (length done);
  i_block : freeblock s = data_start + total done;
  i_super : holds (img s) BSIZE sb_bytes;
  i_bitmap : holds (img s) (BSIZE * 2) (replicate (Z.to_nat (BSIZE * nbitmap)) 0);
  i_ino0 : holds (img s) (inode_addr 0) (dinode_bytes T_FILE 0 (n * sizeof_dinode) nmeta (inode_blocks n));
  i_root : holds (img s) (inode_addr 1)
    (dinode_bytes T_DIR 0 (16 * (3 + Z.of_nat (length done))) root_start (blocks_for root_size));
  i_cons : holds (img s) (inode_addr 2) (dinode_bytes T_DEV CONSOLE 0 0 0);
  i_dir : holds (img s) (BSIZE * root_start) (dir_bytes done);
  i_files : placed_all (img s) 3 data_start done
}.

Lemma inode_area : inode_addr n <= BSIZE * root_start /\ root_start <= nmeta + n / IPB + 1.
Proof.
  unfold inode_addr, root_start, inode_blocks. consts.
  destruct (Z.eqb_spec (n / 8) 0), (Z.eqb_spec ((n * 64) mod 512) 0); cbn [orb negb]; dlia.
Qed.

Lemma root_area : root_start <= data_start /\ root_size <= BSIZE * (data_start - root_start).
Proof.
  pose proof (blocks_for_bound root_size) as H. unfold data_start. unfold root_size in *. consts. lia.
Qed.

(** Every address and size of a state between two files, for [lia]. *)
Ltac geometry :=
  pose proof inode_area; pose proof root_area; unfold root_size in *;
  unfold range, inode_addr in *; change nbitmap with 13 in *; consts.

Ltac apart :=
  intros ? ? ?; cbn beta in *; rewrite ?length_dinode_bytes, ?length_dir_bytes, ?length_replicate in *;
  change (length sb_bytes) with 16%nat in *; geometry; lia.

Ltac keep := eapply holds_keep; [eassumption|eassumption|apart].

(** What is written for the next file. *)
Definition new_bytes (done : list infile) (f : infile) (x : Z) : Prop :=
  range (inode_addr (3 + Z.of_nat (length done))) 64 x \/
  range (BSIZE * root_start + 16 * (3 + Z.of_nat (length done))) 16 x \/
  range (inode_addr 1) 64 x \/
  range (BSIZE * (data_start + total done)) (size_of f) x.

Lemma fits k : 0 <= k < n -> data_start <= FSSIZE -> inode_fits k.
Proof. intros Hk Hfit. split; [lia|]. geometry. dlia. Qed.

(** A change in [new_bytes] keeps what the next state still has. *)
Lemma inv_keep done f s im' :
  inv done s -> 3 + Z.of_nat (length done) < n -> only (new_bytes done f) (img s) im' ->
  holds im' BSIZE sb_bytes /\ holds im' (BSIZE * 2) (replicate (Z.to_nat (BSIZE * nbitmap)) 0) /\
  holds im' (inode_addr 0) (dinode_bytes T_FILE 0 (n * sizeof_dinode) nmeta (inode_blocks n)) /\
  holds im' (inode_addr 2) (dinode_bytes T_DEV CONSOLE 0 0 0) /\
  holds im' (BSIZE * root_start) (dir_bytes done) /\ placed_all im' 3 data_start done.
Proof.
  intros [] Hl Ho. pose proof (total_nonneg done) as Ht. pose proof (size_of_nonneg f) as Hs. unfold new_bytes in Ho.
  split_and!; [keep..|]. eapply placed_all_keep; [eassumption|eassumption|apart|apart].
Qed.

(** The new inode and the entry of the directory. *)
Lemma add_name {A} (k : Z -> F A) done s name :
  inv done s -> 3 + Z.of_nat (length done) < n -> data_start <= FSSIZE ->
  let j := 3 + Z.of_nat (length done) in
  exists im', (inum <- ialloc T_FILE ;; add_entry inum name ;; k inum) s =
      k j (set_img im' (set_freeinode (j + 1) s)) /\
    only (fun x => range (inode_addr j) 64 x \/
      (range (BSIZE * root_start + 16 * j) 16 x \/ range (inode_addr 1) 64 x)) (img s) im' /\
    holds im' (inode_addr j) (dinode_bytes T_FILE 0 0 0 0) /\
    holds im' (inode_addr 1) (dinode_bytes T_DIR 0 (16 * (j + 1)) root_start (blocks_for root_size)) /\
    holds im' (BSIZE * root_start + 16 * j) (dirent_bytes j name).
Proof.
  intros [] Hl Hfit j. destruct (ialloc_eq s T_FILE) as (im1 & E1 & Ho1 & Hh1);
    [done|done|rewrite i_inode0; apply fits; lia|unfold T_FILE; lia|]. rewrite i_inode0 in E1, Ho1, Hh1. fold j in E1, Ho1, Hh1.
  set (s1 := set_img im1 _) in E1. assert (Hr1 : holds im1 (inode_addr 1)
    (dinode_bytes T_DIR 0 (16 * j) root_start (blocks_for root_size))) by (unfold j in *; keep).
  destruct (iappend_eq s1 1 T_DIR 0 (16 * j) root_start (blocks_for root_size) (dirent_bytes j name))
    as (im2 & E2 & Ho2 & Hh2 & Hd2); [done|apply Ho1|apply fits; lia| |lia|exact Hr1| | |].
  { geometry. lia. } { geometry. lia. } { rewrite length_dirent. geometry. lia. }
  rewrite length_dirent in *. exists im2. split_and!.
  - mstep E1. unfold add_entry. by mstep E2.
  - by eapply only_trans.
  - unfold j in *. keep.
  - replace (16 * (j + 1)) with (16 * j + Z.of_nat 16) by lia. done.
  - done.
Qed.
(** The data of a file, once it has its inode. *)
Definition copy_file (cs : list (list Z)) (inum : Z) : F unit :=
  din <- rinode inum ;;
  fb <- gets freeblock ;;
  winode inum (put32 din_start (xint fb) din) ;;
  copy_chunks inum cs ;;
  din <- rinode inum ;;
  let din := put32 din_nblocks (xint (u32 (blocks_for (xint (le32 din din_size))))) din in
  modify (fun s => set_freeblock (u32 (freeblock s + xint (le32 din din_nblocks))) s) ;;
  winode inum din.

Lemma copy_file_eq s inum cs :
  sb s = the_sb -> full (img s) -> inode_fits inum -> Forall (fun c => c <> []) cs ->
  holds (img s) (inode_addr inum) (dinode_bytes T_FILE 0 0 0 0) ->
  let st := freeblock s in let sz := Z.of_nat (length (concat cs)) in
  0 <= st -> inode_addr inum + 64 <= BSIZE * st -> st + blocks_for sz <= FSSIZE ->
  exists im', copy_file cs inum s = Done tt (set_img im' (set_freeblock (st + blocks_for sz) s)) /\
    only (fun x => range (inode_addr inum) 64 x \/ range (BSIZE * st) sz x) (img s) im' /\
    holds im' (inode_addr inum) (dinode_bytes T_FILE 0 sz st (blocks_for sz)) /\ holds im' (BSIZE * st) (concat cs).
Proof.
  intros Hsb Hf Hi Hne Hdin st sz Hst Hdis Hfit. pose proof (blocks_for_bound sz ltac:(lia)) as Hb.
  assert (0 <= st < 2 ^ 32 /\ 0 <= sz < 2 ^ 32 /\ 0 <= blocks_for sz < 2 ^ 32 /\ 0 <= st + blocks_for sz < 2 ^ 32)
    as (Hr1 & Hr2 & Hr3 & Hr4) by (consts; lia).
  unfold copy_file. mstep (rinode_eq s Hsb Hf inum (dinode_bytes T_FILE 0 0 0 0)); [|done|done|done].
  rewrite (bind_done _ _ s st s) by done. rewrite xint_id, put_start by done.
  destruct (winode_eq s Hsb Hf inum (dinode_bytes T_FILE 0 0 st 0)) as (im1 & E1 & Ho1 & Hh1); [done|done|]. mstep E1.
  destruct (copy_chunks_eq cs (set_img im1 s) inum T_FILE 0 st 0 []) as (im2 & E2 & Ho2 & Hh2 & Hd2);
    [done|apply Ho1|done|done|done|done|cbn [app]; fold sz; consts; lia|done|by intros ???|].
  cbn [app img set_img] in Ho2, Hh2, Hd2. fold sz in Ho2, Hh2. mstep E2.
  set (s2 := set_img im2 (set_img im1 s)).
  mstep (rinode_eq s2 Hsb (proj1 Ho2) inum (dinode_bytes T_FILE 0 sz st 0)); [|done|done|done].
  rewrite get_size by done. rewrite (xint_id sz) by done.
  assert (u32 (blocks_for sz) = blocks_for sz) as -> by word. rewrite (xint_id (blocks_for sz)), put_nblocks by done.
  rewrite get_nblocks, xint_id by done.
  set (s3 := set_freeblock (st + blocks_for sz) s2).
  rewrite (bind_done _ _ s2 tt s3); [|unfold modify, s3; cbn [freeblock s2 set_img]; fold st;
    assert (u32 (st + blocks_for sz) = st + blocks_for sz) as -> by word; done].
  destruct (winode_eq s3 Hsb (proj1 Ho2) inum (dinode_bytes T_FILE 0 sz st (blocks_for sz))) as (im3 & E3 & Ho3 & Hh3);
    [done|done|]. exists im3. split_and!; [rewrite E3; by destruct s| |done|].
  - eapply only_weaken, only_trans; [|exact Ho1|eapply only_trans; [exact Ho2|exact Ho3]]. cbn. tauto.
  - eapply holds_keep; [exact Hd2|exact Ho3|]. fold sz. unfold range. lia.
Qed.

(** One file. *)
Lemma add_file_inv done s f :
  inv done s -> file_ok f -> 3 + Z.of_nat (length done) < n -> data_start + total (done ++ [f]) <= FSSIZE ->
  exists s', add_file f s = Done tt s' /\ inv (done ++ [f]) s'.
Proof.
  intros Hinv (Hpre & Hsl & cs & Hcs & Hne) Hl Hfit. pose proof (total_nonneg done) as Ht.
  rewrite total_app in Hfit. cbn [total] in Hfit. rewrite Z.add_0_r in Hfit. pose proof (blocks_nonneg f) as Hbf.
  assert (Hdata : data f = concat cs) by (unfold data; by rewrite Hcs).
  assert (Hsz : size_of f = Z.of_nat (length (concat cs))) by (unfold size_of; by rewrite Hdata).
  unfold add_file. rewrite bool_decide_eq_true_2, bool_decide_eq_false_2, Hcs by done. cbn [negb].
  destruct (add_name (copy_file cs) done s (dname f)) as (im1 & E1 & Ho1 & Hi1 & Hr1 & Hd1); [done|done|lia|].
  set (j := 3 + Z.of_nat (length done)) in *. set (s1 := set_img im1 _) in E1.
  assert (Hfb : freeblock s1 = data_start + total done) by apply Hinv.
  destruct (copy_file_eq s1 j cs) as (im2 & E2 & Ho2 & Hi2 & Hd2);
    [apply Hinv|apply Ho1|apply fits; lia|done|done|..]; rewrite ?Hfb, <- ?Hsz; [geometry; lia..|].
  rewrite Hfb, <- Hsz in *. cbn [img s1 set_img] in Ho2.
  assert (Ho : only (new_bytes done f) (img s) im2).
  { eapply only_weaken, only_trans; [|done..]. unfold new_bytes. fold j. cbn. tauto. }
  destruct (inv_keep done f s im2 Hinv Hl Ho) as (K1 & K2 & K3 & K4 & K5 & K6).
  eexists. split; [exact (eq_trans E1 E2)|].
  assert (Hlen : Z.of_nat (length (done ++ [f])) = Z.of_nat (length done) + 1) by (rewrite length_app; cbn; lia).
  assert (Htot : total (done ++ [f]) = total done + blocks_for (size_of f)) by (rewrite total_app; cbn [total]; lia).
  split; cbn [img sb freeinode freeblock set_img set_freeblock set_freeinode s1]; rewrite ?Hlen, ?Htot; try done.
  - apply Hinv.
  - apply Ho2.
  - unfold j. lia.
  - lia.
  - replace (3 + (Z.of_nat (length done) + 1)) with (j + 1) by (unfold j; lia). unfold j in *. keep.
  - assert (dir_bytes (done ++ [f]) = dir_bytes done ++ dirent_bytes j (dname f)) as ->.
    { unfold dir_bytes. rewrite entries_app. cbn [entries]. by rewrite app_nil_r, <- !app_assoc. }
    apply holds_app. split; [done|]. rewrite length_dir_bytes.
    replace (BSIZE * root_start + Z.of_nat (16 * (3 + length done))) with (BSIZE * root_start + 16 * j) by (unfold j; lia).
    eapply holds_keep; [exact Hd1|exact Ho2|]. rewrite length_dirent. unfold j in *. apart.
  - apply placed_all_app. split; [done|]. cbn [placed_all]. split; [|done]. split; [done|]. by rewrite Hdata.
Qed.

(** All files. *)
Lemma add_files_inv done s fs :
  inv done s -> Forall file_ok fs -> 3 + Z.of_nat (length (done ++ fs)) <= n ->
  data_start + total (done ++ fs) <= FSSIZE ->
  exists s', mfor fs add_file s = Done tt s' /\ inv (done ++ fs) s'.
Proof.
  revert done s. induction fs as [|f fs IH]; intros done s Hinv Hok Hl Hfit; cbn [mfor].
  { exists s. by rewrite app_nil_r. }
  apply Forall_cons in Hok as [Hf Hok]. pose proof (total_nonneg fs) as Ht.
  assert (E : done ++ f :: fs = (done ++ [f]) ++ fs) by (by rewrite <- app_assoc). rewrite E in *.
  destruct (add_file_inv done s f) as (s1 & E1 & Hinv1); [done|done| | |].
  { rewrite !length_app in Hl. cbn in Hl. lia. }
  { rewrite (total_app (done ++ [f])) in Hfit. lia. }
  destruct (IH (done ++ [f]) s1 Hinv1 Hok Hl Hfit) as (s' & E' & Hinv'). exists s'. split; [by mstep E1|done].
Qed.
(** The inode file and the root directory with its first two entries. *)
Lemma make_inodefile_eq s :
  blank s -> data_start <= FSSIZE ->
  exists im', make_inodefile n s = Done tt (set_img im' (set_freeblock root_start (set_freeinode 1 s))) /\
    only (range (inode_addr 0) 64) (img s) im' /\
    holds im' (inode_addr 0) (dinode_bytes T_FILE 0 (n * sizeof_dinode) nmeta (inode_blocks n)).
Proof.
  intros [] Hfit. assert (Hi0 : inode_fits 0) by (apply fits; lia).
  destruct (ialloc_eq s T_FILE) as (im1 & E1 & Ho1 & Hh1); [done|done|by rewrite bl_inode0|unfold T_FILE; lia|].
  rewrite bl_inode0 in E1, Ho1, Hh1. change (0 + 1) with 1 in E1.
  unfold make_inodefile. mstep E1. change (0 =? INODEFILEINO) with true. cbn [assertm]. msimp.
  set (s1 := set_img im1 (set_freeinode 1 s)).
  mstep (rinode_eq s1 bl_sb0 (proj1 Ho1) 0 (dinode_bytes T_FILE 0 0 0 0)); [|done|done|done].
  assert (Est : gets (fun s => sb_inodestart (sb s)) s1 = Done nmeta s1) by (unfold gets, s1; cbn; by rewrite bl_sb0).
  mstep Est. cbv zeta. fold (inode_blocks n).
  assert (0 <= inode_blocks n < 2 ^ 31 /\ 0 <= n * sizeof_dinode < 2 ^ 32) as [Hr1 Hr2].
  { geometry. unfold root_start in *. consts. lia. }
  rewrite !xint_id, put_start, put_nblocks, put_size by lia.
  destruct (winode_eq s1 bl_sb0 (proj1 Ho1) 0 (dinode_bytes T_FILE 0 (n * sizeof_dinode) nmeta (inode_blocks n)))
    as (im2 & E2 & Ho2 & Hh2); [done|done|]. mstep E2. exists im2. split_and!; [|eapply only_weaken, only_trans; [|done..]; cbn; tauto|done].
  unfold modify. f_equal. unfold set_freeblock, set_img, s1; cbn. rewrite bl_block0. f_equal. unfold root_start. consts. word.
Qed.

(** One more entry of the root directory. *)
Lemma add_entry_eq s inum name k :
  sb s = the_sb -> full (img s) -> data_start <= FSSIZE -> 0 <= k < n ->
  holds (img s) (inode_addr 1) (dinode_bytes T_DIR 0 (16 * k) root_start (blocks_for root_size)) ->
  exists im', add_entry inum name s = Done tt (set_img im' s) /\
    only (fun x => range (BSIZE * root_start + 16 * k) 16 x \/ range (inode_addr 1) 64 x) (img s) im' /\
    holds im' (inode_addr 1) (dinode_bytes T_DIR 0 (16 * (k + 1)) root_start (blocks_for root_size)) /\
    holds im' (BSIZE * root_start + 16 * k) (dirent_bytes inum name).
Proof.
  intros Hsb Hf Hfit Hk Hr. unfold add_entry.
  destruct (iappend_eq s 1 T_DIR 0 (16 * k) root_start (blocks_for root_size) (dirent_bytes inum name))
    as (im' & E & Ho & Hh & Hd); [done|done|apply fits; lia| |lia|done| | |].
  { geometry. lia. } { geometry. lia. } { rewrite length_dirent. geometry. lia. }
  rewrite length_dirent in *. exists im'. split_and!; [done|done| |done].
  by replace (16 * (k + 1)) with (16 * k + Z.of_nat 16) by lia.
Qed.

Lemma make_root_eq s :
  sb s = the_sb -> full (img s) -> freeinode s = 1 -> freeblock s = root_start -> data_start <= FSSIZE ->
  exists im', make_root root_size s = Done tt (set_img im' (set_freeblock data_start (set_freeinode 2 s))) /\
    only (fun x => range (inode_addr 1) 64 x \/ range (BSIZE * root_start) 32 x) (img s) im' /\
    holds im' (inode_addr 1) (dinode_bytes T_DIR 0 (16 * 2) root_start (blocks_for root_size)) /\
    holds im' (BSIZE * root_start) (dirent_bytes 1 [46] ++ dirent_bytes 1 [46; 46]).
Proof.
  intros Hsb Hf Hi Hb Hfit. assert (Hi1 : inode_fits 1) by (apply fits; lia).
  destruct (ialloc_eq s T_DIR) as (im1 & E1 & Ho1 & Hh1); [done|done|by rewrite Hi|unfold T_DIR; lia|].
  rewrite Hi in E1, Ho1, Hh1. change (1 + 1) with 2 in E1.
  unfold make_root. mstep E1. change (1 =? ROOTINO) with true. cbn [assertm]. msimp.
  set (s1 := set_img im1 (set_freeinode 2 s)).
  assert (freeblock s1 = root_start) as -> by exact Hb.
  assert (0 <= root_start < 2 ^ 31 /\ 0 <= blocks_for root_size < 2 ^ 31 /\ root_start + blocks_for root_size = data_start)
    as (Hr1 & Hr2 & Hr3).
  { geometry. unfold data_start, root_size in *. consts. lia. }
  unfold iallocblocks.
  set (din := dinode_bytes T_DIR 0 0 root_start (blocks_for root_size)).
  destruct (winode_eq s1 Hsb (proj1 Ho1) 1 din) as (im2 & E2 & Ho2 & Hh2); [done|done|].
  assert (Ei : (din <- rinode 1 ;; winode 1 (put32 din_nblocks (xint (blocks_for root_size))
    (put32 din_start (xint root_start) din))) s1 = Done tt (set_img im2 s1)).
  { mstep (rinode_eq s1 Hsb (proj1 Ho1) 1 (dinode_bytes T_DIR 0 0 0 0)); [|done|done|done].
    rewrite !xint_id, put_start, put_nblocks by lia. exact E2. }
  mstep Ei. set (s2 := set_freeblock data_start (set_img im2 s1)).
  rewrite (bind_done _ _ _ tt s2); [|unfold modify, s2; cbn; rewrite Hb; do 2 f_equal; rewrite <- Hr3; word].
  destruct (add_entry_eq s2 1 [46] 0 Hsb (proj1 Ho2) Hfit ltac:(lia) Hh2) as (im3 & E3 & Ho3 & Hh3 & Hd3).
  mstep E3. set (s3 := set_img im3 s2).
  destruct (add_entry_eq s3 1 [46; 46] 1 Hsb (proj1 Ho3) Hfit ltac:(lia) Hh3) as (im4 & E4 & Ho4 & Hh4 & Hd4).
  exists im4. split_and!; [exact E4| |done|].
  - eapply only_weaken; [|eapply only_trans; [exact Ho1|eapply only_trans; [exact Ho2|eapply only_trans; [exact Ho3|exact Ho4]]]].
    cbn. unfold range. lia.
  - apply holds_app. rewrite length_dirent. rewrite Z.mul_0_r, Z.add_0_r in Hd3. split; [|done].
    eapply holds_keep; [exact Hd3|exact Ho4|]. rewrite length_dirent. apart.
Qed.

Lemma make_console_eq s :
  sb s = the_sb -> full (img s) -> freeinode s = 2 -> data_start <= FSSIZE ->
  holds (img s) (inode_addr 1) (dinode_bytes T_DIR 0 (16 * 2) root_start (blocks_for root_size)) ->
  exists im', make_console s = Done tt (set_img im' (set_freeinode 3 s)) /\
    only (fun x => range (inode_addr 1) 128 x \/ range (BSIZE * root_start + 32) 16 x) (img s) im' /\
    holds im' (inode_addr 1) (dinode_bytes T_DIR 0 (16 * 3) root_start (blocks_for root_size)) /\
    holds im' (inode_addr 2) (dinode_bytes T_DEV CONSOLE 0 0 0) /\
    holds im' (BSIZE * root_start + 32) (dirent_bytes 2 console_name).
Proof.
  intros Hsb Hf Hi Hfit Hr. assert (Hi2 : inode_fits 2) by (apply fits; lia).
  destruct (ialloc_eq s T_DEV) as (im1 & E1 & Ho1 & Hh1); [done|done|by rewrite Hi|unfold T_DEV; lia|].
  rewrite Hi in E1, Ho1, Hh1. change (2 + 1) with 3 in E1. unfold make_console. mstep E1.
  set (s1 := set_img im1 (set_freeinode 3 s)).
  mstep (rinode_eq s1 Hsb (proj1 Ho1) 2 (dinode_bytes T_DEV 0 0 0 0)); [|done|done|done].
  rewrite xshort_id, put_devid by (unfold CONSOLE; lia).
  destruct (winode_eq s1 Hsb (proj1 Ho1) 2 (dinode_bytes T_DEV CONSOLE 0 0 0)) as (im2 & E2 & Ho2 & Hh2); [done|done|].
  mstep E2. set (s2 := set_img im2 s1). pose proof (only_trans _ _ _ _ _ Ho1 Ho2) as Ho12.
  destruct (add_entry_eq s2 2 console_name 2 Hsb (proj1 Ho2) Hfit ltac:(lia)) as (im3 & E3 & Ho3 & Hh3 & Hd3); [keep|].
  exists im3. split_and!; [exact E3| |done| |done].
  - eapply only_weaken; [|eapply only_trans; [exact Ho12|exact Ho3]]. cbn. unfold range, inode_addr. consts. lia.
  - keep.
Qed.

(** Everything before the files. *)
Lemma start_inv s :
  freeinode s = 0 -> data_start <= FSSIZE ->
  exists s', (forall A (k : F A), (make_super ;; make_inodefile n ;; make_root root_size ;; make_console ;; k) s = k s') /\
    inv [] s'.
Proof.
  intros Hi Hfit. destruct (make_super_eq s Hi) as (s1 & E1 & Hb).
  destruct (make_inodefile_eq s1 Hb Hfit) as (im2 & E2 & Ho2 & Hh2). destruct Hb.
  set (s2 := set_img im2 _) in E2.
  destruct (make_root_eq s2) as (im3 & E3 & Ho3 & Hh3 & Hd3); [done|apply Ho2|done|done|done|].
  set (s3 := set_img im3 _) in E3.
  destruct (make_console_eq s3) as (im4 & E4 & Ho4 & Hh4 & Hc4 & Hd4); [done|apply Ho3|done|done|done|].
  pose proof (only_trans _ _ _ _ _ Ho3 Ho4) as Ho34. cbn [img s2 s3 set_img] in Ho34, Ho4.
  pose proof (only_trans _ _ _ _ _ Ho2 Ho34) as Ho24.
  eexists. split.
  - intros A k. mstep E1. mstep E2. mstep E3. by mstep E4.
  - split; cbn [img sb freeinode freeblock set_img set_freeinode set_freeblock length total];
      [done|apply Ho4|done|cbn; lia|keep|keep|keep|exact Hh4|exact Hc4| |done].
    unfold dir_bytes. cbn [entries]. rewrite app_nil_r, app_assoc. apply holds_app. rewrite length_app, !length_dirent.
    split; [|done]. eapply holds_keep; [exact Hd3|exact Ho4|]. rewrite length_app, !length_dirent. apart.
Qed.
End layout.

(** ** The bitmap *)

Lemma set_bit_spec buf k i :
  length buf = Z.to_nat BSIZE -> 0 <= k < BPB -> 0 <= i < BPB ->
  Z.testbit (byte_at (set_bit buf k) (Z.to_nat (i / 8))) (i mod 8) =
  (k =? i) || Z.testbit (byte_at buf (Z.to_nat (i / 8))) (i mod 8).
Proof.
  intros Hl Hk Hi. unfold set_bit. set (v := Z.lor _ _). change BPB with 4096 in *. consts.
  destruct (decide (i / 8 = k / 8)) as [E|Hne].
  - rewrite E. unfold byte_at at 1. rewrite list_lookup_insert_eq by dlia. cbn [default from_option id]. unfold v.
    rewrite Z.lor_spec, Z.shiftl_1_l, Z.pow2_bits_eqb, orb_comm by dlia. f_equal.
    destruct (Z.eqb_spec (k mod 8) (i mod 8)), (Z.eqb_spec k i); try done; dlia.
  - unfold byte_at at 1. rewrite list_lookup_insert_ne by dlia.
    destruct (Z.eqb_spec k i) as [->|]; [done|reflexivity].
Qed.

Lemma bitmap_block_spec n :
  length (bitmap_block n) = Z.to_nat BSIZE /\
  forall i, 0 <= i < BPB -> Z.testbit (byte_at (bitmap_block n) (Z.to_nat (i / 8))) (i mod 8) = (i <? n).
Proof.
  unfold bitmap_block. set (m := Z.to_nat (Z.min n (BSIZE * 8))).
  assert (H : forall k, Z.of_nat k <= BPB ->
    let b := foldl (fun b i => set_bit b (Z.of_nat i)) (replicate (Z.to_nat BSIZE) 0) (seq 0 k) in
    length b = Z.to_nat BSIZE /\
    forall i, 0 <= i < BPB -> Z.testbit (byte_at b (Z.to_nat (i / 8))) (i mod 8) = (i <? Z.of_nat k)).
  { induction k as [|k IH]; intros Hk.
    - cbn [seq foldl]. split; [apply length_replicate|]. intros i Hi. unfold byte_at.
      rewrite lookup_replicate_2 by (change BPB with 4096 in *; consts; dlia). cbn [default from_option id].
      rewrite Z.bits_0. symmetry. apply Z.ltb_ge. lia.
    - rewrite seq_S, foldl_app. cbn [foldl Nat.add]. destruct IH as [Hl Hb]; [lia|]. split.
      + unfold set_bit. by rewrite length_insert.
      + intros i Hi. rewrite set_bit_spec, Hb by (done || lia).
        destruct (Z.eqb_spec (Z.of_nat k) i), (Z.ltb_spec i (Z.of_nat k)), (Z.ltb_spec i (Z.of_nat (S k))); try done; lia. }
  destruct (H m) as [Hl Hb]; [unfold m; change BPB with 4096; consts; lia|]. split; [done|].
  intros i Hi. rewrite Hb by done. unfold m. change BPB with 4096 in *. consts.
  destruct (Z.ltb_spec i (Z.of_nat (Z.to_nat (Z.min n (512 * 8))))), (Z.ltb_spec i n); try done; lia.
Qed.

(** Block [b] is marked as used. *)
Definition used_bit (im : gmap Z (list Z)) (b : Z) : bool :=
  match byte_of im (BSIZE * 2 + b / 8) with
  | Some v => Z.testbit v (b mod 8)
  | None => false
  end.

(** The same bit, in a block of the bitmap. *)
Lemma used_bit_block im c buf b :
  im !! (2 + c) = Some buf -> 0 <= c -> BPB * c <= b < BPB * (c + 1) -> length buf = Z.to_nat BSIZE ->
  used_bit im b = Z.testbit (byte_at buf (Z.to_nat ((b - BPB * c) / 8))) ((b - BPB * c) mod 8).
Proof.
  intros Hb Hc Hr Hl. unfold used_bit. change BPB with 4096 in *.
  replace (BSIZE * 2 + b / 8) with (BSIZE * (2 + c) + (b - 4096 * c) / 8) by (consts; dlia).
  rewrite (byte_of_at im (2 + c) buf) by (done || (consts; dlia)).
  replace ((b - 4096 * c) mod 8) with (b mod 8) by dlia. unfold byte_at.
  destruct (lookup_lt_is_Some_2 buf (Z.to_nat ((b - 4096 * c) / 8))) as [v ->]; [consts; dlia|done].
Qed.

Lemma write_sector im sec b :
  full im -> length b = Z.to_nat BSIZE -> only (range (BSIZE * sec) BSIZE) im (<[sec := b]> im).
Proof.
  intros Hf Hl. split.
  - intros sec' Hs. destruct (decide (sec' = sec)) as [->|]; [exists b; by rewrite lookup_insert_eq|].
    rewrite lookup_insert_ne by done. by apply Hf.
  - intros x Hx. unfold byte_of. rewrite lookup_insert_ne; [done|]. unfold range in Hx. consts. dlia.
Qed.

Lemma used_bit_keep D im im' b : only D im im' -> ~ D (BSIZE * 2 + b / 8) -> used_bit im' b = used_bit im b.
Proof. intros [_ H] Hd. unfold used_bit. by rewrite H. Qed.

Lemma balloc_blocks_eq fuel s r c :
  sb s = the_sb -> full (img s) -> (Z.to_nat r < fuel)%nat -> - BPB < r -> 0 <= c -> BPB * c + r <= BPB * nbitmap ->
  (forall b, BPB * c <= b < BPB * nbitmap -> used_bit (img s) b = false) ->
  exists im', balloc_blocks fuel r c s = Done tt (set_img im' s) /\
    only (range (BSIZE * (2 + c)) (BSIZE * (nbitmap - c))) (img s) im' /\
    forall b, BPB * c <= b < BPB * nbitmap -> used_bit im' b = (b <? BPB * c + r).
Proof.
  revert s r c. induction fuel as [|fuel IH]; intros s r c Hsb Hf Hfu Hr Hc Hfit Hz; [lia|]. cbn [balloc_blocks].
  destruct (Z.ltb_spec 0 r) as [Hp|Hp].
  2:{ exists (img s). split; [by destruct s|]. split; [by split|]. intros b Hb. rewrite Hz by done.
      symmetry. apply Z.ltb_ge. lia. }
  change BPB with 4096 in *. change nbitmap with 13 in *.
  assert (Eg : gets (fun s => sb_bmapstart (sb s)) s = Done 2 s) by (unfold gets; by rewrite Hsb). mstep Eg.
  assert (u32 (2 + c) = 2 + c) as -> by word. assert (Hs : 0 <= 2 + c < FSSIZE) by (consts; lia).
  mstep (wsect_eq s (2 + c) (bitmap_block r) Hs). set (im1 := <[2 + c := bitmap_block r]> (img s)).
  destruct (bitmap_block_spec r) as [Hl Hb]. assert (H1 : im1 !! (2 + c) = Some (bitmap_block r)) by apply lookup_insert_eq.
  pose proof (write_sector (img s) (2 + c) (bitmap_block r) Hf Hl) as Ho1. fold im1 in Ho1.
  assert (i32 (r - BSIZE * 8) = r - 4096 /\ i32 (c + 1) = c + 1) as [-> ->] by (consts; word).
  destruct (IH (set_img im1 s) (r - 4096) (c + 1)) as (im' & E & Ho & Hu); [done|apply Ho1|lia|lia|lia|lia| |].
  { intros b Hbr. cbn [img set_img]. rewrite (used_bit_keep _ _ _ _ Ho1); [apply Hz; lia|]. unfold range. consts. dlia. }
  exists im'. split; [exact E|]. split.
  - eapply only_weaken, only_trans; [|done..]. unfold range. consts. cbn. lia.
  - intros b Hbr. destruct (decide (4096 * (c + 1) <= b)) as [Hge|Hlt].
    + rewrite Hu by lia. f_equal. lia.
    + rewrite (used_bit_keep _ _ _ _ Ho); [|unfold range; consts; dlia]. cbn [img set_img].
      rewrite (used_bit_block im1 c (bitmap_block r)) by (done || (change BPB with 4096; lia)).
      change BPB with 4096 in *. rewrite Hb by lia.
      destruct (Z.ltb_spec (b - 4096 * c) r), (Z.ltb_spec b (4096 * c + r)); try done; lia.
Qed.

(** ** What the kernel finds *)

(** [k] bytes from address [a] on. *)
Definition disk_bytes (im : gmap Z (list Z)) (a : Z) (k : nat) : list Z :=
  (fun i => default 0 (byte_of im (a + Z.of_nat i))) <$> seq 0 k.

(** The superblock in block 1; the inode file, whose inode is the first of the
    block that the superblock names; a part of a file, which is contiguous; an
    inode, which is a part of the inode file; an entry of the root directory. *)
Definition disk_sb (im : gmap Z (list Z)) : superblock := decode_superblock (disk_bytes im BSIZE 16).
Definition disk_inodefile (im : gmap Z (list Z)) : dinode :=
  decode_dinode (disk_bytes im (BSIZE * sb_inodestart (disk_sb im)) 64).
Definition file_part (im : gmap Z (list Z)) (di : dinode) (off : Z) (k : nat) : list Z :=
  disk_bytes im (BSIZE * startblkno (d_data di) + off) k.
Definition disk_inode (im : gmap Z (list Z)) (inum : Z) : dinode :=
  decode_dinode (file_part im (disk_inodefile im) (INODEOFF inum) 64).
Definition root_entry (im : gmap Z (list Z)) (k : Z) : dirent :=
  decode_dirent (file_part im (disk_inode im ROOTINO) (sizeof_dirent * k) 16).

(** A name as a directory has it. *)
Definition padded (name : list Z) : list Z := take DIRSIZ (name ++ replicate DIRSIZ 0).

Lemma disk_bytes_holds im a bs : holds im a bs -> disk_bytes im a (length bs) = bs.
Proof.
  intros H. apply list_eq. intros k. unfold disk_bytes. rewrite list_lookup_fmap.
  destruct (bs !! k) as [c|] eqn:E.
  - rewrite lookup_seq_lt by (by apply lookup_lt_Some in E). cbn. by rewrite (H k c E).
  - apply lookup_ge_None in E. by rewrite lookup_seq_ge.
Qed.

Lemma decode_dirent_bytes inum name :
  0 <= inum < 2 ^ 16 -> decode_dirent (dirent_bytes inum name) = mk_dirent inum (padded name).
Proof.
  intros H. unfold decode_dirent, dirent_bytes, padded. rewrite xshort_id by done. f_equal.
  - unfold le16, byte_at. cbn. dlia.
  - cbn [le_bytes app]. rewrite !skipn_cons, drop_0, take_take. by rewrite Nat.min_id.
Qed.

Lemma entries_lookup im a inum fs k f :
  holds im a (entries inum fs) -> fs !! k = Some f ->
  holds im (a + 16 * Z.of_nat k) (dirent_bytes (inum + Z.of_nat k) (dname f)).
Proof.
  revert a inum k. induction fs as [|g fs IH]; intros a inum [|k] H Hk; cbn in Hk; simplify_eq;
    cbn [entries] in H; apply holds_app in H as [H1 H2]; rewrite length_dirent in H2.
  - by rewrite Z.mul_0_r, !Z.add_0_r.
  - pose proof (IH _ _ _ H2 Hk) as H. replace (a + 16 * Z.of_nat (S k)) with (a + Z.of_nat 16 + 16 * Z.of_nat k) by lia.
    by replace (inum + Z.of_nat (S k)) with (inum + 1 + Z.of_nat k) by lia.
Qed.

Lemma placed_all_lookup im inum st fs k f :
  placed_all im inum st fs -> fs !! k = Some f ->
  placed im (inum + Z.of_nat k) (st + total (take k fs)) f /\
  total (take k fs) + blocks_for (size_of f) <= total fs.
Proof.
  revert inum st k. induction fs as [|g fs IH]; intros inum st [|k] H Hk; cbn in Hk; simplify_eq;
    cbn [placed_all] in H; destruct H as [H1 H2]; cbn [take total].
  - rewrite !Z.add_0_r. pose proof (total_nonneg fs). split; [done|lia].
  - destruct (IH _ _ _ H2 Hk) as [H Ht]. replace (inum + Z.of_nat (S k)) with (inum + 1 + Z.of_nat k) by lia.
    replace (st + (blocks_for (size_of g) + total (take k fs))) with (st + blocks_for (size_of g) + total (take k fs)) by lia.
    split; [done|lia].
Qed.

(** The end of [main]. *)
Definition finish (size : Z) : F unit :=
  din <- rinode ROOTINO ;;
  winode ROOTINO (put32 din_size (xint size) din) ;;
  fb <- gets freeblock ;;
  balloc (i32 fb).

Lemma finish_eq n fs s :
  3 <= n -> n = 3 + Z.of_nat (length fs) -> inv n fs s -> data_start n + total fs <= FSSIZE ->
  exists im', finish (root_size n) s = Done tt (set_img im' s) /\
    only (fun x => range (inode_addr 1) 64 x \/ range (BSIZE * 2) (BSIZE * nbitmap) x) (img s) im' /\
    holds im' (inode_addr 1) (dinode_bytes T_DIR 0 (root_size n) (root_start n) (blocks_for (root_size n))) /\
    forall b, 0 <= b < BPB * nbitmap -> used_bit im' b = (b <? data_start n + total fs).
Proof.
  intros Hn En [] Hfit. pose proof (total_nonneg fs) as Ht. pose proof (inode_area n) as Hia. pose proof (root_area n Hn) as Hra.
  assert (Hi1 : inode_fits 1) by (apply (fits n); [lia|lia|lia]).
  unfold finish. mstep (rinode_eq s i_sb0 i_full0 1
    (dinode_bytes T_DIR 0 (16 * (3 + Z.of_nat (length fs))) (root_start n) (blocks_for (root_size n)))); [|done|done|done].
  assert (0 <= root_size n < 2 ^ 32) as Hrs by (unfold root_size in *; unfold inode_addr in *; consts; lia).
  rewrite xint_id, put_size by done.
  destruct (winode_eq s i_sb0 i_full0 1 (dinode_bytes T_DIR 0 (root_size n) (root_start n) (blocks_for (root_size n))))
    as (im1 & E1 & Ho1 & Hh1); [done|done|]. mstep E1. set (s1 := set_img im1 s).
  rewrite (bind_done _ _ s1 (data_start n + total fs) s1) by (unfold gets; by rewrite <- i_block0).
  assert (0 <= data_start n) by (unfold inode_addr in *; consts; lia).
  assert (i32 (data_start n + total fs) = data_start n + total fs) as -> by (consts; word).
  assert (Hz : forall b, 0 <= b < BPB * nbitmap -> used_bit im1 b = false).
  { intros b Hb. change (BPB * nbitmap) with 53248 in Hb.
    rewrite (used_bit_keep _ _ _ _ Ho1) by (unfold range, inode_addr; consts; dlia). unfold used_bit.
    assert (Hk : replicate (Z.to_nat (BSIZE * nbitmap)) 0 !! Z.to_nat (b / 8) = Some 0).
    { apply lookup_replicate. split; [done|]. change (BSIZE * nbitmap) with 6656. dlia. }
    pose proof (i_bitmap0 _ _ Hk) as Hby. rewrite Z2Nat.id in Hby by dlia. rewrite Hby. apply Z.bits_0. }
  unfold balloc. destruct (balloc_blocks_eq (S (Z.to_nat (data_start n + total fs))) s1 (data_start n + total fs) 0)
    as (im2 & E2 & Ho2 & Hu2); [done|apply Ho1|lia|change BPB with 4096; lia|lia| | |].
  { change BPB with 4096. change nbitmap with 13. consts. lia. }
  { intros b Hb. apply Hz. lia. }
  rewrite Z.mul_0_r in Hu2. exists im2. split_and!; [exact E2| | |exact Hu2].
  - eapply only_weaken, only_trans; [|done..]. change nbitmap with 13. unfold range. consts. cbn. lia.
  - eapply holds_keep; [exact Hh1|exact Ho2|]. rewrite length_dinode_bytes. change nbitmap with 13.
    unfold range, inode_addr. consts. lia.
Qed.

(** The inodes of an image whose superblock and inode file are right. *)
Lemma disk_inode_holds im t d sz st nb inum m k :
  holds im BSIZE sb_bytes ->
  holds im (inode_addr 0) (dinode_bytes T_FILE 0 m nmeta k) -> 0 <= m < 2 ^ 32 -> 0 <= k < 2 ^ 32 ->
  holds im (inode_addr inum) (dinode_bytes t d sz st nb) -> 0 <= inum < 2 ^ 16 ->
  0 <= t < 2 ^ 15 -> 0 <= d < 2 ^ 15 -> 0 <= sz < 2 ^ 32 -> 0 <= st < 2 ^ 32 -> 0 <= nb < 2 ^ 32 ->
  disk_inode im inum = mk_dinode t d sz (mk_extent st nb).
Proof.
  intros Hsb H0 Hm Hk H Hi Ht Hd Hsz Hst Hnb.
  assert (Esb : disk_sb im = the_sb).
  { unfold disk_sb. change 16%nat with (length sb_bytes). rewrite disk_bytes_holds by done. reflexivity. }
  assert (Ef : startblkno (d_data (disk_inodefile im)) = nmeta).
  { unfold disk_inodefile. rewrite Esb. cbn [the_sb sb_inodestart].
    replace (BSIZE * nmeta) with (inode_addr 0) by (unfold inode_addr; lia).
    rewrite <- (length_dinode_bytes T_FILE 0 m nmeta k), disk_bytes_holds by done.
    rewrite decode_dinode_bytes; [done|unfold T_FILE; lia|lia|done|consts; lia|done]. }
  unfold disk_inode, file_part. rewrite Ef.
  replace (BSIZE * nmeta + INODEOFF inum) with (inode_addr inum) by (unfold INODEOFF, inode_addr; consts; word).
  rewrite <- (length_dinode_bytes t d sz st nb), disk_bytes_holds by done. by apply decode_dinode_bytes.
Qed.

(** The image, in bytes. *)
Record image (files : list infile) (im : gmap Z (list Z)) : Prop := {
  im_super : holds im BSIZE sb_bytes;
  im_ino0 : let n := 3 + Z.of_nat (length files) in
    holds im (inode_addr 0) (dinode_bytes T_FILE 0 (n * sizeof_dinode) nmeta (inode_blocks n));
  im_root : let n := 3 + Z.of_nat (length files) in
    holds im (inode_addr 1) (dinode_bytes T_DIR 0 (root_size n) (root_start n) (blocks_for (root_size n)));
  im_cons : holds im (inode_addr 2) (dinode_bytes T_DEV CONSOLE 0 0 0);
  im_dir : holds im (BSIZE * root_start (3 + Z.of_nat (length files))) (dir_bytes files);
  im_files : placed_all im 3 (data_start (3 + Z.of_nat (length files))) files;
  im_bits : forall b, 0 <= b < FSSIZE -> used_bit im b = (b <? data_start (3 + Z.of_nat (length files)) + total files)
}.

Lemma mkfs_main_image files s :
  freeinode s = 0 -> Forall file_ok files -> data_start (3 + Z.of_nat (length files)) + total files <= FSSIZE ->
  exists s', mkfs_main files s = Done tt s' /\ image files (img s').
Proof.
  intros Hi Hok Hfit. set (n := 3 + Z.of_nat (length files)) in *. pose proof (total_nonneg files) as Ht.
  assert (Hn : 3 <= n) by lia. pose proof (inode_area n) as Hia. pose proof (root_area n Hn) as Hra.
  destruct (start_inv n Hn s Hi) as (s1 & E1 & Hinv1); [lia|].
  destruct (add_files_inv n Hn [] s1 files Hinv1 Hok) as (s2 & E2 & Hinv2); [cbn [app]; lia|done|]. cbn [app] in Hinv2.
  destruct (finish_eq n files s2 Hn eq_refl Hinv2 Hfit) as (im' & E3 & Ho & Hroot & Hbits).
  exists (set_img im' s2). split.
  - unfold mkfs_main. replace (Z.of_nat (length files) + 2 + 1) with n by lia. fold (root_size n). rewrite E1.
    mstep E2. exact E3.
  - destruct Hinv2. change nbitmap with 13 in Ho. unfold range, inode_addr in Ho. consts.
    split; cbv zeta; fold n; cbn [img set_img]; [| |exact Hroot| | | |].
    + eapply holds_keep; [exact i_super0|exact Ho|]. change (length sb_bytes) with 16%nat. unfold range. consts. lia.
    + eapply holds_keep; [exact i_ino1|exact Ho|]. rewrite length_dinode_bytes. unfold range, inode_addr. consts. lia.
    + eapply holds_keep; [exact i_cons0|exact Ho|]. rewrite length_dinode_bytes. unfold range, inode_addr. consts. lia.
    + eapply holds_keep; [exact i_dir0|exact Ho|]. unfold range, inode_addr in *. consts. lia.
    + eapply placed_all_keep; [exact i_files0|exact Ho| |]; unfold range, inode_addr in *; consts; lia.
    + intros b Hb. apply Hbits. change (BPB * nbitmap) with 53248. consts. lia.
Qed.

Section image.
Context (files : list infile) (im : gmap Z (list Z)) (Him : image files im).
Abbreviation n := (3 + Z.of_nat (length files)).
Context (Hfew : n < 2 ^ 16) (Hfit : data_start n + total files <= FSSIZE).

Lemma image_sb : disk_sb im = mk_superblock FSSIZE (FSSIZE - nmeta) 2 nmeta.
Proof.
  unfold disk_sb. change 16%nat with (length sb_bytes). rewrite disk_bytes_holds by apply Him. reflexivity.
Qed.

Lemma image_bounds :
  0 <= n * sizeof_dinode < 2 ^ 32 /\ 0 <= inode_blocks n < 2 ^ 32 /\ 0 <= root_start n < 2 ^ 32 /\
  0 <= root_size n < 2 ^ 32 /\ 0 <= blocks_for (root_size n) < 2 ^ 32 /\ 0 <= data_start n.
Proof.
  pose proof (inode_area n). pose proof (root_area n ltac:(lia)). pose proof (total_nonneg files).
  unfold inode_addr, root_start, data_start, root_size, root_start in *. consts. lia.
Qed.

Lemma image_inode inum t d sz st nb :
  holds im (inode_addr inum) (dinode_bytes t d sz st nb) -> 0 <= inum < n ->
  0 <= t < 2 ^ 15 -> 0 <= d < 2 ^ 15 -> 0 <= sz < 2 ^ 32 -> 0 <= st < 2 ^ 32 -> 0 <= nb < 2 ^ 32 ->
  disk_inode im inum = mk_dinode t d sz (mk_extent st nb).
Proof.
  intros H Hi. destruct image_bounds as (? & ? & _). intros.
  eapply disk_inode_holds; [apply Him|apply Him|done|done|done|lia|done..].
Qed.

Lemma image_root_inode :
  disk_inode im ROOTINO = mk_dinode T_DIR 0 (root_size n) (mk_extent (root_start n) (blocks_for (root_size n))).
Proof.
  destruct image_bounds as (? & ? & ? & ? & ? & _).
  apply image_inode; [apply Him|unfold ROOTINO; lia|unfold T_DIR; lia|lia|done..].
Qed.

(** An entry of the root directory. *)
Lemma image_entry k inum name :
  holds im (BSIZE * root_start n + 16 * k) (dirent_bytes inum name) -> 0 <= inum < 2 ^ 16 ->
  root_entry im k = mk_dirent inum (padded name).
Proof.
  intros H Hi. unfold root_entry, file_part. rewrite image_root_inode. cbn [d_data startblkno].
  change sizeof_dirent with 16. rewrite <- (length_dirent inum name), disk_bytes_holds by done.
  by apply decode_dirent_bytes.
Qed.

Lemma image_root :
  d_type (disk_inode im ROOTINO) = T_DIR /\ d_size (disk_inode im ROOTINO) = sizeof_dirent * n /\
  root_entry im 0 = mk_dirent ROOTINO (padded [46]) /\ root_entry im 1 = mk_dirent ROOTINO (padded [46; 46]) /\
  root_entry im 2 = mk_dirent 2 (padded console_name).
Proof.
  rewrite image_root_inode. pose proof (im_dir files im Him) as H. unfold dir_bytes in H.
  apply holds_app in H as [H1 H]. apply holds_app in H as [H2 H]. apply holds_app in H as [H3 _].
  rewrite !length_dirent in *. split_and!; [done|cbn; unfold root_size; lia|..]; apply image_entry; unfold ROOTINO; try lia.
  - by rewrite Z.mul_0_r, Z.add_0_r.
  - exact H2.
  - by replace (BSIZE * root_start n + 16 * 2) with (BSIZE * root_start n + Z.of_nat 16 + Z.of_nat 16) by lia.
Qed.

Lemma image_console : d_type (disk_inode im 2) = T_DEV /\ d_devid (disk_inode im 2) = CONSOLE.
Proof.
  rewrite (image_inode 2 T_DEV CONSOLE 0 0 0); [done|apply Him|lia|unfold T_DEV; lia|unfold CONSOLE; lia|lia..].
Qed.

Lemma image_file_inode k f :
  files !! k = Some f -> let st := data_start n + total (take k files) in
  disk_inode im (3 + Z.of_nat k) = mk_dinode T_FILE 0 (size_of f) (mk_extent st (blocks_for (size_of f))) /\
  holds im (BSIZE * st) (data f) /\ 0 <= st /\ st + blocks_for (size_of f) <= FSSIZE.
Proof.
  intros Hk st. pose proof (lookup_lt_Some _ _ _ Hk) as Hl.
  destruct (placed_all_lookup _ _ _ _ _ _ (im_files files im Him) Hk) as [[Hi Hd] Ht].
  destruct image_bounds as (_ & _ & _ & _ & _ & H0). pose proof (blocks_nonneg f) as Hb. pose proof (size_of_nonneg f) as Hs.
  pose proof (total_nonneg (take k files)) as Htk. split; [|split; [done|unfold st; lia]].
  apply image_inode; [exact Hi|lia|unfold T_FILE; lia|lia|unfold st; consts; lia..].
Qed.

Lemma image_file k f :
  files !! k = Some f -> let inum := 3 + Z.of_nat k in
  root_entry im inum = mk_dirent inum (padded (dname f)) /\
  d_type (disk_inode im inum) = T_FILE /\ d_size (disk_inode im inum) = size_of f /\
  file_part im (disk_inode im inum) 0 (length (data f)) = data f.
Proof.
  intros Hk inum. pose proof (lookup_lt_Some _ _ _ Hk) as Hl.
  destruct (image_file_inode k f Hk) as (E & Hd & _ & _). fold inum in E.
  rewrite E. split_and!; [|done|done|].
  - apply image_entry; [|unfold inum; lia]. pose proof (im_dir files im Him) as H. unfold dir_bytes in H. rewrite !app_assoc in H.
    apply holds_app in H as [_ H]. rewrite !length_app, !length_dirent in H.
    pose proof (entries_lookup _ _ _ _ _ _ H Hk) as He. unfold inum.
    by replace (BSIZE * root_start n + 16 * (3 + Z.of_nat k))
      with (BSIZE * root_start n + Z.of_nat (16 + 16 + 16) + 16 * Z.of_nat k) by lia.
  - unfold file_part. cbn [d_data startblkno]. rewrite Z.add_0_r. by apply disk_bytes_holds.
Qed.
End image.

(** ** Properties *)

(** C22: The image that mkfs builds is the file system that the kernel expects.
    For every list of files that fit, with acceptable names, and however the
    host splits them into reads, [main] succeeds.  Read with the kernel's own
    decoding of the superblock, of inodes and of directory entries, the image
    has a root directory with an entry for itself, for its parent and for the
    console, and one for each file in order; the inode that the entry names is a
    file of the right size, whose blocks hold exactly its bytes; and the bitmap
    marks exactly the blocks from the start of the image to the end of the last
    file as used. *)
Theorem mkfs_image_correct (files : list infile) (s : mkfs) (Hinit : freeinode s = 0)
    (Hok : Forall file_ok files) (Hfew : Z.of_nat (length files) + 3 < 2 ^ 16)
    (Hfit : data_start (Z.of_nat (length files) + 3) + total files <= FSSIZE) :
  exists s', mkfs_main files s = Done tt s' /\ let im := img s' in let n := Z.of_nat (length files) + 3 in
    disk_sb im = mk_superblock FSSIZE (FSSIZE - nmeta) 2 nmeta /\
    d_type (disk_inode im ROOTINO) = T_DIR /\ d_size (disk_inode im ROOTINO) = sizeof_dirent * n /\
    root_entry im 0 = mk_dirent ROOTINO (padded [46]) /\ root_entry im 1 = mk_dirent ROOTINO (padded [46; 46]) /\
    root_entry im 2 = mk_dirent 2 (padded console_name) /\
    d_type (disk_inode im 2) = T_DEV /\ d_devid (disk_inode im 2) = CONSOLE /\
    (forall k f, files !! k = Some f -> let inum := 3 + Z.of_nat k in
       root_entry im inum = mk_dirent inum (padded (dname f)) /\
       d_type (disk_inode im inum) = T_FILE /\ d_size (disk_inode im inum) = size_of f /\
       file_part im (disk_inode im inum) 0 (length (data f)) = data f) /\
    (forall b, 0 <= b < FSSIZE -> used_bit im b = (b <? data_start n + total files)).
Proof.
  replace (Z.of_nat (length files) + 3) with (3 + Z.of_nat (length files)) in * by lia.
  destruct (mkfs_main_image files s Hinit Hok Hfit) as (s' & E & Him). exists s'. split; [done|]. cbv zeta.
  split; [by apply (image_sb files)|]. destruct (image_root files (img s') Him Hfew Hfit) as (Hr1 & Hr2 & Hr3 & Hr4 & Hr5).
  destruct (image_console files (img s') Him Hfew Hfit) as [Hc1 Hc2].
  do 7 (split; [assumption|]). split; [|by apply (im_bits files)].
  intros k f Hk. by apply (image_file files).
Qed.

(** One file, [_a], which is read in two pieces. *)
Definition demo_file : infile := mk_infile (prefix ++ [95; 97]) (Some [[1; 2]; [3]]).

Lemma mkfs_image_correct_witness :
  exists s', mkfs_main [demo_file] (mk_mkfs ∅ 0 0 (mk_superblock 0 0 0 0)) = Done tt s' /\
    root_entry (img s') 3 = mk_dirent 3 (padded [97]) /\ d_size (disk_inode (img s') 3) = 3.
Proof.
  destruct (mkfs_image_correct [demo_file] (mk_mkfs ∅ 0 0 (mk_superblock 0 0 0 0)))
    as (s' & E & _ & _ & _ & _ & _ & _ & _ & _ & Hf & _); [reflexivity| |by vm_compute|by vm_compute|].
  { constructor; [|constructor]. split; [reflexivity|]. split; [by apply (bool_decide_unpack _); vm_compute|].
    exists [[1; 2]; [3]]. split; [reflexivity|]. by repeat constructor. }
  destruct (Hf 0%nat demo_file eq_refl) as (Hr & _ & Hs & _).
  exists s'. split; [exact E|]. split; [exact Hr|exact Hs].
Defined.
