(* ===== verification/File.v ===== *)
(** * Open files and pipes: [kernel/file.c]

    A [struct file_info *] is an index of the global file table; a process's
    [files] maps descriptors to such indices.  A pipe is a structure in a page
    of its own, named by its kernel address.  Buffers are user addresses. *)

From S2P Require Import Prelude Types Strings Spinlock Mmu Kalloc X86vm Umem Vspace Sched.
From S2P Require Import Console Sleeplock Ide Bio Fs.

(** ** Access *)

Definition upd_ft (f : ftable -> ftable) : K unit := modify (fun s => set_k_ft (f (k_ft s)) s).

Definition get_fi (i : nat) : K file_info :=
  o <- gets (fun s => file_table (k_ft s) !! i) ;;
  deref "file_info pointer" o.

Definition upd_fi (i : nat) (f : file_info -> file_info) : K unit :=
  x <- get_fi i ;;
  upd_ft (fun t => set_file_table (<[i := f x]> (file_table t)) t).

(** [myproc()->files[fd]] and its assignment. *)
Definition get_fd (fd : Z) : K (option nat) :=
  p <- my ;;
  if (fd <? 0) then fault "files index" else
  deref "files index" (files p !! Z.to_nat fd).

Definition set_fd (fd : Z) (o : option nat) : K unit :=
  i <- me ;;
  p <- get_proc i ;;
  if (fd <? 0) || (Z.of_nat (length (files p)) <=? fd) then fault "files index" else
  upd_proc i (fun p => set_files (<[Z.to_nat fd := o]> (files p)) p).

(** [*p] for a pipe, and its assignment. *)
Definition pipe_of (s : kstate) (p : Z) : option pipe :=
  match k_frames s !! PGNUM (V2P p) with
  | Some (FPipe x) => Some x
  | _ => None
  end.

Definition get_pipe (p : Z) : K pipe :=
  if p =? 0 then fault "null pipe" else
  o <- gets (fun s => pipe_of s p) ;;
  deref "pipe pointer" o.

Definition upd_pipe (p : Z) (f : pipe -> pipe) : K unit :=
  x <- get_pipe p ;;
  upd_frame (PGNUM (V2P p)) (FPipe (f x)).

(** [&pipe->lock]. *)
Definition pipe_lk (p : Z) : lockref :=
  mk_lockref (fun s => p_lock <$> pipe_of s p)
    (fun l s => match pipe_of s p with
                | Some x => set_k_frames (<[PGNUM (V2P p) := FPipe (set_p_lock l x)]> (k_frames s)) s
                | None => s
                end).

(** The first free descriptor of the process, and the first unused entry of
    the file table. *)
Definition free_fd (p : proc) : option nat := fst <$> list_find (fun o => o = None) (files p).
Definition free_gfd (t : ftable) : option nat :=
  fst <$> list_find (fun f => ref_count f = 0) (file_table t).

(** ** Files *)

(** [struct stat] in memory; two bytes after [type] are padding. *)
Definition store_stat (va : Z) (st : stat) : K unit :=
  store_int (u64 (va + 4)) (st_dev st) ;;
  store_int (u64 (va + 8)) (st_ino st) ;;
  copyout va (le_bytes 2 (st_type st)) ;;
  store_int (u64 (va + 12)) (st_size st).

Definition file_stat (fd stat_ptr : Z) : K Z :=
  acquire file_table_lk ;;
  o <- get_fd fd ;;
  match o with
  | None => release file_table_lk ;; ret (-1)
  | Some f =>
      x <- get_fi f ;;
      match fi_node x with
      | None => ret (-1)
      | Some node =>
          release file_table_lk ;;
          st <- concurrent_stati node ;;
          store_stat stat_ptr st ;;
          ret 0
      end
  end.

Definition file_dup (fd_copy : Z) : K Z :=
  o <- get_fd fd_copy ;;
  match o with
  | None => ret (-1)
  | Some f =>
      p <- my ;;
      match free_fd p with
      | None => ret (-1)
      | Some fd =>
          x <- get_fi f ;;
          if truthy (isPipe x) then
            if fi_pipe x =? 0 then ret (-1) else
            acquire (pipe_lk (fi_pipe x)) ;;
            (if mode x =? O_RDONLY
             then upd_pipe (fi_pipe x) (fun q => set_read_count (u32 (read_count q + 1)) q) else ret tt) ;;
            (if mode x =? O_WRONLY
             then upd_pipe (fi_pipe x) (fun q => set_write_count (u32 (write_count q + 1)) q) else ret tt) ;;
            release (pipe_lk (fi_pipe x)) ;;
            acquire file_table_lk ;;
            set_fd (Z.of_nat fd) (Some f) ;;
            release file_table_lk ;;
            ret 0
          else
          match fi_node x with
          | None => ret (-1)
          | Some _ =>
              acquire file_table_lk ;;
              set_fd (Z.of_nat fd) (Some f) ;;
              upd_fi f (fun x => set_ref_count (u32 (ref_count x + 1)) x) ;;
              release file_table_lk ;;
              ret (Z.of_nat fd)
          end
      end
  end.

(** ** Pipes *)

(** [while (PIPE_BUFFER_SIZE - write_offset + read_offset < nr_bytes)]: false
    when there is no reader left. *)
Fixpoint pipe_write_wait (fuel : nat) (p nr_bytes : Z) : K bool :=
  match fuel with
  | O => diverge
  | S fuel =>
      q <- get_pipe p ;;
      if u32 (PIPE_BUFFER_SIZE - write_offset q + read_offset q) <? u32 nr_bytes then
        if read_count q =? 0 then ret false else
        sleep (ch_notFull p) (sl_other (pipe_lk p)) ;;
        pipe_write_wait fuel p nr_bytes
      else ret true
  end.

(** [memmove(pipe->buffer + off, bs, len)] and back; the array has
    [PIPE_BUFFER_SIZE] bytes. *)
Definition pipe_put (p off : Z) (bs : list Z) : K unit :=
  if PIPE_BUFFER_SIZE <? off + Z.of_nat (length bs) then fault "pipe buffer overrun" else
  upd_pipe p (fun q =>
    set_p_buffer (take (Z.to_nat off) (p_buffer q) ++ bs ++
                  drop (Z.to_nat off + length bs) (p_buffer q)) q).

Definition pipe_get (p off n : Z) : K (list Z) :=
  if PIPE_BUFFER_SIZE <? off + u32 n then fault "pipe buffer overrun" else
  q <- get_pipe p ;;
  ret (take (Z.to_nat n) (drop (Z.to_nat off) (p_buffer q))).

Definition pipe_write (fd buf nr_bytes : Z) : K Z :=
  if PIPE_BUFFER_SIZE <? nr_bytes then ret (-1) else
  o <- get_fd fd ;;
  f <- deref "null file" o ;;
  x <- get_fi f ;;
  let p := fi_pipe x in
  acquire (pipe_lk p) ;;
  q <- get_pipe p ;;
  if read_count q =? 0 then release (pipe_lk p) ;; ret (-1) else
  w <- wakeups ;;
  ok <- pipe_write_wait w p nr_bytes ;;
  if negb ok then release (pipe_lk p) ;; ret (-1) else
  bs <- copyin (Z.to_nat (u32 nr_bytes)) buf ;;
  q <- get_pipe p ;;
  pipe_put p (write_offset q mod PIPE_BUFFER_SIZE) bs ;;
  upd_pipe p (fun q => set_write_offset (u32 (write_offset q + nr_bytes)) q) ;;
  wakeup (ch_notEmpty p) ;;
  release (pipe_lk p) ;;
  ret nr_bytes.

(** The wait of [pipe_read]: the number of bytes to read. *)
Fixpoint pipe_read_wait (fuel : nat) (p nr_bytes : Z) : K Z :=
  match fuel with
  | O => diverge
  | S fuel =>
      q <- get_pipe p ;;
      if u32 (write_offset q - read_offset q) <? u32 nr_bytes then
        if write_count q =? 0 then ret (i32 (write_offset q - read_offset q)) else
        sleep (ch_notEmpty p) (sl_other (pipe_lk p)) ;;
        pipe_read_wait fuel p nr_bytes
      else ret nr_bytes
  end.

Definition pipe_read (fd buf nr_bytes : Z) : K Z :=
  o <- get_fd fd ;;
  f <- deref "null file" o ;;
  x <- get_fi f ;;
  let p := fi_pipe x in
  acquire (pipe_lk p) ;;
  q <- get_pipe p ;;
  nr_bytes <- (if write_count q =? 0 then ret (i32 (write_offset q - read_offset q))
               else w <- wakeups ;; pipe_read_wait w p nr_bytes) ;;
  q <- get_pipe p ;;
  bs <- pipe_get p (read_offset q mod PIPE_BUFFER_SIZE) nr_bytes ;;
  copyout buf bs ;;
  upd_pipe p (fun q => set_read_offset (u32 (read_offset q + nr_bytes)) q) ;;
  wakeup (ch_notFull p) ;;
  release (pipe_lk p) ;;
  ret nr_bytes.

(** ** Reading, writing, opening and closing *)

Definition file_write (fd buf nr_bytes : Z) : K Z :=
  o <- get_fd fd ;;
  match o with
  | None => ret (-1)
  | Some f =>
      x <- get_fi f ;;
      if mode x =? O_RDONLY then ret (-1) else
      if truthy (isPipe x) then pipe_write fd buf nr_bytes else
      node <- deref "null inode" (fi_node x) ;;
      offset <- concurrent_writei node buf (fi_offset x) (u32 nr_bytes) ;;
      acquire file_table_lk ;;
      o <- get_fd fd ;;
      f <- deref "null file" o ;;
      upd_fi f (fun x => set_fi_offset (u32 (fi_offset x + offset)) x) ;;
      release file_table_lk ;;
      ret offset
  end.

Definition file_read (fd buf nr_bytes : Z) : K Z :=
  o <- get_fd fd ;;
  match o with
  | None => ret (-1)
  | Some f =>
      x <- get_fi f ;;
      if mode x =? O_WRONLY then ret (-1) else
      if truthy (isPipe x) then pipe_read fd buf nr_bytes else
      node <- deref "null inode" (fi_node x) ;;
      let* (offset, bs) := concurrent_readi node (fi_offset x) (u32 nr_bytes) in
      copyout buf bs ;;
      acquire file_table_lk ;;
      o <- get_fd fd ;;
      f <- deref "null file" o ;;
      upd_fi f (fun x => set_fi_offset (u32 (fi_offset x + offset)) x) ;;
      release file_table_lk ;;
      ret offset
  end.

(** The fields that [file_close] clears of a pipe's entry and of a file's. *)
Definition clear_pipe_entry (x : file_info) : file_info :=
  set_gfd 0 (set_ref_count 0 (set_mode 0 (set_fi_offset 0 (set_fi_pipe 0 x)))).
Definition clear_file_entry (x : file_info) : file_info :=
  set_gfd 0 (set_fi_path 0 (set_ref_count 0 (set_mode 0 (set_fi_offset 0 (set_fi_node None x))))).

(** The last descriptor of one end is closed: free the pipe if the other end is
    closed too, else wake up who waits there; [other] is the other end's count. *)
Definition close_end (f : nat) (p other : Z) (ch : chan) : K unit :=
  (if other =? 0 then release (pipe_lk p) ;; kfree p
   else wakeup ch ;; release (pipe_lk p)) ;;
  x <- get_fi f ;;
  upd_fi (Z.to_nat (gfd x)) clear_pipe_entry.

Definition close_pipe (fd : Z) (f : nat) (x : file_info) : K Z :=
  let p := fi_pipe x in
  if p =? 0 then ret (-1) else
  acquire (pipe_lk p) ;;
  (if mode x =? O_RDONLY then
     upd_pipe p (fun q => set_read_count (u32 (read_count q - 1)) q) ;;
     q <- get_pipe p ;;
     if read_count q =? 0 then close_end f p (write_count q) (ch_notFull p) else ret tt
   else
     upd_pipe p (fun q => set_write_count (u32 (write_count q - 1)) q) ;;
     q <- get_pipe p ;;
     if write_count q =? 0 then close_end f p (read_count q) (ch_notEmpty p) else ret tt) ;;
  x <- get_fi f ;;
  (if negb (fi_pipe x =? 0) then release (pipe_lk (fi_pipe x)) else ret tt) ;;
  release file_table_lk ;;
  set_fd fd None ;;
  ret 0.

Definition file_close (fd : Z) : K Z :=
  o <- get_fd fd ;;
  match o with
  | None => ret (-1)
  | Some f =>
      acquire file_table_lk ;;
      x <- get_fi f ;;
      if truthy (isPipe x) then close_pipe fd f x else
      (if 1 <? ref_count x then upd_fi f (fun x => set_ref_count (ref_count x - 1) x)
       else
         let g := Z.to_nat (gfd x) in
         y <- get_fi g ;;
         node <- deref "null inode" (fi_node y) ;;
         upd_inode node (fun i => set_i_ref (i32 (i_ref i - 1)) i) ;;
         i <- get_inode node ;;
         (if i_ref i =? 0 then irelease node else ret tt) ;;
         upd_fi g clear_file_entry) ;;
      release file_table_lk ;;
      set_fd fd None ;;
      ret 0
  end.

(** [path] is the string at address [file_path]. *)
Definition file_open (file_mode file_path : Z) (path : list Z) : K Z :=
  o <- iopen path ;;
  match o with
  | None => ret (-1)
  | Some node =>
      n <- get_inode node ;;
      if (i_type n =? T_FILE) && negb (file_mode =? O_RDONLY) then ret (-1) else
      p <- my ;;
      match free_fd p with
      | None => ret (-1)
      | Some fd =>
          acquire file_table_lk ;;
          t <- gets k_ft ;;
          match free_gfd t with
          | None => release file_table_lk ;; ret (-1)
          | Some g =>
              upd_fi g (fun _ => mk_file_info (Some node) 0 0 0 file_mode 1 file_path (Z.of_nat g)) ;;
              set_fd (Z.of_nat fd) (Some g) ;;
              release file_table_lk ;;
              ret (Z.of_nat fd)
          end
      end
  end.

(** The indices of the first two elements that satisfy a test. *)
Fixpoint first_two {A} (test : A -> bool) (l : list A) (i : nat) : list nat :=
  match l with
  | [] => []
  | x :: l => if test x then i :: take 1 (first_two test l (S i)) else first_two test l (S i)
  end.

(** Store the descriptors found at [fd_arr[0]], [fd_arr[1]]. *)
Fixpoint store_fds (fd_arr : Z) (l : list nat) : K unit :=
  match l with
  | [] => ret tt
  | i :: l => store_int fd_arr (Z.of_nat i) ;; store_fds (u64 (fd_arr + 4)) l
  end.

(** A fresh pipe.  The buffer holds what the page held, which nothing reads before
    it is overwritten. *)
Definition new_pipe (bs : list Z) : pipe := mk_pipe 1 1 0 0 zero_lock bs.

Definition pipe_file (p m g : Z) : file_info := mk_file_info None p 1 0 m 1 0 g.

Definition pipe_open (fd_arr : Z) : K Z :=
  p <- kalloc ;;
  if p =? 0 then ret (-1) else
  upd_frame (PGNUM (V2P p)) (FPipe (new_pipe (replicate (Z.to_nat PIPE_BUFFER_SIZE) 0))) ;;
  me_ <- my ;;
  store_fds fd_arr (first_two (fun o => bool_decide (o = None)) (files me_) 0) ;;
  fd1 <- load_int (u64 (fd_arr + 4)) ;;
  if fd1 =? -1 then ret (-1) else
  acquire file_table_lk ;;
  t <- gets k_ft ;;
  match first_two (fun f => ref_count f =? 0) (file_table t) 0 with
  | [g0; g1] =>
      upd_fi g0 (fun _ => pipe_file p O_RDONLY (Z.of_nat g0)) ;;
      upd_fi g1 (fun _ => pipe_file p O_WRONLY (Z.of_nat g1)) ;;
      fd0 <- load_int fd_arr ;;
      set_fd fd0 (Some g0) ;;
      fd1 <- load_int (u64 (fd_arr + 4)) ;;
      set_fd fd1 (Some g1) ;;
      release file_table_lk ;;
      ret 0
  | _ => release file_table_lk ;; ret (-1)
  end.

(** ** Duplicating a descriptor *)

#[global] Instance pipe_lk_laws p : LockLaws (pipe_lk p).
Proof.
  split; unfold pipe_lk, pipe_of; cbn; intros.
  - destruct (k_frames s !! _) as [[]|] eqn:E; try done. cbn. by rewrite lookup_insert_eq.
  - destruct (k_frames s !! _) as [[]|] eqn:E; try (by rewrite E). cbn. rewrite lookup_insert_eq. unfold set_k_frames; cbn.
    by rewrite insert_insert_eq.
  - destruct (k_frames s !! _) as [[]|] eqn:E; try done. cbn in H. simplify_eq. rewrite insert_id; [by destruct s|].
    rewrite E. by match goal with |- Some (FPipe ?q) = _ => destruct q end.
  - done.
  - by destruct (k_frames s !! _) as [[]|].
  - by destruct (k_frames s !! _) as [[]|].
Qed.

Definition put_pipe (p : Z) (q : pipe) (s : kstate) : kstate :=
  set_k_frames (<[PGNUM (V2P p) := FPipe q]> (k_frames s)) s.

Lemma pipe_of_put p q s : pipe_of (put_pipe p q s) p = Some q.
Proof. unfold pipe_of, put_pipe; cbn. by rewrite lookup_insert_eq. Qed.

Lemma put_put_pipe p q q' s : put_pipe p q' (put_pipe p q s) = put_pipe p q' s.
Proof. unfold put_pipe, set_k_frames; cbn. by rewrite insert_insert_eq. Qed.

Lemma upd_pipe_eq s p q f : p <> 0 -> pipe_of s p = Some q -> upd_pipe p f s = Done tt (put_pipe p (f q) s).
Proof.
  intros Hp Hq. unfold upd_pipe, get_pipe. destruct (Z.eqb_spec p 0); [done|].
  assert (E : (o <- gets (fun s => pipe_of s p) ;; deref "pipe pointer" o) s = Done q s) by (msimp; by rewrite Hq).
  by mstep E.
Qed.

Lemma pipe_lk_set s p q l : pipe_of s p = Some q -> lk_set (pipe_lk p) l s = put_pipe p (set_p_lock l q) s.
Proof. intros H. cbn. by rewrite H. Qed.

Lemma set_fd_eq s i p fd o :
  c_proc (k_cpu s) = Some i -> proc_at s i = Some p -> (fd < length (files p))%nat ->
  set_fd (Z.of_nat fd) o s = Done tt (put_proc i (set_files (<[fd := o]> (files p)) p) s).
Proof.
  intros Hc Hp Hl. unfold set_fd. mstep (me_eq s i Hc). mstep (get_proc_eq s i p Hp).
  destruct (Z.ltb_spec (Z.of_nat fd) 0); [lia|]. destruct (Z.leb_spec (Z.of_nat (length (files p))) (Z.of_nat fd)); [lia|].
  cbn. rewrite (upd_proc_eq _ _ _ _ Hp). by rewrite Nat2Z.id.
Qed.

(** The pipe with one more descriptor for one of its ends. *)
Definition one_more_end (m : Z) (q : pipe) : pipe :=
  let q := if m =? O_RDONLY then set_read_count (u32 (read_count q + 1)) q else q in
  if m =? O_WRONLY then set_write_count (u32 (write_count q + 1)) q else q.

Section dup.
Context (s : kstate) (i : nat) (p : proc) (fd0 fd f : nat) (x : file_info).
Context (Hcpu : cpu_room 1 (k_cpu s)) (Hi : c_proc (k_cpu s) = Some i) (Hp : proc_at s i = Some p).
Context (Hfd0 : files p !! fd0 = Some (Some f)) (Hfree : free_fd p = Some fd).
Context (Hx : file_table (k_ft s) !! f = Some x) (Hft : ft_lock (k_ft s) = zero_lock).

Lemma free_fd_lt : (fd < length (files p))%nat.
Proof.
  unfold free_fd in Hfree. destruct (list_find _ _) as [[k o]|] eqn:E; [|done]. cbn in Hfree. simplify_eq.
  apply list_find_Some in E as (E & _). by apply lookup_lt_Some in E.
Qed.

Lemma get_fd_eq : get_fd (Z.of_nat fd0) s = Done (Some f) s.
Proof.
  unfold get_fd. mstep (my_eq s i p Hi Hp). destruct (Z.ltb_spec (Z.of_nat fd0) 0); [lia|].
  rewrite Nat2Z.id. by rewrite Hfd0.
Qed.

Lemma get_fi_eq : get_fi f s = Done x s.
Proof. unfold get_fi; msimp. by rewrite Hx. Qed.

(** Installing the descriptor, with [file_table_lock] held. *)
Lemma install_fd {A} (k : K A) s1 :
  cpu_room 1 (k_cpu s1) -> c_proc (k_cpu s1) = Some i -> proc_at s1 i = Some p -> ft_lock (k_ft s1) = zero_lock ->
  (acquire file_table_lk ;; set_fd (Z.of_nat fd) (Some f) ;; release file_table_lk ;; k) s1 =
  k (put_proc i (set_files (<[fd := Some f]> (files p)) p) (set_k_cpu (cpu_cs (k_cpu s1)) s1)).
Proof.
  intros Hc1 Hi1 Hp1 Hl1. mstep (acquire_eq file_table_lk s1 zero_lock); [|cbn; by rewrite Hl1|done|done].
  mstep (set_fd_eq); [|done|done|apply free_fd_lt].
  mstep (release_cs file_table_lk _ (k_cpu s1)); [|done|done|done].
  f_equal. destruct s1 as [? ? ? [] [] ? ? ? ? ? ? ? ?]. cbn in *. by subst.
Qed.

(** Counting the descriptor, with the lock of the pipe held. *)
Lemma count_end {A} (k : K A) P q :
  P <> 0 -> pipe_of s P = Some q -> p_lock q = zero_lock ->
  (acquire (pipe_lk P) ;;
   (if mode x =? O_RDONLY then upd_pipe P (fun q => set_read_count (u32 (read_count q + 1)) q) else ret tt) ;;
   (if mode x =? O_WRONLY then upd_pipe P (fun q => set_write_count (u32 (write_count q + 1)) q) else ret tt) ;;
   release (pipe_lk P) ;; k) s =
  k (put_pipe P (one_more_end (mode x) q) (set_k_cpu (cpu_cs (k_cpu s)) s)).
Proof.
  intros H0 Hq Hl. mstep (acquire_eq (pipe_lk P) s zero_lock); [|cbn; by rewrite Hq; cbn; rewrite Hl|done|done].
  rewrite (pipe_lk_set _ P q) by done. set (ql := set_p_lock _ q). set (s1 := put_pipe _ _ _).
  set (q1 := if mode x =? O_RDONLY then set_read_count (u32 (read_count ql + 1)) ql else ql).
  assert (E1 : (if mode x =? O_RDONLY then upd_pipe P (fun q => set_read_count (u32 (read_count q + 1)) q) else ret tt) s1
               = Done tt (put_pipe P q1 s1)).
  { unfold q1. destruct (mode x =? O_RDONLY).
    - by rewrite (upd_pipe_eq _ _ ql) by (done || apply pipe_of_put).
    - unfold s1. by rewrite put_put_pipe. }
  mstep E1. set (q2 := if mode x =? O_WRONLY then set_write_count (u32 (write_count q1 + 1)) q1 else q1).
  assert (E2 : (if mode x =? O_WRONLY then upd_pipe P (fun q => set_write_count (u32 (write_count q + 1)) q) else ret tt)
                 (put_pipe P q1 s1) = Done tt (put_pipe P q2 s1)).
  { unfold q2. destruct (mode x =? O_WRONLY); [|done].
    rewrite (upd_pipe_eq _ _ q1); [by rewrite put_put_pipe|done|apply pipe_of_put]. }
  mstep E2. mstep (release_cs (pipe_lk P) _ (k_cpu s)); [|cbn; rewrite pipe_of_put; cbn|done|done].
  - f_equal. rewrite (pipe_lk_set _ P q2) by apply pipe_of_put. unfold s1. rewrite !put_put_pipe.
    assert (set_p_lock (mk_spinlock 0 false) q2 = one_more_end (mode x) q) as ->.
    { destruct q; cbn in Hl; subst. unfold q2, q1, ql, one_more_end. by destruct (mode x =? O_RDONLY), (mode x =? O_WRONLY). }
    by destruct s.
  - unfold q2, q1. by destruct (mode x =? O_RDONLY), (mode x =? O_WRONLY).
Qed.

Lemma file_dup_pipe q :
  truthy (isPipe x) = true -> fi_pipe x <> 0 -> pipe_of s (fi_pipe x) = Some q -> p_lock q = zero_lock ->
  file_dup (Z.of_nat fd0) s =
  Done 0 (put_proc i (set_files (<[fd := Some f]> (files p)) p)
    (put_pipe (fi_pipe x) (one_more_end (mode x) q) (set_k_cpu (cpu_cs (k_cpu s)) s))).
Proof.
  intros Ht H0 Hq Hl. unfold file_dup. mstep get_fd_eq. mstep (my_eq s i p Hi Hp). rewrite Hfree. mstep get_fi_eq.
  rewrite Ht. destruct (Z.eqb_spec (fi_pipe x) 0); [done|].
  rewrite (count_end _ (fi_pipe x) q) by done. rewrite install_fd; [|done..].
  unfold ret; f_equal. unfold put_pipe. cbn. by rewrite cpu_cs_cs.
Qed.
Lemma file_dup_inode node :
  truthy (isPipe x) = false -> fi_node x = Some node ->
  file_dup (Z.of_nat fd0) s =
  Done (Z.of_nat fd)
    (put_proc i (set_files (<[fd := Some f]> (files p)) p)
      (set_k_ft (set_file_table (<[f := set_ref_count (u32 (ref_count x + 1)) x]> (file_table (k_ft s))) (k_ft s))
        (set_k_cpu (cpu_cs (k_cpu s)) s))).
Proof.
  intros Ht Hn. unfold file_dup. mstep get_fd_eq. mstep (my_eq s i p Hi Hp). rewrite Hfree.
  mstep get_fi_eq. rewrite Ht, Hn.
  mstep (acquire_eq file_table_lk s zero_lock); [|cbn; by rewrite Hft|done|done].
  mstep (set_fd_eq); [|done|done|apply free_fd_lt].
  assert (E : forall s1, file_table (k_ft s1) !! f = Some x ->
    upd_fi f (fun x => set_ref_count (u32 (ref_count x + 1)) x) s1 =
    Done tt (set_k_ft (set_file_table (<[f := set_ref_count (u32 (ref_count x + 1)) x]> (file_table (k_ft s1))) (k_ft s1)) s1)).
  { intros s1 H1. unfold upd_fi.
    assert (Eg : get_fi f s1 = Done x s1) by (unfold get_fi; msimp; by rewrite H1). by mstep Eg. }
  mstep E; [|done]. mstep (release_cs file_table_lk _ (k_cpu s)); [|done|done|done].
  unfold ret; f_equal. destruct s as [? ? ? [] [] ? ? ? ? ? ? ? ? ?]. cbn in *. by subst.
Qed.
End dup.

(** *** Closing files *)

(** The inode is one of the [n] of the cache, or the inode file. *)
Definition node_ok (n : nat) (node : iptr) : bool :=
  match node with ip_cache i => (i <? n)%nat | ip_inodefile => true end.

(** What closing a descriptor of entry [f] makes of the open files, if it is a
    file whose inode is among the [n] of the cache. *)
Definition close_entry (n f : nat) (ft : list file_info) : option (list file_info) :=
  x ← ft !! f;
  if truthy (isPipe x) || negb (gfd x =? Z.of_nat f) then None else
  if 1 <? ref_count x then Some (<[f := set_ref_count (ref_count x - 1) x]> ft) else
  node ← fi_node x;
  if node_ok n node then Some (<[f := clear_file_entry x]> ft) else None.

(** Closing the descriptors [l] one after the other. *)
Fixpoint close_entries (n : nat) (l : list (option nat)) (ft : list file_info) : option (list file_info) :=
  match l with
  | [] => Some ft
  | None :: l => close_entries n l ft
  | Some f :: l => ft ← close_entry n f ft; close_entries n l ft
  end.

Section close.
Context (n : nat) (node : iptr) (Hnode : node_ok n node = true).

Lemma get_inode_ok s : length (ic_inode (k_ic s)) = n -> exists x, get_inode node s = Done x s.
Proof.
  intros Hl. unfold get_inode. destruct node as [i|]; [|by eexists]. msimp. apply Nat.ltb_lt in Hnode.
  destruct (lookup_lt_is_Some_2 (ic_inode (k_ic s)) i) as [x ->]; [lia|]. by eexists.
Qed.

(** Changes of the inode leave the lock of the cache and its size alone. *)
Lemma upd_inode_ok s f :
  length (ic_inode (k_ic s)) = n ->
  exists ic, upd_inode node f s = Done tt (set_k_ic ic s) /\ ic_lock ic = ic_lock (k_ic s) /\ length (ic_inode ic) = n.
Proof.
  intros Hl. destruct (get_inode_ok s Hl) as [x Hx]. eexists. split; [unfold upd_inode; by mstep Hx|].
  destruct node; cbn; [by rewrite length_insert|done].
Qed.

Lemma irelease_ok s :
  length (ic_inode (k_ic s)) = n -> ic_lock (k_ic s) = zero_lock -> cpu_room 1 (k_cpu s) ->
  exists ic, irelease node s = Done tt (set_k_cpu (cpu_cs (k_cpu s)) (set_k_ic ic s)) /\
    ic_lock ic = zero_lock /\ length (ic_inode ic) = n.
Proof.
  intros Hl Hk Hc. unfold irelease. mstep (acquire_eq icache_lk s zero_lock); [|cbn; by rewrite Hk|done|done].
  set (s1 := lk_set icache_lk _ _). destruct (get_inode_ok s1 Hl) as [x Hx]. mstep Hx.
  assert (exists ic, (if i_ref x =? 1 then upd_inode node (set_i_type 0) else ret tt) s1 = Done tt (set_k_ic ic s1) /\
    ic_lock ic = mk_spinlock 1 true /\ length (ic_inode ic) = n) as (ic1 & E1 & Hk1 & Hl1).
  { destruct (i_ref x =? 1); [apply (upd_inode_ok s1 _ Hl)|]. exists (k_ic s1). split_and!; [by destruct s|done|done]. }
  mstep E1. destruct (upd_inode_ok (set_k_ic ic1 s1) (fun x => set_i_ref (i32 (i_ref x - 1)) x) Hl1) as (ic2 & E2 & Hk2 & Hl2).
  mstep E2. exists (set_ic_lock zero_lock ic2). split_and!; [|done|done].
  rewrite (release_cs icache_lk _ (k_cpu s)); [|cbn; by rewrite Hk2; cbn; rewrite Hk1|done|done]. by destruct s.
Qed.

(** The end of the last descriptor of a file: its inode is released and the
    entry is free. *)
Lemma close_last_ok s f x :
  length (ic_inode (k_ic s)) = n -> ic_lock (k_ic s) = zero_lock -> cpu_room 1 (k_cpu s) -> 0 < ncli (k_cpu s) ->
  file_table (k_ft s) !! f = Some x -> fi_node x = Some node ->
  exists ic, (y <- get_fi f ;; nd <- deref "null inode" (fi_node y) ;;
      upd_inode nd (fun i => set_i_ref (i32 (i_ref i - 1)) i) ;; i <- get_inode nd ;;
      (if i_ref i =? 0 then irelease nd else ret tt) ;; upd_fi f clear_file_entry) s =
    Done tt (set_k_ft (set_file_table (<[f := clear_file_entry x]> (file_table (k_ft s))) (k_ft s)) (set_k_ic ic s)) /\
    ic_lock ic = zero_lock /\ length (ic_inode ic) = n.
Proof.
  intros Hl Hk Hc Hn Hx Hnd. assert (Hfi : forall s', k_ft s' = k_ft s -> get_fi f s' = Done x s')
    by (intros s' E; unfold get_fi; msimp; by rewrite E, Hx).
  mstep (Hfi s eq_refl). rewrite Hnd. msimp.
  destruct (upd_inode_ok s (fun i => set_i_ref (i32 (i_ref i - 1)) i) Hl) as (ic1 & E1 & Hk1 & Hl1). mstep E1.
  set (s1 := set_k_ic ic1 s). destruct (get_inode_ok s1 Hl1) as [y Hy]. mstep Hy.
  assert (cpu_cs (k_cpu s) = k_cpu s) as Hcs.
  { unfold cpu_cs. destruct (Z.eqb_spec (ncli (k_cpu s)) 0); [lia|]. by destruct (k_cpu s). }
  assert (exists ic, (if i_ref y =? 0 then irelease node else ret tt) s1 = Done tt (set_k_ic ic s1) /\
    ic_lock ic = zero_lock /\ length (ic_inode ic) = n) as (ic2 & E2 & Hk2 & Hl2).
  { destruct (i_ref y =? 0); [|exists ic1; split_and!; [by destruct s|congruence|done]].
    destruct (irelease_ok s1 Hl1) as (ic & E & ?); [by rewrite <- Hk|done|]. exists ic. split; [|done].
    rewrite E. change (k_cpu s1) with (k_cpu s). by rewrite Hcs; destruct s. }
  mstep E2. exists ic2. split; [|done]. unfold upd_fi. by mstep Hfi.
Qed.
End close.

(** [file_close] of a descriptor of a file. *)
Lemma file_close_eq s i p fd f ft :
  cpu_room 2 (k_cpu s) -> c_proc (k_cpu s) = Some i -> proc_at s i = Some p -> files p !! fd = Some (Some f) ->
  ft_lock (k_ft s) = zero_lock -> ic_lock (k_ic s) = zero_lock ->
  close_entry (length (ic_inode (k_ic s))) f (file_table (k_ft s)) = Some ft ->
  exists s', file_close (Z.of_nat fd) s = Done 0 s' /\
    k_pt s' = k_pt (put_proc i (set_files (<[fd := None]> (files p)) p) s) /\ k_cpu s' = cpu_cs (k_cpu s) /\
    k_ft s' = mk_ftable zero_lock ft /\ ic_lock (k_ic s') = zero_lock /\
    length (ic_inode (k_ic s')) = length (ic_inode (k_ic s)).
Proof.
  intros Hc Hi Hp Hfd Hft Hic He. unfold close_entry in He.
  destruct (file_table (k_ft s) !! f) as [x|] eqn:Hx; [|done]. cbn [mbind option_bind] in He.
  destruct (truthy (isPipe x)) eqn:Hpipe; [done|]. cbn [orb] in He.
  destruct (Z.eqb_spec (gfd x) (Z.of_nat f)) as [Hg|]; [|done]. cbn [negb] in He.
  assert (Hc1 : cpu_room 1 (k_cpu s)) by (eapply cpu_room_le, Hc; lia).
  set (s1 := lk_set file_table_lk (mk_spinlock 1 true) (set_k_cpu (cpu_push (k_cpu s)) s)).
  assert (Hx1 : get_fi f s1 = Done x s1) by (unfold get_fi; msimp; cbn; by rewrite Hx).
  assert (Hmid : exists ic, (if 1 <? ref_count x then upd_fi f (fun x => set_ref_count (ref_count x - 1) x) else
      y <- get_fi f ;; nd <- deref "null inode" (fi_node y) ;;
      upd_inode nd (fun i => set_i_ref (i32 (i_ref i - 1)) i) ;; i <- get_inode nd ;;
      (if i_ref i =? 0 then irelease nd else ret tt) ;; upd_fi f clear_file_entry) s1 =
    Done tt (set_k_ft (mk_ftable (mk_spinlock 1 true) ft) (set_k_ic ic s1)) /\
    ic_lock ic = zero_lock /\ length (ic_inode ic) = length (ic_inode (k_ic s))).
  { destruct (1 <? ref_count x).
    - injection He as <-. exists (k_ic s). split_and!; [|done|done]. unfold upd_fi. mstep Hx1. by destruct s.
    - destruct (fi_node x) as [node|] eqn:Hn; [|done]. cbn in He. destruct (node_ok _ node) eqn:Hok; [|done].
      injection He as <-. destruct (close_last_ok _ node Hok s1 f x) as (ic & E & H); try done.
      + by apply cpu_room_push.
      + destruct Hc. cbn. lia.
      + exists ic. split; [|done]. by rewrite E. }
  destruct Hmid as (ic & Em & Hk & Hl). unfold file_close.
  assert (Eg : get_fd (Z.of_nat fd) s = Done (Some f) s) by (by apply (get_fd_eq s i p)).
  mstep Eg. mstep (acquire_eq file_table_lk s zero_lock); [|cbn; by rewrite Hft|done|done]. fold s1. mstep Hx1.
  rewrite Hpipe, Hg, Nat2Z.id. mstep Em. mstep (release_cs file_table_lk _ (k_cpu s)); [|done|done|done].
  mstep (set_fd_eq _ i p fd None); [|done|done|by eapply lookup_lt_Some]. eexists. split; [done|]. by split_and!.
Qed.

(** ** Properties *)

(** C28: Duplicating a descriptor of a file.  The smallest unused descriptor
    becomes another name of the open file, which counts it, and is the answer;
    the other descriptors are as they were, and the locks are free again. *)
Theorem file_dup_correct (s : kstate) (i : nat) (p : proc) (fd0 fd f : nat) (x : file_info) (node : iptr)
    (Hcpu : cpu_room 1 (k_cpu s)) (Hi : c_proc (k_cpu s) = Some i) (Hp : proc_at s i = Some p)
    (Hfd0 : files p !! fd0 = Some (Some f)) (Hfree : free_fd p = Some fd)
    (Hx : file_table (k_ft s) !! f = Some x) (Hft : ft_lock (k_ft s) = zero_lock)
    (Ht : truthy (isPipe x) = false) (Hn : fi_node x = Some node) :
  exists s', file_dup (Z.of_nat fd0) s = Done (Z.of_nat fd) s' /\
    proc_at s' i = Some (set_files (<[fd := Some f]> (files p)) p) /\
    file_table (k_ft s') = <[f := set_ref_count (u32 (ref_count x + 1)) x]> (file_table (k_ft s)) /\
    ft_lock (k_ft s') = zero_lock.
Proof.
  eexists. split; [by apply (file_dup_inode s i p fd0 fd f x) with node|].
  split; [by apply (proc_at_put _ _ p)|]. by split.
Qed.

(** Process 0 has one open file, at descriptor 0, and [fi] is its entry. *)
Definition dup_demo (fi : file_info) : kstate :=
  put_proc 0 (set_files (Some 0%nat :: replicate 15 None) zero_proc)
    (put_pipe KERNBASE (new_pipe [])
      (set_k_ft (mk_ftable zero_lock [fi])
        (set_k_cpu (mk_cpu 0 false true (Some 0%nat) 0 0) (zero_state 0x200000 ∅)))).

Lemma file_dup_correct_witness :
  exists s', file_dup 0 (dup_demo (set_fi_node (Some (ip_cache 0)) zero_file)) = Done 1 s'.
Proof.
  destruct (file_dup_correct (dup_demo (set_fi_node (Some (ip_cache 0)) zero_file)) 0
    (set_files (Some 0%nat :: replicate 15 None) zero_proc) 0 1 0 (set_fi_node (Some (ip_cache 0)) zero_file) (ip_cache 0))
    as (s' & E & _); [by split|reflexivity..|]. by exists s'.
Defined.

(** Duplicating an end of a pipe installs the smallest unused descriptor
    and counts it in the pipe, but the answer is 0 whatever that descriptor is,
    although [sys_dup] says that it returns the new descriptor. *)
Theorem file_dup_pipe_answers_0 (s : kstate) (i : nat) (p : proc) (fd0 fd f : nat) (x : file_info) (q : pipe)
    (Hcpu : cpu_room 1 (k_cpu s)) (Hi : c_proc (k_cpu s) = Some i) (Hp : proc_at s i = Some p)
    (Hfd0 : files p !! fd0 = Some (Some f)) (Hfree : free_fd p = Some fd)
    (Hx : file_table (k_ft s) !! f = Some x) (Hft : ft_lock (k_ft s) = zero_lock)
    (Ht : truthy (isPipe x) = true) (H0 : fi_pipe x <> 0)
    (Hq : pipe_of s (fi_pipe x) = Some q) (Hl : p_lock q = zero_lock) :
  exists s', file_dup (Z.of_nat fd0) s = Done 0 s' /\
    proc_at s' i = Some (set_files (<[fd := Some f]> (files p)) p) /\
    pipe_of s' (fi_pipe x) = Some (one_more_end (mode x) q).
Proof.
  eexists. split; [by apply (file_dup_pipe s i p fd0 fd f x)|].
  split; [by apply (proc_at_put _ _ p)|]. apply pipe_of_put.
Qed.

(** The answer is 0, and the new descriptor is 1. *)
Lemma file_dup_pipe_answers_0_witness :
  exists s', file_dup 0 (dup_demo (pipe_file KERNBASE O_WRONLY 0)) = Done 0 s' /\
    proc_at s' 0 = Some (set_files (Some 0%nat :: Some 0%nat :: replicate 14 None) zero_proc).
Proof.
  destruct (file_dup_pipe_answers_0 (dup_demo (pipe_file KERNBASE O_WRONLY 0)) 0
    (set_files (Some 0%nat :: replicate 15 None) zero_proc) 0 1 0 (pipe_file KERNBASE O_WRONLY 0) (new_pipe []))
    as (s' & E & Hp & _); [by split|reflexivity..|done|apply pipe_of_put|reflexivity|]. by exists s'.
Defined.
