(* ===== verification/Pipe.v ===== *)
(** * Pipes as queues: [pipe_write] and [pipe_read] of [kernel/file.c]

    The bytes of user memory that a system call reads and writes, the ring
    buffer of a pipe as a queue of bytes, and what the two operations do to
    both.  The code moves a block with one [memmove], so that a block may not
    cross the end of the buffer. *)

From S2P Require Import Prelude Types Strings Spinlock Mmu Kalloc X86vm Umem Vspace Sched.
From S2P Require Import Console Sleeplock Ide Bio Fs File.

(** ** User memory *)

(** Where a byte of user memory is: its page and its place in it. *)
Definition phys (s : kstate) (va : Z) : Z * Z := (PGNUM (PTE_ADDR (user_pte s va)), va mod PGSIZE).

Definition page_bytes (s : kstate) (pn : Z) : option (list Z) :=
  match k_frames s !! pn with Some (FBytes bs) => Some bs | _ => None end.

Definition user_byte (s : kstate) (va : Z) : option Z :=
  if PRESENT (user_pte s va) then page_bytes s (phys s va).1 ≫= fun bs => bs !! Z.to_nat (phys s va).2 else None.

(** The bytes at [va] are [bs]. *)
Definition user_bytes (s : kstate) (va : Z) (bs : list Z) : Prop :=
  forall k c, bs !! k = Some c -> user_byte s (u64 (va + Z.of_nat k)) = Some c.

(** The [n] bytes at [va] can be written, and are all different bytes. *)
Definition user_room (s : kstate) (va : Z) (n : nat) : Prop :=
  (forall k, (k < n)%nat -> is_Some (user_byte s (u64 (va + Z.of_nat k))) /\
     Z.land (user_pte s (u64 (va + Z.of_nat k))) PTE_W <> 0) /\
  (forall j k, (j < k < n)%nat -> phys s (u64 (va + Z.of_nat j)) <> phys s (u64 (va + Z.of_nat k))).

(** Two states with the same page tables. *)
Definition same_tables (s s' : kstate) : Prop :=
  cr3 (k_cpu s') = cr3 (k_cpu s) /\ forall pn i, entry (k_frames s') pn i = entry (k_frames s) pn i.

Lemma node_same fr fr' p pn :
  (forall pn i, entry fr' pn i = entry fr pn i) -> node fr' pn p = node fr pn p.
Proof.
  intros H. revert pn. induction p as [|i p IH]; intros pn; cbn; [done|]. unfold child. rewrite H.
  destruct (PRESENT _); cbn; [apply IH|done].
Qed.

Lemma user_pte_same s s' va : same_tables s s' -> user_pte s' va = user_pte s va.
Proof.
  intros [Hc H]. unfold user_pte, pt_at. rewrite Hc, (node_same (k_frames s)) by done.
  destruct (node _ _ _); [apply H|done].
Qed.

(** Two states with the same user memory. *)
Definition same_user (s s' : kstate) : Prop :=
  same_tables s s' /\ forall pn, page_bytes s' pn = page_bytes s pn.

Lemma user_byte_same s s' va : same_user s s' -> user_byte s' va = user_byte s va.
Proof.
  intros [Ht Hb]. unfold user_byte, phys. by rewrite (user_pte_same s s' va Ht), Hb.
Qed.

#[global] Instance same_tables_preorder : PreOrder same_tables.
Proof.
  split; [done|]. intros s1 s2 s3 [H1 H2] [H3 H4]. split; [congruence|]. intros. by rewrite H4.
Qed.

#[global] Instance same_user_preorder : PreOrder same_user.
Proof.
  split; [done|]. intros s1 s2 s3 [H1 H2] [H3 H4]. split; [by etransitivity|]. intros. by rewrite H4.
Qed.

Lemma same_user_cpu s c : cr3 c = cr3 (k_cpu s) -> same_user s (set_k_cpu c s).
Proof. by intros H. Qed.

Lemma same_user_pipe s p q q' : pipe_of s p = Some q -> same_user s (put_pipe p q' s).
Proof.
  unfold pipe_of. intros H. destruct (k_frames s !! PGNUM (V2P p)) as [[| | |q0]|] eqn:E; try done.
  split; [split; [done|]|].
  - intros pn i. unfold entry; cbn. destruct (decide (pn = PGNUM (V2P p))) as [->|Hn].
    + by rewrite lookup_insert_eq, E.
    + by rewrite lookup_insert_ne.
  - intros pn. unfold page_bytes; cbn. destruct (decide (pn = PGNUM (V2P p))) as [->|Hn].
    + by rewrite lookup_insert_eq, E.
    + by rewrite lookup_insert_ne.
Qed.

Lemma load_user_eq s va c : user_byte s va = Some c -> load_user va s = Done c s.
Proof.
  unfold user_byte, load_user, page_bytes, phys. cbn. intros H. msimp.
  destruct (PRESENT _); cbn [negb]; [|done]. msimp. destruct (k_frames s !! _) as [[bs| | |]|]; try done.
  cbn in H. by rewrite H.
Qed.

Lemma copyin_eq s va bs :
  user_bytes s (u64 va) bs -> copyin (length bs) (u64 va) s = Done bs s.
Proof.
  revert va. induction bs as [|c bs IH]; intros va H; cbn [length copyin]; [done|].
  assert (E : load_user (u64 va) s = Done c s).
  { apply load_user_eq. pose proof (H 0%nat c eq_refl) as H0.
    by replace (u64 (u64 va + Z.of_nat 0)) with (u64 va) in H0 by (cbn; word). }
  mstep E. assert (E2 : copyin (length bs) (u64 (u64 va + 1)) s = Done bs s).
  { apply IH. intros k d Hd. rewrite <- (H (S k) d Hd). f_equal. word. }
  by mstep E2.
Qed.

(** The state after [v] is stored at [va]. *)
Definition stored (s : kstate) (va v : Z) (bs : list Z) : kstate :=
  set_k_frames (<[(phys s va).1 := FBytes (<[Z.to_nat (phys s va).2 := u8 v]> bs)]> (k_frames s)) s.

Section store.
Context (s : kstate) (va v c : Z) (bs : list Z).
Context (Hb : user_byte s va = Some c) (Hp : page_bytes s (phys s va).1 = Some bs).

Lemma page_frame : k_frames s !! (phys s va).1 = Some (FBytes bs).
Proof. unfold page_bytes in Hp. by destruct (k_frames s !! _) as [[]|]; simplify_eq. Qed.

Lemma stored_tables : same_tables s (stored s va v bs).
Proof.
  split; [done|]. intros pn i. unfold entry, stored; cbn [k_frames set_k_frames].
  destruct (decide (pn = (phys s va).1)) as [->|].
  - by rewrite lookup_insert_eq, page_frame.
  - by rewrite lookup_insert_ne.
Qed.

Lemma stored_pipe p : pipe_of (stored s va v bs) p = pipe_of s p.
Proof.
  unfold pipe_of, stored; cbn [k_frames set_k_frames]. destruct (decide (PGNUM (V2P p) = (phys s va).1)) as [->|].
  - by rewrite lookup_insert_eq, page_frame.
  - by rewrite lookup_insert_ne.
Qed.

Lemma stored_byte va' :
  is_Some (user_byte s va') ->
  user_byte (stored s va v bs) va' = if decide (phys s va' = phys s va) then Some (u8 v) else user_byte s va'.
Proof.
  intros [c' H']. unfold user_byte, phys in *. rewrite (user_pte_same s) by apply stored_tables.
  unfold page_bytes, stored; cbn [k_frames set_k_frames phys fst snd] in *.
  set (pn := PGNUM (PTE_ADDR (user_pte s va))) in *. set (pn' := PGNUM (PTE_ADDR (user_pte s va'))) in *.
  destruct (PRESENT (user_pte s va')); [|done]. destruct (PRESENT (user_pte s va)); [|done].
  assert (0 <= va mod PGSIZE /\ 0 <= va' mod PGSIZE) as [? ?] by (unfold PGSIZE; split; apply Z.mod_pos_bound; lia).
  destruct (decide (pn' = pn)) as [E|Hn].
  - rewrite E in *. rewrite lookup_insert_eq. cbn in *. rewrite Hp in H', Hb. cbn in H', Hb.
    unfold page_bytes in Hp. destruct (k_frames s !! pn) as [[]|]; simplify_eq. cbn.
    case_decide as Hd; simplify_eq.
    + rewrite Hd. apply list_lookup_insert_eq. by apply lookup_lt_Some in Hb.
    + rewrite list_lookup_insert_ne; [done|]. intros E2. apply Hd. f_equal. lia.
  - rewrite lookup_insert_ne by done. rewrite decide_False by congruence. done.
Qed.
End store.

Lemma store_user_eq s va v c bs :
  user_byte s va = Some c -> Z.land (user_pte s va) PTE_W <> 0 -> page_bytes s (phys s va).1 = Some bs ->
  store_user va v s = Done tt (stored s va v bs).
Proof.
  intros Hb Hw Hp. unfold user_byte in Hb. unfold store_user. msimp.
  destruct (PRESENT (user_pte s va)); [|done]. destruct (Z.eqb_spec (Z.land (user_pte s va) PTE_W) 0); [done|].
  cbn [negb orb]. msimp. pose proof (page_frame s va bs Hp) as E. unfold phys in E; cbn in E. by rewrite E.
Qed.

(** What [copyout] leaves as it was. *)
Record only_user (s s' : kstate) : Prop := {
  ou_frames : s' = set_k_frames (k_frames s') s;
  ou_tables : same_tables s s';
  ou_pipe : forall p, pipe_of s' p = pipe_of s p
}.

#[global] Instance only_user_preorder : PreOrder only_user.
Proof.
  split.
  - intros s. split; [by destruct s|done|done].
  - intros s1 s2 s3 [F1 T1 P1] [F2 T2 P2]. split.
    + rewrite F2, F1. by destruct s1.
    + by etransitivity.
    + intros p. by rewrite P2.
Qed.

Lemma phys_same s s' va : same_tables s s' -> phys s' va = phys s va.
Proof. intros H. unfold phys. by rewrite (user_pte_same s s' va H). Qed.

Lemma user_byte_page s va c : user_byte s va = Some c -> exists bs, page_bytes s (phys s va).1 = Some bs.
Proof. unfold user_byte. destruct (PRESENT _), (page_bytes _ _) as [bs|]; try done. by exists bs. Qed.

Lemma user_room_same s s' va n : same_user s s' -> user_room s va n -> user_room s' va n.
Proof.
  intros Hs [H1 H2]. pose proof (proj1 Hs) as Ht. split.
  - intros k Hk. rewrite (user_byte_same s s'), (user_pte_same s s') by done. by apply H1.
  - intros j k Hjk. rewrite !(phys_same s s') by done. by apply H2.
Qed.

Lemma user_room_tail s s' va n :
  user_room s (u64 va) (S n) -> same_tables s s' ->
  (forall a, is_Some (user_byte s a) -> is_Some (user_byte s' a)) -> user_room s' (u64 (va + 1)) n.
Proof.
  intros [H1 H2] Ht Hb. split.
  - intros k Hk. rewrite (user_pte_same s s') by done.
    replace (u64 (u64 (va + 1) + Z.of_nat k)) with (u64 (u64 va + Z.of_nat (S k))) by word.
    destruct (H1 (S k) ltac:(lia)) as [Hs Hw]. split; [by apply Hb|done].
  - intros j k Hjk. rewrite !(phys_same s s') by done.
    replace (u64 (u64 (va + 1) + Z.of_nat j)) with (u64 (u64 va + Z.of_nat (S j))) by word.
    replace (u64 (u64 (va + 1) + Z.of_nat k)) with (u64 (u64 va + Z.of_nat (S k))) by word.
    apply H2. lia.
Qed.

Lemma copyout_eq s va bs :
  user_room s (u64 va) (length bs) ->
  exists s', copyout (u64 va) bs s = Done tt s' /\ only_user s s' /\ user_bytes s' (u64 va) (u8 <$> bs) /\
    (forall a, is_Some (user_byte s a) ->
       (forall k, (k < length bs)%nat -> phys s a <> phys s (u64 (u64 va + Z.of_nat k))) ->
       user_byte s' a = user_byte s a).
Proof.
  revert s va. induction bs as [|v bs IH]; intros s va Hr; cbn [copyout length] in *.
  { exists s. split_and!; [done|done|by intros k c Hc|done]. }
  pose proof (proj1 Hr 0%nat ltac:(lia)) as [[c Hc] Hw]. pose proof (proj2 Hr) as Hd.
  replace (u64 (u64 va + Z.of_nat 0)) with (u64 va) in * by (cbn; word).
  destruct (user_byte_page s _ _ Hc) as [pg Hpg]. set (s1 := stored s (u64 va) v pg).
  pose proof (stored_tables s (u64 va) v pg Hpg) as Ht. fold s1 in Ht.
  assert (Hb1 : forall a, is_Some (user_byte s a) -> user_byte s1 a =
    if decide (phys s a = phys s (u64 va)) then Some (u8 v) else user_byte s a) by (intros; by eapply stored_byte).
  destruct (IH s1 (va + 1)) as (s' & E & Ho & Hu & Hk).
  { eapply user_room_tail; [done..|]. intros a Ha. rewrite Hb1 by done. by case_decide. }
  exists s'. replace (u64 (u64 va + 1)) with (u64 (va + 1)) by word.
  split; [mstep (store_user_eq s (u64 va) v c pg Hc Hw Hpg); exact E|].
  assert (Ho1 : only_user s s1) by (split; [done|done|intros; by apply stored_pipe]).
  assert (Hph : forall a, phys s1 a = phys s a) by (intros; by apply phys_same).
  assert (Hne : forall k, (k < length bs)%nat -> phys s (u64 va) <> phys s (u64 (u64 (va + 1) + Z.of_nat k))).
  { intros k Hk'. pose proof (Hd 0%nat (S k) ltac:(lia)) as Hd'.
    replace (u64 (u64 va + Z.of_nat 0)) with (u64 va) in Hd' by (cbn; word).
    replace (u64 (u64 (va + 1) + Z.of_nat k)) with (u64 (u64 va + Z.of_nat (S k))) by word. done. }
  split_and!; [by etransitivity| |].
  - intros [|k] d Hkd; cbn in Hkd.
    + simplify_eq. replace (u64 (u64 va + Z.of_nat 0)) with (u64 va) by (cbn; word).
      rewrite Hk, Hb1, decide_True; [done|done|by rewrite Hc| |].
      * rewrite Hb1 by (by rewrite Hc). by rewrite decide_True.
      * intros k Hk'. rewrite !Hph. by apply Hne.
    + rewrite <- (Hu k d Hkd). f_equal. word.
  - intros a Ha Hph'. rewrite Hk, Hb1, decide_False; [done| |done| |].
    + specialize (Hph' 0%nat ltac:(lia)). by replace (u64 (u64 va + Z.of_nat 0)) with (u64 va) in Hph' by (cbn; word).
    + rewrite Hb1 by done. by case_decide.
    + intros k Hk'. rewrite !Hph. specialize (Hph' (S k) ltac:(lia)).
      by replace (u64 (u64 (va + 1) + Z.of_nat k)) with (u64 (u64 va + Z.of_nat (S k))) by word.
Qed.

(** ** The ring buffer as a queue *)

Abbreviation N := PIPE_BUFFER_SIZE.

(** How many bytes wait in the pipe.  The offsets are 32-bit counters that are
    never reduced. *)
Definition waiting (q : pipe) : Z := u32 (write_offset q - read_offset q).

Definition queue (q : pipe) : list Z :=
  (fun k => default 0 (p_buffer q !! Z.to_nat ((read_offset q + Z.of_nat k) mod N))) <$> seq 0 (Z.to_nat (waiting q)).

Definition pipe_ok (q : pipe) : Prop :=
  0 <= read_offset q < 2 ^ 32 /\ 0 <= write_offset q < 2 ^ 32 /\ waiting q <= N /\ length (p_buffer q) = Z.to_nat N.

Lemma length_queue q : length (queue q) = Z.to_nat (waiting q).
Proof. unfold queue. by rewrite length_fmap, length_seq. Qed.

Lemma lookup_queue q k :
  (k < Z.to_nat (waiting q))%nat ->
  queue q !! k = Some (default 0 (p_buffer q !! Z.to_nat ((read_offset q + Z.of_nat k) mod N))).
Proof. intros H. unfold queue. by rewrite list_lookup_fmap, lookup_seq_lt. Qed.

(** The pipe with [bs] written and with [n] bytes read. *)
Definition put_bytes (bs : list Z) (q : pipe) : pipe :=
  set_write_offset (u32 (write_offset q + Z.of_nat (length bs)))
    (set_p_buffer (blit (Z.to_nat (write_offset q mod N)) bs (p_buffer q)) q).

Definition got_bytes (n : nat) (q : pipe) : pipe := set_read_offset (u32 (read_offset q + Z.of_nat n)) q.

Lemma waiting_put bs q :
  pipe_ok q -> waiting q + Z.of_nat (length bs) <= N -> waiting (put_bytes bs q) = waiting q + Z.of_nat (length bs).
Proof. intros (Hr & Hw & Hu & _) Hn. unfold waiting, put_bytes in *; cbn. unfold PIPE_BUFFER_SIZE in *. word. Qed.

Lemma waiting_got n q :
  pipe_ok q -> Z.of_nat n <= waiting q -> waiting (got_bytes n q) = waiting q - Z.of_nat n.
Proof. intros (Hr & Hw & Hu & _) Hn. unfold waiting, got_bytes in *; cbn. unfold PIPE_BUFFER_SIZE in *. word. Qed.

Lemma queue_put bs q :
  pipe_ok q -> waiting q + Z.of_nat (length bs) <= N -> write_offset q mod N + Z.of_nat (length bs) <= N ->
  pipe_ok (put_bytes bs q) /\ queue (put_bytes bs q) = queue q ++ bs.
Proof.
  intros Hok Hn Hx. pose proof (waiting_put bs q Hok Hn) as Hw'. destruct Hok as (Hr & Hw & Hu & Hl).
  assert (Hfit : (Z.to_nat (write_offset q mod N) + length bs <= length (p_buffer q))%nat)
    by (rewrite Hl; unfold PIPE_BUFFER_SIZE in *; dlia).
  split.
  - split; [done|]. split; [cbn; word|]. split; [by rewrite Hw'|]. cbn. by rewrite length_blit.
  - apply list_eq. intros k. assert (0 <= waiting q) as H0 by (unfold waiting; word).
    destruct (decide (k < Z.to_nat (waiting (put_bytes bs q)))%nat) as [Hk|Hk].
    2:{ rewrite !lookup_ge_None_2; [done| |]; rewrite ?length_app, length_queue; lia. }
    rewrite lookup_queue by done. cbn [put_bytes p_buffer read_offset set_write_offset set_p_buffer].
    rewrite lookup_blit by done. destruct (decide (k < Z.to_nat (waiting q))%nat) as [Hk'|Hk'].
    + rewrite decide_False; [rewrite lookup_app_l, lookup_queue by (rewrite ?length_queue; lia); done|].
      unfold waiting, PIPE_BUFFER_SIZE in *. word.
    + rewrite lookup_app_r by (rewrite length_queue; lia). rewrite length_queue, decide_True.
      * assert (Z.to_nat ((read_offset q + Z.of_nat k) mod N) - Z.to_nat (write_offset q mod N) = k - Z.to_nat (waiting q))%nat as ->
          by (unfold waiting, PIPE_BUFFER_SIZE in *; word).
        destruct (lookup_lt_is_Some_2 bs (k - Z.to_nat (waiting q))%nat) as [c ->]; [lia|done].
      * unfold waiting, PIPE_BUFFER_SIZE in *. word.
Qed.

Lemma queue_got n q :
  pipe_ok q -> Z.of_nat n <= waiting q -> read_offset q mod N + Z.of_nat n <= N ->
  pipe_ok (got_bytes n q) /\ queue (got_bytes n q) = drop n (queue q) /\
  take n (drop (Z.to_nat (read_offset q mod N)) (p_buffer q)) = take n (queue q).
Proof.
  intros Hok Hn Hx. pose proof (waiting_got n q Hok Hn) as Hw'. destruct Hok as (Hr & Hw & Hu & Hl).
  split_and!.
  - split; [cbn; word|]. split; [done|]. split; [lia|done].
  - apply list_eq. intros k. rewrite lookup_drop.
    destruct (decide (k < Z.to_nat (waiting (got_bytes n q)))%nat) as [Hk|Hk].
    + rewrite !lookup_queue by lia. cbn. do 3 f_equal. unfold PIPE_BUFFER_SIZE. word.
    + rewrite !lookup_ge_None_2; [done| |]; rewrite length_queue; lia.
  - apply list_eq. intros k. destruct (decide (k < n)%nat) as [Hk|Hk]; [|by rewrite !lookup_take_ge by lia].
    rewrite !lookup_take_lt, lookup_drop, lookup_queue by lia.
    replace (Z.to_nat ((read_offset q + Z.of_nat k) mod N)) with (Z.to_nat (read_offset q mod N) + k)%nat
      by (unfold PIPE_BUFFER_SIZE in *; dlia).
    destruct (lookup_lt_is_Some_2 (p_buffer q) (Z.to_nat (read_offset q mod N) + k)%nat) as [c ->]; [|done].
    rewrite Hl. unfold PIPE_BUFFER_SIZE in *. dlia.
Qed.

(** ** The operations *)

Section pipe.
Context (s : kstate) (i : nat) (p : proc) (fd f : nat) (x : file_info) (q : pipe).
Context (Hcpu : cpu_room 2 (k_cpu s)) (Hi : c_proc (k_cpu s) = Some i) (Hp : proc_at s i = Some p).
Context (Hfd : files p !! fd = Some (Some f)) (Hx : file_table (k_ft s) !! f = Some x).
Context (H0 : fi_pipe x <> 0) (Hq : pipe_of s (fi_pipe x) = Some q) (Hl : p_lock q = zero_lock).
Context (Hpt : pt_lock (k_pt s) = zero_lock) (Hok : pipe_ok q).

Abbreviation P := (fi_pipe x).

(** The pipe and the state with its lock held. *)
Definition held (q : pipe) : pipe := set_p_lock (mk_spinlock 1 true) q.
Definition in_pipe : kstate := put_pipe P (held q) (set_k_cpu (cpu_push (k_cpu s)) s).

Lemma in_pipe_user : same_user s in_pipe.
Proof. etransitivity; [apply (same_user_cpu s (cpu_push (k_cpu s))); done|]. by eapply same_user_pipe. Qed.

Lemma enter_pipe : acquire (pipe_lk P) s = Done tt in_pipe.
Proof.
  rewrite (acquire_eq (pipe_lk P) s zero_lock); [|cbn; rewrite Hq; cbn; by rewrite Hl|done|].
  - by rewrite (pipe_lk_set _ P q).
  - eapply cpu_room_le, Hcpu. lia.
Qed.

Lemma get_pipe_eq s1 q1 : pipe_of s1 P = Some q1 -> get_pipe P s1 = Done q1 s1.
Proof. intros H. unfold get_pipe. destruct (Z.eqb_spec P 0); [done|]. msimp. by rewrite H. Qed.

(** The end of both operations: wake the other side and release the lock. *)
Definition leave_pipe (ch : chan) (r : Z) : K Z := wakeup ch ;; release (pipe_lk P) ;; ret r.

Lemma leave_pipe_eq ch r s1 q1 :
  pipe_of s1 P = Some (held q1) -> p_lock q1 = zero_lock -> k_cpu s1 = cpu_push (k_cpu s) -> k_pt s1 = k_pt s ->
  leave_pipe ch r s1 = Done r (set_k_cpu (cpu_cs (k_cpu s)) (woken (Some ch) (put_pipe P q1 s1))).
Proof.
  intros H1 Hl1 Hc1 Hpt1. unfold leave_pipe.
  mstep (wakeup_eq s1 ch); [|by rewrite Hpt1|rewrite Hc1; by apply cpu_room_push].
  assert (H2 : pipe_of (set_k_cpu (cpu_cs (k_cpu s1)) (woken (Some ch) s1)) P = Some (held q1)) by done.
  mstep (release_cs (pipe_lk P) _ (k_cpu s)).
  - unfold ret. f_equal. rewrite (pipe_lk_set _ P (held q1)) by done.
    replace (set_p_lock (mk_spinlock 0 false) (held q1)) with q1 by (destruct q1; cbn in *; by subst). by destruct s1.
  - cbn. by rewrite H2.
  - cbn. rewrite Hc1. destruct Hcpu. apply cpu_cs_push. lia.
  - eapply cpu_room_le, Hcpu. lia.
Qed.

Lemma pipe_fd : get_fd (Z.of_nat fd) s = Done (Some f) s.
Proof. by apply (get_fd_eq s i p fd f). Qed.

Lemma pipe_fi : get_fi f s = Done x s.
Proof. by apply get_fi_eq. Qed.

Lemma room_to_write fuel n :
  0 <= n -> n <= N - waiting q -> pipe_write_wait (S fuel) P n in_pipe = Done true in_pipe.
Proof.
  intros Hn0 Hn. cbn [pipe_write_wait]. mstep (get_pipe_eq in_pipe (held q)); [|apply pipe_of_put].
  cbn [held write_offset read_offset set_p_lock].
  destruct (Z.ltb_spec (u32 (N - write_offset q + read_offset q)) (u32 n)); [|done].
  exfalso. destruct Hok as (? & ? & ? & _). unfold waiting, PIPE_BUFFER_SIZE in *. word.
Qed.

(** [pipe_write] up to the [memmove]. *)
Lemma pipe_write_start buf bs :
  read_count q <> 0 -> Z.of_nat (length bs) <= N - waiting q -> user_bytes s (u64 buf) bs ->
  pipe_write (Z.of_nat fd) (u64 buf) (Z.of_nat (length bs)) s =
  (pipe_put P (write_offset q mod N) bs ;;
   upd_pipe P (fun q => set_write_offset (u32 (write_offset q + Z.of_nat (length bs))) q) ;;
   leave_pipe (ch_notEmpty P) (Z.of_nat (length bs))) in_pipe.
Proof.
  intros Hrc Hn Hu. set (n := Z.of_nat (length bs)) in *.
  assert (0 <= waiting q) as Hw0 by (unfold waiting; word).
  unfold pipe_write. destruct (Z.ltb_spec N n); [lia|].
  mstep pipe_fd. cbn [deref]. msimp. mstep pipe_fi. mstep enter_pipe.
  assert (Hq1 : pipe_of in_pipe P = Some (held q)) by apply pipe_of_put.
  mstep (get_pipe_eq in_pipe (held q) Hq1). cbn [held read_count set_p_lock].
  destruct (Z.eqb_spec (read_count q) 0); [done|].
  mstep (wakeups_eq in_pipe). mstep (room_to_write (S (wakeups_left in_pipe)) n); [|lia|lia]. cbn [negb].
  assert (Ec : copyin (Z.to_nat (u32 n)) (u64 buf) in_pipe = Done bs in_pipe).
  { replace (Z.to_nat (u32 n)) with (length bs) by (unfold n, PIPE_BUFFER_SIZE in *; word). apply copyin_eq.
    intros k c Hc. rewrite (user_byte_same s) by apply in_pipe_user. by apply Hu. }
  mstep Ec. by mstep (get_pipe_eq in_pipe (held q) Hq1).
Qed.

(** Writing a block that fits and does not cross the end of the buffer. *)
Lemma pipe_write_eq buf bs :
  read_count q <> 0 -> Z.of_nat (length bs) <= N - waiting q ->
  write_offset q mod N + Z.of_nat (length bs) <= N -> user_bytes s (u64 buf) bs ->
  pipe_write (Z.of_nat fd) (u64 buf) (Z.of_nat (length bs)) s =
  Done (Z.of_nat (length bs))
    (set_k_cpu (cpu_cs (k_cpu s)) (woken (Some (ch_notEmpty P)) (put_pipe P (put_bytes bs q) in_pipe))).
Proof.
  intros Hrc Hn Hx' Hu. rewrite pipe_write_start by done. set (n := Z.of_nat (length bs)) in *.
  assert (Hq1 : pipe_of in_pipe P = Some (held q)) by apply pipe_of_put.
  assert (Ep : pipe_put P (write_offset q mod N) bs in_pipe =
    Done tt (put_pipe P (set_p_buffer (blit (Z.to_nat (write_offset q mod N)) bs (p_buffer q)) (held q)) in_pipe)).
  { unfold pipe_put. fold n. destruct (Z.ltb_spec N (write_offset q mod N + n)); [lia|].
    by rewrite (upd_pipe_eq _ _ (held q)). }
  mstep Ep. set (q1 := set_p_buffer _ _).
  mstep (upd_pipe_eq (put_pipe P q1 in_pipe) P q1); [|done|apply pipe_of_put]. rewrite put_put_pipe.
  refine (eq_trans (leave_pipe_eq (ch_notEmpty P) n _ (put_bytes bs q) _ _ _ _) _); [|done|done|done|].
  - rewrite pipe_of_put. by destruct q.
  - by rewrite put_put_pipe.
Qed.

(** A block that crosses the end of the buffer is written past it. *)
Lemma pipe_write_crosses buf bs :
  read_count q <> 0 -> Z.of_nat (length bs) <= N - waiting q ->
  N < write_offset q mod N + Z.of_nat (length bs) -> user_bytes s (u64 buf) bs ->
  pipe_write (Z.of_nat fd) (u64 buf) (Z.of_nat (length bs)) s = Fault "pipe buffer overrun".
Proof.
  intros Hrc Hn Hx' Hu. rewrite pipe_write_start by done. unfold pipe_put.
  destruct (Z.ltb_spec N (write_offset q mod N + Z.of_nat (length bs))); [done|lia].
Qed.

(** How many bytes a read that need not wait takes: what was asked for, or all
    there is when there is no writer left. *)
Definition read_size (n : Z) : Z := if write_count q =? 0 then waiting q else n.

Lemma read_now n :
  0 <= n -> (write_count q = 0 \/ n <= waiting q) ->
  (if write_count (held q) =? 0 then ret (i32 (write_offset (held q) - read_offset (held q)))
   else w <- wakeups ;; pipe_read_wait w P n) in_pipe = Done (read_size n) in_pipe.
Proof.
  intros H0' Hn. unfold read_size. cbn [held write_count write_offset read_offset set_p_lock].
  destruct Hok as (? & ? & Hw & _). destruct (Z.eqb_spec (write_count q) 0) as [E|E].
  - unfold ret. f_equal. unfold waiting, PIPE_BUFFER_SIZE in *. word.
  - mstep (wakeups_eq in_pipe). cbn [pipe_read_wait]. mstep (get_pipe_eq in_pipe (held q)); [|apply pipe_of_put].
    cbn [held write_offset read_offset set_p_lock].
    destruct (Z.ltb_spec (u32 (write_offset q - read_offset q)) (u32 n)); [|done].
    exfalso. destruct Hn as [?|Hn]; [done|]. unfold waiting, PIPE_BUFFER_SIZE in *. word.
Qed.

Lemma pipe_read_eq buf n :
  let m := Z.to_nat (read_size n) in
  0 <= n -> (write_count q = 0 \/ n <= waiting q) -> read_offset q mod N + Z.of_nat m <= N ->
  user_room s (u64 buf) m ->
  exists s', pipe_read (Z.of_nat fd) (u64 buf) n s = Done (Z.of_nat m) s' /\
    pipe_of s' P = Some (got_bytes m q) /\ user_bytes s' (u64 buf) (u8 <$> take m (queue q)) /\
    k_cpu s' = cpu_cs (k_cpu s) /\ (forall j, proc_at s' j = wake (Some (ch_notFull P)) <$> proc_at s j).
Proof.
  intros m Hn0 Hn Hx' Hu. assert (0 <= waiting q) as Hw0 by (unfold waiting; word).
  assert (Hm : Z.of_nat m = read_size n) by (unfold m, read_size; destruct (write_count q =? 0); lia).
  assert (Hmw : Z.of_nat m <= waiting q).
  { rewrite Hm. unfold read_size. destruct (Z.eqb_spec (write_count q) 0); [lia|]. by destruct Hn. }
  destruct (queue_got m q Hok Hmw Hx') as (_ & _ & Htake).
  assert (Hq1 : pipe_of in_pipe P = Some (held q)) by apply pipe_of_put.
  unfold pipe_read. mstep pipe_fd. cbn [deref]. msimp. mstep pipe_fi. mstep enter_pipe.
  mstep (get_pipe_eq in_pipe (held q) Hq1). mstep (read_now n Hn0 Hn). rewrite <- Hm.
  mstep (get_pipe_eq in_pipe (held q) Hq1). cbn [held read_offset set_p_lock].
  set (bs := take m (queue q)) in *.
  assert (Eg : pipe_get P (read_offset q mod N) (Z.of_nat m) in_pipe = Done bs in_pipe).
  { unfold pipe_get. replace (u32 (Z.of_nat m)) with (Z.of_nat m) by (destruct Hok as (_ & _ & ? & _); unfold PIPE_BUFFER_SIZE in *; word).
    destruct (Z.ltb_spec N (read_offset q mod N + Z.of_nat m)); [lia|].
    mstep (get_pipe_eq in_pipe (held q) Hq1). cbn [held p_buffer set_p_lock]. by rewrite Nat2Z.id, Htake. }
  assert (Hbs : length bs = m) by (unfold bs; rewrite length_take, length_queue; lia).
  destruct (copyout_eq in_pipe buf bs) as (s2 & Eo & [Hf Ht Hpi] & Hb & _).
  { rewrite Hbs. eapply user_room_same; [apply in_pipe_user|done]. }
  mstep Eg. mstep Eo. assert (Hq2 : pipe_of s2 P = Some (held q)) by (by rewrite Hpi).
  mstep (upd_pipe_eq s2 P (held q)); [|done|done]. set (s3 := put_pipe P _ s2).
  assert (E3 : leave_pipe (ch_notFull P) (Z.of_nat m) s3 = Done (Z.of_nat m)
    (set_k_cpu (cpu_cs (k_cpu s)) (woken (Some (ch_notFull P)) (put_pipe P (got_bytes m q) s3)))).
  { apply leave_pipe_eq; [|done|unfold s3; rewrite Hf; done|unfold s3; rewrite Hf; done].
    unfold s3. rewrite pipe_of_put. by destruct q. }
  eexists. split; [exact E3|]. split_and!.
  - apply pipe_of_put.
  - intros k c Hc. rewrite <- (Hb k c Hc). unfold s3. rewrite put_put_pipe.
    destruct (same_user_pipe s2 P (held q) (got_bytes m q) Hq2) as [[_ Hte] Hby].
    apply (user_byte_same s2). split; [split; [cbn; by rewrite Hf|exact Hte]|exact Hby].
  - done.
  - intros j. unfold proc_at, s3; cbn. rewrite Hf. cbn. by rewrite list_lookup_fmap.
Qed.
End pipe.

(** Process [i] calls an operation on the pipe of its descriptor [fd]. *)
Record on_pipe (s : kstate) (i : nat) (p : proc) (fd f : nat) (x : file_info) (q : pipe) : Prop := {
  op_cpu : cpu_room 2 (k_cpu s);
  op_me : c_proc (k_cpu s) = Some i;
  op_proc : proc_at s i = Some p;
  op_fd : files p !! fd = Some (Some f);
  op_file : file_table (k_ft s) !! f = Some x;
  op_null : fi_pipe x <> 0;
  op_pipe : pipe_of s (fi_pipe x) = Some q;
  op_lock : p_lock q = zero_lock;
  op_pt : pt_lock (k_pt s) = zero_lock;
  op_ok : pipe_ok q
}.

(** Process 0 has descriptor 0 on the pipe [q], which is in page 6, and the
    bytes 7, 8, 9 at address 0, which page tables in pages 1 to 4 map to page 5. *)
Definition demo_frames : gmap Z frame :=
  <[1 := FTable {[0 := PTE 0x2000 7]}]> (<[2 := FTable {[0 := PTE 0x3000 7]}]>
  (<[3 := FTable {[0 := PTE 0x4000 7]}]> (<[4 := FTable {[0 := PTE 0x5000 7]}]>
  {[5 := FBytes [7; 8; 9]]}))).

Definition demo_pipe : Z := KERNBASE + 0x6000.
Definition demo_proc : proc := set_files (Some 0%nat :: replicate 15 None) zero_proc.

Definition pipe_demo (q : pipe) : kstate :=
  put_pipe demo_pipe q
    (put_proc 0 demo_proc
      (set_k_ft (mk_ftable zero_lock [pipe_file demo_pipe O_WRONLY 0])
        (set_k_cpu (set_cr3 0x1000 (mk_cpu 0 false true (Some 0%nat) 0 0))
          (set_k_frames demo_frames (zero_state 0x200000 ∅))))).

(** A pipe with [r] readers, [w] writers and offsets [ro], [wo]. *)
Definition demo_q (r w ro wo : Z) : pipe :=
  mk_pipe r w ro wo zero_lock (replicate (Z.to_nat N) 0).

Lemma on_pipe_demo r w ro wo :
  0 <= ro < 2 ^ 32 -> 0 <= wo < 2 ^ 32 -> u32 (wo - ro) <= N ->
  on_pipe (pipe_demo (demo_q r w ro wo)) 0 demo_proc 0 0 (pipe_file demo_pipe O_WRONLY 0) (demo_q r w ro wo).
Proof.
  intros Hr Hw Hu. split; [by split|reflexivity..|done|apply pipe_of_put|reflexivity|reflexivity|].
  split; [done|]. split; [done|]. split; [done|]. apply length_replicate.
Qed.

Lemma demo_user_byte q k c : [7; 8; 9] !! k = Some c -> user_byte (pipe_demo q) (u64 (u64 0 + Z.of_nat k)) = Some c.
Proof. by destruct k as [|[|[|k]]]; intros [= <-]; vm_compute. Qed.

Lemma demo_room q n : (n <= 3)%nat -> user_room (pipe_demo q) (u64 0) n.
Proof.
  intros Hn. split.
  - intros k Hk. destruct (lookup_lt_is_Some_2 [7; 8; 9] k) as [c Hc]; [cbn; lia|].
    rewrite (demo_user_byte q k c Hc). split; [done|]. destruct k as [|[|[|k]]]; [by vm_compute..|lia].
  - intros j k Hjk E. apply (f_equal snd) in E. unfold phys, PGSIZE in E. cbn [snd] in E. word.
Qed.

(** ** Properties *)

(** C25: A pipe is a queue of bytes.  A write that has room, with a reader left
    and a block that does not cross the end of the ring buffer, returns its
    size: the bytes of the caller's memory are at the end of the queue, user
    memory is as it was and readers that sleep are woken.  A read of bytes that
    are there, likewise in one piece, takes them from the front of the queue
    and puts them into the caller's memory, and wakes writers.  The ring keeps
    its invariant in both, also when the 32-bit offsets wrap around. *)
Theorem pipe_refines_queue (s : kstate) (i : nat) (p : proc) (fd f : nat) (x : file_info) (q : pipe) (buf : Z)
    (Hp : on_pipe s i p fd f x q) :
  (forall bs, read_count q <> 0 -> Z.of_nat (length bs) <= N - waiting q ->
     write_offset q mod N + Z.of_nat (length bs) <= N -> user_bytes s (u64 buf) bs ->
     exists s' q', pipe_write (Z.of_nat fd) (u64 buf) (Z.of_nat (length bs)) s = Done (Z.of_nat (length bs)) s' /\
       pipe_of s' (fi_pipe x) = Some q' /\ pipe_ok q' /\ queue q' = queue q ++ bs /\ same_user s s' /\
       forall j, proc_at s' j = wake (Some (ch_notEmpty (fi_pipe x))) <$> proc_at s j) /\
  (forall n, write_count q <> 0 -> Z.of_nat n <= waiting q -> read_offset q mod N + Z.of_nat n <= N ->
     user_room s (u64 buf) n ->
     exists s' q', pipe_read (Z.of_nat fd) (u64 buf) (Z.of_nat n) s = Done (Z.of_nat n) s' /\
       pipe_of s' (fi_pipe x) = Some q' /\ pipe_ok q' /\ queue q' = drop n (queue q) /\
       user_bytes s' (u64 buf) (u8 <$> take n (queue q)) /\
       forall j, proc_at s' j = wake (Some (ch_notFull (fi_pipe x))) <$> proc_at s j).
Proof.
  destruct Hp. split.
  - intros bs Hr Hn Hx Hu. destruct (queue_put bs q) as [Hok' Hqu]; [done|lia|done|]. eexists _, (put_bytes bs q).
    split; [by eapply pipe_write_eq|]. split_and!; [apply pipe_of_put|done|done| |].
    + destruct (same_user_pipe s (fi_pipe x) q (put_bytes bs q) op_pipe0) as [[_ Hte] Hby].
      unfold in_pipe. rewrite put_put_pipe. split; [split; [done|exact Hte]|exact Hby].
    + intros j. unfold proc_at; cbn. by rewrite list_lookup_fmap.
  - intros n Hw Hn Hx Hu. assert (E : read_size q (Z.of_nat n) = Z.of_nat n)
      by (unfold read_size; by destruct (Z.eqb_spec (write_count q) 0)).
    destruct (pipe_read_eq s i p fd f x q op_cpu0 op_me0 op_proc0 op_fd0 op_file0 op_null0 op_pipe0 op_lock0 op_pt0 op_ok0
      buf (Z.of_nat n)) as (s' & Er & Hq' & Hb & _ & Hj); rewrite ?E, ?Nat2Z.id; [lia|by right|done|done|].
    rewrite E, Nat2Z.id in Er, Hq', Hb. destruct (queue_got n q) as (Hok' & Hqu & _); [done|done|done|].
    by exists s', (got_bytes n q).
Qed.

Lemma pipe_refines_queue_witness :
  (exists s', pipe_write 0 0 3 (pipe_demo (demo_q 1 1 0 5)) = Done 3 s') /\
  (exists s', pipe_read 0 0 2 (pipe_demo (demo_q 1 1 4294967294 2)) = Done 2 s').
Proof.
  split.
  - destruct (pipe_refines_queue _ _ _ _ _ _ _ 0 (on_pipe_demo 1 1 0 5 ltac:(lia) ltac:(lia) ltac:(by vm_compute)))
      as [Hw _]. destruct (Hw [7; 8; 9]) as (s' & _ & E & _); [done|by vm_compute|by vm_compute| |by exists s'].
    intros k c Hc. by apply demo_user_byte.
  - destruct (pipe_refines_queue _ _ _ _ _ _ _ 0
      (on_pipe_demo 1 1 4294967294 2 ltac:(lia) ltac:(lia) ltac:(by vm_compute))) as [_ Hr].
    destruct (Hr 2%nat) as (s' & _ & E & _); [done|by vm_compute|by vm_compute|apply demo_room; lia|by exists s'].
Defined.

(** [memmove] does not wrap around the ring.  A block for which the pipe
    has room is written past the end of the buffer when it crosses that end:
    nothing splits it.  The model stops there with a fault, where the code
    overwrites what follows the buffer. *)
Theorem pipe_write_overruns (s : kstate) (i : nat) (p : proc) (fd f : nat) (x : file_info) (q : pipe) (buf : Z) (bs : list Z)
    (Hp : on_pipe s i p fd f x q) (Hr : read_count q <> 0) (Hn : Z.of_nat (length bs) <= N - waiting q)
    (Hx : N < write_offset q mod N + Z.of_nat (length bs)) (Hu : user_bytes s (u64 buf) bs) :
  pipe_write (Z.of_nat fd) (u64 buf) (Z.of_nat (length bs)) s = Fault "pipe buffer overrun".
Proof. destruct Hp. by eapply pipe_write_crosses. Qed.

(** Two bytes short of the end of the buffer. *)
Lemma pipe_write_overruns_witness :
  pipe_write 0 0 3 (pipe_demo (demo_q 1 1 2046 2046)) = Fault "pipe buffer overrun".
Proof.
  apply (pipe_write_overruns _ _ _ _ _ _ _ 0 [7; 8; 9] (on_pipe_demo 1 1 2046 2046 ltac:(lia) ltac:(lia) ltac:(by vm_compute)));
    [done|by vm_compute|by vm_compute|]. intros k c Hc. by apply demo_user_byte.
Defined.

(** A read of a pipe with no writer left takes everything.  However few
    bytes were asked for, all that wait in the pipe are stored at the caller's
    pointer and counted in the result. *)
Theorem pipe_read_ignores_size (s : kstate) (i : nat) (p : proc) (fd f : nat) (x : file_info) (q : pipe) (buf n : Z)
    (Hp : on_pipe s i p fd f x q) (Hw : write_count q = 0) (Hn : 0 <= n)
    (Hx : read_offset q mod N + waiting q <= N) (Hu : user_room s (u64 buf) (Z.to_nat (waiting q))) :
  exists s', pipe_read (Z.of_nat fd) (u64 buf) n s = Done (waiting q) s' /\
    user_bytes s' (u64 buf) (u8 <$> queue q).
Proof.
  destruct Hp. assert (0 <= waiting q) by (unfold waiting; word).
  assert (E : read_size q n = waiting q) by (unfold read_size; by rewrite Hw).
  destruct (pipe_read_eq s i p fd f x q op_cpu0 op_me0 op_proc0 op_fd0 op_file0 op_null0 op_pipe0 op_lock0 op_pt0 op_ok0
    buf n) as (s' & Er & _ & Hb & _); rewrite ?E, ?Z2Nat.id by done; [done|by left|done|done|].
  rewrite E, Z2Nat.id in Er by done. rewrite E, take_ge in Hb by (by rewrite length_queue). by exists s'.
Qed.

(** One byte is asked for and three are stored. *)
Lemma pipe_read_ignores_size_witness :
  exists s', pipe_read 0 0 1 (pipe_demo (demo_q 1 0 0 3)) = Done 3 s'.
Proof.
  destruct (pipe_read_ignores_size _ _ _ _ _ _ _ 0 1 (on_pipe_demo 1 0 0 3 ltac:(lia) ltac:(lia) ltac:(by vm_compute)))
    as (s' & E & _); [done|lia|by vm_compute|apply demo_room; vm_compute; lia|by exists s'].
Defined.
