(* ===== verification/Proc.v ===== *)
(** * Processes: [kernel/proc.c], second part

    Creating, ending and collecting processes, and the first process. *)

From S2P Require Import Prelude Logic Types Strings Spinlock Mmu Kalloc X86vm Umem Vspace Frame Sched.
From S2P Require Import Console Sleeplock Ide Bio Fs File.

Definition SEG_UCODE : Z := 4.
Definition SEG_UDATA : Z := 5.
Definition DPL_USER : Z := 3.
Definition FLAGS_IF : Z := 0x200.

(** [init] and [size] are the linked-in image of [initcode]. *)
Definition userinit (init : list Z) (size : Z) : K unit :=
  o <- allocproc ;;
  upd_pt (set_initproc o) ;;
  i <- deref "null proc pointer" o ;;
  p <- get_proc i ;;
  let* (vs, r) := vspaceinit (p_vspace p) in
  upd_proc i (set_p_vspace vs) ;;
  assertm (r =? 0) "error initializing process's virtual address descriptor" ;;
  vs <- vspaceinitcode vs init size ;;
  upd_proc i (set_p_vspace vs) ;;
  code <- get_region vs VR_CODE ;;
  stack <- get_region vs VR_USTACK ;;
  upd_proc i (set_p_tf
    (mk_trap_frame 0 0 0 0 0 0 0 0 0 0 0 0 0 0 0 0 0 (VRBOT code)
       (Z.lor (Z.shiftl SEG_UCODE 3) DPL_USER) FLAGS_IF (VRTOP stack)
       (Z.lor (Z.shiftl SEG_UDATA 3) DPL_USER))) ;;
  upd_proc i (fun p => set_p_name (safestrcpy_list (p_name p) (chars "initcode") 16) p) ;;
  acquire ptable_lk ;;
  upd_proc i (set_p_state RUNNABLE) ;;
  release ptable_lk.

(** The body of the loop of [fork] over the parent's open files. *)
Definition fork_file (child : nat) (fd : nat) (o : option nat) : K unit :=
  match o with
  | None => ret tt
  | Some f =>
      upd_proc child (fun p => set_files (<[fd := Some f]> (files p)) p) ;;
      x <- get_fi f ;;
      if truthy (isPipe x) then
        if (mode x =? O_RDONLY) && negb (fi_pipe x =? 0)
        then upd_pipe (fi_pipe x) (fun q => set_read_count (u32 (read_count q + 1)) q)
        else if (mode x =? O_WRONLY) && negb (fi_pipe x =? 0)
        then upd_pipe (fi_pipe x) (fun q => set_write_count (u32 (write_count q + 1)) q)
        else ret tt
      else upd_fi f (fun x => set_ref_count (u32 (ref_count x + 1)) x)
  end.

Fixpoint fork_files (child fd : nat) (fds : list (option nat)) : K unit :=
  match fds with
  | [] => ret tt
  | o :: fds => fork_file child fd o ;; fork_files child (S fd) fds
  end.

Definition fork : K Z :=
  p <- me ;;
  o <- allocproc ;;
  match o with
  | None => ret (-1)
  | Some c =>
      cp <- get_proc c ;;
      let* (vs, r) := vspaceinit (p_vspace cp) in
      upd_proc c (set_p_vspace vs) ;;
      assertm (r =? 0) "failed initializing virtual address space" ;;
      pp <- get_proc p ;;
      let* (vs, _) := vspacecopy vs (p_vspace pp) in
      upd_proc c (set_p_vspace vs) ;;
      upd_proc c (set_p_tf (p_tf pp)) ;;
      acquire ptable_lk ;;
      upd_proc c (fun q => set_parent (Some p) (set_p_tf (set_tf_rax 0 (p_tf q)) q)) ;;
      fork_files c 0 (take NOFILE (files pp)) ;;
      upd_proc c (set_p_state RUNNABLE) ;;
      q <- get_proc c ;;
      release ptable_lk ;;
      vspaceinstall (Some p) ;;
      ret (p_pid q)
  end.

(** The body of the loop of [exit] that hands the children to [initproc]. *)
Definition reparent (me_ i : nat) : K unit :=
  q <- get_proc i ;;
  match parent q with
  | None => ret tt
  | Some pa =>
      pq <- get_proc pa ;;
      p <- get_proc me_ ;;
      if p_pid pq =? p_pid p then
        t <- gets k_pt ;;
        upd_proc i (set_parent (initproc t)) ;;
        ini <- deref "null initproc" (initproc t) ;;
        ip <- get_proc ini ;;
        if decide (p_state ip = SLEEPING) then wakeup1 (Some (ch_proc ini)) else ret tt
      else ret tt
  end.

(** The loop of [exit] over the descriptors. *)
Definition exit_close (p : nat) (fd : nat) : K unit :=
  q <- get_proc p ;;
  o <- deref "files index" (files q !! fd) ;;
  match o with
  | None => ret tt
  | Some _ => file_close (Z.of_nat fd) ;; ret tt
  end.

Definition exit : K unit :=
  p <- me ;;
  mfor (seq 0 NOFILE) (exit_close p) ;;
  acquire ptable_lk ;;
  upd_proc p (set_p_state ZOMBIE) ;;
  mfor (seq 0 NPROC) (reparent p) ;;
  q <- get_proc p ;;
  wakeup1 (ch_proc <$> parent q) ;;
  sched ;;
  release ptable_lk.

(** Collect the zombie in slot [i]. *)
Definition reap (i : nat) : K Z :=
  q <- get_proc i ;;
  vs <- vspacefree (p_vspace q) ;;
  upd_proc i (set_p_vspace vs) ;;
  kfree (kstack q) ;;
  upd_proc i (fun q =>
    set_p_state UNUSED (set_p_pid 0 (set_killed 0 (set_parent None (set_kstack 0 q))))) ;;
  release ptable_lk ;;
  ret (p_pid q).

(** The loop of [wait]: each round scans the table for an exited child. *)
Fixpoint wait_loop (fuel : nat) (hasChildren : bool) : K Z :=
  match fuel with
  | O => diverge
  | S fuel =>
      o <- myproc ;;
      ps <- gets (fun s => pt_proc (k_pt s)) ;;
      match list_find (fun q => parent q = o /\ p_state q = ZOMBIE) ps with
      | Some (i, _) => reap i
      | None =>
          let hasChildren := hasChildren || existsb (fun q => bool_decide (parent q = o)) ps in
          if negb hasChildren then release ptable_lk ;; ret (-1) else
          i <- me ;;
          sleep (ch_proc i) sl_ptable ;;
          wait_loop fuel hasChildren
      end
  end.

Definition wait : K Z :=
  acquire ptable_lk ;;
  w <- wakeups ;;
  wait_loop w false.

Definition forkret : K unit :=
  release ptable_lk ;;
  t <- gets k_pt ;;
  if pt_first t then upd_pt (set_pt_first false) ;; iinit ROOTDEV else ret tt.

(** ** Facts *)

(** [sleep] on the lock of the process table itself, and what it does when it is
    resumed. *)
Definition wake_up_ptable (int : bool) (s2 : kstate) : res kstate unit :=
  (i <- me ;; upd_proc i (set_p_chan None) ;; ret tt) (set_k_cpu (set_intena int (k_cpu s2)) s2).

Lemma sleep_ptable_eq s ch i p :
  in_ptable s -> c_proc (k_cpu s) = Some i -> proc_at s i = Some p ->
  sleep ch sl_ptable s = Block (put_proc i (asleep ch p) s) (wake_up_ptable (intena (k_cpu s))).
Proof.
  intros Hin Hc Hp. unfold sleep, myproc; msimp. rewrite Hc. msimp. mstep (me_eq s i Hc). mstep (upd_proc_eq s i _ p Hp).
  mstep (me_eq _ i); [|done]. mstep (upd_proc_eq _ i); [|by eapply proc_at_put]. rewrite put_proc_put.
  unfold bind at 1. erewrite (sched_eq _ i); [|by destruct Hin|done|by eapply proc_at_put|done]. by rewrite put_proc_put.
Qed.

(** A child that has ended. *)
Definition zombie_of (a : nat) (q : proc) : Prop := parent q = Some a /\ p_state q = ZOMBIE.

(** With an ended child in the table, the loop of [wait] collects the first. *)
Lemma wait_loop_zombie fuel b s a j q :
  c_proc (k_cpu s) = Some a -> proc_at s j = Some q -> zombie_of a q ->
  exists j' q', proc_at s j' = Some q' /\ zombie_of a q' /\
    (forall k r, (k < j')%nat -> proc_at s k = Some r -> ~ zombie_of a r) /\ wait_loop (S fuel) b s = reap j' s.
Proof.
  intros Hc Hj Hz. cbn [wait_loop]. unfold myproc; msimp. rewrite Hc.
  destruct (list_find _ _) as [[j' q']|] eqn:E.
  - apply list_find_Some in E as (H1 & H2 & H3). exists j', q'. split_and!; try done.
    intros k r Hk Hr. by apply (H3 k r).
  - apply list_find_None in E. by destruct (proj1 (Forall_lookup _ _) E j q Hj).
Qed.

(** Without one but with a child, it sleeps. *)
Lemma wait_loop_sleeps fuel s a p j q :
  in_ptable s -> c_proc (k_cpu s) = Some a -> proc_at s a = Some p -> proc_at s j = Some q -> parent q = Some a ->
  (forall k r, proc_at s k = Some r -> ~ zombie_of a r) ->
  wait_loop (S fuel) false s = Block (put_proc a (asleep (ch_proc a) p) s)
    (fun s2 => bindr (wake_up_ptable (intena (k_cpu s)) s2) (fun _ => wait_loop fuel true)).
Proof.
  intros Hin Hc Hp Hj Hq Hn. cbn [wait_loop]. unfold myproc at 1; msimp. rewrite Hc.
  destruct (list_find _ _) as [[j' q']|] eqn:E.
  { apply list_find_Some in E as (H1 & H2 & _). by destruct (Hn j' q' H1). }
  assert (existsb (fun q => bool_decide (parent q = Some a)) (pt_proc (k_pt s)) = true) as ->.
  { apply existsb_exists. exists q. split; [|by apply bool_decide_eq_true]. by apply list_elem_of_In, (list_elem_of_lookup_2 _ j). }
  cbn [orb negb]. mstep (me_eq s a Hc). by apply bind_block, sleep_ptable_eq.
Qed.

(** Only the memory changes when an ended process is collected, but for its
    slot, which is free afterwards. *)
Lemma rest_done {A} (m : K A) Q s a s' :
  (forall I R J, rest_only J -> gives I R J m Q) -> m s = Done a s' -> rest s' = rest s.
Proof.
  intros Hm E. assert (rest_only (fun s' => rest s' = rest s)) as HJ by (intros s1 s2 H1 H2; congruence).
  pose proof (gives_elim _ _ _ _ _ s (Hm (fun _ => False) (fun _ => False) _ HJ) eq_refl) as H. rewrite E in H. by destruct H.
Qed.

Lemma rest_proc_at s s' k : rest s' = rest s -> proc_at s' k = proc_at s k.
Proof. unfold rest, proc_at. intros [=]. congruence. Qed.

Lemma reap_done j q s r s' :
  proc_at s j = Some q -> reap j s = Done r s' ->
  r = p_pid q /\ (exists q', proc_at s' j = Some q' /\ p_state q' = UNUSED /\ p_pid q' = 0 /\ parent q' = None) /\
  forall k, k <> j -> proc_at s' k = proc_at s k.
Proof.
  intros Hq E. unfold reap in E. rewrite (bind_done _ _ _ _ _ (get_proc_eq s j q Hq)) in E.
  apply bind_inv in E as (vs & s1 & E1 & E). apply (rest_done _ (fun _ => True)) in E1;
    [|intros; eapply gives_mono; [by apply gives_vspacefree|done]].
  pose proof (fun k => rest_proc_at s s1 k E1) as H1. rewrite (bind_done _ _ _ _ _ (upd_proc_eq s1 j _ q (eq_trans (H1 j) Hq))) in E.
  apply bind_inv in E as ([] & s2 & E2 & E). apply (rest_done _ (fun _ => True)) in E2; [|intros; by apply keeps_kfree].
  set (q1 := set_p_vspace vs q) in *. pose proof (fun k => rest_proc_at _ s2 k E2) as H2.
  assert (proc_at s2 j = Some q1) as Hq2 by (rewrite H2; apply (proc_at_put s1 j q); by rewrite H1).
  rewrite (bind_done _ _ _ _ _ (upd_proc_eq s2 j _ q1 Hq2)) in E. set (q2 := set_p_state UNUSED _) in E.
  apply bind_inv in E as ([] & s3 & E3 & E). injection E as <- <-.
  apply (rest_done _ (fun _ => True)) in E3; [|intros ??? HJ; apply keeps_release; [done|by apply lock_frame_ok, _]].
  pose proof (fun k => rest_proc_at _ s3 k E3) as H3. split_and!; [done| |].
  - exists q2. rewrite H3. split; [by apply (proc_at_put s2 j q1)|done].
  - intros k Hk. rewrite H3, proc_at_put_ne, H2, proc_at_put_ne by done. apply H1.
Qed.

(** *** The children of a process that ends *)

(** [q] was sleeping on one of the channels [W] and is runnable, or it is as it
    was. *)
Definition roused (W : list chan) (q q' : proc) : Prop :=
  q' = q \/ (p_state q = SLEEPING /\ (exists ch, p_chan q = Some ch /\ ch ∈ W) /\ q' = set_p_state RUNNABLE q).

Lemma roused_wake W ch q q' : roused W q q' -> roused (W ++ [ch]) q (wake (Some ch) q').
Proof.
  intros [->|(Hs & (ch' & Hc & Hin) & ->)]; unfold wake.
  - destruct (decide _) as [[Hs Hc]|]; [|by left]. right. split_and!; [done|exists ch; set_solver|done].
  - rewrite decide_False by (by intros [? _]). right. split_and!; [done|exists ch'; set_solver|done].
Qed.

Lemma roused_weaken W W' q q' : W ⊆ W' -> roused W q q' -> roused W' q q'.
Proof. intros H [->|(Hs & (ch & Hc & Hin) & ->)]; [by left|]. right. split_and!; [done|exists ch; set_solver|done]. Qed.

Lemma roused_pid W q q' : roused W q q' -> p_pid q' = p_pid q /\ parent q' = parent q.
Proof. by intros [->|(_ & _ & ->)]. Qed.

Lemma wake_parent ch o q : wake ch (set_parent o q) = set_parent o (wake ch q).
Proof. unfold wake. cbn [p_state p_chan set_parent]. by destruct (decide _). Qed.

Section exit.
Context (c ini : nat).

(** The parent of a process when [c] has ended. *)
Definition heir (q : proc) : option nat := if decide (parent q = Some c) then Some ini else parent q.

(** [t] is the table [t0] with the children among the first [j] processes handed
    to [ini] and some that wait for a child of [ini] woken. *)
Definition handed (j : nat) (t0 t : list proc) : Prop :=
  length t = length t0 /\ forall k q0, t0 !! k = Some q0 -> exists q, roused [ch_proc ini] q0 q /\
    t !! k = Some (if decide (k < j)%nat then set_parent (heir q0) q else q).

Definition with_procs (t : list proc) (s : kstate) : kstate := set_k_pt (set_pt_proc t (k_pt s)) s.

Lemma handed_0 t : handed 0 t t.
Proof. split; [done|]. intros k q Hq. exists q. split; [by left|]. by rewrite decide_False by lia. Qed.

Lemma handed_wake j t0 t : handed j t0 t -> handed j t0 (wake (Some (ch_proc ini)) <$> t).
Proof.
  intros [Hl H]. split; [by rewrite length_fmap|]. intros k q0 Hq0. destruct (H k q0 Hq0) as (q & Hr & Hq).
  exists (wake (Some (ch_proc ini)) q). split.
  - apply (roused_weaken ([ch_proc ini] ++ [ch_proc ini])); [set_solver|by apply roused_wake].
  - rewrite list_lookup_fmap, Hq. cbn. by destruct (decide (k < j)%nat); rewrite ?wake_parent.
Qed.

(** The next process is no child of [c], or is handed over. *)
Lemma handed_next j t0 t q0 q :
  handed j t0 t -> t0 !! j = Some q0 -> t !! j = Some q -> handed (S j) t0 (<[j := set_parent (heir q0) q]> t).
Proof.
  intros [Hl H] H0 Hq. split; [by rewrite length_insert|]. intros k r0 Hr0. destruct (H k r0 Hr0) as (r & Hr & Hk).
  exists r. split; [done|]. destruct (decide (k = j)) as [->|Hne].
  - rewrite list_lookup_insert_eq by (by eapply lookup_lt_Some). rewrite decide_True by lia.
    rewrite decide_False in Hk by lia. rewrite Hq in Hk. injection Hk as ->. by rewrite H0 in Hr0; injection Hr0 as ->.
  - rewrite list_lookup_insert_ne, Hk by done. f_equal. destruct (decide (k < j)%nat), (decide (k < S j)%nat); lia || done.
Qed.

Lemma handed_at j t0 t k q0 : handed j t0 t -> t0 !! k = Some q0 -> exists q, t !! k = Some q /\ p_pid q = p_pid q0.
Proof.
  intros [_ H] H0. destruct (H k q0 H0) as (q & Hr & Hq). eexists. split; [exact Hq|]. apply roused_pid in Hr as [Hr _].
  by destruct (decide (k < j)%nat).
Qed.

(** [c] has a number of its own. *)
Definition own_pid (t : list proc) : Prop :=
  forall k q qc, t !! c = Some qc -> t !! k = Some q -> p_pid q = p_pid qc -> k = c.

Definition parents_in (t : list proc) : Prop := forall k q pa, t !! k = Some q -> parent q = Some pa -> (pa < length t)%nat.

Lemma reparent_eq s t0 t j :
  initproc (k_pt s) = Some ini -> (ini < length t0)%nat -> (c < length t0)%nat -> (j < length t0)%nat ->
  own_pid t0 -> parents_in t0 -> handed j t0 t ->
  exists t', reparent c j (with_procs t s) = Done tt (with_procs t' s) /\ handed (S j) t0 t'.
Proof.
  intros Hini Hil Hcl Hjl Hown Hpar Hh. pose proof Hh as [Hl Hrel].
  destruct (lookup_lt_is_Some_2 t0 j Hjl) as [q0 Hq0]. destruct (lookup_lt_is_Some_2 t0 c Hcl) as [qc0 Hqc0].
  destruct (Hrel j q0 Hq0) as (q & Hr & Hq). rewrite decide_False in Hq by lia. pose proof (roused_pid _ _ _ Hr) as [_ Hqp].
  destruct (handed_at _ _ _ _ _ Hh Hqc0) as (qc & Hqc & Hcpid).
  pose proof (handed_next j t0 t q0 q Hh Hq0 Hq) as Hnext.
  assert (Hskip : heir q0 = parent q0 -> handed (S j) t0 t).
  { intros He. rewrite He, <- Hqp in Hnext. replace (set_parent (parent q) q) with q in Hnext by (by destruct q).
    by rewrite list_insert_id in Hnext. }
  unfold reparent. mstep (get_proc_eq (with_procs t s) j q Hq). rewrite Hqp. unfold heir in *.
  destruct (parent q0) as [pa|] eqn:Epa; [|by exists t; split; [|apply Hskip]].
  destruct (lookup_lt_is_Some_2 t0 pa) as [qa0 Hqa0]; [by apply (Hpar j q0)|].
  destruct (handed_at _ _ _ _ _ Hh Hqa0) as (qa & Hqa & Hapid). mstep (get_proc_eq (with_procs t s) pa qa Hqa).
  mstep (get_proc_eq (with_procs t s) c qc Hqc). rewrite Hapid, Hcpid.
  destruct (Z.eqb_spec (p_pid qa0) (p_pid qc0)) as [Epid|Epid].
  2:{ exists t. split; [done|]. apply Hskip. rewrite decide_False; [done|]. intros [= ->]. congruence. }
  rewrite (Hown pa qa0 qc0 Hqc0 Hqa0 Epid), decide_True in Hnext by done.
  msimp. change (initproc (k_pt (with_procs t s))) with (initproc (k_pt s)). rewrite Hini.
  mstep (upd_proc_eq (with_procs t s) j _ q Hq). set (t1 := <[j := set_parent (Some ini) q]> t) in *.
  change (put_proc _ _ _) with (with_procs t1 s). msimp.
  destruct (lookup_lt_is_Some_2 t1 ini) as [qi Hqi]; [unfold t1; by rewrite length_insert, Hl|].
  mstep (get_proc_eq (with_procs t1 s) ini qi Hqi). destruct (decide (p_state qi = SLEEPING)); [|exists t1; split; [reflexivity|exact Hnext]].
  exists (wake (Some (ch_proc ini)) <$> t1). split; [done|by apply handed_wake].
Qed.

Lemma reparent_all s t0 n t j :
  initproc (k_pt s) = Some ini -> (ini < length t0)%nat -> (c < length t0)%nat -> own_pid t0 -> parents_in t0 ->
  handed j t0 t -> (j + n <= length t0)%nat ->
  exists t', mfor (seq j n) (reparent c) (with_procs t s) = Done tt (with_procs t' s) /\ handed (j + n) t0 t'.
Proof.
  intros Hini Hil Hcl Hown Hpar. revert t j. induction n as [|n IH]; intros t j Hh Hj.
  - exists t. by rewrite Nat.add_0_r.
  - destruct (reparent_eq s t0 t j) as (t1 & E & Hh1); try done; [lia|].
    destruct (IH t1 (S j) Hh1) as (t2 & E2 & Hh2); [lia|]. exists t2. cbn [seq mfor]. rewrite (bind_done _ _ _ _ _ E).
    split; [done|]. by replace (j + S n)%nat with (S j + n)%nat by lia.
Qed.
End exit.

(** *** The descriptors of a process that ends *)

(** The state in which [exit] closes descriptors: no lock is held. *)
Record at_ease (c : nat) (s : kstate) : Prop := {
  ae_ncli : ncli (k_cpu s) = 0;
  ae_proc : c_proc (k_cpu s) = Some c;
  ae_ft : ft_lock (k_ft s) = zero_lock;
  ae_ic : ic_lock (k_ic s) = zero_lock
}.

Lemma exit_close_all c n j s p ft :
  at_ease c s -> proc_at s c = Some p -> length (files p) = (j + n)%nat ->
  close_entries (length (ic_inode (k_ic s))) (drop j (files p)) (file_table (k_ft s)) = Some ft ->
  exists s', mfor (seq j n) (exit_close c) s = Done tt s' /\ at_ease c s' /\
    k_pt s' = k_pt (put_proc c (set_files (take j (files p) ++ replicate n None) p) s) /\ file_table (k_ft s') = ft.
Proof.
  revert j s p ft. induction n as [|n IH]; intros j s p ft Hs Hp Hlen Hft.
  { exists s. rewrite drop_ge in Hft by lia. injection Hft as <-. split_and!; try done.
    rewrite app_nil_r, take_ge by lia. unfold put_proc. cbn. replace (set_files (files p) p) with p by (by destruct p).
    rewrite list_insert_id by done. by destruct (k_pt s). }
  destruct (lookup_lt_is_Some_2 (files p) j) as [o Ho]; [lia|]. rewrite (drop_S _ _ _ Ho) in Hft. cbn [close_entries seq mfor] in *.
  assert (Htake : forall l, take (S j) (<[j := None]> (files p)) ++ l = take j (files p) ++ None :: l).
  { intros l. rewrite (take_S_r _ _ None) by (apply list_lookup_insert_eq; lia). rewrite take_insert_ge by lia. by rewrite <- app_assoc. }
  unfold exit_close at 1. destruct o as [f|].
  - destruct (close_entry _ f _) as [ft1|] eqn:E1; [|done]. cbn [mbind option_bind] in Hft.
    destruct Hs as [Hn Hc Hfl Hil].
    destruct (file_close_eq s c p j f ft1) as (s1 & Ec & Hpt & Hcpu & Hf1 & Hi1 & Hl1); [split; lia|done..|].
    set (p1 := set_files (<[j := None]> (files p)) p) in *.
    destruct (IH (S j) s1 p1 ft) as (s' & E' & Hs' & Hpt' & Hft').
    + split; rewrite ?Hcpu, ?Hf1; done.
    + unfold proc_at. rewrite Hpt. by apply (proc_at_put s c p).
    + unfold p1. cbn. rewrite length_insert. lia.
    + unfold p1. cbn [files set_files]. rewrite drop_insert_lt by lia. by rewrite Hl1, Hf1.
    + exists s'. split_and!; [|done| |done].
      * rewrite (bind_done _ _ s tt s1); [exact E'|]. mstep (get_proc_eq s c p Hp). rewrite Ho. cbn [deref]. msimp. by mstep Ec.
      * rewrite Hpt'. unfold put_proc. cbn [k_pt set_k_pt]. rewrite Hpt. unfold put_proc, p1. cbn. rewrite list_insert_insert_eq.
        by rewrite Htake.
  - destruct (IH (S j) s p ft) as (s' & E' & Hs' & Hpt' & Hft'); [done|done|lia|done|].
    exists s'. split_and!; [|done| |done].
    + rewrite (bind_done _ _ s tt s); [exact E'|]. mstep (get_proc_eq s c p Hp). by rewrite Ho.
    + rewrite Hpt'. rewrite (take_S_r _ _ None) by done. by rewrite <- app_assoc.
Qed.

(** Process [c], a child of [a], is about to end: it holds no lock, its
    descriptors are of files and can be closed one after the other, which leaves
    the open files [ft], its number is its own, and [ini] will be the parent of
    its children. *)
Record ending (c a ini : nat) (p : proc) (ft : list file_info) (s : kstate) : Prop := mk_ending {
  en_ease : at_ease c s;
  en_lock : pt_lock (k_pt s) = zero_lock;
  en_len : length (pt_proc (k_pt s)) = NPROC;
  en_init : initproc (k_pt s) = Some ini /\ (ini < NPROC)%nat;
  en_parents : parents_in (pt_proc (k_pt s));
  en_own : own_pid c (pt_proc (k_pt s));
  en_me : proc_at s c = Some p /\ parent p = Some a /\ a <> c /\ is_Some (proc_at s a);
  en_files : length (files p) = NOFILE /\
    close_entries (length (ic_inode (k_ic s))) (files p) (file_table (k_ft s)) = Some ft
}.

(** What is left of a process that ended. *)
Definition ended (p : proc) : proc := save_context (set_p_state ZOMBIE (set_files (replicate NOFILE None) p)).

(** The loop over the table, and the wakeup of the parent. *)
Lemma exit_table c a ini s p :
  pt_lock (k_pt s) = zero_lock -> ncli (k_cpu s) = 0 -> c_proc (k_cpu s) = Some c ->
  length (pt_proc (k_pt s)) = NPROC -> initproc (k_pt s) = Some ini -> (ini < NPROC)%nat ->
  parents_in (pt_proc (k_pt s)) -> own_pid c (pt_proc (k_pt s)) ->
  proc_at s c = Some p -> parent p = Some a -> a <> c ->
  exists s1 k, (acquire ptable_lk ;; upd_proc c (set_p_state ZOMBIE) ;; mfor (seq 0 NPROC) (reparent c) ;;
      q <- get_proc c ;; wakeup1 (ch_proc <$> parent q) ;; sched ;; release ptable_lk) s = Block s1 k /\ in_ptable s1 /\
    k_ft s1 = k_ft s /\ proc_at s1 c = Some (save_context (set_p_state ZOMBIE p)) /\
    forall j r, j <> c -> proc_at s j = Some r ->
      exists r', roused [ch_proc ini; ch_proc a] r r' /\ proc_at s1 j = Some (set_parent (heir c ini r) r') /\
        (p_state r = SLEEPING -> p_chan r = Some (ch_proc a) -> p_state r' = RUNNABLE).
Proof.
  intros Hl Hn Hc Hlen Hini Hil Hpar Hown Hp Hpp Hac.
  assert (c < NPROC)%nat as Hcl by (rewrite <- Hlen; by eapply lookup_lt_Some).
  set (s0 := lk_set ptable_lk (mk_spinlock 1 true) (set_k_cpu (cpu_push (k_cpu s)) s)).
  set (z := set_p_state ZOMBIE p). set (t0 := <[c := z]> (pt_proc (k_pt s))).
  assert (length t0 = NPROC) as Hl0 by (unfold t0; by rewrite length_insert).
  assert (t0 !! c = Some z) as Ht0c by (apply list_lookup_insert_eq; lia).
  assert (Hsame : forall k q, t0 !! k = Some q -> exists q', pt_proc (k_pt s) !! k = Some q' /\ p_pid q' = p_pid q /\ parent q' = parent q).
  { intros k q Hk. unfold t0 in Hk. destruct (decide (k = c)) as [->|Hkc].
    - rewrite list_lookup_insert_eq in Hk by lia. injection Hk as <-. by exists p.
    - rewrite list_lookup_insert_ne in Hk by done. by exists q. }
  destruct (reparent_all c ini s0 t0 NPROC t0 0 Hini) as (t1 & E1 & [Hl1 Hh1]); [lia|lia| | |apply handed_0|lia|].
  { intros k q qc Hqc Hq. rewrite Ht0c in Hqc. injection Hqc as <-. destruct (Hsame k q Hq) as (q' & Hq' & <- & _). by apply (Hown k q' p). }
  { intros k q x Hk Hx. rewrite Hl0, <- Hlen. destruct (Hsame k q Hk) as (q' & Hq' & _ & Hpar'). apply (Hpar k q'); congruence. }
  destruct (Hh1 c z Ht0c) as (q & Hr & Hq). rewrite decide_True in Hq by lia.
  assert (q = z) as -> by (by destruct Hr as [->|[? _]]).
  replace (set_parent (heir c ini z) z) with z in Hq
    by (unfold heir; rewrite decide_False by (cbn; congruence); by destruct p).
  set (t2 := wake (Some (ch_proc a)) <$> t1).
  assert (t2 !! c = Some z) as Ht2c by (unfold t2; rewrite list_lookup_fmap, Hq; cbn; unfold wake; by rewrite decide_False by (by intros [? _])).
  exists (put_proc c (save_context z) (with_procs t2 s0)). eexists. split.
  { mstep (acquire_eq ptable_lk s zero_lock); [|cbn; by rewrite Hl|done|split; lia]. fold s0.
    mstep (upd_proc_eq s0 c _ p Hp). change (put_proc c z s0) with (with_procs t0 s0). rewrite (bind_done _ _ _ _ _ E1).
    mstep (get_proc_eq (with_procs t1 s0) c z Hq). change (parent z) with (parent p). rewrite Hpp. cbn [fmap option_fmap option_map].
    rewrite (bind_done _ _ _ tt (with_procs t2 s0)) by reflexivity. apply bind_block.
    apply (sched_eq (with_procs t2 s0) c z); [|done|exact Ht2c|done]. split; cbn; [done|lia|done]. }
  split; [split; cbn; [done|lia|done]|]. split; [done|]. split; [by apply (proc_at_put (with_procs t2 s0) c z)|].
  intros j r Hj Hjr. assert (t0 !! j = Some r) as Hj0 by (unfold t0; by rewrite list_lookup_insert_ne).
  destruct (Hh1 j r Hj0) as (r1 & Hr1 & Hjt). rewrite decide_True in Hjt by (apply lookup_lt_Some in Hj0; lia).
  exists (wake (Some (ch_proc a)) r1). split; [by apply (roused_wake [ch_proc ini])|]. split.
  - rewrite proc_at_put_ne by done. change (t2 !! j = Some (set_parent (heir c ini r) (wake (Some (ch_proc a)) r1))).
    unfold t2. rewrite list_lookup_fmap, Hjt. cbn. by rewrite wake_parent.
  - intros Hst Hch. unfold wake. destruct Hr1 as [->|(_ & _ & ->)]; [by rewrite decide_True by done|].
    by rewrite decide_False by (by intros [? _]).
Qed.

Lemma exit_eq c a ini p ft s :
  ending c a ini p ft s ->
  exists s1 k, exit s = Block s1 k /\ in_ptable s1 /\ file_table (k_ft s1) = ft /\ proc_at s1 c = Some (ended p) /\
    forall j r, j <> c -> proc_at s j = Some r ->
      exists r', roused [ch_proc ini; ch_proc a] r r' /\ proc_at s1 j = Some (set_parent (heir c ini r) r') /\
        (p_state r = SLEEPING -> p_chan r = Some (ch_proc a) -> p_state r' = RUNNABLE).
Proof.
  intros [Hs Hl Hlen [Hini Hil] Hpar Hown (Hp & Hpp & Hac & _) [Hfl Hft]].
  destruct (exit_close_all c NOFILE 0 s p ft Hs Hp Hfl Hft) as (s1 & E1 & [Hn1 Hc1 _ _] & Hpt & Hft1).
  set (p1 := set_files _ p) in Hpt. assert (proc_at s1 c = Some p1) as Hp1 by (unfold proc_at; rewrite Hpt; by apply (proc_at_put s c p)).
  assert (Hsame : forall k q, proc_at s1 k = Some q -> exists q', proc_at s k = Some q' /\ p_pid q' = p_pid q /\ parent q' = parent q).
  { intros k q Hk. destruct (decide (k = c)) as [->|Hkc].
    - rewrite Hp1 in Hk. injection Hk as <-. by exists p.
    - exists q. split; [|done]. unfold proc_at in *. rewrite Hpt in Hk. cbn in Hk. by rewrite list_lookup_insert_ne in Hk. }
  destruct (exit_table c a ini s1 p1) as (s2 & k & E2 & Hin & Hft2 & Hz & Hoth); try done.
  - by rewrite Hpt.
  - rewrite Hpt. cbn. by rewrite length_insert.
  - by rewrite Hpt.
  - intros k q x Hk Hx. destruct (Hsame k q Hk) as (q' & Hq' & _ & Hpar'). rewrite Hpt. cbn. rewrite length_insert. apply (Hpar k q'); [exact Hq'|congruence].
  - intros k q qc Hqc Hq. unfold proc_at in Hp1. rewrite Hp1 in Hqc. injection Hqc as <-. destruct (Hsame k q Hq) as (q' & Hq' & <- & _). by apply (Hown k q' p).
  - exists s2, k. split_and!; [|done|by rewrite Hft2|done|].
    + unfold exit. mstep (me_eq s c (ae_proc _ _ Hs)). rewrite (bind_done _ _ _ _ _ E1). exact E2.
    + intros j r Hj Hjr. apply Hoth; [done|]. unfold proc_at. rewrite Hpt. cbn. by rewrite list_lookup_insert_ne.
Qed.

(** Process [a] is about to wait; [c] is a child of it, and none has ended. *)
Definition waiting (a c : nat) (s : kstate) : Prop :=
  ncli (k_cpu s) = 0 /\ pt_lock (k_pt s) = zero_lock /\ c_proc (k_cpu s) = Some a /\ is_Some (proc_at s a) /\
  (exists q, proc_at s c = Some q /\ parent q = Some a) /\ forall k r, proc_at s k = Some r -> ~ zombie_of a r.

(** ** Properties *)


(** Process 0, the first one, has the child 1, which has the child 2 and an open
    file, entry 0 of the table, of the inode 0. *)
Definition family_file : file_info := mk_file_info (Some (ip_cache 0)) 0 0 0 0 1 0 0.
Definition family_child : proc :=
  set_files (Some 0%nat :: replicate 15 None) (set_parent (Some 0%nat) (set_p_state RUNNABLE (set_p_pid 2 zero_proc))).
Definition family_grandchild : proc := set_parent (Some 1%nat) (set_p_state RUNNABLE (set_p_pid 3 zero_proc)).

Definition family_demo (run : nat) (pa : proc) : kstate :=
  let s := zero_state 0 ∅ in
  set_k_ft (set_file_table (<[0%nat := family_file]> (file_table (k_ft s))) (k_ft s))
    (set_k_cpu (set_c_proc (Some run) (k_cpu s))
      (put_proc 2 family_grandchild
        (put_proc 1 family_child (put_proc 0 pa (set_k_pt (set_initproc (Some 0%nat) (k_pt s)) s))))).

Lemma family_procs run pa k q : proc_at (family_demo run pa) k = Some q ->
  (k = 0%nat /\ q = pa) \/ (k = 1%nat /\ q = family_child) \/ (k = 2%nat /\ q = family_grandchild) \/ q = zero_proc.
Proof.
  destruct k as [|[|[|k]]]; [by intros [= <-]; left|by intros [= <-]; right; left|by intros [= <-]; right; right; left|].
  intros H. do 3 right. change (replicate NPROC zero_proc !! S (S (S k)) = Some q) in H. by apply lookup_replicate in H as [-> _].
Qed.

