(* ===== verification/Syscall.v ===== *)
(** * System calls and traps: [kernel/syscall.c], [kernel/sysfile.c],
    [kernel/sysproc.c], [kernel/exec.c], [kernel/trap.c]

    Fetching and checking the arguments of a system call, the handlers, the
    dispatch, and the trap handler. *)

From S2P Require Import Prelude Types Strings Spinlock Mmu Kalloc X86vm Umem Vspace Sched.
From S2P Require Import Console Kbd Sleeplock Ide Bio Fs File Proc.

(** ** Arguments *)

(** The region that contains [size] bytes from [addr]. *)
Definition region_containing (vs : vspace) (addr size : Z) : option nat :=
  fst <$> list_find (fun r => vregioncontains r addr size <> 0) (take NREGIONS (regions vs)).

(** [fetchint] and [fetchint64_t]; [n] is the size of the type. *)
Definition fetch (n : nat) (addr : Z) : K (option Z) :=
  p <- my ;;
  match region_containing (p_vspace p) addr (Z.of_nat n) with
  | Some _ => bs <- copyin n addr ;; ret (Some (le_value bs))
  | None => ret None
  end.

Definition fetchint (addr : Z) : K (option Z) := o <- fetch 4 addr ;; ret (i32 <$> o).
Definition fetchint64_t (addr : Z) : K (option Z) := o <- fetch 8 addr ;; ret (i64 <$> o).

(** [for (s = *pp; s < ep; s++) if ( *s == 0) return s - *pp;] *)
Fixpoint strscan (fuel : nat) (s ep n : Z) : K (option Z) :=
  match fuel with
  | O => ret None
  | S fuel =>
      if s <? ep then
        c <- load_user s ;;
        if c =? 0 then ret (Some n) else strscan fuel (u64 (s + 1)) ep (n + 1)
      else ret None
  end.

Fixpoint fetchstr_regions (rs : list vregion) (addr : Z) : K Z :=
  match rs with
  | [] => ret (-1)
  | r :: rs =>
      if truthy (vregioncontains r addr 0) then
        o <- strscan (S (Z.to_nat (VRTOP r - addr))) addr (VRTOP r) 0 ;;
        match o with
        | Some n => ret (i32 n)
        | None => fetchstr_regions rs addr
        end
      else fetchstr_regions rs addr
  end.

(** The length of the string at [addr]; [*pp] is [addr]. *)
Definition fetchstr (addr : Z) : K Z :=
  p <- my ;;
  fetchstr_regions (take NREGIONS (regions (p_vspace p))) addr.

Definition fetcharg (n : Z) : K Z :=
  p <- my ;;
  let tf := p_tf p in
  if n =? 0 then ret (tf_rdi tf) else
  if n =? 1 then ret (tf_rsi tf) else
  if n =? 2 then ret (tf_rdx tf) else
  if n =? 3 then ret (tf_rcx tf) else
  if n =? 4 then ret (tf_r8 tf) else
  if n =? 5 then ret (tf_r9 tf) else
  panic "more than 6 arguments for a syscall".

(** [argint] and [argint64] store the argument and return 0. *)
Definition argint (n : Z) : K Z := v <- fetcharg n ;; ret (i32 v).
Definition argint64 (n : Z) : K Z := v <- fetcharg n ;; ret (i64 v).

(** [argptr]: the pointer, or [None] for -1. *)
Definition argptr (n size : Z) : K (option Z) :=
  i <- argint64 n ;;
  if size <? 0 then ret None else
  p <- my ;;
  match region_containing (p_vspace p) (u64 i) size with
  | Some _ => ret (Some (u64 i))
  | None => ret None
  end.

(** [argstr]: the address and the length of the string, or -1. *)
Definition argstr (n : Z) : K (Z * Z) :=
  addr <- argint64 n ;;
  len <- fetchstr (u64 addr) ;;
  ret (u64 addr, len).

(** ** Handlers *)

(** The test that every handler but [sys_fstat] makes of a descriptor. *)
Definition bad_fd (fd : Z) : bool := (fd <? 0) || (Z.of_nat NOFILE <=? fd).

Definition sys_dup : K Z :=
  fd <- argint 0 ;;
  if bad_fd fd then ret (-1) else file_dup fd.

Definition sys_read : K Z :=
  fd <- argint 0 ;;
  if bad_fd fd then ret (-1) else
  nr_bytes <- argint 2 ;;
  buf <- argptr 1 nr_bytes ;;
  match buf with
  | None => ret (-1)
  | Some buf => file_read fd buf nr_bytes
  end.

Definition sys_write : K Z :=
  fd <- argint 0 ;;
  if bad_fd fd then ret (-1) else
  nr_bytes <- argint 2 ;;
  buf <- argptr 1 nr_bytes ;;
  match buf with
  | None => ret (-1)
  | Some buf => file_write fd buf nr_bytes
  end.

Definition sys_close : K Z :=
  fd <- argint 0 ;;
  if bad_fd fd then ret (-1) else file_close fd.

Definition sizeof_stat : Z := 16.

Definition sys_fstat : K Z :=
  fd <- argint 0 ;;
  ptr <- argptr 1 sizeof_stat ;;
  match ptr with
  | None => ret (-1)
  | Some ptr => file_stat fd ptr
  end.

Definition sys_open : K Z :=
  let* (file_path, len) := argstr 0 in
  if len <? 0 then ret (-1) else
  file_mode <- argint 1 ;;
  if file_mode =? O_CREATE then ret (-1) else
  if negb (file_mode =? O_RDONLY) && negb (file_mode =? O_WRONLY) && negb (file_mode =? O_RDWR)
  then ret (-1) else
  path <- copyin (Z.to_nat len) file_path ;;
  file_open file_mode file_path path.

Definition sys_exec : K Z := ret (-1).
Definition exec : K Z := ret (-1).

Definition sys_pipe : K Z :=
  fd_arr <- argptr 0 8 ;;
  match fd_arr with
  | None => ret (-1)
  | Some fd_arr => pipe_open fd_arr
  end.

Definition sys_unlink : K Z := ret (-1).

Definition sys_crashn : K Z :=
  n <- argint 0 ;;
  upd_bc (set_crashn_enable 1) ;;
  upd_bc (set_crashn n) ;;
  ret 0.

Definition sys_fork : K Z := fork.

(** [sys_exit] does not return; if it did, its result would be undefined. *)
Definition sys_exit : K Z := exit ;; ret 0.

Definition sys_wait : K Z := wait.

Definition sys_kill : K Z := pid <- argint 0 ;; kill pid.

Definition sys_getpid : K Z := p <- my ;; ret (p_pid p).

Definition sys_sbrk : K Z := ret 0.

Definition upd_time (f : ktime -> ktime) : K unit := modify (fun s => set_k_time (f (k_time s)) s).

(** [while (ticks - ticks0 < n)], an unsigned comparison; [None] if killed. *)
Fixpoint sleep_loop (fuel : nat) (ticks0 n : Z) : K Z :=
  match fuel with
  | O => diverge
  | S fuel =>
      t <- gets k_time ;;
      if u32 (ticks t - ticks0) <? u32 n then
        p <- my ;;
        if truthy (killed p) then release ticks_lk ;; ret (-1) else
        sleep ch_ticks (sl_other ticks_lk) ;;
        sleep_loop fuel ticks0 n
      else release ticks_lk ;; ret 0
  end.

Definition sys_sleep : K Z :=
  n <- argint 0 ;;
  acquire ticks_lk ;;
  t <- gets k_time ;;
  w <- wakeups ;;
  sleep_loop w (ticks t) n.

Definition sys_uptime : K Z :=
  acquire ticks_lk ;;
  t <- gets k_time ;;
  release ticks_lk ;;
  ret (i32 (ticks t)).

Definition sizeof_sys_info : Z := 20.

Definition sys_sysinfo : K Z :=
  o <- argptr 0 sizeof_sys_info ;;
  match o with
  | None => ret (-1)
  | Some info =>
      s <- gets (fun s => s) ;;
      store_int info (pages_in_use (k_kmem s)) ;;
      store_int (u64 (info + 4)) (pages_in_swap (k_kmem s)) ;;
      store_int (u64 (info + 8)) (free_pages (k_kmem s)) ;;
      store_int (u64 (info + 12)) (num_page_faults (k_time s)) ;;
      store_int (u64 (info + 16)) (num_disk_reads (k_bc s)) ;;
      ret 0
  end.

(** ** Dispatch *)

(** [syscalls[num]]. *)
Definition syscalls (num : Z) : option (K Z) :=
  match num with
  | 1 => Some sys_fork
  | 2 => Some sys_exit
  | 3 => Some sys_wait
  | 4 => Some sys_pipe
  | 5 => Some sys_read
  | 6 => Some sys_kill
  | 7 => Some sys_exec
  | 8 => Some sys_fstat
  | 10 => Some sys_dup
  | 11 => Some sys_getpid
  | 12 => Some sys_sbrk
  | 13 => Some sys_sleep
  | 14 => Some sys_uptime
  | 15 => Some sys_open
  | 16 => Some sys_write
  | 18 => Some sys_unlink
  | 21 => Some sys_close
  | 22 => Some sys_sysinfo
  | 23 => Some sys_crashn
  | _ => None
  end.

(** [myproc()->tf->rax = r]. *)
Definition set_result (r : Z) : K unit :=
  i <- me ;;
  upd_proc i (fun p => set_p_tf (set_tf_rax (u64 r) (p_tf p)) p).

Definition syscall : K unit :=
  p <- my ;;
  let num := i32 (tf_rax (p_tf p)) in
  match syscalls num with
  | Some h => r <- h ;; set_result r
  | None =>
      cprintf (String.append "%d %s: unknown sys call %d" nl)
        [va_int (p_pid p); va_str (Some (cstr (p_name p))); va_int num] ;;
      set_result (-1)
  end.

(** ** Traps *)

(** The gates that [tvinit] sets are in [Asm.v]. *)
Definition tvinit : K unit := initlock ticks_lk.

(** [if (myproc() && myproc()->killed && (tf->cs & 3) == DPL_USER) exit();] *)
Definition exit_if_killed (tf : trap_frame) : K unit :=
  o <- myproc ;;
  match o with
  | None => ret tt
  | Some i =>
      p <- get_proc i ;;
      if truthy (killed p) && (Z.land (tf_cs tf) 3 =? DPL_USER) then exit else ret tt
  end.

(** The system-call part of [trap]. *)
Definition trap_syscall (tf : trap_frame) : K unit :=
  p <- my ;;
  (if truthy (killed p) then exit else ret tt) ;;
  i <- me ;;
  upd_proc i (set_p_tf tf) ;;
  syscall ;;
  p <- my ;;
  if truthy (killed p) then exit else ret tt.

(** The kernel of the model runs on one processor, the first, which is what
    [cpunum] answers, and the registers of its local APIC, which [lapiceoi]
    writes, are not part of [kstate]: the code of both is in [Apic]. *)
Definition cpu_number : Z := 0.
Definition eoi : K unit := ret tt.

(** The [switch] of [trap]; [addr] is what [rcr2] reads. *)
Definition trap_switch (tf : trap_frame) (addr : Z) : K unit :=
  let no := tf_trapno tf in
  if no =? TRAP_IRQ0 + IRQ_TIMER then
    (if cpu_number =? 0 then
       acquire ticks_lk ;;
       upd_time (fun t => set_ticks (u32 (ticks t + 1)) t) ;;
       wakeup ch_ticks ;;
       release ticks_lk
     else ret tt) ;;
    eoi
  else if no =? TRAP_IRQ0 + IRQ_IDE then ideintr ;; eoi
  else if no =? TRAP_IRQ0 + IRQ_IDE + 1 then ret tt
  else if no =? TRAP_IRQ0 + IRQ_KBD then kbdintr ;; eoi
  else if no =? TRAP_IRQ0 + IRQ_COM1 then uartintr ;; eoi
  else if (no =? TRAP_IRQ0 + 7) || (no =? TRAP_IRQ0 + IRQ_SPURIOUS) then
    cprintf (String.append "cpu%d: spurious interrupt at %x:%x" nl)
      [va_int cpu_number; va_int (tf_cs tf); va_int (tf_rip tf)] ;;
    eoi
  else
    o <- myproc ;;
    (if no =? TRAP_PF then
       upd_time (fun t => set_num_page_faults (i32 (num_page_faults t + 1)) t) ;;
       if bool_decide (o = None) || (Z.land (tf_cs tf) 3 =? 0) then
         cprintf (String.append "unexpected trap %d from cpu %d rip %lx (cr2=0x%x)" nl)
           [va_int no; va_int cpu_number; va_int (tf_rip tf); va_int addr] ;;
         panic "trap"
       else ret tt
     else ret tt) ;;
    i <- me ;;
    p <- get_proc i ;;
    cprintf (String.append "pid %d %s: trap %d err %d on cpu %d rip 0x%lx addr 0x%x--kill proc" nl)
      [va_int (p_pid p); va_str (Some (cstr (p_name p))); va_int no; va_int (tf_err tf); va_int cpu_number;
       va_int (tf_rip tf); va_int addr] ;;
    upd_proc i (set_killed 1).

Definition trap (tf : trap_frame) (addr : Z) : K unit :=
  if tf_trapno tf =? TRAP_SYSCALL then trap_syscall tf else
  trap_switch tf addr ;;
  exit_if_killed tf ;;
  o <- myproc ;;
  match o with
  | None => ret tt
  | Some i =>
      p <- get_proc i ;;
      if bool_decide (p_state p = RUNNING) && (tf_trapno tf =? TRAP_IRQ0 + IRQ_TIMER)
      then yield else ret tt
  end ;;
  exit_if_killed tf.

(** ** The pointer check *)

(** The registers that carry the arguments. *)
Definition arg_of (tf : trap_frame) (n : nat) : option Z :=
  [tf_rdi tf; tf_rsi tf; tf_rdx tf; tf_rcx tf; tf_r8 tf; tf_r9 tf] !! n.

(** A block of memory that lies in a region. *)
Definition region_holds (r : vregion) (a size : Z) : Prop :=
  VRBOT r <= a /\ a + size <= VRTOP r /\ ~ (size = 0 /\ a = VRTOP r).

Lemma vregioncontains_holds r a size :
  0 <= a -> 0 <= size -> a + size < 2 ^ 64 -> vregioncontains r a size <> 0 <-> region_holds r a size.
Proof.
  intros Ha Hs Hw. unfold vregioncontains, region_holds. assert (u64 (a + size) = a + size) as -> by word.
  destruct (Z.eqb_spec size 0), (Z.eqb_spec a (VRTOP r)), (Z.leb_spec (VRBOT r) a),
    (Z.leb_spec (a + size) (VRTOP r)); cbn; split; intros; split_and?; try lia; naive_solver.
Qed.

Lemma region_containing_spec vs a size :
  match region_containing vs a size with
  | Some _ => exists r, r ∈ take NREGIONS (regions vs) /\ vregioncontains r a size <> 0
  | None => forall r, r ∈ take NREGIONS (regions vs) -> vregioncontains r a size = 0
  end.
Proof.
  unfold region_containing. destruct (list_find _ _) as [[k r]|] eqn:E; cbn.
  - apply list_find_Some in E as (E & H & _). exists r. split; [by eapply list_elem_of_lookup_2|done].
  - apply list_find_None in E. rewrite Forall_forall in E. intros r Hr.
    destruct (decide (vregioncontains r a size = 0)); [done|]. by destruct (E r Hr).
Qed.

Section argptr.
Context (s : kstate) (i : nat) (p : proc) (n : nat) (a : Z).
Context (Hi : c_proc (k_cpu s) = Some i) (Hp : proc_at s i = Some p).
Context (Ha : arg_of (p_tf p) n = Some a) (Hr : 0 <= a < 2 ^ 64).

Lemma fetcharg_eq : fetcharg (Z.of_nat n) s = Done a s.
Proof.
  unfold fetcharg. mstep (my_eq s i p Hi Hp). unfold arg_of in Ha.
  by destruct n as [|[|[|[|[|[|k]]]]]]; cbn in Ha; simplify_eq.
Qed.

Lemma argptr_eq size :
  0 <= size ->
  argptr (Z.of_nat n) size s =
  Done (match region_containing (p_vspace p) a size with Some _ => Some a | None => None end) s.
Proof.
  intros Hs. unfold argptr, argint64. assert (u64 (i64 a) = a) as Eu by word.
  assert (E : (v <- fetcharg (Z.of_nat n) ;; ret (i64 v)) s = Done (i64 a) s) by (by mstep fetcharg_eq).
  mstep E. destruct (Z.ltb_spec size 0); [lia|]. mstep (my_eq s i p Hi Hp). rewrite Eu.
  by destruct (region_containing _ _ _).
Qed.
End argptr.

(** ** Properties *)

(** C26: The pointer check is exact where nothing wraps.  A pointer argument
    with a block of [size] bytes that ends below the top of the address space
    is accepted if and only if one region of the process holds the whole block,
    and the process is left as it was. *)
Theorem argptr_exact (s : kstate) (i : nat) (p : proc) (n : nat) (a size : Z)
    (Hi : c_proc (k_cpu s) = Some i) (Hp : proc_at s i = Some p)
    (Ha : arg_of (p_tf p) n = Some a) (H0 : 0 <= a) (Hs : 0 <= size) (Hw : a + size < 2 ^ 64) :
  exists o, argptr (Z.of_nat n) size s = Done o s /\ (o = Some a \/ o = None) /\
    (o = Some a <-> exists r, r ∈ take NREGIONS (regions (p_vspace p)) /\ region_holds r a size).
Proof.
  eexists. split; [apply (argptr_eq s i p n a Hi Hp Ha); lia|].
  pose proof (region_containing_spec (p_vspace p) a size) as H.
  destruct (region_containing _ _ _) as [k|]; (split; [auto|]).
  - destruct H as (r & Hr & Hc). split; [|done]. intros _. exists r. split; [done|]. by apply vregioncontains_holds.
  - split; [done|]. intros (r & Hr & Hh). apply vregioncontains_holds in Hh; [|lia..]. by destruct (Hh (H r Hr)).
Qed.

(** Process 0 has one region of a page at 4096, and calls with [a]. *)
Definition argptr_proc (a : Z) : proc :=
  set_p_tf (mk_trap_frame 0 0 0 0 0 0 a 0 0 0 0 0 0 0 0 0 0 0 0 0 0 0)
    (set_p_vspace (mk_vspace [mk_vregion VRDIR_UP 4096 4096 0] 0) zero_proc).

Definition argptr_demo (a : Z) : kstate :=
  put_proc 0 (argptr_proc a) (set_k_cpu (mk_cpu 0 false true (Some 0%nat) 0 0) (zero_state 0x200000 ∅)).

Lemma argptr_exact_witness :
  exists o, argptr 0 100 (argptr_demo 5000) = Done o (argptr_demo 5000) /\ (o = Some 5000 \/ o = None).
Proof.
  destruct (argptr_exact (argptr_demo 5000) 0 (argptr_proc 5000) 0 5000 100) as (o & E & Ho & _);
    [reflexivity..|lia|lia|lia|]. by exists o.
Defined.

(** C27: The pointer check accepts kernel memory.  The end of the block is
    computed modulo 2^64 and only compared with the top of a region: a pointer
    to any address above [KERNBASE], with a size that carries the end past the
    top of the address space, is accepted when the process has a region that
    starts below the kernel and whose top is not below the wrapped end.  So the
    first bytes of an accepted block need not belong to the process. *)
Theorem argptr_accepts_kernel (s : kstate) (i : nat) (p : proc) (n : nat) (a size : Z) (r : vregion)
    (Hi : c_proc (k_cpu s) = Some i) (Hp : proc_at s i = Some p) (Ha : arg_of (p_tf p) n = Some a)
    (Hk : KERNBASE < a < 2 ^ 64) (Hs : 2 ^ 64 - a <= size < 2 ^ 31)
    (Hr : r ∈ take NREGIONS (regions (p_vspace p))) (Hbot : VRBOT r <= KERNBASE) (Htop : a + size - 2 ^ 64 <= VRTOP r) :
  argptr (Z.of_nat n) size s = Done (Some a) s.
Proof.
  rewrite (argptr_eq s i p n a Hi Hp Ha) by (unfold KERNBASE in *; lia).
  pose proof (region_containing_spec (p_vspace p) a size) as H.
  destruct (region_containing _ _ _) as [k|]; [done|]. exfalso. specialize (H r Hr). revert H.
  unfold vregioncontains. assert (u64 (a + size) = a + size - 2 ^ 64) as -> by (unfold KERNBASE in *; word).
  destruct (Z.eqb_spec size 0); [lia|]. cbn. destruct (Z.leb_spec (VRBOT r) a); [|lia].
  by destruct (Z.leb_spec (a + size - 2 ^ 64) (VRTOP r)); [|lia].
Qed.

(** A pointer into the kernel's own text. *)
Lemma argptr_accepts_kernel_witness :
  argptr 0 (0x7FEFF000) (argptr_demo (KERNBASE + 0x101000)) =
  Done (Some (KERNBASE + 0x101000)) (argptr_demo (KERNBASE + 0x101000)).
Proof.
  apply (argptr_accepts_kernel (argptr_demo (KERNBASE + 0x101000)) 0 (argptr_proc (KERNBASE + 0x101000)) 0 _ _
    (mk_vregion VRDIR_UP 4096 4096 0)); try reflexivity; try (by vm_compute).
  by left.
Defined.
