(* ===== verification/Asm.v ===== *)
(** * The assembly of the trap path and of the context switch

    The gates and segments that [tvinit] ([kernel/trap.c]) and [seginit]
    ([kernel/x86_64vm.c]) set up, and the assembly that runs between the
    processor and the C code: [kernel/vectors.S], [kernel/trapasm.S],
    [kernel/swtch.S] and the system-call stubs of [user/lib/usys.S].  An
    instruction of these files is a constructor of [instr], a block of them up to
    a transfer of control is a list, and [run] executes it on the registers and
    the memory.  [deliver] is the processor's interrupt delivery in 64-bit mode.

    Memory is a map of aligned eight-byte words: an access to an unaligned or
    absent one gives [None], as does a gate or segment that does not admit the
    delivery.  The checks [iretq] makes of the selectors are left out. *)

From S2P Require Import Prelude Types Proc.

(** ** Segments and gates *)

Definition SEG_KCODE : Z := 1.
Definition SEG_KDATA : Z := 2.
Definition SEG_KCPU : Z := 3.
Definition SEG_TSS : Z := 6.
Definition NSEGS : nat := 8.
Definition STA_X : Z := 0x8.
Definition STA_W : Z := 0x2.
Definition STS_T64A : Z := 0x9.
Definition STS_IG64 : Z := 0xe.
Definition STS_TG64 : Z := 0xf.
Definition KERNEL_PL : Z := 0.
Definition USER_PL : Z := 3.
(** [TRAP_SYSCALL] as an index into the table of gates. *)
Definition TRAP_SYSCALL_gate : nat := Z.to_nat TRAP_SYSCALL.
Definition sizeof_tss : Z := 104.

Record segdesc := mk_segdesc {
  lim_15_0 : Z;
  base_15_0 : Z;
  base_23_16 : Z;
  sd_type : Z;
  sd_s : Z;
  sd_dpl : Z;
  sd_p : Z;
  lim_19_16 : Z;
  sd_avl : Z;
  sd_rsv1 : Z;
  sd_db : Z;
  sd_g : Z;
  base_31_24 : Z
}.

(** Storing into a bit field of [w] bits keeps the low [w] bits. *)
Definition field (w z : Z) : Z := z mod 2 ^ w.

Definition SEG64 (type base lim resv1 dpl : Z) : segdesc :=
  mk_segdesc (field 16 (Z.land (Z.shiftr lim 12) 0xffff)) (field 16 (Z.land (u64 base) 0xffff))
    (field 8 (Z.land (Z.shiftr (u64 base) 16) 0xff)) (field 4 type) 1 (field 2 dpl) 1
    (field 4 (Z.shiftr (u64 lim) 28)) 0 (field 1 resv1) 0 0 (field 8 (Z.shiftr (u64 base) 24)).

Definition SEG16 (type base lim dpl : Z) : segdesc :=
  mk_segdesc (field 16 (Z.land lim 0xffff)) (field 16 (Z.land (u32 base) 0xffff))
    (field 8 (Z.land (Z.shiftr (u32 base) 16) 0xff)) (field 4 type) 0 (field 2 dpl) 1
    (field 4 (Z.shiftr (u32 lim) 16)) 0 0 0 0 (field 8 (Z.shiftr (u32 base) 24)).

(** The eight bytes of a descriptor: the fields, the first one lowest. *)
Definition seg_word (d : segdesc) : Z :=
  lim_15_0 d + base_15_0 d * 2 ^ 16 + base_23_16 d * 2 ^ 32 + sd_type d * 2 ^ 40 + sd_s d * 2 ^ 44
  + sd_dpl d * 2 ^ 45 + sd_p d * 2 ^ 47 + lim_19_16 d * 2 ^ 48 + sd_avl d * 2 ^ 52 + sd_rsv1 d * 2 ^ 53
  + sd_db d * 2 ^ 54 + sd_g d * 2 ^ 55 + base_31_24 d * 2 ^ 56.

(** The table [seginit] fills, [cpu] being [&c->cpu] and [addr] [&c->ts]. *)
Definition seginit_gdt (cpu addr : Z) (gdt : list Z) : list Z :=
  <[Z.to_nat (SEG_TSS + 1) := Z.shiftr addr 32]>
  (<[Z.to_nat SEG_TSS := seg_word (SEG16 STS_T64A addr sizeof_tss DPL_USER)]>
  (<[Z.to_nat SEG_UDATA := seg_word (SEG64 STA_W 0 0 0 DPL_USER)]>
  (<[Z.to_nat SEG_UCODE := seg_word (SEG64 STA_X 0 0 1 DPL_USER)]>
  (<[Z.to_nat SEG_KCPU := seg_word (SEG64 STA_W cpu 8 0 0)]>
  (<[Z.to_nat SEG_KDATA := seg_word (SEG64 STA_W 0 0 0 0)]>
  (<[Z.to_nat SEG_KCODE := seg_word (SEG64 STA_X 0 0 1 0)]>
  (<[0%nat := 0]> gdt))))))).

(** The task state segment of a processor is its bytes, the first at offset 0 of
    [struct tss]; [seginit] stores one [uint] into it, at index 16. *)
Definition seginit_tss (tss : list Z) : list Z :=
  <[67%nat := 0]> (<[66%nat := 0x68]> (<[65%nat := 0]> (<[64%nat := 0]> tss))).

(** The field [iomb], the last two bytes of the structure. *)
Definition iomb (tss : list Z) : Z := nth 102 tss 0 + nth 103 tss 0 * 2 ^ 8.

(** Whether a program without I/O privilege may use a port: the bit of the
    port in the map [iomb] points to is clear, and both bytes read to find out
    are inside the segment. *)
Definition io_permitted (tss : list Z) (port : Z) : bool :=
  let b := iomb tss + port / 8 in
  (b + 1 <? sizeof_tss) && negb (Z.testbit (nth (Z.to_nat b) tss 0 + nth (Z.to_nat (b + 1)) tss 0 * 2 ^ 8) (port mod 8)).

Record gate_desc := mk_gate_desc {
  off_15_0 : Z;
  gd_sel : Z;
  gd_ist : Z;
  gd_rsv1 : Z;
  gd_type : Z;
  gd_s : Z;
  gd_dpl : Z;
  gd_p : Z;
  off_31_16 : Z;
  off_63_32 : Z;
  gd_rsv2 : Z
}.

Definition zero_gate : gate_desc := mk_gate_desc 0 0 0 0 0 0 0 0 0 0 0.

Definition set_gate_desc (istrap : bool) (sel ptr dpl : Z) : gate_desc :=
  let off := u64 ptr in
  mk_gate_desc (Z.land (Z.shiftr off 0) 0xffff) (u16 sel) 0 0 (if istrap then STS_TG64 else STS_IG64) 0
    (field 2 dpl) 1 (Z.land (Z.shiftr off 16) 0xffff) (Z.land (Z.shiftr off 32) 0xffffffff) 0.

(** The loop of [tvinit] and the gate it sets after it. *)
Definition tvinit_idt (vectors : nat -> Z) (idt : list gate_desc) : list gate_desc :=
  <[TRAP_SYSCALL_gate := set_gate_desc true (Z.shiftl SEG_KCODE 3) (vectors TRAP_SYSCALL_gate) USER_PL]>
  (foldl (fun idt i => <[i := set_gate_desc false (Z.shiftl SEG_KCODE 3) (vectors i) KERNEL_PL]> idt)
     idt (seq 0 256)).

(** ** The machine *)

Inductive reg := RAX | RBX | RCX | RDX | RBP | RSI | RDI | R8 | R9 | R10 | R11 | R12 | R13 | R14 | R15 | RSP.
#[global] Instance reg_eq_dec : EqDecision reg.
Proof. solve_decision. Defined.

Inductive label :=
| l_vector (i : nat) | l_alltraps | l_trapret | l_swtch | l_trap | l_forkret
| l_stub (n : Z) | l_stub_ret (n : Z).

Inductive instr :=
| push (r : reg)                 (** [push %r] *)
| pushi (z : Z)                  (** [push $z] *)
| pop (r : reg)                  (** [pop %r] *)
| mov (src dst : reg)            (** [mov %src, %dst] *)
| movl (z : Z) (dst : reg)       (** [movl $z, %dst], the upper half cleared *)
| store (src addr : reg)         (** [mov %src, (%addr)] *)
| addi (z : Z) (dst : reg)       (** [add $z, %dst] *)
| jmp (l : label)
| call (l next : label)          (** [call l], with the label of the code after it *)
| intn (i : nat) (next : label)  (** [int $i], with the label of the code after it *)
| retq
| iretq.

Record machine := mk_machine {
  x_gpr : reg -> Z;
  x_rip : Z;
  x_cs : Z;
  x_flags : Z;
  x_ss : Z;
  x_rsp0 : Z;
  x_gdt : list Z;
  x_idt : list gate_desc;
  x_mem : gmap Z Z
}.
Definition set_reg (r : reg) (v : Z) (m : machine) : machine :=
  mk_machine (fun r' => if decide (r' = r) then v else x_gpr m r') (x_rip m) (x_cs m) (x_flags m) (x_ss m)
    (x_rsp0 m) (x_gdt m) (x_idt m) (x_mem m).
Definition set_rip (v : Z) (m : machine) : machine :=
  mk_machine (x_gpr m) v (x_cs m) (x_flags m) (x_ss m) (x_rsp0 m) (x_gdt m) (x_idt m) (x_mem m).
Definition set_sys (cs flags ss : Z) (m : machine) : machine :=
  mk_machine (x_gpr m) (x_rip m) cs flags ss (x_rsp0 m) (x_gdt m) (x_idt m) (x_mem m).
Definition set_mem (v : gmap Z Z) (m : machine) : machine :=
  mk_machine (x_gpr m) (x_rip m) (x_cs m) (x_flags m) (x_ss m) (x_rsp0 m) (x_gdt m) (x_idt m) v.

Definition load8 (a : Z) (m : machine) : option Z := if a mod 8 =? 0 then x_mem m !! a else None.
Definition store8 (a v : Z) (m : machine) : option machine :=
  _ ← load8 a m; Some (set_mem (<[a := v]> (x_mem m)) m).
Definition push8 (v : Z) (m : machine) : option machine :=
  let a := u64 (x_gpr m RSP - 8) in
  set_reg RSP a <$> store8 a v m.
Definition pop8 (m : machine) : option (Z * machine) :=
  v ← load8 (x_gpr m RSP) m; Some (v, set_reg RSP (u64 (x_gpr m RSP + 8)) m).

(** ** Interrupt delivery *)

Definition gate_offset (g : gate_desc) : Z := off_15_0 g + off_31_16 g * 2 ^ 16 + off_63_32 g * 2 ^ 32.
Definition cpl (m : machine) : Z := Z.land (x_cs m) 3.

(** The descriptor a selector names, and its privilege level. *)
Definition descriptor (m : machine) (sel : Z) : option Z := x_gdt m !! Z.to_nat (Z.shiftr sel 3).
Definition dpl_of (w : Z) : Z := Z.land (Z.shiftr w 45) 3.

(** TF, NT, RF and VM are cleared at every delivery, IF by an interrupt gate. *)
Definition entry_flags (g : gate_desc) (flags : Z) : Z :=
  let f := Z.ldiff flags 0x34100 in
  if gd_type g =? STS_IG64 then Z.ldiff f 0x200 else f.

(** The stack of the handler: [rsp0] on a change of privilege, the current one
    otherwise, aligned to sixteen bytes. *)
Definition entry_stack (m : machine) (to : Z) : Z :=
  let sp := if to <? cpl m then x_rsp0 m else x_gpr m RSP in
  sp - sp mod 16.

Definition push_list (vs : list Z) (m : machine) : option machine := foldl (fun o v => o ≫= push8 v) (Some m) vs.

(** Delivery of vector [i] with error code [err], [soft] for an [int]
    instruction, which needs a gate its privilege level may use. *)
Definition deliver (soft : bool) (i : nat) (err : option Z) (m : machine) : option machine :=
  g ← x_idt m !! i;
  if negb (gd_p g =? 1) || (soft && (gd_dpl g <? cpl m)) then None else
  d ← descriptor m (gd_sel g);
  let to := dpl_of d in
  if cpl m <? to then None else
  m1 ← push_list ([x_ss m; x_gpr m RSP; x_flags m; x_cs m; x_rip m] ++ option_list err)
         (set_reg RSP (entry_stack m to) m);
  Some (set_rip (gate_offset g)
          (set_sys (gd_sel g) (entry_flags g (x_flags m)) (if to <? cpl m then 0 else x_ss m) m1)).

Section text.
  (** The addresses the linker gives the labels. *)
  Context (text : label -> Z).

(** A block of instructions ends at its transfer of control. *)
Fixpoint run (code : list instr) (m : machine) : option machine :=
  match code with
  | [] => None
  | push r :: code => m ← push8 (x_gpr m r) m; run code m
  | pushi z :: code => m ← push8 z m; run code m
  | pop r :: code => '(v, m) ← pop8 m; run code (set_reg r v m)
  | mov src dst :: code => run code (set_reg dst (x_gpr m src) m)
  | movl z dst :: code => run code (set_reg dst (u32 z) m)
  | store src addr :: code => m ← store8 (x_gpr m addr) (x_gpr m src) m; run code m
  | addi z dst :: code => run code (set_reg dst (u64 (x_gpr m dst + z)) m)
  | jmp l :: _ => Some (set_rip (text l) m)
  | call l next :: _ => set_rip (text l) <$> push8 (text next) m
  | intn i next :: _ => deliver true i None (set_rip (text next) m)
  | retq :: _ => '(a, m) ← pop8 m; Some (set_rip a m)
  | iretq :: _ =>
      '(ip, m) ← pop8 m; '(cs, m) ← pop8 m; '(fl, m) ← pop8 m; '(sp, m) ← pop8 m; '(ss, m) ← pop8 m;
      Some (set_reg RSP sp (set_rip ip (set_sys cs fl ss m)))
  end.

(** The exceptions for which the processor pushes an error code: double fault,
    invalid TSS, segment not present, stack, general protection, page fault and
    alignment check.  (Processors that have the exceptions 29 and 30 of
    [inc/trap.h] push one for them, too; they are not described here.) *)
Definition cpu_error_code (i : nat) : bool :=
  match i with 8 | 10 | 11 | 12 | 13 | 14 | 17 => true | _ => false end%nat.

(** The vectors of [kernel/vectors.S] that do not push a 0 in its place. *)
Definition error_vector (i : nat) : bool := bool_decide (i ∈ [8; 10; 11; 12; 13; 14; 17]%nat).

(** [kernel/vectors.S] *)
Definition vector (i : nat) : list instr :=
  (if error_vector i then [] else [pushi 0]) ++ [pushi (Z.of_nat i); jmp l_alltraps].

(** [kernel/trapasm.S]; the call returns to [trapret], which follows it. *)
Definition alltraps : list instr :=
  [push R15; push R14; push R13; push R12; push R11; push R10; push R9; push R8;
   push RDI; push RSI; push RBP; push RDX; push RCX; push RBX; push RAX;
   mov RSP RDI; call l_trap l_trapret].

Definition trapret : list instr :=
  [pop RAX; pop RBX; pop RCX; pop RDX; pop RBP; pop RSI; pop RDI; pop R8; pop R9; pop R10; pop R11;
   pop R12; pop R13; pop R14; pop R15; addi 16 RSP; iretq].

(** [kernel/swtch.S] *)
Definition swtch : list instr :=
  [push RBP; push RBX; push R11; push R12; push R13; push R14; push R15;
   store RSP RDI; mov RSI RSP;
   pop R15; pop R14; pop R13; pop R12; pop R11; pop RBX; pop RBP; retq].

(** The stub [SYSCALL(name)] of [user/lib/usys.S], [n] being [SYS_name]: up to the
    [int], and the [ret] after it. *)
Definition stub (n : Z) : list instr := [movl n RAX; intn TRAP_SYSCALL_gate (l_stub_ret n)].
Definition stub_ret : list instr := [retq].

(** The code at a label; [trap] and [forkret] are C. *)
Definition code (l : label) : list instr :=
  match l with
  | l_vector i => vector i
  | l_alltraps => alltraps
  | l_trapret => trapret
  | l_swtch => swtch
  | l_stub n => stub n
  | l_stub_ret _ => stub_ret
  | l_trap | l_forkret => []
  end.

(** Execution of the blocks at [ls], each of which must be where the
    instruction pointer is. *)
Fixpoint go (ls : list label) (m : machine) : option machine :=
  match ls with
  | [] => Some m
  | l :: ls => if x_rip m =? text l then m ← run (code l) m; go ls m else None
  end.
End text.

(** ** The stack *)

Fixpoint words_at (mem : gmap Z Z) (a : Z) (ws : list Z) : Prop :=
  match ws with
  | [] => True
  | w :: ws => mem !! a = Some w /\ words_at mem (a + 8) ws
  end.

(** The stack of [m] holds [ws], and [n] more words fit below them. *)
Record stack (m : machine) (n : nat) (ws : list Z) : Prop := mk_stack {
  st_align : x_gpr m RSP mod 8 = 0;
  st_low : 8 * Z.of_nat n <= x_gpr m RSP;
  st_high : x_gpr m RSP + 8 * Z.of_nat (length ws) < 2 ^ 64;
  st_room : forall k, 1 <= k <= Z.of_nat n -> is_Some (x_mem m !! (x_gpr m RSP - 8 * k));
  st_words : words_at (x_mem m) (x_gpr m RSP) ws
}.

Definition pushed (v : Z) (m : machine) : machine :=
  set_reg RSP (x_gpr m RSP - 8) (set_mem (<[x_gpr m RSP - 8 := v]> (x_mem m)) m).
Definition pushes (vs : list Z) (m : machine) : machine := foldl (fun m v => pushed v m) m vs.
Definition dropped (m : machine) : machine := set_reg RSP (x_gpr m RSP + 8) m.
Definition pops (rs : list reg) (vs : list Z) (m : machine) : machine :=
  foldl (fun m '(r, v) => set_reg r v (dropped m)) m (zip rs vs).

Lemma words_at_insert mem a b v ws : b < a -> words_at mem a ws -> words_at (<[b := v]> mem) a ws.
Proof.
  revert a. induction ws as [|w ws IH]; intros a Hb; [done|]. intros [H1 H2]. cbn. split; [|apply IH; [lia|done]].
  rewrite lookup_insert_ne by lia. done.
Qed.

Lemma words_at_app mem a ws1 ws2 :
  words_at mem a (ws1 ++ ws2) <-> words_at mem a ws1 /\ words_at mem (a + 8 * Z.of_nat (length ws1)) ws2.
Proof.
  revert a. induction ws1 as [|w ws IH]; intros a; cbn [app words_at length].
  - rewrite Z.mul_0_r, Z.add_0_r. tauto.
  - rewrite IH, Nat2Z.inj_succ. replace (a + 8 + 8 * Z.of_nat (length ws)) with (a + 8 * Z.succ (Z.of_nat (length ws))) by lia. tauto.
Qed.

Lemma stack_push v m n ws : stack m (S n) ws -> push8 v m = Some (pushed v m) /\ stack (pushed v m) n (v :: ws).
Proof.
  intros [Ha Hl Hh Hr Hw]. set (sp := x_gpr m RSP) in *. split.
  - unfold push8, store8, load8. fold sp. rewrite (u64_small (sp - 8)) by lia.
    replace ((sp - 8) mod 8 =? 0) with true by dlia. destruct (Hr 1) as [w E]; [lia|]. rewrite Z.mul_1_r in E. by rewrite E.
  - split; unfold pushed; cbn [x_gpr x_mem set_reg set_mem]; rewrite ?decide_True by done; fold sp; try lia.
    + dlia.
    + cbn [length]. lia.
    + intros k Hk. rewrite lookup_insert_ne by lia. replace (sp - 8 - 8 * k) with (sp - 8 * (k + 1)) by lia. apply Hr. lia.
    + cbn [words_at]. rewrite lookup_insert_eq. split; [done|]. apply words_at_insert; [lia|]. by replace (sp - 8 + 8) with sp by lia.
Qed.

Lemma stack_pop v m n ws : stack m n (v :: ws) -> pop8 m = Some (v, dropped m) /\ stack (dropped m) (S n) ws.
Proof.
  intros [Ha Hl Hh Hr [Hv Hw]]. set (sp := x_gpr m RSP) in *. cbn [length] in Hh. split.
  - unfold pop8, load8, dropped. fold sp. rewrite Ha, Z.eqb_refl, Hv. cbn. rewrite u64_small by lia. done.
  - split; unfold dropped; cbn [x_gpr x_mem set_reg]; rewrite ?decide_True by done; fold sp; try lia.
    + dlia.
    + intros k Hk. destruct (decide (k = 1)) as [->|Hk1]; [replace (sp + 8 - 8 * 1) with sp by lia; eauto|].
      replace (sp + 8 - 8 * k) with (sp - 8 * (k - 1)) by lia. apply Hr. lia.
    + done.
Qed.

Lemma stack_set_reg r v m n ws : r <> RSP -> stack m n ws -> stack (set_reg r v m) n ws.
Proof.
  intros Hr [Ha Hl Hh Hm Hw].
  assert (x_gpr (set_reg r v m) RSP = x_gpr m RSP) as E by (cbn; rewrite decide_False by congruence; done).
  by split; rewrite ?E.
Qed.

Lemma pushes_stack vs m n ws : stack m (length vs + n) ws ->
  push_list vs m = Some (pushes vs m) /\ stack (pushes vs m) n (rev vs ++ ws).
Proof.
  unfold push_list. revert m ws. induction vs as [|v vs IH]; intros m ws H; [done|]. cbn [foldl length Nat.add rev pushes] in *.
  destruct (stack_push v m _ ws H) as [E H']. cbn [mbind option_bind]. rewrite E.
  rewrite <- app_assoc. apply (IH _ (v :: ws) H').
Qed.

Lemma pushed_gpr v m r : r <> RSP -> x_gpr (pushed v m) r = x_gpr m r.
Proof. intros H. unfold pushed. cbn. by rewrite decide_False. Qed.

(** Pushing changes nothing but the stack. *)
Lemma pushes_rest vs m :
  (forall r, r <> RSP -> x_gpr (pushes vs m) r = x_gpr m r) /\
  x_gpr (pushes vs m) RSP = x_gpr m RSP - 8 * Z.of_nat (length vs) /\
  (forall a, a < x_gpr m RSP - 8 * Z.of_nat (length vs) \/ x_gpr m RSP <= a -> x_mem (pushes vs m) !! a = x_mem m !! a).
Proof.
  revert m. induction vs as [|v vs IH]; intros m; [cbn; repeat split; lia || done|]. cbn [pushes foldl length].
  destruct (IH (pushed v m)) as (Hg & Hs & Hm). unfold pushes in *.
  assert (x_gpr (pushed v m) RSP = x_gpr m RSP - 8) as E by (unfold pushed; cbn; by rewrite decide_True).
  rewrite E in Hs, Hm. repeat split.
  - intros r Hr. rewrite Hg by done. by apply pushed_gpr.
  - lia.
  - intros a Ha. rewrite Hm by lia. unfold pushed. cbn [x_mem set_reg set_mem]. rewrite lookup_insert_ne by lia. done.
Qed.

Lemma pushes_sys vs m : x_cs (pushes vs m) = x_cs m /\ x_flags (pushes vs m) = x_flags m.
Proof. revert m. induction vs as [|v vs IH]; intros m; [done|]. apply (IH (pushed v m)). Qed.

Section code_lemmas.
  Context (text : label -> Z).

Lemma run_push_list rs k m n ws : RSP ∉ rs -> stack m (length rs + n) ws ->
  run text (map push rs ++ k) m = run text k (pushes (map (x_gpr m) rs) m).
Proof.
  revert m ws. induction rs as [|r rs IH]; intros m ws Hn H; [done|]. apply not_elem_of_cons in Hn as [Hr Hn].
  cbn [map app run length Nat.add pushes foldl] in *. destruct (stack_push (x_gpr m r) m _ ws H) as [-> H'].
  cbn [mbind option_bind]. rewrite (IH _ _ Hn H'). f_equal. unfold pushes. f_equal. apply map_ext_in. intros r' Hin.
  apply pushed_gpr. intros ->. by apply Hn, list_elem_of_In.
Qed.

Lemma run_push rs k m n ws : RSP ∉ rs -> stack m (length rs + n) ws ->
  exists m1, run text (map push rs ++ k) m = run text k m1 /\ stack m1 n (rev (map (x_gpr m) rs) ++ ws) /\
    x_gpr m1 RSP = x_gpr m RSP - 8 * Z.of_nat (length rs) /\ (forall r, r <> RSP -> x_gpr m1 r = x_gpr m r) /\
    (forall a, a < x_gpr m RSP - 8 * Z.of_nat (length rs) \/ x_gpr m RSP <= a -> x_mem m1 !! a = x_mem m !! a) /\
    x_cs m1 = x_cs m /\ x_flags m1 = x_flags m.
Proof.
  intros Hn H. exists (pushes (map (x_gpr m) rs) m).
  destruct (pushes_rest (map (x_gpr m) rs) m) as (Hg & Hsp & Hm). destruct (pushes_sys (map (x_gpr m) rs) m) as [Hcs Hfl].
  rewrite length_map in Hsp, Hm. split; [by eapply run_push_list|]. split; [|done].
  apply pushes_stack. by rewrite length_map.
Qed.

Lemma run_pop rs vs k m n ws : RSP ∉ rs -> length rs = length vs -> stack m n (vs ++ ws) ->
  run text (map pop rs ++ k) m = run text k (pops rs vs m) /\ stack (pops rs vs m) (length rs + n) ws.
Proof.
  revert vs m n. induction rs as [|r rs IH]; intros [|v vs] m n Hn Hl H; try done. apply not_elem_of_cons in Hn as [Hr Hn].
  injection Hl as Hl. destruct (stack_pop v m n _ H) as [E H']. cbn [map app run]. rewrite E. cbn [mbind option_bind].
  destruct (IH vs _ (S n) Hn Hl (stack_set_reg r v _ _ _ (not_eq_sym Hr) H')) as [-> Hs]. split; [done|].
  by replace (length (r :: rs) + n)%nat with (length rs + S n)%nat by (cbn; lia).
Qed.

Lemma run_pushi z k m n ws : stack m (S n) ws -> run text (pushi z :: k) m = run text k (pushed z m).
Proof. intros H. cbn [run]. by destruct (stack_push z m n ws H) as [-> _]. Qed.

(** [ret] *)
Lemma run_ret m n a ws : stack m n (a :: ws) -> run text [retq] m = Some (set_rip a (dropped m)).
Proof. intros H. cbn [run]. by destruct (stack_pop a m n ws H) as [-> _]. Qed.

(** [iretq] pops the five words a delivery pushes. *)
Lemma run_iretq m n ip c fl sp s ws : stack m n (ip :: c :: fl :: sp :: s :: ws) ->
  run text [iretq] m =
    Some (set_reg RSP sp (set_rip ip (set_sys c fl s (dropped (dropped (dropped (dropped (dropped m)))))))).
Proof.
  intros H. cbn [run]. do 5 (let E := fresh in destruct (stack_pop _ _ _ _ H) as [E H']; rewrite E; clear E H; rename H' into H;
    cbn [mbind option_bind]). done.
Qed.

Lemma stack_same m m' n ws : x_gpr m' RSP = x_gpr m RSP -> x_mem m' = x_mem m -> stack m n ws -> stack m' n ws.
Proof. intros E1 E2 [Ha Hl Hh Hm Hw]. by split; rewrite ?E1, ?E2. Qed.

(** *** Trap frames *)

(** The words of a [struct trap_frame], in the order of its fields. *)
Definition trap_frame_words (tf : trap_frame) : list Z :=
  [tf_rax tf; tf_rbx tf; tf_rcx tf; tf_rdx tf; tf_rbp tf; tf_rsi tf; tf_rdi tf; tf_r8 tf; tf_r9 tf; tf_r10 tf;
   tf_r11 tf; tf_r12 tf; tf_r13 tf; tf_r14 tf; tf_r15 tf; tf_trapno tf; tf_err tf; tf_rip tf; tf_cs tf;
   tf_rflags tf; tf_rsp tf; tf_ss tf].

Definition frame_reg (tf : trap_frame) (r : reg) : Z :=
  match r with
  | RAX => tf_rax tf | RBX => tf_rbx tf | RCX => tf_rcx tf | RDX => tf_rdx tf | RBP => tf_rbp tf
  | RSI => tf_rsi tf | RDI => tf_rdi tf | R8 => tf_r8 tf | R9 => tf_r9 tf | R10 => tf_r10 tf
  | R11 => tf_r11 tf | R12 => tf_r12 tf | R13 => tf_r13 tf | R14 => tf_r14 tf | R15 => tf_r15 tf
  | RSP => tf_rsp tf
  end.

(** What is to be saved of the interrupted program. *)
Definition frame_of (m : machine) (i : nat) (err : option Z) : trap_frame :=
  mk_trap_frame (x_gpr m RAX) (x_gpr m RBX) (x_gpr m RCX) (x_gpr m RDX) (x_gpr m RBP) (x_gpr m RSI) (x_gpr m RDI)
    (x_gpr m R8) (x_gpr m R9) (x_gpr m R10) (x_gpr m R11) (x_gpr m R12) (x_gpr m R13) (x_gpr m R14) (x_gpr m R15)
    (Z.of_nat i) (default 0 err) (x_rip m) (x_cs m) (x_flags m) (x_gpr m RSP) (x_ss m).

(** [trap] is called with a pointer to the frame [tf] on the stack. *)
Definition called (m : machine) (tf : trap_frame) : Prop :=
  x_rip m = text l_trap /\ x_gpr m RDI = x_gpr m RSP + 8 /\ stack m 0 (text l_trapret :: trap_frame_words tf).

(** [trap] has returned, with the frame [tf] on the stack. *)
Definition returned (m : machine) (tf : trap_frame) : Prop :=
  x_rip m = text l_trapret /\ exists n, stack m n (trap_frame_words tf).

(** The processor continues with everything the frame says. *)
Definition resumes (tf : trap_frame) (m : machine) : Prop :=
  (forall r, x_gpr m r = frame_reg tf r) /\
  x_rip m = tf_rip tf /\ x_cs m = tf_cs tf /\ x_flags m = tf_rflags tf /\ x_ss m = tf_ss tf.

(** The end of [trapret]: the trap number and the error code are skipped. *)
Lemma run_skip_iretq m n no er ip c fl sp s ws : stack m n (no :: er :: ip :: c :: fl :: sp :: s :: ws) ->
  exists u, run text [addi 16 RSP; iretq] m = Some u /\
    (forall r, x_gpr u r = if decide (r = RSP) then sp else x_gpr m r) /\
    x_rip u = ip /\ x_cs u = c /\ x_flags u = fl /\ x_ss u = s /\ x_mem u = x_mem m.
Proof.
  intros H. pose proof (proj2 (stack_pop _ _ _ _ (proj2 (stack_pop _ _ _ _ H)))) as H2.
  change (run text (addi 16 RSP :: [iretq]) m) with (run text [iretq] (set_reg RSP (u64 (x_gpr m RSP + 16)) m)).
  rewrite u64_small by (destruct H as [_ Hl Hh _ _]; cbn [length] in Hh; lia).
  rewrite (run_iretq _ (S (S n)) ip c fl sp s ws).
  2:{ eapply stack_same; [| |exact H2]; cbn; rewrite ?decide_True by done; [lia|done]. }
  eexists. split; [done|]. split; [|done]. intros r. by destruct r.
Qed.

Lemma trapret_eq t tf : returned t tf -> exists u, go text [l_trapret] t = Some u /\ resumes tf u /\ x_mem u = x_mem t.
Proof.
  intros [Hip [n Hs]]. cbn [go]. rewrite Hip, Z.eqb_refl. cbn [code].
  set (rs := [RAX; RBX; RCX; RDX; RBP; RSI; RDI; R8; R9; R10; R11; R12; R13; R14; R15]).
  change trapret with (map pop rs ++ [addi 16 RSP; iretq]).
  destruct (run_pop rs (take 15 (trap_frame_words tf)) [addi 16 RSP; iretq] t n (drop 15 (trap_frame_words tf))) as [-> H];
    [by apply (bool_decide_unpack _)|done|done|].
  destruct (run_skip_iretq _ _ _ _ _ _ _ _ _ _ H) as (u & -> & Hg & Hi & Hc & Hf & Hss & Hm).
  exists u. split; [done|]. split; [|by rewrite Hm]. split; [|done]. intros r. rewrite Hg. by destruct r.
Qed.

(** *** The tables *)

Lemma foldl_insert_seq {A} (f : nat -> A) n l i : (i < length l)%nat ->
  foldl (fun l i => <[i := f i]> l) l (seq 0 n) !! i = if decide (i < n)%nat then Some (f i) else l !! i.
Proof.
  intros Hi. induction n as [|n IH]; [by rewrite decide_False by lia|]. rewrite seq_S, foldl_app. cbn [foldl Nat.add].
  assert (length (foldl (fun l i => <[i := f i]> l) l (seq 0 n)) = length l) as El.
  { clear. generalize (seq 0 n). intros ks. revert l. induction ks as [|k ks IH]; intros l; [done|]. cbn [foldl]. by rewrite IH, length_insert. }
  destruct (decide (i = n)) as [->|Hne].
  - rewrite decide_True by lia. apply list_lookup_insert_eq. lia.
  - rewrite list_lookup_insert_ne by congruence. rewrite IH. by repeat case_decide; try lia.
Qed.

(** Vector [i] has an interrupt gate for the kernel; only [TRAP_SYSCALL] has a
    trap gate a user program may use. *)
Lemma tvinit_idt_gate vectors idt i : (length idt = 256)%nat -> (i < 256)%nat ->
  tvinit_idt vectors idt !! i =
    Some (if decide (i = TRAP_SYSCALL_gate) then set_gate_desc true 8 (vectors i) USER_PL
          else set_gate_desc false 8 (vectors i) KERNEL_PL).
Proof.
  intros Hl Hi. unfold tvinit_idt. case_decide as E.
  - subst i. rewrite list_lookup_insert_eq; [done|].
    apply lookup_lt_is_Some. rewrite (foldl_insert_seq (fun i => set_gate_desc false (Z.shiftl SEG_KCODE 3) (vectors i) KERNEL_PL)) by lia. rewrite decide_True by lia. done.
  - rewrite list_lookup_insert_ne by congruence.
    rewrite (foldl_insert_seq (fun i => set_gate_desc false (Z.shiftl SEG_KCODE 3) (vectors i) KERNEL_PL)) by lia.
    by rewrite decide_True by lia.
Qed.

(** The three parts of the offset make up the address of the handler. *)
Lemma gate_offset_set b sel ptr dpl : gate_offset (set_gate_desc b sel ptr dpl) = u64 ptr.
Proof.
  unfold gate_offset, set_gate_desc. cbn [off_15_0 off_31_16 off_63_32]. set (o := u64 ptr).
  pose proof (u64_range ptr : 0 <= o < 2 ^ 64) as Ho.
  change 0xffff with (Z.ones 16). change 0xffffffff with (Z.ones 32).
  rewrite !Z.land_ones by done. rewrite !Z.shiftr_div_pow2 by done. dlia.
Qed.

(** [SEG_KCODE] is a code segment of the most privileged level. *)
Lemma seginit_gdt_kcode cpu addr gdt : (length gdt = NSEGS)%nat ->
  seginit_gdt cpu addr gdt !! 1%nat = Some (seg_word (SEG64 STA_X 0 0 1 0)).
Proof.
  intros Hl. unfold seginit_gdt. rewrite !(list_lookup_insert_ne _ _ 1) by done.
  apply list_lookup_insert_eq. rewrite length_insert, Hl. change (1 < 8)%nat. lia.
Qed.

(** The tables are those [tvinit] and [seginit] set up. *)
Definition tables (m : machine) : Prop :=
  (exists idt, (length idt = 256)%nat /\ x_idt m = tvinit_idt (fun i => text (l_vector i)) idt) /\
  (exists gdt cpu addr, (length gdt = NSEGS)%nat /\ x_gdt m = seginit_gdt cpu addr gdt).

(** The kernel's stack has room for the frame and the return address. *)
Definition entry_room (m : machine) : Prop := stack (set_reg RSP (entry_stack m 0) m) 23 [].

Lemma cpl_range m : 0 <= cpl m <= 3.
Proof. unfold cpl. change 3 with (Z.ones 2) at 1 2. rewrite Z.land_ones by done. dlia. Qed.

(** Delivery through the tables starts vector [i] on the kernel's stack. *)
Lemma deliver_eq soft i err m :
  tables m -> 0 <= text (l_vector i) < 2 ^ 64 -> (i < 256)%nat -> (soft = true -> i = TRAP_SYSCALL_gate \/ cpl m = 0) ->
  entry_room m ->
  exists fl ss, deliver soft i err m = Some (set_rip (text (l_vector i)) (set_sys 8 fl ss
    (pushes ([x_ss m; x_gpr m RSP; x_flags m; x_cs m; x_rip m] ++ option_list err) (set_reg RSP (entry_stack m 0) m)))) /\
    Z.testbit fl 9 = (bool_decide (i = TRAP_SYSCALL_gate) && Z.testbit (x_flags m) 9).
Proof.
  intros [(idt & Hli & Hi) (gdt & cp & ad & Hlg & Hg)] Ht Hi256 Hs Hr. unfold deliver.
  rewrite Hi, (tvinit_idt_gate _ _ _ Hli Hi256). cbn [mbind option_bind].
  set (g := if decide (i = TRAP_SYSCALL_gate) then _ else _).
  assert (gd_p g = 1 /\ gd_sel g = 8 /\ gate_offset g = text (l_vector i)) as (-> & -> & ->).
  { unfold g. case_decide; repeat split; rewrite gate_offset_set; by apply u64_small. }
  pose proof (cpl_range m) as Hc.
  replace (negb (1 =? 1) || (soft && (gd_dpl g <? cpl m))) with false.
  2:{ destruct soft; [|done]. cbn [negb orb andb Z.eqb Pos.eqb]. symmetry. apply Z.ltb_ge. unfold g.
      destruct (Hs eq_refl) as [->|E]; [rewrite decide_True by done; change (cpl m <= 3); lia|rewrite E; by case_decide]. }
  unfold descriptor. change (Z.to_nat (Z.shiftr 8 3)) with 1%nat. rewrite Hg, seginit_gdt_kcode by done. cbn [mbind option_bind].
  change (dpl_of (seg_word (SEG64 STA_X 0 0 1 0))) with 0. rewrite (proj2 (Z.ltb_ge (cpl m) 0)) by lia.
  set (vs := _ ++ option_list err). destruct (pushes_stack vs (set_reg RSP (entry_stack m 0) m) (23 - length vs) []) as [-> _].
  { replace (length vs + (23 - length vs))%nat with 23%nat; [done|]. by destruct err. }
  cbn [mbind option_bind]. do 2 eexists. split; [done|].
  unfold entry_flags, g. case_decide as E; cbn [gd_type set_gate_desc Z.eqb Pos.eqb STS_IG64 STS_TG64].
  - rewrite bool_decide_true by done. rewrite Z.ldiff_spec. by destruct (Z.testbit (x_flags m) 9).
  - rewrite bool_decide_false by done. rewrite !Z.ldiff_spec. by rewrite andb_false_r.
Qed.

(** A vector pushes what the processor did not, and the number. *)
Lemma run_vector i m n ws : stack m (length (if error_vector i then [] else [0]) + S n) ws ->
  run text (vector i) m =
    Some (set_rip (text l_alltraps) (pushes ((if error_vector i then [] else [0]) ++ [Z.of_nat i]) m)).
Proof.
  unfold vector. intros H. destruct (error_vector i); cbn [app length Nat.add] in *.
  - by rewrite (run_pushi _ _ _ _ _ H).
  - rewrite (run_pushi _ _ _ _ _ H). by rewrite (run_pushi _ _ _ _ _ (proj2 (stack_push _ _ _ _ H))).
Qed.

(** The registers [alltraps] saves, in the order of its pushes. *)
Definition saved_regs : list reg := [R15; R14; R13; R12; R11; R10; R9; R8; RDI; RSI; RBP; RDX; RCX; RBX; RAX].

Lemma run_call_trap m n ws : stack m (S n) ws ->
  exists u, run text [mov RSP RDI; call l_trap l_trapret] m = Some u /\ x_rip u = text l_trap /\ x_gpr u RDI = x_gpr u RSP + 8 /\
    x_cs u = x_cs m /\ x_flags u = x_flags m /\ stack u n (text l_trapret :: ws) /\
    (forall a, a <> x_gpr m RSP - 8 -> x_mem u !! a = x_mem m !! a).
Proof.
  intros H. set (m2 := set_reg RDI (x_gpr m RSP) m).
  apply (stack_set_reg RDI (x_gpr m RSP)) in H; [|done]. fold m2 in H. cbn [run]. fold m2.
  destruct (stack_push (text l_trapret) _ _ _ H) as [-> H2]. eexists. split; [done|]. split; [done|].
  split; [change (x_gpr m RSP = x_gpr m RSP - 8 + 8); lia|]. split; [done|]. split; [done|].
  split; [apply (stack_same (pushed (text l_trapret) m2)); [reflexivity|reflexivity|exact H2]|].
  intros a Ha. change (<[x_gpr m RSP - 8 := text l_trapret]> (x_mem m) !! a = x_mem m !! a). by rewrite lookup_insert_ne.
Qed.

Lemma run_alltraps m n ws : stack m (16 + n) ws ->
  exists u, run text alltraps m = Some u /\ x_rip u = text l_trap /\ x_gpr u RDI = x_gpr u RSP + 8 /\
    x_cs u = x_cs m /\ x_flags u = x_flags m /\ stack u n (text l_trapret :: rev (map (x_gpr m) saved_regs) ++ ws) /\
    (forall a, a < x_gpr m RSP - 128 \/ x_gpr m RSP <= a -> x_mem u !! a = x_mem m !! a).
Proof.
  intros H. change alltraps with (map push saved_regs ++ [mov RSP RDI; call l_trap l_trapret]).
  destruct (run_push saved_regs [mov RSP RDI; call l_trap l_trapret] m (S n) ws) as (m1 & -> & H1 & Hsp & _ & Hm & <- & <-);
    [by apply (bool_decide_unpack _)|done|].
  destruct (run_call_trap m1 n _ H1) as (u & Eu & Hip & Hrdi & Hcs & Hfl & Hst & Hmu). exists u.
  do 6 (split; [done|]). change (length saved_regs) with 15%nat in *. intros a Ha. rewrite Hmu by lia. apply Hm. lia.
Qed.

(** [vectors.S] and the processor agree. *)
Lemma error_vector_eq i : (i < 256)%nat -> error_vector i = cpu_error_code i.
Proof. intros Hi. do 18 (destruct i as [|i]; [done|]). done. Qed.

(** The processor and the vector together push seven words. *)
Lemma vector_words i err (w1 w2 w3 w4 w5 : Z) : (is_Some err <-> error_vector i = true) ->
  (length ([w1; w2; w3; w4; w5] ++ option_list err) + length ((if error_vector i then [] else [0%Z]) ++ [Z.of_nat i]))%nat = 7%nat.
Proof.
  intros He. destruct (error_vector i), err as [e|]; [done| | |done].
  - by destruct (proj2 He eq_refl).
  - by discriminate (proj1 He (mk_is_Some _ _ eq_refl)).
Qed.

(** The words the three of them push are the frame. *)
Lemma frame_words i err m m2 : (is_Some err <-> error_vector i = true) -> (forall r, r <> RSP -> x_gpr m2 r = x_gpr m r) ->
  rev (map (x_gpr m2) saved_regs) ++ rev ((if error_vector i then [] else [0%Z]) ++ [Z.of_nat i]) ++
    rev ([x_ss m; x_gpr m RSP; x_flags m; x_cs m; x_rip m] ++ option_list err) ++ []
  = trap_frame_words (frame_of m i err).
Proof.
  intros He Hg. cbn [saved_regs map rev app]. rewrite !Hg by done.
  destruct (error_vector i), err as [e|]; [done| | |done].
  - by destruct (proj2 He eq_refl).
  - by discriminate (proj1 He (mk_is_Some _ _ eq_refl)).
Qed.

(** From the delivery to the call of [trap]. *)
Lemma entry_eq soft i err m :
  tables m -> 0 <= text (l_vector i) < 2 ^ 64 -> (i < 256)%nat -> (soft = true -> i = TRAP_SYSCALL_gate \/ cpl m = 0) ->
  (is_Some err <-> cpu_error_code i = true) -> entry_room m ->
  exists m1 u, deliver soft i err m = Some m1 /\ go text [l_vector i; l_alltraps] m1 = Some u /\ called u (frame_of m i err) /\
    cpl u = 0 /\ Z.testbit (x_flags u) 9 = (bool_decide (i = TRAP_SYSCALL_gate) && Z.testbit (x_flags m) 9) /\
    (forall a, a < entry_stack m 0 - 184 \/ entry_stack m 0 <= a -> x_mem u !! a = x_mem m !! a).
Proof.
  intros Htab Ht Hi Hs He Hroom. rewrite <- (error_vector_eq i Hi) in He. destruct (deliver_eq soft i err m Htab Ht Hi Hs Hroom) as (fl & ss & Ed & Hfl).
  set (hw := [x_ss m; x_gpr m RSP; x_flags m; x_cs m; x_rip m] ++ option_list err) in *.
  set (sw := (if error_vector i then [] else [0]) ++ [Z.of_nat i]).
  assert (length hw + length sw = 7)%nat as Hlen.
  { by apply vector_words. }
  set (m0 := set_reg RSP (entry_stack m 0) m) in *. set (m1 := set_rip _ _) in Ed.
  destruct (pushes_stack hw m0 (length sw + 16) []) as [_ H1]; [by replace (length hw + (length sw + 16))%nat with 23%nat by lia|].
  assert (stack m1 (length sw + 16) (rev hw ++ [])) as H1' by (by apply (stack_same (pushes hw m0))).
  destruct (pushes_stack sw m1 16 _ H1') as [_ H2].
  set (m2 := set_rip (text l_alltraps) (pushes sw m1)).
  assert (stack m2 16 (rev sw ++ rev hw ++ [])) as H2' by (by apply (stack_same (pushes sw m1))).
  destruct (run_alltraps m2 0 _ H2') as (u & Eu & Hip & Hrdi & Hcs & Hflu & H3 & Hm).
  exists m1, u. split; [done|]. split.
  { cbn [go]. change (x_rip m1) with (text (l_vector i)). rewrite Z.eqb_refl. cbn [code].
    rewrite (run_vector i m1 16 (rev hw ++ [])); [|unfold sw in H1'; rewrite length_app in H1'; by rewrite <- Nat.add_assoc in H1'].
    cbn [mbind option_bind]. fold sw. fold m2. change (x_rip m2) with (text l_alltraps). rewrite Z.eqb_refl. cbn [code]. by rewrite Eu. }
  destruct (pushes_rest hw m0) as (Hg1 & Hs1 & Hm1). destruct (pushes_rest sw m1) as (Hg2 & Hs2 & Hm2).
  assert (forall r, r <> RSP -> x_gpr m2 r = x_gpr m r) as Hg.
  { intros r Hr. change (x_gpr (pushes sw m1) r = x_gpr m r). rewrite Hg2 by done.
    change (x_gpr (pushes hw m0) r = x_gpr m r). rewrite Hg1 by done. unfold m0. cbn. by rewrite decide_False. }
  split; [split; [done|split; [done|]]; unfold sw, hw in H3; by rewrite (frame_words i err m m2 He Hg) in H3|].
  destruct (pushes_sys sw m1) as [Hc2 Hf2].
  split; [unfold cpl; rewrite Hcs; change (Z.land (x_cs (pushes sw m1)) 3 = 0); by rewrite Hc2|].
  split; [rewrite Hflu; change (x_flags m2) with (x_flags (pushes sw m1)); rewrite Hf2; exact Hfl|].
  change (x_gpr m2 RSP) with (x_gpr (pushes sw m1) RSP) in Hm. change (x_gpr m1 RSP) with (x_gpr (pushes hw m0) RSP) in *.
  change (x_gpr m0 RSP) with (entry_stack m 0) in *.
  intros a Ha. rewrite Hm by lia. change (x_mem (pushes sw m1) !! a = x_mem m !! a). rewrite Hm2 by lia.
  change (x_mem (pushes hw m0) !! a = x_mem m !! a). by rewrite Hm1 by lia.
Qed.

(** *** Context switches *)

(** The words of a [struct context], in the order of its fields, [ip] last. *)
Definition callee_regs : list reg := [R15; R14; R13; R12; R11; RBX; RBP].
Definition context_words (g : reg -> Z) (ip : Z) : list Z := map g callee_regs ++ [ip].

(** [swtch(&old, new)] is called: it will return to [ip], the context [new] has
    the registers [g] and resumes at [ip'], and neither that context nor the
    pointer [old] lies where [swtch] pushes. *)
Record switching (m : machine) (ip : Z) (g : reg -> Z) (ip' : Z) (ws : list Z) : Prop := mk_switching {
  sw_rip : x_rip m = text l_swtch;
  sw_stack : stack m 7 [ip];
  sw_old : x_gpr m RDI mod 8 = 0 /\ is_Some (x_mem m !! x_gpr m RDI);
  sw_old_apart : x_gpr m RDI < x_gpr m RSP - 56 \/ x_gpr m RSP + 8 <= x_gpr m RDI;
  sw_new : stack (set_reg RSP (x_gpr m RSI) m) 0 (context_words g ip' ++ ws);
  sw_new_apart : x_gpr m RSI + 8 * Z.of_nat (8 + length ws) <= x_gpr m RSP - 56 \/ x_gpr m RSP <= x_gpr m RSI;
  sw_new_old : x_gpr m RDI < x_gpr m RSI \/ x_gpr m RSI + 8 * Z.of_nat (8 + length ws) <= x_gpr m RDI
}.

(** The processor is in the context [g], at [ip']; the one it left is saved,
    and [old] points to it. *)
Definition switched (m u : machine) (ip : Z) (g : reg -> Z) (ip' : Z) (ws : list Z) : Prop :=
  x_rip u = ip' /\ (forall r, r ∈ callee_regs -> x_gpr u r = g r) /\ x_gpr u RSP = x_gpr m RSI + 64 /\ stack u 8 ws /\
  x_mem u !! x_gpr m RDI = Some (x_gpr m RSP - 56) /\
  words_at (x_mem u) (x_gpr m RSP - 56) (context_words (x_gpr m) ip).

Lemma words_at_agree mem mem' a ws :
  (forall b, a <= b < a + 8 * Z.of_nat (length ws) -> mem' !! b = mem !! b) -> words_at mem a ws -> words_at mem' a ws.
Proof.
  revert a. induction ws as [|w ws IH]; intros a H; [done|]. intros [H1 H2]. cbn [length] in H. split.
  - rewrite H by lia. done.
  - apply IH; [intros b Hb; apply H; lia|done].
Qed.

Lemma stack_top m a n ws mem' : stack (set_reg RSP a m) n ws ->
  (forall b, a - 8 * Z.of_nat n <= b < a + 8 * Z.of_nat (length ws) -> mem' !! b = x_mem m !! b) ->
  forall m', x_mem m' = mem' -> stack (set_reg RSP a m') n ws.
Proof.
  intros [Ha Hl Hh Hr Hw] Hag m' Hm'. cbn [x_gpr set_reg x_mem] in *. rewrite decide_True in * by done.
  split; cbn [x_gpr set_reg x_mem]; rewrite ?decide_True by done; try done; rewrite Hm'.
  - intros k Hk. rewrite Hag by lia. by apply Hr.
  - eapply words_at_agree; [|exact Hw]. intros b Hb. apply Hag. lia.
Qed.

(** The second half of [swtch]: onto the new stack and into its context. *)
Lemma run_restore m g ip' ws : stack (set_reg RSP (x_gpr m RSI) m) 0 (context_words g ip' ++ ws) ->
  exists u, run text (mov RSI RSP :: map pop callee_regs ++ [retq]) m = Some u /\ x_rip u = ip' /\
    (forall r, r ∈ callee_regs -> x_gpr u r = g r) /\ x_gpr u RSP = x_gpr m RSI + 64 /\ stack u 8 ws /\ x_mem u = x_mem m.
Proof.
  intros H. change (run text (mov RSI RSP :: ?k) m) with (run text k (set_reg RSP (x_gpr m RSI) m)).
  unfold context_words in H. rewrite <- app_assoc in H.
  destruct (run_pop callee_regs (map g callee_regs) [retq] _ _ _ ltac:(by apply (bool_decide_unpack _)) eq_refl H) as [-> H1].
  set (m0 := set_reg RSP (x_gpr m RSI) m) in *. set (m1 := pops _ _ _) in *.
  rewrite (run_ret m1 _ _ _ H1). pose proof (proj2 (stack_pop _ _ _ _ H1)) as H2.
  assert (x_gpr m1 RSP = x_gpr m RSI + 56) as Esp.
  { change (x_gpr m RSI + 8 + 8 + 8 + 8 + 8 + 8 + 8 = x_gpr m RSI + 56). lia. }
  eexists. split; [done|]. split; [done|]. split.
  { intros r Hr. unfold callee_regs in Hr. rewrite !elem_of_cons in Hr. destruct_or! Hr; subst; [reflexivity..|set_solver]. }
  split; [change (x_gpr m1 RSP + 8 = x_gpr m RSI + 64); lia|]. split; [|done].
  by apply (stack_same (dropped m1)).
Qed.

Lemma swtch_eq m ip g ip' ws : switching m ip g ip' ws -> exists u, go text [l_swtch] m = Some u /\ switched m u ip g ip' ws.
Proof.
  intros [Hip Hs [Hoa [old Ho]] Hoap Hn Hnap Hno]. cbn [go]. rewrite Hip, Z.eqb_refl. cbn [code].
  set (k := mov RSI RSP :: map pop callee_regs ++ [retq]).
  change swtch with (map push (rev callee_regs) ++ store RSP RDI :: k).
  destruct (run_push (rev callee_regs) (store RSP RDI :: k) m 0 [ip]) as (m1 & -> & H1 & Hsp & Hg & Hm & _);
    [by apply (bool_decide_unpack _)|done|]. change (8 * Z.of_nat (length (rev callee_regs))) with 56 in *.
  change (run text (store RSP RDI :: k) m1) with (store8 (x_gpr m1 RDI) (x_gpr m1 RSP) m1 ≫= run text k). unfold store8, load8. rewrite (Hg RDI), Hoa, Z.eqb_refl, Hm, Ho by (done || lia).
  cbn [mbind option_bind]. set (m2 := set_mem _ m1). unfold k.
  assert (forall b, b < x_gpr m RSP - 56 \/ x_gpr m RSP <= b -> b <> x_gpr m RDI -> x_mem m2 !! b = x_mem m !! b) as Hm2.
  { intros b Hb Hne. unfold m2. cbn [x_mem set_mem]. rewrite lookup_insert_ne by done. by apply Hm. }
  destruct (run_restore m2 g ip' ws) as (u & -> & Hu & Hgu & Hspu & Hsu & Hmu).
  { change (x_gpr m2 RSI) with (x_gpr m1 RSI). rewrite Hg by done. eapply (stack_top m _ _ _ (x_mem m2) Hn); [|done].
    intros b Hb. unfold context_words in Hb. rewrite !length_app, length_map in Hb. cbn [length callee_regs Nat.add Z.of_nat] in Hb.
    apply Hm2; lia. }
  change (x_gpr m2 RSI) with (x_gpr m1 RSI) in Hspu. rewrite Hg in Hspu by done.
  exists u. split; [done|]. do 4 (split; [done|]). rewrite Hmu. unfold m2. cbn [x_mem set_mem]. split; [by rewrite lookup_insert_eq, Hsp|].
  pose proof (st_words _ _ _ H1) as Hw. rewrite Hsp in Hw. eapply words_at_agree; [|exact Hw].
  intros b Hb. change (length (context_words (x_gpr m) ip)) with 8%nat in Hb. apply lookup_insert_ne. lia.
Qed.
End code_lemmas.

(** ** Entering and leaving the kernel *)

(** [w] runs on where [m] was. *)
Definition same_program (m w : machine) : Prop :=
  (forall r, x_gpr w r = x_gpr m r) /\ x_rip w = x_rip m /\ x_cs w = x_cs m /\ x_flags w = x_flags m /\ x_ss w = x_ss m.

Lemma resumes_frame_of m i err w : resumes (frame_of m i err) w -> same_program m w.
Proof. intros [Hg H]. split; [|done]. intros r. rewrite Hg. by destruct r. Qed.

(** C35: Entering the kernel and leaving it again is invisible to the interrupted
    program.  Whatever the vector, the processor, the vector's code and
    [alltraps] leave on the kernel's stack exactly a [struct trap_frame] with the
    interrupted registers, the vector's number and the error code (0 where the
    processor has none), call [trap] with its address in kernel mode, with
    interrupts enabled only for a system call that came with them enabled, and
    touch no other memory.  When [trap] returns, [trapret] loads everything from
    the frame it finds: the same program continues if [trap] left the frame alone. *)
Theorem trap_roundtrip (text : label -> Z) (m : machine) (soft : bool) (i : nat) (err : option Z)
  (Htab : tables text m) (Ht : 0 <= text (l_vector i) < 2 ^ 64) (Hi : (i < 256)%nat)
  (Hs : soft = true -> i = TRAP_SYSCALL_gate \/ cpl m = 0) (He : is_Some err <-> cpu_error_code i = true) (Hr : entry_room m) :
  exists m1 u, deliver soft i err m = Some m1 /\ go text [l_vector i; l_alltraps] m1 = Some u /\
    called text u (frame_of m i err) /\ cpl u = 0 /\
    Z.testbit (x_flags u) 9 = (bool_decide (i = TRAP_SYSCALL_gate) && Z.testbit (x_flags m) 9) /\
    (forall a, a < entry_stack m 0 - 184 \/ entry_stack m 0 <= a -> x_mem u !! a = x_mem m !! a) /\
    forall t tf, returned text t tf ->
      exists w, go text [l_trapret] t = Some w /\ resumes tf w /\ x_mem w = x_mem t /\
                (tf = frame_of m i err -> same_program m w).
Proof.
  destruct (entry_eq text soft i err m Htab Ht Hi Hs He Hr) as (m1 & u & E1 & E2 & Hc & Hp & Hf & Hm).
  exists m1, u. do 6 (split; [done|]). intros t tf H. destruct (trapret_eq text t tf H) as (w & Ew & Hw & Hmw).
  exists w. do 3 (split; [done|]). intros ->. by apply resumes_frame_of in Hw.
Qed.

(** C37: Whoever calls [swtch] comes back as if from an ordinary call.  [swtch]
    leaves the processor in the new context, on its stack, and the old context
    complete in memory with [*old] pointing to it; when anyone later switches to
    that context, the first call returns to its caller, with the callee-saved
    registers and the stack pointer it had. *)
Theorem swtch_roundtrip (text : label -> Z) (m : machine) (ip : Z) (g : reg -> Z) (ip' : Z) (ws : list Z)
  (H : switching text m ip g ip' ws) :
  exists u, go text [l_swtch] m = Some u /\ switched m u ip g ip' ws /\
    forall m2 ip2 ws2, x_mem u !! x_gpr m RDI = Some (x_gpr m2 RSI) -> switching text m2 ip2 (x_gpr m) ip ws2 ->
      exists w, go text [l_swtch] m2 = Some w /\ x_rip w = ip /\
        (forall r, r ∈ callee_regs -> x_gpr w r = x_gpr m r) /\ x_gpr w RSP = x_gpr m RSP + 8.
Proof.
  destruct (swtch_eq text m ip g ip' ws H) as (u & E & Hu). exists u. do 2 (split; [done|]). intros m2 ip2 ws2 Hp H2.
  destruct (swtch_eq text m2 ip2 (x_gpr m) ip ws2 H2) as (w & Ew & Hip & Hg & Hsp & _).
  exists w. do 3 (split; [done|]). destruct Hu as (_ & _ & _ & _ & Hold & _). rewrite Hold in Hp. injection Hp as Hp. lia.
Qed.

(** A new process begins where its trap frame says: [allocproc] leaves below the
    frame the address of [trapret] and a context that resumes in [forkret], so
    the switch to it enters [forkret], whose return enters [trapret]. *)
Theorem new_process_starts (text : label -> Z) (m : machine) (ip : Z) (tf : trap_frame)
  (H : switching text m ip (fun _ => 0) (text l_forkret) (text l_trapret :: trap_frame_words tf)) :
  exists u, go text [l_swtch] m = Some u /\ x_rip u = text l_forkret /\
    forall t, x_gpr t RSP = x_gpr u RSP -> x_mem t = x_mem u ->
      exists v w, run text [retq] t = Some v /\ go text [l_trapret] v = Some w /\ resumes tf w.
Proof.
  destruct (swtch_eq text _ _ _ _ _ H) as (u & E & Hip & _ & _ & Hs & _). exists u. do 2 (split; [done|]).
  intros t E1 E2. pose proof (stack_same u t _ _ E1 E2 Hs) as Ht. rewrite (run_ret text t _ _ _ Ht). eexists.
  destruct (trapret_eq text (set_rip (text l_trapret) (dropped t)) tf) as (w & Ew & Hw & _).
  - split; [done|]. exists 9%nat. by apply (stack_same (dropped t)), (stack_pop _ _ _ _ Ht).
  - by exists w.
Qed.

(** The frame of the system call [n] made by [m]. *)
Definition call_frame (text : label -> Z) (n : Z) (m : machine) : trap_frame :=
  frame_of (set_rip (text (l_stub_ret n)) (set_reg RAX n m)) TRAP_SYSCALL_gate None.

(** C36: A system-call stub behaves as a function call.  It enters [trap] with a
    frame whose trap number is [TRAP_SYSCALL], whose [rax] is the number of the
    call and whose other registers, the arguments among them, are the caller's;
    when the kernel returns with the result [r] in the frame's [rax], the stub
    returns to its caller with [r] in [rax] and everything else as it was. *)
Theorem system_call_roundtrip (text : label -> Z) (n : Z) (m : machine)
  (Hip : x_rip m = text (l_stub n)) (Hn : 0 <= n < 2 ^ 32) (Htab : tables text m)
  (Ht : 0 <= text (l_vector TRAP_SYSCALL_gate) < 2 ^ 64) (Hr : entry_room m) :
  let tf := call_frame text n m in
  exists u, go text [l_stub n; l_vector TRAP_SYSCALL_gate; l_alltraps] m = Some u /\ called text u tf /\ cpl u = 0 /\
    tf_trapno tf = TRAP_SYSCALL /\ tf_rax tf = n /\ (forall r, r <> RAX -> frame_reg tf r = x_gpr m r) /\
    forall t r ra k, returned text t (set_tf_rax r tf) -> stack (set_reg RSP (x_gpr m RSP) t) k [ra] ->
      exists w, go text [l_trapret; l_stub_ret n] t = Some w /\ x_rip w = ra /\ x_gpr w RAX = r /\
        x_gpr w RSP = x_gpr m RSP + 8 /\ (forall q, q <> RAX -> q <> RSP -> x_gpr w q = x_gpr m q) /\
        x_cs w = x_cs m /\ x_flags w = x_flags m /\ x_ss w = x_ss m.
Proof.
  intros tf. set (m0 := set_rip (text (l_stub_ret n)) (set_reg RAX n m)).
  destruct (entry_eq text true TRAP_SYSCALL_gate None m0) as (m1 & u & E1 & E2 & Hc & Hp & _).
  { exact Htab. } { exact Ht. } { unfold TRAP_SYSCALL_gate, TRAP_SYSCALL. lia. } { by left. }
  { split; [by intros [? ?]|done]. } { by apply (stack_same (set_reg RSP (entry_stack m 0) m)). }
  exists u. split.
  { cbn [go] in E2 |- *. rewrite Hip, Z.eqb_refl. cbn [code stub run]. rewrite u32_small by done. fold m0. by rewrite E1. }
  do 4 (split; [done|]). split; [intros r Hne; by destruct r|]. intros t r ra k H Hst.
  destruct (trapret_eq text t _ H) as (w & Ew & [Hg (Hi & Hcs & Hfl & Hss)] & Hmw).
  assert (stack w k [ra]) as Hw by (apply (stack_same (set_reg RSP (x_gpr m RSP) t)); [exact (Hg RSP)|done|done]).
  exists (set_rip ra (dropped w)). split.
  { cbn [go code] in Ew |- *. destruct (x_rip t =? text l_trapret); [|done]. destruct (run text trapret t) as [w'|]; [|done].
    injection Ew as ->. cbn [mbind option_bind]. rewrite Hi. change (tf_rip _) with (text (l_stub_ret n)). rewrite Z.eqb_refl.
    unfold stub_ret. by rewrite (run_ret text w k ra [] Hw). }
  split; [done|]. split; [exact (Hg RAX)|]. split; [change (x_gpr w RSP + 8 = x_gpr m RSP + 8); by rewrite Hg|].
  split; [|done]. intros q H1 H2. unfold dropped. cbn [x_gpr set_rip set_reg]. rewrite decide_False by done. rewrite Hg. by destruct q.
Qed.

(** *** An example machine *)

(** 1024 words of memory, the kernel's stack below 4096, a program in user mode
    about to make the system call [getpid]. *)
Definition sample_text (l : label) : Z :=
  match l with
  | l_vector i => 0x10000 + Z.of_nat i * 16
  | l_alltraps => 0x20000 | l_trapret => 0x20020 | l_swtch => 0x20040 | l_trap => 0x20060 | l_forkret => 0x20080
  | l_stub _ => 0x400000 | l_stub_ret _ => 0x400007
  end.
Definition sample_mem : gmap Z Z := list_to_map ((fun k => (8 * k, k)) <$> seqZ 0 1024).
Definition sample : machine :=
  mk_machine (fun r => match r with RSP => 8000 | RDI => 3 | RBX => 17 | _ => 5 end) 0x400000 0x23 0x202 0x2b 4096
    (seginit_gdt 0 0 (replicate NSEGS 0)) (tvinit_idt (fun i => sample_text (l_vector i)) (replicate 256 zero_gate)) sample_mem.

Lemma sample_tables : tables sample_text sample.
Proof. split; [exists (replicate 256 zero_gate)|exists (replicate NSEGS 0), 0, 0]; by rewrite length_replicate. Qed.

(** The conditions of [stack], decided. *)
Lemma stack_check m n ws :
  (x_gpr m RSP mod 8 =? 0) && (8 * Z.of_nat n <=? x_gpr m RSP) && (x_gpr m RSP + 8 * Z.of_nat (length ws) <? 2 ^ 64) &&
    forallb (fun k => match x_mem m !! (x_gpr m RSP - 8 * k) with Some _ => true | None => false end) (seqZ 1 (Z.of_nat n)) = true ->
  words_at (x_mem m) (x_gpr m RSP) ws -> stack m n ws.
Proof.
  rewrite !andb_true_iff, Z.eqb_eq, Z.leb_le, Z.ltb_lt, forallb_forall. intros (((H1 & H2) & H3) & H4) Hw. split; try done.
  intros k Hk. specialize (H4 k ltac:(apply list_elem_of_In, elem_of_seqZ; lia)). by destruct (x_mem m !! _).
Qed.

Lemma sample_room : entry_room sample.
Proof. apply stack_check; [by vm_compute|done]. Qed.

(** The frame [trap] finds at the example's system call. *)
Lemma sample_returns :
  let t := mk_machine (fun _ => 3912) 0x20020 8 2 0 4096 [] []
             (list_to_map (zip ((fun k => 3912 + 8 * k) <$> seqZ 0 22) (trap_frame_words (set_tf_rax 42 (call_frame sample_text 11 sample)))) ∪ sample_mem) in
  returned sample_text t (set_tf_rax 42 (call_frame sample_text 11 sample)) /\ stack (set_reg RSP 8000 t) 1 [1000].
Proof.
  split.
  - split; [done|]. exists 1%nat. apply stack_check; [by vm_compute|]. vm_compute. by repeat split.
  - apply stack_check; [by vm_compute|]. vm_compute. by repeat split.
Qed.

Lemma trap_roundtrip_witness :
  exists m1 u, deliver false 14 (Some 6) sample = Some m1 /\ go sample_text [l_vector 14; l_alltraps] m1 = Some u /\
    called sample_text u (frame_of sample 14 (Some 6)) /\ cpl u = 0.
Proof.
  destruct (trap_roundtrip sample_text sample false 14 (Some 6)) as (m1 & u & H1 & H2 & H3 & H4 & _).
  - exact sample_tables.
  - by vm_compute.
  - lia.
  - done.
  - split; [by vm_compute|by eexists].
  - exact sample_room.
  - exists m1, u. exact (conj H1 (conj H2 (conj H3 H4))).
Defined.

Lemma system_call_roundtrip_witness :
  exists u t w, go sample_text [l_stub 11; l_vector TRAP_SYSCALL_gate; l_alltraps] sample = Some u /\ cpl u = 0 /\
    go sample_text [l_trapret; l_stub_ret 11] t = Some w /\ x_rip w = 1000 /\ x_gpr w RAX = 42 /\ x_gpr w RBX = 17.
Proof.
  destruct (system_call_roundtrip sample_text 11 sample) as (u & H1 & _ & H3 & _ & _ & _ & Hret).
  - reflexivity.
  - lia.
  - exact sample_tables.
  - by vm_compute.
  - exact sample_room.
  - destruct sample_returns as [Hr1 Hr2]. destruct (Hret _ 42 1000 1%nat Hr1 Hr2) as (w & Hw & Hi & Ha & _ & Hq & _).
    exists u. eexists. exists w. split; [exact H1|]. split; [exact H3|]. split; [exact Hw|]. split; [exact Hi|]. split; [exact Ha|].
    rewrite Hq; done.
Defined.

(** A process whose stack ends at 2048 gives the processor to the scheduler,
    whose context is at 4000. *)
Definition sample_switch : machine :=
  mk_machine (fun r => match r with RSP => 2048 | RDI => 6400 | RSI => 4000 | RBX => 17 | _ => 5 end) 0x20040 8 2 0 4096
    [] [] sample_mem.
Definition sample_scheduler (r : reg) : Z :=
  match r with
  | R15 => 500 | R14 => 501 | R13 => 502 | R12 => 503 | R11 => 504 | RBX => 505 | RBP => 506 | _ => 0
  end.

Lemma swtch_roundtrip_witness :
  exists u, go sample_text [l_swtch] sample_switch = Some u /\ x_rip u = 507 /\ x_gpr u RBX = 505 /\ x_gpr u RSP = 4064.
Proof.
  destruct (swtch_roundtrip sample_text sample_switch 256 sample_scheduler 507 []) as (u & H1 & (Hi & Hg & Hs & _) & _).
  - split; [done| |by split; [done|eexists]|by right|  |by right|by right].
    + apply stack_check; [by vm_compute|]. by vm_compute.
    + apply stack_check; [by vm_compute|]. vm_compute. by repeat split.
  - exists u. split; [exact H1|]. split; [exact Hi|]. split; [|exact Hs]. rewrite Hg; [reflexivity|]. by apply (bool_decide_unpack _).
Defined.

(** ** The descriptor tables *)

(** The two words of the descriptor of the task state segment give its address. *)
Theorem seginit_tss_address (cpu addr : Z) (gdt : list Z) :
  length gdt = NSEGS -> 0 <= addr < 2 ^ 64 ->
  exists lo hi, seginit_gdt cpu addr gdt !! 6%nat = Some lo /\ seginit_gdt cpu addr gdt !! 7%nat = Some hi /\
    (lo / 2 ^ 16) mod 2 ^ 24 + (lo / 2 ^ 56) * 2 ^ 24 + hi * 2 ^ 32 = addr.
Proof.
  intros Hl Ha. exists (seg_word (SEG16 STS_T64A addr sizeof_tss DPL_USER)), (Z.shiftr addr 32). unfold seginit_gdt, NSEGS in *. split; [|split].
  - rewrite (list_lookup_insert_ne _ _ 6) by done. apply list_lookup_insert_eq. rewrite !length_insert, Hl. change (6 < 8)%nat. lia.
  - apply list_lookup_insert_eq. rewrite !length_insert, Hl. change (7 < 8)%nat. lia.
  - unfold seg_word, SEG16, field. cbn [lim_15_0 base_15_0 base_23_16 sd_type sd_s sd_dpl sd_p lim_19_16 sd_avl sd_rsv1 sd_db sd_g base_31_24].
    change 0xffff with (Z.ones 16). change 0xff with (Z.ones 8). rewrite !Z.land_ones by done.
    rewrite !Z.shiftr_div_pow2 by done. unfold u32, sizeof_tss, STS_T64A, DPL_USER. dlia.
Qed.

(** The store of [seginit] into the task state segment is commented as setting the
    I/O map base to the end of the segment; index 16 is inside [ist4], so the
    base stays 0 and the map is the segment itself.  Its zero bytes permit user
    programs the ports of the disk. *)
Theorem seginit_misses_iomb (tss : list Z) : iomb (seginit_tss tss) = iomb tss.
Proof. unfold iomb, seginit_tss. by rewrite !nth_lookup, !list_lookup_insert_ne. Qed.

Theorem seginit_permits_disk_ports (port : Z) : 0x1f0 <= port <= 0x1f7 ->
  io_permitted (seginit_tss (replicate (Z.to_nat sizeof_tss) 0)) port = true.
Proof.
  intros H. assert (port ∈ seqZ 0x1f0 8) as Hin by (apply elem_of_seqZ; lia).
  clear H. revert port Hin. apply Forall_forall. apply (bool_decide_unpack _). by vm_compute.
Qed.
