(* ===== verification/Diskread.v ===== *)
(** * Reading a file, from [readi] to the disk and back

    Facts about [kernel/fs.c], [kernel/bio.c], [kernel/ide.c], [kernel/trap.c] and
    the scheduler together, no code of its own: what a process reads from a file
    is what the disk holds, whichever blocks are in the cache.  A block that is
    not takes the process through [sleep], the interrupt of the disk and back. *)

From S2P Require Import Prelude Types Spinlock Mmu Kalloc X86vm Vspace Sched.
From S2P Require Import Console Kbd Sleeplock Mkfs Ide Bio Fs File Proc Syscall.

(** ** What the machine does while the process sleeps *)

(** The frame of the disk's interrupt. *)
Definition ide_frame : trap_frame := mk_trap_frame 0 0 0 0 0 0 0 0 0 0 0 0 0 0 0 (TRAP_IRQ0 + IRQ_IDE) 0 0 8 0 0 0.

(** The rest of the scheduler's round after process [i] gave up the processor. *)
Definition round_rest (i : nat) : K unit :=
  vspaceinstallkern ;;
  upd_cpu (set_c_proc None) ;;
  mfor (seq (S i) (NPROC - S i)) scheduler_slot ;;
  release ptable_lk.

(** The scheduler ends its round, goes round once more, is interrupted by the
    disk, and goes round until it runs a process: the state in which it does. *)
Definition serve (i : nat) (s : kstate) : kstate :=
  match (round_rest i ;; scheduler_round ;;
         fl <- readeflags_if ;;
         (if (fl : bool) then trap ide_frame 0 else diverge) ;;
         scheduler_round) s with
  | Block s' _ => s'
  | _ => s
  end.

(** ** States

    Everything but the processor, the process table, the buffers and the disk's
    request stays as it is: [G] is the state with all locks given, and [W] the one
    in which process [i] runs in the kernel and holds no spin lock. *)

Section reading.
Context (km : kmem) (fr : gmap Z frame) (ft : ftable) (ic : icache) (sb : superblock) (co : console)
  (dv : list (option driver)) (ti : ktime) (kp : Z) (ev : kenv) (ip0 : option nat) (np : Z) (first : bool) (ce cn : Z) (hd : bool)
  (B : gmap (Z * Z) (list Z)) (i : nat).

Definition G (c : cpu) (lp : spinlock) (t : list proc) (lb : spinlock) (bs : list buf) (n : Z) (li : spinlock)
    (q : option nat) (rq : option (Z * Z)) : kstate :=
  mk_kstate c km fr (mk_ptable lp t ip0 np first) ft ic sb (mk_bcache lb bs n ce cn) (mk_ide li q hd rq B) co dv ti kp ev.

Definition W (ie fl : bool) (r0 c3 : Z) (t : list proc) (bs : list buf) (n : Z) (rq : option (Z * Z)) : kstate :=
  G (mk_cpu 0 ie fl (Some i) r0 c3) zero_lock t zero_lock bs n zero_lock None rq.

Abbreviation held := (mk_spinlock 1 true).

(** Process [i] is running; no other process can run or waits for the disk. *)
Record alone (pid : Z) (t : list proc) : Prop := mk_alone {
  al_len : length t = NPROC;
  al_me : exists p, t !! i = Some p /\ p_pid p = pid /\ p_state p = RUNNING /\ kstack p <> 0 /\ pgtbl (p_vspace p) <> 0;
  al_others : forall j q, j <> i -> t !! j = Some q ->
    p_state q <> RUNNABLE /\ (p_state q = SLEEPING -> forall b, p_chan q <> Some (ch_buf b) /\ p_chan q <> Some (ch_buflock b))
}.

(** The place on the disk of a buffer's block. *)
Definition place (dev blk : Z) : Z * Z := (Z.land dev 1, i32 (u32 (blk * (BSIZE / SECTOR_SIZE)))).
Definition on_disk (k : Z * Z) : list Z := default (replicate 512 0) (B !! k).

(** A buffer whose contents are clean: not read yet, or equal to its block. *)
Definition clean (x : buf) : Prop :=
  b_flags x = 0 \/ b_flags x = B_VALID /\ b_data x = on_disk (place (b_dev x) (b_blockno x)).

(** A clean buffer that nobody uses. *)
Definition unused (x : buf) : Prop :=
  b_refcnt x = 0 /\ slp_locked (b_lock x) = 0 /\ slp_lk (b_lock x) = zero_lock /\ clean x.

(** No buffer is in use, and what the cache holds is on the disk. *)
Definition cache (bs : list buf) : Prop :=
  (exists l, lru bs l) /\ forall j x, (j < NBUF)%nat -> bs !! j = Some x -> unused x.

(** *** Single steps *)

Lemma acquire_bc ie fl o r0 c3 lp t bs n li q rq :
  acquire bcache_lk (G (mk_cpu 0 ie fl o r0 c3) lp t zero_lock bs n li q rq) =
  Done tt (G (mk_cpu 1 fl false o r0 c3) lp t held bs n li q rq).
Proof. reflexivity. Qed.

Lemma release_bc ie o r0 c3 lp t bs n li q rq :
  release bcache_lk (G (mk_cpu 1 ie false o r0 c3) lp t held bs n li q rq) =
  Done tt (G (mk_cpu 0 ie ie o r0 c3) lp t zero_lock bs n li q rq).
Proof. by destruct ie. Qed.

Lemma acquire_ide ie fl o r0 c3 lp t lb bs n q rq :
  acquire ide_lk (G (mk_cpu 0 ie fl o r0 c3) lp t lb bs n zero_lock q rq) =
  Done tt (G (mk_cpu 1 fl false o r0 c3) lp t lb bs n held q rq).
Proof. reflexivity. Qed.

Lemma release_ide ie o r0 c3 lp t lb bs n q rq :
  release ide_lk (G (mk_cpu 1 ie false o r0 c3) lp t lb bs n held q rq) =
  Done tt (G (mk_cpu 0 ie ie o r0 c3) lp t lb bs n zero_lock q rq).
Proof. by destruct ie. Qed.

Lemma acquire_pt ie fl o r0 c3 t lb bs n li q rq :
  acquire ptable_lk (G (mk_cpu 0 ie fl o r0 c3) zero_lock t lb bs n li q rq) =
  Done tt (G (mk_cpu 1 fl false o r0 c3) held t lb bs n li q rq).
Proof. reflexivity. Qed.

Lemma release_pt ie o r0 c3 t lb bs n li q rq :
  release ptable_lk (G (mk_cpu 1 ie false o r0 c3) held t lb bs n li q rq) =
  Done tt (G (mk_cpu 0 ie ie o r0 c3) zero_lock t lb bs n li q rq).
Proof. by destruct ie. Qed.

Lemma get_G c lp t lb bs n li q rq b x : bs !! b = Some x -> get_buf b (G c lp t lb bs n li q rq) = Done x (G c lp t lb bs n li q rq).
Proof. intros H. by apply get_buf_eq. Qed.

Lemma upd_G c lp t lb bs n li q rq b f x : bs !! b = Some x ->
  upd_buf b f (G c lp t lb bs n li q rq) = Done tt (G c lp t lb (<[b := f x]> bs) n li q rq).
Proof. intros H. rewrite upd_buf_eq by done. rewrite <- (alter_insert f _ b x) by done. reflexivity. Qed.

Lemma wakeup_G nn ie fl o r0 c3 t lb bs n li q rq ch : (nn = 0 \/ nn = 1 /\ fl = false) ->
  wakeup ch (G (mk_cpu nn ie fl o r0 c3) zero_lock t lb bs n li q rq) =
  Done tt (G (mk_cpu nn (if nn =? 0 then fl else ie) fl o r0 c3) zero_lock (wake (Some ch) <$> t) lb bs n li q rq).
Proof. intros H. rewrite wakeup_eq; [reflexivity|done|]. split; cbn; [lia|]. destruct H as [->|[-> ->]]; lia || done. Qed.

Lemma acquiresleep_G ie fl r0 c3 t bs n rq b x p : t !! i = Some p -> bs !! b = Some x ->
  slp_locked (b_lock x) = 0 -> slp_lk (b_lock x) = zero_lock ->
  acquiresleep (buf_slp b) (W ie fl r0 c3 t bs n rq) =
  Done tt (W fl fl r0 c3 t (<[b := set_b_lock (mk_sleeplock 1 zero_lock (p_pid p)) x]> bs) n rq).
Proof.
  intros Hp Hx H0 Hl. rewrite (acquiresleep_free (buf_slp b) _ (b_lock x) i p); try done; [|cbn; by rewrite Hx].
  rewrite (alter_insert (set_b_lock _) _ b x) by done. reflexivity.
Qed.

Lemma holdingsleep_G ie fl r0 c3 t bs n rq b x p : t !! i = Some p -> bs !! b = Some x ->
  b_lock x = mk_sleeplock 1 zero_lock (p_pid p) ->
  holdingsleep (buf_slp b) (W ie fl r0 c3 t bs n rq) = Done true (W fl fl r0 c3 t bs n rq).
Proof.
  intros Hp Hx Hl. rewrite (holdingsleep_eq (buf_slp b) _ (b_lock x) i p); try done; [|cbn; by rewrite Hx|by rewrite Hl].
  rewrite Hl. cbn. by rewrite Z.eqb_refl.
Qed.

(** The buffer [bget] gives out, in the name of process [pid]. *)
Definition locked (pid : Z) (x : buf) : buf := set_b_lock (mk_sleeplock 1 zero_lock pid) (set_b_refcnt 1 x).
Definition recycled (dev blk : Z) (x : buf) : buf := set_b_flags 0 (set_b_blockno blk (set_b_dev dev x)).

Lemma bget_eq ie fl r0 c3 t bs n rq dev blk pid : alone pid t -> cache bs ->
  exists b x x', (b < NBUF)%nat /\ bs !! b = Some x /\
    bget dev blk (W ie fl r0 c3 t bs n rq) = Done b (W fl fl r0 c3 t (<[b := locked pid x']> bs) n rq) /\
    (b_dev x = dev /\ b_blockno x = blk /\ x' = x \/ x' = recycled dev blk x).
Proof.
  intros [_ (p & Hp & Hpid & _) _] [[l Hl] Hu].
  assert (is_Some (bs !! bhead)) as [h Hh] by (apply lookup_lt_is_Some; rewrite (lru_len _ _ Hl); unfold bhead; lia).
  assert (forall b, b ∈ l -> (b < NBUF)%nat) as Hlt by (intros b; rewrite (lru_perm _ _ Hl), elem_of_seq; lia).
  unfold bget. mstep acquire_bc. set (s1 := G (mk_cpu 1 fl false (Some i) r0 c3) zero_lock t held bs n zero_lock None rq).
  mstep (get_buf_eq s1 bhead h Hh). mstep (bscan_next s1 l _ h Hl Hh). change (bufs s1) with bs.
  destruct (bfind bs _ l) as [b|] eqn:E.
  - apply bfind_some in E as (Hin & x & Hx & Ht). apply andb_true_iff in Ht as [H1 H2].
    destruct (Hu b x (Hlt b Hin) Hx) as (Hr & Hs1 & Hs2 & _). exists b, x, x. do 2 (split; [by auto|]).
    split; [|left; by apply Z.eqb_eq in H1, H2]. mstep (upd_G _ _ _ _ _ _ _ _ _ b _ x Hx). mstep release_bc. rewrite Hr.
    mstep (acquiresleep_G fl fl r0 c3 t _ n rq b (set_b_refcnt 1 x) p Hp); [|apply list_lookup_insert_eq; by eapply lookup_lt_Some|done|done].
    rewrite list_insert_insert_eq, Hpid. done.
  - mstep (get_buf_eq s1 bhead h Hh). mstep (bscan_prev s1 l _ h Hl Hh). change (bufs s1) with bs.
    destruct (bfind bs _ (reverse l)) as [b|] eqn:E2.
    + apply bfind_some in E2 as (Hin & x & Hx & Ht). rewrite elem_of_reverse in Hin.
      destruct (Hu b x (Hlt b Hin) Hx) as (Hr & Hs1 & Hs2 & _). exists b, x, (recycled dev blk x). do 2 (split; [by auto|]).
      split; [|by right]. mstep (upd_G _ _ _ _ _ _ _ _ _ b _ x Hx). mstep release_bc.
      mstep (acquiresleep_G fl fl r0 c3 t _ n rq b (set_b_refcnt 1 (recycled dev blk x)) p Hp);
        [|apply list_lookup_insert_eq; by eapply lookup_lt_Some|done|done].
      rewrite list_insert_insert_eq, Hpid. done.
    + exfalso. assert (0%nat ∈ reverse l) as H0 by (rewrite elem_of_reverse, (lru_perm _ _ Hl), elem_of_seq; unfold NBUF; lia).
      apply list_elem_of_In in H0. pose proof (find_none _ _ E2 _ H0) as Hf. cbv beta in Hf.
      destruct (lookup_lt_is_Some_2 bs 0) as [x Hx]; [rewrite (lru_len _ _ Hl); lia|]. rewrite Hx in Hf. cbn in Hf.
      destruct (Hu 0%nat x ltac:(unfold NBUF; lia) Hx) as (Hr & _ & _ & Hd). rewrite Hr in Hf. by destruct Hd as [Hd|[Hd _]]; rewrite Hd in Hf.
Qed.

(** *** The scheduler *)

Definition not_runnable (t : list proc) (j : nat) : Prop := exists q, t !! j = Some q /\ p_state q <> RUNNABLE.

Lemma slots_idle js c lp t lb bs n li q rq : Forall (not_runnable t) js ->
  mfor js scheduler_slot (G c lp t lb bs n li q rq) = Done tt (G c lp t lb bs n li q rq).
Proof.
  induction 1 as [|j js (x & Hx & Hst) _ IH]; [done|]. cbn [mfor]. rewrite (bind_done _ _ _ tt (G c lp t lb bs n li q rq)); [done|].
  unfold scheduler_slot. mstep (get_proc_eq (G c lp t lb bs n li q rq) j x Hx). by rewrite decide_True.
Qed.

Lemma slot_runs ie r0 c3 t lb bs n li q rq p : t !! i = Some p -> p_state p = RUNNABLE -> kstack p <> 0 -> pgtbl (p_vspace p) <> 0 ->
  exists r0' c3' k, scheduler_slot i (G (mk_cpu 1 ie false None r0 c3) held t lb bs n li q rq) =
    Block (G (mk_cpu 1 ie false (Some i) r0' c3') held (<[i := set_p_state RUNNING p]> t) lb bs n li q rq) k.
Proof.
  intros Hp Hst Hk Hpg. set (s := G (mk_cpu 1 ie false None r0 c3) held t lb bs n li q rq). unfold scheduler_slot.
  mstep (get_proc_eq s i p Hp). rewrite decide_False by congruence. unfold upd_cpu at 1; msimp. unfold vspaceinstall.
  rewrite bind_done with (a := tt) (s' := G (mk_cpu 1 ie false (Some i) (u64 (kstack p + KSTACKSIZE)) (V2P (pgtbl (p_vspace p)))) held t lb bs n li q rq).
  - mstep (upd_proc_eq (G (mk_cpu 1 ie false (Some i) (u64 (kstack p + KSTACKSIZE)) (V2P (pgtbl (p_vspace p)))) held t lb bs n li q rq) i _ p Hp).
    do 3 eexists. reflexivity.
  - msimp. change (pt_proc (k_pt (set_k_cpu _ _))) with t. rewrite Hp. msimp.
    rewrite (proj2 (Z.eqb_neq _ _) Hk), (proj2 (Z.eqb_neq _ _) Hpg). reflexivity.
Qed.

Lemma mfor_split {A} (l1 l2 : list A) (f : A -> K unit) s s' : mfor l1 f s = Done tt s' -> mfor (l1 ++ l2) f s = mfor l2 f s'.
Proof.
  revert s. induction l1 as [|x l1 IH]; intros s; [by intros [= ->]|]. cbn [mfor app]. unfold bind.
  destruct (f x s) as [[] s1| | | |]; try done. cbn [bindr]. apply IH.
Qed.

(** A round in which no process can run. *)
Lemma round_idle ie fl r0 c3 t bs n q rq : length t = NPROC -> (forall j, (j < NPROC)%nat -> not_runnable t j) ->
  scheduler_round (G (mk_cpu 0 ie fl None r0 c3) zero_lock t zero_lock bs n zero_lock q rq) =
  Done tt (G (mk_cpu 0 true true None r0 c3) zero_lock t zero_lock bs n zero_lock q rq).
Proof.
  intros Hl H. unfold scheduler_round, sti, upd_cpu; msimp.
  change (set_k_cpu _ _) with (G (mk_cpu 0 ie true None r0 c3) zero_lock t zero_lock bs n zero_lock q rq).
  mstep acquire_pt. mstep slots_idle; [|apply Forall_forall; intros j Hj%elem_of_seq; apply H; lia]. by rewrite release_pt.
Qed.

(** A round in which process [i] is the first to run. *)
Lemma round_runs ie fl r0 c3 t bs n q rq p : t !! i = Some p -> (i < NPROC)%nat ->
  (forall j, (j < i)%nat -> not_runnable t j) -> p_state p = RUNNABLE -> kstack p <> 0 -> pgtbl (p_vspace p) <> 0 ->
  exists r0' c3' k, scheduler_round (G (mk_cpu 0 ie fl None r0 c3) zero_lock t zero_lock bs n zero_lock q rq) =
    Block (G (mk_cpu 1 true false (Some i) r0' c3') held (<[i := set_p_state RUNNING p]> t) zero_lock bs n zero_lock q rq) k.
Proof.
  intros Hp Hi H Hst Hk Hpg. unfold scheduler_round, sti, upd_cpu; msimp.
  change (set_k_cpu _ _) with (G (mk_cpu 0 ie true None r0 c3) zero_lock t zero_lock bs n zero_lock q rq).
  mstep acquire_pt. destruct (slot_runs true r0 c3 t zero_lock bs n zero_lock q rq p Hp Hst Hk Hpg) as (r0' & c3' & k & E).
  exists r0', c3'. eexists. apply bind_block. replace NPROC with (i + S (NPROC - S i))%nat by lia. rewrite seq_app.
  erewrite mfor_split; [|apply slots_idle, Forall_forall; intros j Hj%elem_of_seq; apply H; lia].
  cbn [seq mfor Nat.add]. apply bind_block. exact E.
Qed.

(** *** The interrupt *)

(** The buffer after its block was read. *)
Definition filled (k : Z * Z) (x : buf) : buf := set_b_flags B_VALID (set_b_data (on_disk k) x).

Lemma wake_only (t : list proc) ch p : t !! i = Some p -> p_state p = SLEEPING -> p_chan p = Some ch ->
  (forall j q, j <> i -> t !! j = Some q -> p_state q = SLEEPING -> p_chan q <> Some ch) ->
  wake (Some ch) <$> t = <[i := set_p_state RUNNABLE p]> t.
Proof.
  intros Hp Hst Hch Ho. apply list_eq. intros j. rewrite list_lookup_fmap. destruct (decide (j = i)) as [->|Hne].
  - rewrite Hp, list_lookup_insert_eq by (by eapply lookup_lt_Some). cbn. unfold wake. by rewrite decide_True.
  - rewrite list_lookup_insert_ne by done. destruct (t !! j) as [q|] eqn:Hq; [|done]. cbn. unfold wake.
    rewrite decide_False; [done|]. intros [H1 H2]. by apply (Ho j q Hne Hq H1).
Qed.

Lemma ideintr_eq ie fl r0 c3 t bs n b k x : bs !! b = Some x -> b_flags x = 0 -> b_qnext x = None ->
  ideintr (G (mk_cpu 0 ie fl None r0 c3) zero_lock t zero_lock bs n zero_lock (Some b) (Some k)) =
  Done tt (G (mk_cpu 0 fl fl None r0 c3) zero_lock (wake (Some (ch_buf b)) <$> t) zero_lock (<[b := filled k x]> bs) n zero_lock None (Some k)).
Proof.
  intros Hx Hf Hq. assert (b < length bs)%nat as Hb by (by eapply lookup_lt_Some). unfold ideintr. mstep acquire_ide. msimp.
  change (idequeue (k_ide (G _ _ _ _ _ _ _ _ _))) with (Some b). cbv iota. mstep (get_G _ _ _ _ _ _ _ _ _ b x Hx).
  unfold upd_ide at 1; msimp. change (set_k_ide _ _) with (G (mk_cpu 1 fl false None r0 c3) zero_lock t zero_lock bs n held (b_qnext x) (Some k)).
  rewrite Hf, Hq. erewrite bind_done; [|exact (upd_G _ zero_lock t zero_lock bs n held None (Some k) b (set_b_data (on_disk k)) x Hx)].
  mstep (upd_G _ _ _ _ _ _ _ _ _ b); [|by apply list_lookup_insert_eq].
  mstep (upd_G _ _ _ _ _ _ _ _ _ b); [|by apply list_lookup_insert_eq; rewrite length_insert].
  rewrite !list_insert_insert_eq. mstep wakeup_G; [|by right].
  change (1 =? 0) with false. cbv iota. etransitivity; [apply release_ide|]. cbn [b_flags set_b_data set_b_flags]. by rewrite Hf.
Qed.

(** The process sleeps until its block is there, and runs again. *)
Lemma serve_eq ie r0 c3 t bs n b k x p : length t = NPROC -> t !! i = Some p -> p_state p = SLEEPING -> p_chan p = Some (ch_buf b) ->
  kstack p <> 0 -> pgtbl (p_vspace p) <> 0 ->
  (forall j q, j <> i -> t !! j = Some q -> p_state q <> RUNNABLE /\ (p_state q = SLEEPING -> p_chan q <> Some (ch_buf b))) ->
  bs !! b = Some x -> b_flags x = 0 -> b_qnext x = None ->
  exists r0' c3', serve i (G (mk_cpu 1 ie false (Some i) r0 c3) held t zero_lock bs n zero_lock (Some b) (Some k)) =
    G (mk_cpu 1 true false (Some i) r0' c3') held (<[i := set_p_state RUNNING p]> t) zero_lock (<[b := filled k x]> bs) n zero_lock None (Some k).
Proof.
  intros Hl Hp Hst Hch Hk Hpg Ho Hx Hf Hq. assert (i < length t)%nat as Hi by (by eapply lookup_lt_Some).
  assert (forall j, (j < NPROC)%nat -> not_runnable t j) as Hn.
  { intros j Hj. rewrite <- Hl in Hj. apply lookup_lt_is_Some in Hj as [q' Hq']. exists q'. split; [done|].
    destruct (decide (j = i)) as [->|Hne]; [|by eapply Ho].
    rewrite Hp in Hq'. injection Hq' as <-. by rewrite Hst. }
  unfold serve, round_rest.
  set (s1 := G (mk_cpu 0 ie ie None r0 (V2P kp)) zero_lock t zero_lock bs n zero_lock (Some b) (Some k)).
  erewrite (bind_done _ _ _ tt s1).
  2:{ erewrite (bind_done vspaceinstallkern) by reflexivity. unfold upd_cpu; msimp. change (set_k_cpu _ (set_k_cpu _ _)) with
        (G (mk_cpu 1 ie false None r0 (V2P kp)) held t zero_lock bs n zero_lock (Some b) (Some k)).
      mstep slots_idle; [|apply Forall_forall; intros j Hj%elem_of_seq; apply Hn; lia]. apply release_pt. }
  mstep (round_idle ie ie r0 (V2P kp) t bs n (Some b) (Some k) Hl Hn). unfold readeflags_if; msimp.
  change (eflags_if (k_cpu (G _ _ _ _ _ _ _ _ _))) with true. cbv iota.
  erewrite (bind_done (trap ide_frame 0)).
  2:{ unfold trap. change (tf_trapno ide_frame =? TRAP_SYSCALL) with false. cbv iota. change (trap_switch ide_frame 0) with (ideintr ;; eoi).
      pose proof (ideintr_eq true true r0 (V2P kp) t bs n b k x Hx Hf Hq) as E. apply (bind_done _ (fun _ => eoi)) in E.
      mstep E. reflexivity. }
  rewrite (wake_only t (ch_buf b) p Hp Hst Hch) by (intros j q' Hne Hq'; apply (Ho j q' Hne Hq')).
  destruct (round_runs true true r0 (V2P kp) (<[i := set_p_state RUNNABLE p]> t) (<[b := filled k x]> bs) n None (Some k) (set_p_state RUNNABLE p))
    as (r0' & c3' & kk & E); [by apply list_lookup_insert_eq|lia| |done|done|done|].
  { intros j Hj. destruct (Hn j ltac:(lia)) as (q' & Hq' & Hs). exists q'. by rewrite list_lookup_insert_ne by lia. }
  rewrite E. exists r0', c3'. by rewrite list_insert_insert_eq.
Qed.

(** *** Reading a block *)

(** The process after it slept for buffer [b] and ran again. *)
Definition slept (b : nat) (p : proc) : proc := set_p_chan None (set_p_state RUNNING (asleep (ch_buf b) p)).

Lemma alone_slept pid t b p : alone pid t -> t !! i = Some p -> alone pid (<[i := slept b p]> t).
Proof.
  intros [Hl (p' & Hp' & H) Ho] Hp. rewrite Hp in Hp'. injection Hp' as <-. assert (i < length t)%nat by (by eapply lookup_lt_Some).
  split; [by rewrite length_insert|exists (slept b p); rewrite list_lookup_insert_eq by done; naive_solver|].
  intros j q Hj. rewrite list_lookup_insert_ne by done. by apply Ho.
Qed.

Lemma wake_up_G fl r0 c3 t bs n q rq p : t !! i = Some p ->
  wake_up ide_lk i fl (G (mk_cpu 1 true false (Some i) r0 c3) held t zero_lock bs n zero_lock q rq) =
  Done tt (G (mk_cpu 1 fl false (Some i) r0 c3) zero_lock (<[i := set_p_chan None p]> t) zero_lock bs n held q rq).
Proof.
  intros Hp. unfold wake_up. change (set_k_cpu _ _) with (G (mk_cpu 1 fl false (Some i) r0 c3) held t zero_lock bs n zero_lock q rq).
  mstep (me_eq (G (mk_cpu 1 fl false (Some i) r0 c3) held t zero_lock bs n zero_lock q rq) i); [|done].
  mstep (upd_proc_eq (G (mk_cpu 1 fl false (Some i) r0 c3) held t zero_lock bs n zero_lock q rq) i _ p Hp).
  change (put_proc _ _ _) with (G (mk_cpu 1 fl false (Some i) r0 c3) held (<[i := set_p_chan None p]> t) zero_lock bs n zero_lock q rq).
  mstep release_pt. apply acquire_ide.
Qed.

(** The wait for buffer [b], whose request [k] the disk is working on. *)
Lemma iderw_wait_eq w fl r0 c3 t bs n k b x p : alone (p_pid p) t -> t !! i = Some p -> bs !! b = Some x ->
  b_flags x = 0 -> b_qnext x = None ->
  exists r0' c3', drive [serve i] ((iderw_wait (S (S w)) b ;; release ide_lk)
      (G (mk_cpu 1 fl false (Some i) r0 c3) zero_lock t zero_lock bs n held (Some b) (Some k))) =
    Done tt (W fl fl r0' c3' (<[i := slept b p]> t) (<[b := filled k x]> bs) n (Some k)).
Proof.
  intros [Hl (p' & Hp' & _ & _ & Hks & Hpg) Ho] Hp Hx Hf Hq. rewrite Hp in Hp'. injection Hp' as <-.
  assert (b < length bs)%nat as Hb by (by eapply lookup_lt_Some). assert (i < length t)%nat as Hi by (by eapply lookup_lt_Some).
  set (s2 := G _ _ _ _ _ _ _ _ _). cbn [iderw_wait].
  destruct (serve_eq fl r0 c3 (<[i := asleep (ch_buf b) p]> t) bs n b k x (asleep (ch_buf b) p)) as (r0' & c3' & Es);
    [by rewrite length_insert|by apply list_lookup_insert_eq|done|done|done|done| |done|done|done|].
  { intros j q Hj. rewrite list_lookup_insert_ne by done. intros Hjq. destruct (Ho j q Hj Hjq) as [H1 H2].
    split; [done|]. intros Hs. by apply (H2 Hs). }
  exists r0', c3'. erewrite (bind_block _ (fun _ => release ide_lk)).
  2:{ mstep (get_G _ _ _ _ _ _ _ _ _ b x Hx). unfold buf_synced at 1. rewrite Hf.
      change (Z.land 0 (Z.lor B_VALID B_DIRTY) =? B_VALID) with false. cbv iota.
      apply bind_block. by apply (sleep_eq ide_lk s2 (ch_buf b) i p). }
  cbn [drive]. change (put_proc i (asleep (ch_buf b) p) (handed_over ide_lk s2)) with
    (G (mk_cpu 1 fl false (Some i) r0 c3) held (<[i := asleep (ch_buf b) p]> t) zero_lock bs n zero_lock (Some b) (Some k)).
  rewrite Es. change (intena (k_cpu s2)) with fl. rewrite list_insert_insert_eq.
  rewrite (wake_up_G fl r0' c3' _ _ n None (Some k) (set_p_state RUNNING (asleep (ch_buf b) p))) by (by apply list_lookup_insert_eq).
  rewrite list_insert_insert_eq. fold (slept b p). cbn [bindr iderw_wait].
  erewrite (bind_done (get_buf b)); [|apply get_G, list_lookup_insert_eq, Hb]. change (buf_synced (filled k x)) with true. cbv iota. cbn [bindr ret].
  apply release_ide.
Qed.

Lemma iderw_eq ie fl r0 c3 t bs n rq b x p : alone (p_pid p) t -> t !! i = Some p -> bs !! b = Some x ->
  b_lock x = mk_sleeplock 1 zero_lock (p_pid p) -> b_flags x = 0 -> b_blockno x < FSSIZE -> (b_dev x = 0 \/ hd = true) ->
  exists r0' c3', drive [serve i] (iderw b (W ie fl r0 c3 t bs n rq)) =
    Done tt (W fl fl r0' c3' (<[i := slept b p]> t) (<[b := filled (place (b_dev x) (b_blockno x)) (set_b_qnext None x)]> bs) n
      (Some (place (b_dev x) (b_blockno x)))).
Proof.
  intros Hal Hp Hx Hlk Hf Hblk Hdev. assert (b < length bs)%nat as Hb by (by eapply lookup_lt_Some).
  set (k := place (b_dev x) (b_blockno x)). set (x1 := set_b_qnext None x).
  unfold iderw. mstep (holdingsleep_G ie fl r0 c3 t bs n rq b x p Hp Hx Hlk). cbn [negb]. mstep (get_G _ _ _ _ _ _ _ _ _ b x Hx).
  unfold buf_synced at 1. rewrite Hf. change (Z.land 0 (Z.lor B_VALID B_DIRTY) =? B_VALID) with false. cbv iota. msimp.
  replace (negb (b_dev x =? 0) && negb (havedisk1 _)) with false.
  2:{ change (havedisk1 _) with hd. destruct Hdev as [->| ->]; [done|]. by destruct (b_dev x =? 0). }
  mstep acquire_ide. mstep (upd_G _ _ _ _ _ _ _ _ _ b _ x Hx). fold x1.
  set (s1 := G (mk_cpu 1 fl false (Some i) r0 c3) zero_lock t zero_lock (<[b := x1]> bs) n held (Some b) rq).
  msimp. erewrite (bind_done _ _ _ tt s1) by reflexivity. msimp. rewrite decide_True by done.
  set (s2 := G (mk_cpu 1 fl false (Some i) r0 c3) zero_lock t zero_lock (<[b := x1]> bs) n held (Some b) (Some k)).
  assert (<[b := x1]> bs !! b = Some x1) as Hx1 by (by apply list_lookup_insert_eq).
  rewrite (bind_done (idestart b) _ s1 tt s2).
  2:{ unfold idestart. mstep (get_G _ _ _ _ _ _ _ _ _ b x1 Hx1). change (b_blockno x1) with (b_blockno x).
      rewrite (proj2 (Z.leb_gt _ _) Hblk). change (b_flags x1) with (b_flags x). rewrite Hf. reflexivity. }
  mstep (wakeups_eq s2). destruct (iderw_wait_eq (wakeups_left s2) fl r0 c3 t (<[b := x1]> bs) n k b x1 p Hal Hp Hx1 Hf eq_refl) as (r0' & c3' & E).
  exists r0', c3'. rewrite list_insert_insert_eq in E. exact E.
Qed.

(** *** Threads that sleep *)

(** [r] ends with [a] in [s'] if the disk is served up to [n] times. *)
Definition settles {A} (n : nat) (r : res kstate A) (a : A) (s' : kstate) : Prop :=
  exists n', (n' <= n)%nat /\ drive (replicate n' (serve i)) r = Done a s'.

Lemma settles_done {A} n (a : A) s : settles n (Done a s) a s.
Proof. exists 0%nat. split; [lia|done]. Qed.

Lemma settles_bindr {A C} n1 n2 (r : res kstate A) (k : A -> K C) a s1 c s2 :
  settles n1 r a s1 -> settles n2 (k a s1) c s2 -> settles (n1 + n2) (bindr r k) c s2.
Proof.
  intros (m1 & H1 & E1) H2. revert n1 r H1 E1. induction m1 as [|m1 IH]; intros n1 r H1 E1.
  - cbn in E1. subst r. destruct H2 as (m2 & H2 & E2). exists m2. split; [lia|done].
  - cbn [replicate drive] in E1. destruct r as [a' s'| | | |s' kb]; try done.
    + injection E1 as -> ->. destruct H2 as (m2 & H2 & E2). exists m2. split; [lia|done].
    + destruct (IH (pred n1) (kb (serve i s'))) as (m & Hm & E); [lia|done|]. exists (S m). split; [lia|]. exact E.
Qed.

Lemma settles_bind {A C} n1 n2 (m : K A) (k : A -> K C) s a s1 c s2 :
  settles n1 (m s) a s1 -> settles n2 (k a s1) c s2 -> settles (n1 + n2) (bind m k s) c s2.
Proof. apply settles_bindr. Qed.

(** Serving the disk more often changes nothing. *)
Lemma settles_drive {A} n (r : res kstate A) a s : settles n r a s -> forall m, (n <= m)%nat -> drive (replicate m (serve i)) r = Done a s.
Proof.
  intros (n' & Hn & E) m Hm. replace m with (n' + (m - n'))%nat by lia. revert E. generalize (m - n')%nat as d. clear Hm Hn n. revert r.
  induction n' as [|n' IH]; intros r d E; [cbn in E; subst r; by rewrite drive_done|].
  destruct r; try done. cbn [replicate drive Nat.add] in *. by apply IH.
Qed.

(** *** A block in use *)

(** Buffer [b] has block [blk] of [dev] and belongs to process [pid]. *)
Definition mine (pid dev blk : Z) (x : buf) : Prop :=
  b_lock x = mk_sleeplock 1 zero_lock pid /\ b_refcnt x = 1 /\ b_flags x = B_VALID /\ b_dev x = dev /\ b_blockno x = blk /\
  b_data x = on_disk (place dev blk).

Definition cache_but (b : nat) (bs : list buf) : Prop :=
  (exists l, lru bs l) /\ forall j x, (j < NBUF)%nat -> j <> b -> bs !! j = Some x -> unused x.

Lemma lru_insert bs l b x y : lru bs l -> bs !! b = Some x -> b_next y = b_next x -> b_prev y = b_prev x -> lru (<[b := y]> bs) l.
Proof.
  intros [H1 H2 H3 H4] Hx Hn Hp. rewrite (alter_insert (fun _ => y) bs b x Hx). split; [by rewrite length_alter|done| |].
  - eapply path_ext; [done|]. intros j _. unfold nxt. destruct (decide (b = j)) as [->|]; [|by rewrite list_lookup_alter_ne].
    rewrite list_lookup_alter_eq, Hx. cbn. by rewrite Hn.
  - eapply path_ext; [done|]. intros j _. unfold prv. destruct (decide (b = j)) as [->|]; [|by rewrite list_lookup_alter_ne].
    rewrite list_lookup_alter_eq, Hx. cbn. by rewrite Hp.
Qed.

Lemma cache_insert bs b x y : cache bs -> bs !! b = Some x -> b_next y = b_next x -> b_prev y = b_prev x -> cache_but b (<[b := y]> bs).
Proof.
  intros [[l Hl] Hu] Hx Hn Hp. split; [exists l; by eapply lru_insert|].
  intros j z Hj Hne. rewrite list_lookup_insert_ne by done. by apply Hu.
Qed.

Lemma bread_eq ie fl r0 c3 t bs n rq dev blk pid : alone pid t -> cache bs -> blk < FSSIZE -> (dev = 0 \/ hd = true) ->
  exists b x r0' c3' t' bs' rq', settles 1 (bread dev blk (W ie fl r0 c3 t bs n rq)) b (W fl fl r0' c3' t' bs' (i32 (n + 1)) rq') /\
    alone pid t' /\ (b < NBUF)%nat /\ cache_but b bs' /\ bs' !! b = Some x /\ mine pid dev blk x.
Proof.
  intros Hal Hc Hblk Hdev. destruct (bget_eq ie fl r0 c3 t bs (i32 (n + 1)) rq dev blk pid Hal Hc) as (b & x & x' & Hb & Hx & E & Hx').
  pose proof Hal as [_ (p & Hp & Hpid & _) _]. assert (b < length bs)%nat as Hbl by (by eapply lookup_lt_Some).
  assert (b_dev x' = dev /\ b_blockno x' = blk /\ b_next x' = b_next x /\ b_prev x' = b_prev x /\
          (b_flags x' = 0 \/ b_flags x' = B_VALID /\ b_data x' = on_disk (place dev blk))) as (Hd' & Hk' & Hn' & Hp' & Hcl).
  { destruct (proj2 Hc b x Hb Hx) as (_ & _ & _ & Hcl). unfold clean in Hcl.
    destruct Hx' as [(Hd & Hk & ->)| ->]; [rewrite <- Hd, <- Hk; naive_solver|by split_and!; [..|left]]. }
  exists b. unfold bread, upd_bc. rewrite bind_modify.
  change (set_k_bc _ _) with (W ie fl r0 c3 t bs (i32 (n + 1)) rq). rewrite (bind_done _ _ _ _ _ E).
  assert (<[b := locked pid x']> bs !! b = Some (locked pid x')) as Hlk by (by apply list_lookup_insert_eq).
  erewrite bind_done; [|apply get_G, Hlk]. change (b_flags (locked pid x')) with (b_flags x').
  destruct Hcl as [Hf|[Hf Hda]]; rewrite Hf.
  - destruct (iderw_eq fl fl r0 c3 t (<[b := locked pid x']> bs) (i32 (n + 1)) rq b (locked pid x') p) as (r0' & c3' & Ei);
      [by rewrite Hpid|done|exact Hlk|by rewrite Hpid|done|by change (b_blockno x' < FSSIZE); rewrite Hk'|
       by change (b_dev x' = 0 \/ hd = true); rewrite Hd'|].
    rewrite list_insert_insert_eq in Ei.
    eexists _, r0', c3', _, _, _. split; [eapply (settles_bind 1 0); [exists 1%nat; split; [done|exact Ei]|apply settles_done]|].
    split; [by apply alone_slept|]. split; [done|]. split; [by eapply cache_insert|].
    split; [by apply list_lookup_insert_eq|]. change (b_dev (locked pid x')) with (b_dev x'). change (b_blockno (locked pid x')) with (b_blockno x').
    by rewrite Hd', Hk'.
  - eexists _, r0, c3, t, _, rq. split; [apply settles_done|]. split; [done|]. split; [done|]. split; [by eapply cache_insert|].
    split; [exact Hlk|]. done.
Qed.

(** *** Giving a block back *)

Lemma wake_none pid t b : alone pid t -> wake (Some (ch_buflock b)) <$> t = t.
Proof.
  intros [_ (p & Hp & _ & Hr & _) Ho]. apply list_eq. intros j. rewrite list_lookup_fmap. destruct (t !! j) as [q|] eqn:Hq; [|done].
  cbn. unfold wake. rewrite decide_False; [done|]. intros [H1 H2]. destruct (decide (j = i)) as [->|Hne]; [congruence|].
  by destruct (proj2 (Ho j q Hne Hq) H1 b).
Qed.

Lemma releasesleep_G ie fl r0 c3 t bs n rq b x pid : alone pid t -> bs !! b = Some x -> slp_lk (b_lock x) = zero_lock ->
  releasesleep (buf_slp b) (W ie fl r0 c3 t bs n rq) =
  Done tt (W fl fl r0 c3 t (<[b := set_b_lock (mk_sleeplock 0 zero_lock 0) x]> bs) n rq).
Proof.
  intros Hal Hx Hl. assert (b < length bs)%nat as Hb by (by eapply lookup_lt_Some). unfold releasesleep.
  assert (forall c lp ls t n li q rq f, slp_upd (buf_slp b) f (G c lp t zero_lock (<[b := set_b_lock ls x]> bs) n li q rq) =
    Done tt (G c lp t zero_lock (<[b := set_b_lock (f ls) x]> bs) n li q rq)) as Hup.
  { intros. rewrite (slp_upd_eq (buf_slp b) _ ls) by (cbn; by rewrite list_lookup_insert_eq). unfold buf_slp. cbn [sp_set].
    change (bc_buf (k_bc (G _ _ _ _ _ _ _ _ _))) with (<[b := set_b_lock ls x]> bs).
    rewrite <- (alter_insert _ _ b (set_b_lock ls x)) by (by apply list_lookup_insert_eq). by rewrite list_insert_insert_eq. }
  rewrite (bind_done _ _ _ tt (G (mk_cpu 1 fl false (Some i) r0 c3) zero_lock t zero_lock
    (<[b := set_b_lock (set_slp_lk held (b_lock x)) x]> bs) n zero_lock None rq)).
  2:{ rewrite (slp_acquire_eq (buf_slp b) _ (b_lock x)) by (done || cbn; by rewrite Hx).
      rewrite (alter_insert (set_b_lock _) bs b x Hx). reflexivity. }
  rewrite (bind_done _ _ _ _ _ (Hup _ _ _ _ _ _ _ _ _)), (bind_done _ _ _ _ _ (Hup _ _ _ _ _ _ _ _ _)).
  mstep wakeup_G; [|by right]. change (1 =? 0) with false. cbv iota. cbn [sp_chan buf_slp]. rewrite (wake_none pid t b Hal).
  rewrite (slp_release_eq (buf_slp b) _ (mk_sleeplock 0 zero_lock 0) (mk_cpu 0 fl fl (Some i) r0 c3)); [|done| |by destruct fl].
  2:{ cbn. by rewrite list_lookup_insert_eq. }
  unfold buf_slp. cbn [sp_set]. change (bc_buf (k_bc (G _ _ _ _ _ _ _ _ _))) with (<[b := set_b_lock (mk_sleeplock 0 held 0) x]> bs).
  rewrite <- (alter_insert _ _ b _) by (by apply list_lookup_insert_eq). by rewrite list_insert_insert_eq.
Qed.

Lemma unused_core x y : buf_core x = buf_core y -> unused x -> unused y.
Proof. destruct x, y. unfold buf_core, unused, clean. cbn. intros [= -> -> -> -> -> -> ->]. done. Qed.

Lemma brelse_eq ie fl r0 c3 t bs n rq b x dev blk pid : alone pid t -> (b < NBUF)%nat -> cache_but b bs -> bs !! b = Some x ->
  mine pid dev blk x -> exists bs', brelse b (W ie fl r0 c3 t bs n rq) = Done tt (W fl fl r0 c3 t bs' n rq) /\ cache bs'.
Proof.
  intros Hal Hb [[l Hl] Hu] Hx (Hlk & Hrc & Hfl & Hdev & Hblk & Hda). pose proof Hal as [_ (p & Hp & Hpid & _) _].
  assert (b < length bs)%nat as Hbl by (by eapply lookup_lt_Some). unfold brelse.
  mstep (holdingsleep_G ie fl r0 c3 t bs n rq b x p Hp Hx); [|by rewrite Hlk, Hpid]. cbn [negb].
  mstep (releasesleep_G fl fl r0 c3 t bs n rq b x pid Hal Hx); [|by rewrite Hlk]. mstep acquire_bc.
  mstep (upd_G _ _ _ _ _ _ _ _ _ b); [|by apply list_lookup_insert_eq]. rewrite list_insert_insert_eq. cbn [b_refcnt set_b_lock]. rewrite Hrc.
  change (u32 (1 - 1)) with 0. set (y := set_b_refcnt 0 (set_b_lock _ x)).
  mstep (get_G _ _ _ _ _ _ _ _ _ b y); [|by apply list_lookup_insert_eq]. change (b_refcnt y =? 0) with true. cbv iota.
  assert (lru (<[b := y]> bs) l) as Hly by (by eapply lru_insert).
  destruct (list_elem_of_split l b) as (l1 & l2 & ->); [rewrite (lru_perm _ _ Hl), elem_of_seq; lia|].
  destruct (move_to_front_lru (G (mk_cpu 1 fl false (Some i) r0 c3) zero_lock t held (<[b := y]> bs) n zero_lock None rq) l1 b l2 Hly)
    as (bs' & E & Hl' & Hcore). change (buf_core <$> bs' = buf_core <$> <[b := y]> bs) in Hcore.
  mstep E. exists bs'. split; [apply release_bc|]. split; [by eexists|]. intros j z Hj Hz.
  assert ((buf_core <$> <[b := y]> bs) !! j = Some (buf_core z)) as Hjz by (rewrite <- Hcore, list_lookup_fmap, Hz; done).
  rewrite list_lookup_fmap in Hjz. apply fmap_Some in Hjz as (z0 & Hz0 & Ez). eapply (unused_core z0); [done|].
  destruct (decide (j = b)) as [->|Hne].
  - rewrite list_lookup_insert_eq in Hz0 by done. injection Hz0 as <-. split_and!; [done..|right]. split; [done|].
    change (b_data x = on_disk (place (b_dev x) (b_blockno x))). by rewrite Hdev, Hblk.
  - rewrite list_lookup_insert_ne in Hz0 by done. by eapply Hu.
Qed.

(** *** Reading a file *)

(** The bytes of [nb] blocks of the disk, from block [start] on. *)
Definition extent_bytes (dev start : Z) (nb : nat) : list Z :=
  concat (map (fun q => on_disk (place dev (start + Z.of_nat q))) (seq 0 nb)).

(** Every block of the disk has its full length. *)
Definition full_blocks : Prop := forall k l, B !! k = Some l -> length l = 512%nat.

Lemma on_disk_length k : full_blocks -> length (on_disk k) = 512%nat.
Proof. intros H. unfold on_disk. destruct (B !! k) as [l|] eqn:E; [by apply (H k)|]. apply length_replicate. Qed.

Lemma drop_blocks (f : nat -> list Z) nb q r : (forall q, length (f q) = 512%nat) -> (q < nb)%nat -> (r <= 512)%nat ->
  drop (512 * q + r) (concat (map f (seq 0 nb))) = drop r (f q) ++ concat (map f (seq (S q) (nb - S q))).
Proof.
  intros Hf Hq Hr. replace nb with (q + S (nb - S q))%nat at 1 by lia. rewrite seq_app, map_app, concat_app.
  assert (length (concat (map f (seq 0 q))) = (512 * q)%nat) as El.
  { clear Hq. induction q as [|q IH]; [done|]. rewrite seq_S, map_app, concat_app, length_app, IH. cbn. rewrite app_nil_r, Hf. lia. }
  rewrite <- El, drop_app_add. cbn [seq map concat Nat.add]. rewrite drop_app_le by (by rewrite Hf). done.
Qed.

(** The blocks that [rem] bytes from [off] on lie in. *)
Definition blocks_of (off rem : Z) : Z := if rem =? 0 then 0 else (off + rem - 1) / 512 - off / 512 + 1.

(** A piece of one block is a piece of the file. *)
Lemma piece_of_extent dev start nb off m : full_blocks -> 0 <= off -> off / 512 < Z.of_nat nb -> 0 <= m <= 512 - off mod 512 ->
  take (Z.to_nat m) (drop (Z.to_nat (off mod BSIZE)) (on_disk (place dev (start + off / BSIZE)))) =
  take (Z.to_nat m) (drop (Z.to_nat off) (extent_bytes dev start nb)).
Proof.
  intros HB Ho Hq Hm. change BSIZE with 512. unfold extent_bytes.
  replace (Z.to_nat off) with (512 * Z.to_nat (off / 512) + Z.to_nat (off mod 512))%nat by dlia.
  rewrite (drop_blocks (fun q => on_disk (place dev (start + Z.of_nat q))));
    [|intros; by apply on_disk_length|dlia|dlia].
  rewrite Z2Nat.id by dlia. rewrite take_app_le; [done|]. rewrite length_drop, on_disk_length by done. dlia.
Qed.

Lemma readi_loop_eq fuel ie fl r0 c3 t bs n rq x off tot len pid nb :
  alone pid t -> cache bs -> full_blocks -> (i_dev x = 0 \/ hd = true) ->
  0 <= startblkno (i_data x) -> startblkno (i_data x) + Z.of_nat nb <= FSSIZE ->
  0 <= off -> 0 <= tot <= len -> off + (len - tot) <= 512 * Z.of_nat nb -> len < 2 ^ 32 ->
  blocks_of off (len - tot) < Z.of_nat fuel ->
  exists ie' fl' r0' c3' t' bs' n' rq', alone pid t' /\ cache bs' /\
    settles (Z.to_nat (blocks_of off (len - tot))) (readi_loop fuel x off tot len (W ie fl r0 c3 t bs n rq))
      (take (Z.to_nat (len - tot)) (drop (Z.to_nat off) (extent_bytes (i_dev x) (startblkno (i_data x)) nb)))
      (W ie' fl' r0' c3' t' bs' n' rq').
Proof.
  intros Hal Hc HB Hdev Hst Hnb Ho Ht Hfit Hlen. revert ie fl r0 c3 t bs n rq off tot Hal Hc Ho Ht Hfit.
  induction fuel as [|fuel IH]; intros ie fl r0 c3 t bs n rq off tot Hal Hc Ho Ht Hfit Hfu.
  { unfold blocks_of in Hfu. destruct (Z.eqb_spec (len - tot) 0); dlia. }
  cbn [readi_loop]. destruct (Z.ltb_spec tot len) as [Hlt|Hge].
  2:{ assert (len - tot = 0) as -> by lia. do 8 eexists. split; [exact Hal|]. split; [exact Hc|]. apply settles_done. }
  set (start := startblkno (i_data x)) in *. unfold FSSIZE in *.
  assert (u32 (start + off / BSIZE) = start + off / BSIZE) as -> by (apply u32_small; change BSIZE with 512; dlia).
  destruct (bread_eq ie fl r0 c3 t bs n rq (i_dev x) (start + off / BSIZE) pid Hal Hc) as (b & y & r1 & c1 & t1 & bs1 & rq1 & Eb & Hal1 & Hb & Hc1 & Hy & Hmine);
    [unfold FSSIZE; change BSIZE with 512; dlia|done|].
  destruct (brelse_eq fl fl r1 c1 t1 bs1 (i32 (n + 1)) rq1 b y _ _ pid Hal1 Hb Hc1 Hy Hmine) as (bs2 & Er & Hc2).
  set (m := Z.min (u32 (len - tot)) (u32 (BSIZE - off mod BSIZE))).
  assert (m = Z.min (len - tot) (512 - off mod 512)) as Hm by (unfold m; change BSIZE with 512; rewrite !u32_small by dlia; done).
  rewrite (u32_small (off + m)) by dlia. rewrite (u32_small (tot + m)) by dlia.
  destruct (IH fl fl r1 c1 t1 bs2 (i32 (n + 1)) rq1 (off + m) (tot + m) Hal1 Hc2) as (ie' & fl' & r0' & c3' & t' & bs' & n' & rq' & Hal' & Hc' & E);
    [dlia..| |].
  { unfold blocks_of in *. destruct (Z.eqb_spec (len - tot) 0), (Z.eqb_spec (len - (tot + m)) 0); dlia. }
  exists ie', fl', r0', c3', t', bs', n', rq'. split; [done|]. split; [done|].
  replace (Z.to_nat (blocks_of off (len - tot))) with (1 + (Z.to_nat (blocks_of (off + m) (len - (tot + m))) + 0))%nat.
  2:{ unfold blocks_of in *. destruct (Z.eqb_spec (len - tot) 0), (Z.eqb_spec (len - (tot + m)) 0); dlia. }
  eapply settles_bind; [exact Eb|]. cbv zeta. erewrite (bind_done (get_buf b)); [|apply get_G, Hy]. erewrite (bind_done (brelse b)); [|exact Er].
  eapply settles_bind; [exact E|].
  destruct Hmine as (_ & _ & _ & _ & _ & Hda). rewrite Hda, (piece_of_extent _ _ nb) by (done || dlia).
  rewrite Z2Nat.inj_add, <- drop_drop by dlia. replace (Z.to_nat (len - (tot + m))) with (Z.to_nat (len - tot) - Z.to_nat m)%nat by dlia.
  replace (Z.to_nat (len - tot)) with (Z.to_nat m + (Z.to_nat (len - tot) - Z.to_nat m))%nat at 2 by dlia.
  rewrite <- take_take_drop. apply settles_done.
Qed.

(** The inode that a pointer names. *)
Definition inode_of (c : icache) (ip : iptr) : option inode :=
  match ip with ip_cache j => ic_inode c !! j | ip_inodefile => Some (ic_inodefile c) end.

(** A file, not a device, whose bytes lie in its extent, and that on the disk. *)
Definition file_on_disk (x : inode) : Prop :=
  i_type x <> T_DEV /\ 0 <= i_size x <= 512 * nblocks (i_data x) /\ 0 <= startblkno (i_data x) /\
  startblkno (i_data x) + nblocks (i_data x) <= FSSIZE.

(** The bytes of a file. *)
Definition file_bytes (x : inode) : list Z :=
  take (Z.to_nat (i_size x)) (extent_bytes (i_dev x) (startblkno (i_data x)) (Z.to_nat (nblocks (i_data x)))).

Lemma readi_eq ie fl r0 c3 t bs n rq ip x off len pid :
  alone pid t -> cache bs -> full_blocks -> (i_dev x = 0 \/ hd = true) -> inode_of ic ip = Some x ->
  i_lock x = mk_sleeplock 1 zero_lock pid -> file_on_disk x -> 0 <= off <= i_size x -> 0 <= len -> off + len < 2 ^ 32 ->
  let len' := Z.min len (i_size x - off) in
  exists ie' fl' r0' c3' t' bs' n' rq', alone pid t' /\ cache bs' /\
    settles (Z.to_nat (blocks_of off len')) (readi ip off len (W ie fl r0 c3 t bs n rq))
      (len', take (Z.to_nat len') (drop (Z.to_nat off) (file_bytes x))) (W ie' fl' r0' c3' t' bs' n' rq').
Proof.
  intros Hal Hc HB Hdev Hx Hlk (Hty & Hsz & Hst & Hend) Hoff Hlen Hw len'. pose proof Hal as [_ (p & Hp & Hpid & _) _].
  unfold FSSIZE in Hend. unfold readi. rewrite (bind_done _ _ _ true (W fl fl r0 c3 t bs n rq)).
  2:{ rewrite (holdingsleep_eq (inode_slp ip) _ (i_lock x) i p); [|destruct ip; cbn in *; by simplify_option_eq|by rewrite Hlk|by split; cbn|done|done].
      rewrite Hlk. cbn. rewrite Hpid, Z.eqb_refl. reflexivity. }
  cbn [negb]. rewrite (bind_done _ _ _ x (W fl fl r0 c3 t bs n rq)).
  2:{ destruct ip as [j|]; unfold get_inode; msimp; cbn in Hx; [|by simplify_eq]. change (ic_inode (k_ic _)) with (ic_inode ic). by rewrite Hx. }
  rewrite (proj2 (Z.eqb_neq _ _) Hty), (u32_small (off + len)) by lia.
  replace ((i_size x <? off) || (off + len <? off)) with false by lia.
  assert ((if i_size x <? off + len then u32 (i_size x - off) else len) = len') as ->.
  { unfold len'. destruct (Z.ltb_spec (i_size x) (off + len)); [rewrite u32_small by lia|]; lia. }
  cbv zeta. destruct (readi_loop_eq (Z.to_nat (len' / BSIZE) + 3) fl fl r0 c3 t bs n rq x off 0 len' pid (Z.to_nat (nblocks (i_data x))) Hal Hc HB Hdev Hst)
    as (ie' & fl' & r0' & c3' & t' & bs' & n' & rq' & Hal' & Hc' & E); [unfold FSSIZE; lia|lia|lia|lia|lia| |].
  { unfold blocks_of. change BSIZE with 512. destruct (len' - 0 =? 0); dlia. }
  rewrite Z.sub_0_r in E. exists ie', fl', r0', c3', t', bs', n', rq'. split; [done|]. split; [done|].
  rewrite <- (Nat.add_0_r (Z.to_nat (blocks_of off len'))). eapply settles_bind; [exact E|]. rewrite (i32_small len') by lia.
  unfold file_bytes. replace (Z.to_nat (i_size x)) with (Z.to_nat off + Z.to_nat (i_size x - off))%nat by lia.
  rewrite <- take_drop_commute, take_take. replace (_ `min` _)%nat with (Z.to_nat len') by lia. apply settles_done.
Qed.
End reading.

(** ** Properties *)

(** Process [i] with number [pid] runs in the kernel and holds no spin lock; it
    is the only one that can run; the disk is idle; the cache is clean. *)
Record reader (i : nat) (pid : Z) (s : kstate) : Prop := mk_reader {
  rd_ncli : ncli (k_cpu s) = 0;
  rd_proc : c_proc (k_cpu s) = Some i;
  rd_pt : pt_lock (k_pt s) = zero_lock;
  rd_bc : bc_lock (k_bc s) = zero_lock;
  rd_ide : idelock (k_ide s) = zero_lock;
  rd_queue : idequeue (k_ide s) = None;
  rd_alone : alone i pid (pt_proc (k_pt s));
  rd_cache : cache (d_blocks (k_ide s)) (bufs s)
}.

(** Everything but the processor, the processes' states, the cache and the
    request of the disk is the same. *)
Definition unchanged (s s' : kstate) : Prop :=
  k_kmem s' = k_kmem s /\ k_frames s' = k_frames s /\ k_ft s' = k_ft s /\ k_ic s' = k_ic s /\ k_sb s' = k_sb s /\
  k_cons s' = k_cons s /\ k_devsw s' = k_devsw s /\ k_time s' = k_time s /\ kpml4 s' = kpml4 s /\
  d_blocks (k_ide s') = d_blocks (k_ide s) /\ havedisk1 (k_ide s') = havedisk1 (k_ide s).

Lemma readi_reads i pid s ip x off len :
  reader i pid s -> full_blocks (d_blocks (k_ide s)) -> (i_dev x = 0 \/ havedisk1 (k_ide s) = true) ->
  inode_of (k_ic s) ip = Some x -> i_lock x = mk_sleeplock 1 zero_lock pid -> file_on_disk x ->
  0 <= off <= i_size x -> 0 <= len -> off + len < 2 ^ 32 ->
  let len' := Z.min len (i_size x - off) in
  exists s', reader i pid s' /\ unchanged s s' /\
    forall N, blocks_of off len' <= Z.of_nat N ->
      drive (replicate N (serve i)) (readi ip off len s) =
      Done (len', take (Z.to_nat len') (drop (Z.to_nat off) (file_bytes (d_blocks (k_ide s)) x))) s'.
Proof.
  destruct s as [[nn ie fl o r0 c3] km fr [lp t ip0 np fst] ft ic sb [lb bs n ce cn] [li q hd rq Bl] co dv ti kp ev].
  intros [H1 H2 H3 H4 H5 H6 H7 H8]. unfold bufs in H8. cbn in *. subst. intros HB Hdev Hx Hlk Hf Ho Hl Hw.
  destruct (readi_eq km fr ft ic sb co dv ti kp ev ip0 np fst ce cn hd Bl i ie fl r0 c3 t bs n rq ip x off len pid H7 H8 HB Hdev Hx Hlk Hf Ho Hl Hw)
    as (ie' & fl' & r0' & c3' & t' & bs' & n' & rq' & Hal & Hc & E).
  eexists. split; [|split]; [| |intros N HN; apply (settles_drive _ _ _ _ _ E); lia].
  - split; try reflexivity; [exact Hal|exact Hc].
  - unfold unchanged, W, G. cbn. by split_and!.
Qed.

(** C11: Reading a file gives its bytes.  A process that holds the lock of a file's
    inode and calls [readi] gets the bytes of the file on the disk from [off] on,
    as many as it asked for or as there are, whatever the cache holds: for each
    block that is not cached it sleeps, the interrupt of the disk wakes it, and
    the scheduler runs it again; as many interrupts as there are blocks suffice.
    Afterwards the cache is clean and unused again and nothing else has changed. *)
Theorem readi_correct (i : nat) (pid : Z) (s : kstate) (ip : iptr) (x : inode) (off len : Z)
  (Hs : reader i pid s) (HB : full_blocks (d_blocks (k_ide s))) (Hdev : i_dev x = 0 \/ havedisk1 (k_ide s) = true)
  (Hx : inode_of (k_ic s) ip = Some x) (Hlk : i_lock x = mk_sleeplock 1 zero_lock pid) (Hf : file_on_disk x)
  (Hoff : 0 <= off <= i_size x) (Hlen : 0 <= len) (Hw : off + len < 2 ^ 32) :
  let len' := Z.min len (i_size x - off) in
  exists s', reader i pid s' /\ unchanged s s' /\
    forall N, blocks_of off len' <= Z.of_nat N ->
      drive (replicate N (serve i)) (readi ip off len s) =
      Done (len', take (Z.to_nat len') (drop (Z.to_nat off) (file_bytes (d_blocks (k_ide s)) x))) s'.
Proof. by apply readi_reads. Qed.

(** *** On the image that mkfs built *)

(** Disk 1 holds the image [im]. *)
Definition disk_has (im : gmap Z (list Z)) (Bl : gmap (Z * Z) (list Z)) : Prop :=
  forall blk j, 0 <= blk < FSSIZE -> (j < 512)%nat ->
    on_disk Bl (place ROOTDEV blk) !! j = Some (default 0 (byte_of im (BSIZE * blk + Z.of_nat j))).

Lemma extent_lookup Bl dev start nb j : full_blocks Bl -> (j < 512 * nb)%nat ->
  extent_bytes Bl dev start nb !! j = on_disk Bl (place dev (start + Z.of_nat (j / 512))) !! (j mod 512)%nat.
Proof.
  intros HB Hj. pose proof (Nat.div_mod_eq j 512) as Ej. pose proof (Nat.mod_upper_bound j 512 ltac:(lia)) as Hm.
  assert (j / 512 < nb)%nat as Hq by lia.
  rewrite <- (Nat.add_0_r j) at 1. rewrite <- lookup_drop. rewrite Ej at 1. unfold extent_bytes.
  rewrite (drop_blocks (fun q => on_disk Bl (place dev (start + Z.of_nat q)))); [|intros; by apply on_disk_length|done|lia].
  rewrite lookup_app_l by (rewrite length_drop, on_disk_length by done; lia). by rewrite lookup_drop, Nat.add_0_r.
Qed.

Lemma image_extent im Bl st nb (bs : list Z) : full_blocks Bl -> disk_has im Bl -> holds im (BSIZE * st) bs ->
  0 <= st -> st + Z.of_nat nb <= FSSIZE -> (length bs <= 512 * nb)%nat ->
  take (length bs) (extent_bytes Bl ROOTDEV st nb) = bs.
Proof.
  intros HB Him Hh Hst Hfit Hlen. apply list_eq. intros j. destruct (decide (j < length bs)%nat) as [Hj|Hj].
  - rewrite lookup_take_lt by done. rewrite extent_lookup by (done || lia).
    pose proof (Nat.div_mod_eq j 512) as Ej. pose proof (Nat.mod_upper_bound j 512 ltac:(lia)) as Hm.
    rewrite Him by lia. destruct (lookup_lt_is_Some_2 bs j Hj) as [c Hc]. rewrite Hc.
    replace (BSIZE * (st + Z.of_nat (j / 512)) + Z.of_nat (j mod 512)) with (BSIZE * st + Z.of_nat j) by (change BSIZE with 512; lia).
    by rewrite (Hh j c Hc).
  - rewrite lookup_take_ge by lia. symmetry. apply lookup_ge_None. lia.
Qed.

(** C12: What goes into the image comes out of [readi].  For every list of files
    that fit, mkfs succeeds; on a machine whose disk 1 holds its image, a process
    that holds the inode loaded from the entry of the [k]-th file and reads from
    [off] on gets the bytes of that file of the host. *)
Theorem mkfs_files_read_back (files : list infile) (s : mkfs) (Hinit : freeinode s = 0)
    (Hok : Forall file_ok files) (Hfew : Z.of_nat (length files) + 3 < 2 ^ 16)
    (Hfit : data_start (Z.of_nat (length files) + 3) + total files <= FSSIZE) :
  exists s', mkfs_main files s = Done tt s' /\
    forall k f i pid ks ip x y off len, files !! k = Some f ->
      reader i pid ks -> full_blocks (d_blocks (k_ide ks)) -> disk_has (img s') (d_blocks (k_ide ks)) -> havedisk1 (k_ide ks) = true ->
      inode_of (k_ic ks) ip = Some x -> x = load_dinode (disk_inode (img s') (3 + Z.of_nat k)) y -> i_dev x = ROOTDEV ->
      i_lock x = mk_sleeplock 1 zero_lock pid -> 0 <= off <= size_of f -> 0 <= len -> off + len < 2 ^ 32 ->
      let len' := Z.min len (size_of f - off) in
      exists ks', reader i pid ks' /\ unchanged ks ks' /\ forall N, blocks_of off len' <= Z.of_nat N ->
        drive (replicate N (serve i)) (readi ip off len ks) =
        Done (len', take (Z.to_nat len') (drop (Z.to_nat off) (data f))) ks'.
Proof.
  replace (Z.of_nat (length files) + 3) with (3 + Z.of_nat (length files)) in * by lia.
  destruct (mkfs_main_image files s Hinit Hok Hfit) as (s' & E & Him). exists s'. split; [done|].
  intros k f i pid ks ip x y off len Hk Hr HB Hd Hh Hx Hy Hdev Hlk Hoff Hlen Hw.
  destruct (image_file_inode files (img s') Him Hfew Hfit k f Hk) as (Ei & Hho & Hst & Hend). rewrite Ei in Hy.
  pose proof (blocks_nonneg f) as [Hb0 Hb1]. pose proof (size_of_nonneg f) as Hsz. change BSIZE with 512 in Hb1.
  assert (i_size x = size_of f) as Es by (by rewrite Hy).
  assert (file_bytes (d_blocks (k_ide ks)) x = data f) as Eb.
  { unfold file_bytes. rewrite Es, Hdev. rewrite Hy. cbn [i_data load_dinode set_i_data d_data startblkno nblocks].
    unfold size_of at 1. rewrite Nat2Z.id. apply (image_extent (img s')); [exact HB|exact Hd|exact Hho|exact Hst|lia|unfold size_of in *; lia]. }
  destruct (readi_reads i pid ks ip x off len) as (ks' & Hr' & Hu & HN);
    [exact Hr|exact HB|by right|exact Hx|exact Hlk| |by rewrite Es|exact Hlen|exact Hw|].
  { unfold file_on_disk. rewrite Es, Hy. cbn [i_type i_data load_dinode set_i_data set_i_size set_i_devid set_i_type d_type d_data nblocks startblkno].
    split; [by vm_compute|lia]. }
  rewrite Es, Eb in HN. exists ks'. exact (conj Hr' (conj Hu HN)).
Qed.

(** *** Examples *)

(** The first [n] blocks of disk 1 with the image [im]. *)
Definition disk_upto (n : Z) (im : gmap Z (list Z)) : gmap (Z * Z) (list Z) :=
  list_to_map ((fun blk => (place ROOTDEV blk, disk_bytes im (BSIZE * blk) 512)) <$> seqZ 0 n).
Definition disk_of : gmap Z (list Z) -> gmap (Z * Z) (list Z) := disk_upto FSSIZE.

Lemma place_small dev blk : 0 <= blk < FSSIZE -> place dev blk = (Z.land dev 1, blk).
Proof. intros H. unfold place, FSSIZE in *. change (BSIZE / SECTOR_SIZE) with 1. rewrite Z.mul_1_r. f_equal. word. Qed.

Lemma disk_upto_lookup n im blk : n <= FSSIZE -> 0 <= blk < n ->
  disk_upto n im !! place ROOTDEV blk = Some (disk_bytes im (BSIZE * blk) 512).
Proof.
  intros Hn H. unfold disk_upto. apply elem_of_list_to_map.
  - rewrite <- list_fmap_compose. apply NoDup_fmap_2_strong; [|apply NoDup_seqZ].
    intros b1 b2 H1%elem_of_seqZ H2%elem_of_seqZ. cbn [compose fst]. rewrite !place_small by lia. by intros [= ->].
  - apply list_elem_of_fmap. exists blk. split; [done|]. apply elem_of_seqZ. lia.
Qed.

Lemma disk_of_has im : disk_has im (disk_of im).
Proof.
  intros blk j Hb Hj. unfold on_disk. unfold disk_of. rewrite disk_upto_lookup by (done || lia). cbn [default option_rect id]. unfold disk_bytes.
  rewrite list_lookup_fmap, lookup_seq_lt by done. done.
Qed.

Lemma disk_upto_full n im : full_blocks (disk_upto n im).
Proof.
  intros k l H. unfold disk_upto in H. apply elem_of_list_to_map_2, list_elem_of_fmap in H as (b & [= -> ->] & _).
  unfold disk_bytes. by rewrite length_fmap, length_seq.
Qed.

(** Process 0, number 1, holds the inode [x]; the cache is empty, and disk 1 is [Bl]. *)
Definition read_proc : proc := set_p_vspace (set_pgtbl 4096 zero_vspace) (set_kstack 4096 (set_p_state RUNNING (set_p_pid 1 zero_proc))).
Definition read_demo (Bl : gmap (Z * Z) (list Z)) (x : inode) : kstate :=
  let s := with_bufs binit_bufs (zero_state 0 Bl) in
  set_k_cpu (set_c_proc (Some 0%nat) (k_cpu s)) (put_proc 0 read_proc
    (set_k_ide (set_havedisk1 true (k_ide s)) (set_k_ic (set_ic_inode (<[0%nat := x]> (ic_inode (k_ic s))) (k_ic s)) s))).

Lemma binit_unused Bl : cache Bl binit_bufs.
Proof.
  split; [eexists; apply binit_lru|]. intros j x _ Hx.
  assert (Forall (fun x => b_refcnt x = 0 /\ b_lock x = zero_sleeplock /\ b_flags x = 0) binit_bufs) as H
    by (vm_compute; repeat constructor).
  destruct (Forall_lookup_1 _ _ j x H Hx) as (H1 & H2 & H3). unfold unused. rewrite H1, H2. split_and!; [done..|by left].
Qed.

Lemma read_demo_reader Bl x : reader 0 1 (read_demo Bl x).
Proof.
  split; try reflexivity; [|exact (binit_unused Bl)]. split; [reflexivity|by exists read_proc|].
  intros j q Hj Hq. change (<[0%nat := read_proc]> (replicate NPROC zero_proc) !! j = Some q) in Hq.
  rewrite list_lookup_insert_ne in Hq by done. by apply lookup_replicate in Hq as [-> _].
Qed.

(** A file of 600 bytes in blocks 7 and 8. *)
Definition demo_inode : inode := mk_inode 1 3 1 1 (mk_sleeplock 1 zero_lock 1) T_FILE 0 600 (mk_extent 7 2).
Definition demo_disk : gmap (Z * Z) (list Z) := {[ (1, 7) := replicate 512 65; (1, 8) := replicate 512 66 ]}.

Lemma readi_correct_witness :
  exists s', drive (replicate 2 (serve 0)) (readi (ip_cache 0) 500 50 (read_demo demo_disk demo_inode)) =
    Done (50, replicate 12 65 ++ replicate 38 66) s'.
Proof.
  destruct (readi_correct 0 1 (read_demo demo_disk demo_inode) (ip_cache 0) demo_inode 500 50) as (s' & _ & _ & H).
  - exact (read_demo_reader demo_disk demo_inode).
  - intros k l Hk. change (demo_disk !! k = Some l) in Hk. unfold demo_disk in Hk.
    apply lookup_insert_Some in Hk as [[_ <-]|[_ Hk]]; [apply length_replicate|].
    apply lookup_singleton_Some in Hk as [_ <-]. apply length_replicate.
  - by right.
  - reflexivity.
  - reflexivity.
  - by vm_compute.
  - by vm_compute.
  - lia.
  - lia.
  - exists s'. rewrite (H 2%nat) by (by vm_compute). reflexivity.
Defined.

Lemma mkfs_files_read_back_witness :
  exists s' ks ks', mkfs_main [demo_file] (mk_mkfs ∅ 0 0 (mk_superblock 0 0 0 0)) = Done tt s' /\
    ks = read_demo (disk_of (img s')) (load_dinode (disk_inode (img s') 3) demo_inode) /\
    drive (replicate 1 (serve 0)) (readi (ip_cache 0) 0 100 ks) = Done (3, [1; 2; 3]) ks'.
Proof.
  destruct (mkfs_files_read_back [demo_file] (mk_mkfs ∅ 0 0 (mk_superblock 0 0 0 0))) as (s' & E & H); [reflexivity| |by vm_compute|by vm_compute|].
  { constructor; [|constructor]. split; [reflexivity|]. split; [by apply (bool_decide_unpack _); vm_compute|].
    exists [[1; 2]; [3]]. split; [reflexivity|]. by repeat constructor. }
  destruct (H 0%nat demo_file 0%nat 1 (read_demo (disk_of (img s')) (load_dinode (disk_inode (img s') 3) demo_inode)) (ip_cache 0)
    (load_dinode (disk_inode (img s') 3) demo_inode) demo_inode 0 100) as (ks' & _ & _ & HN).
  - reflexivity.
  - apply read_demo_reader.
  - apply (disk_upto_full FSSIZE).
  - apply disk_of_has.
  - reflexivity.
  - reflexivity.
  - reflexivity.
  - reflexivity.
  - reflexivity.
  - change (0 <= 0 <= 3). lia.
  - lia.
  - lia.
  - exists s'. eexists. exists ks'. split; [exact E|]. split; [reflexivity|]. apply (HN 1%nat). change (1 <= 1). lia.
Defined.
