(* ===== verification/Main.v ===== *)
(** * Boot: [kernel/main.c] and the report of [kernel/e820.c]

    [main] up to the call of the scheduler.  What the machine provides are
    arguments: the memory map, the boot image, whether the serial port and the
    second disk are there, and what the [cpuid] instruction answers.  The
    interrupt controllers keep no state that the rest of the kernel reads:
    their initialisation is in [Apic]. *)

From S2P Require Import Prelude Types Strings Spinlock Mmu Kalloc X86vm Umem Vspace Sched.
From S2P Require Import Console Cpuid Kbd Sleeplock Ide Bio Fs File Proc Syscall.

(** What the hardware and the boot loader hand over. *)
Record machine := mk_machine {
  m_entries : list e820_entry;
  m_mmap_addr : Z;
  m_mmap_length : Z;
  m_cpuid : Z -> Z * Z * Z * Z;
  m_uart : bool;
  m_disk1 : bool;
  m_init : list Z;
  m_init_size : Z
}.

Definition e820_map_types : list string :=
  ["available"; "reserved"; "ACPI reclaimable"; "ACPI NVS"; "unusable"]%string.

Definition print_e820_map_type (type : Z) : K unit :=
  if (1 <=? type) && (type <=? 5)
  then cprintf (default ""%string (e820_map_types !! Z.to_nat (type - 1))) []
  else cprintf "type %u" [va_int type].

Definition e820_print (m : machine) : K unit :=
  cprintf (String.append "E820: physical memory map [mem 0x%x-0x%x]" nl)
    [va_int (m_mmap_addr m); va_int (u32 (m_mmap_addr m + m_mmap_length m - 1))] ;;
  mfor (m_entries m) (fun e =>
    cprintf "  [mem 0x%x-0x%x] " [va_int (e_addr e); va_int (u64 (e_addr e + e_len e - 1))] ;;
    print_e820_map_type (e_type e) ;;
    cprintf nl []).

(** The last line of [detect_memory]. *)
Definition memory_report (entries : list e820_entry) : K unit :=
  cprintf (String.append "E820: physical memory %dMB" nl)
    [va_int (Z.min (detect_loop entries 0) mem_max / 1024 / 1024)].

Definition main (m : machine) : K unit :=
  detect_memory (m_entries m) ;;
  memory_report (m_entries m) ;;
  km <- gets k_kmem ;;
  mem_init (k_end km) ;;
  vspacebootinit ;;
  consoleinit ;;
  uartinit (m_uart m) ;;
  cpuid_print (m_cpuid m) ;;
  e820_print m ;;
  cprintf (String.append nl (String.append "cpu%d: starting xk" (String.append nl nl))) [va_int 0] ;;
  km <- gets k_kmem ;;
  cprintf (String.append "free pages: %d" nl) [va_int (free_pages km)] ;;
  pinit ;;
  tvinit ;;
  binit ;;
  ideinit (m_disk1 m) ;;
  userinit (m_init m) (m_init_size m) ;;
  cprintf (String.append "cpu%d: starting" nl) [va_int 0].
