(* ===== verification/Invariant.v ===== *)
(** * The kernel's invariant

    [kinv] is what holds of the kernel's tables whenever no thread is in the
    middle of an update: at most one process is running, descriptors and parents
    are valid indices, every process that can run has a kernel stack and a page
    table, the buffer cache is one doubly linked list that caches every disk
    block at most once, and the console's ring buffer and cursor are in range.
    [numbered] says that process numbers are distinct, which is so until the
    counter they come from wraps around.  Every operation of the kernel maintains
    both; [System.v] draws the conclusion for the machine. *)

From S2P Require Import Prelude Logic Types Strings Spinlock Mmu Kalloc X86vm Umem Vspace Frame Sched.
From S2P Require Import Console Kbd Sleeplock Ide Bio Fs File Proc Syscall.

(** ** The process table *)

(** A process that has run or can run. *)
Definition started (st : procstate) : bool :=
  match st with UNUSED | EMBRYO => false | _ => true end.

Record proc_ok (p : proc) : Prop := {
  po_files : length (files p) = NOFILE;
  po_fd : forall f, Some f ∈ files p -> (f < NFILE)%nat;
  po_regions : length (regions (p_vspace p)) = NREGIONS;
  po_parent : forall i, parent p = Some i -> (i < NPROC)%nat;
  po_started : started (p_state p) = true -> kstack p <> 0 /\ pgtbl (p_vspace p) <> 0
}.

(** [ps] is the table, [ini] the first process. *)
Record pt_ok (ps : list proc) (ini : option nat) : Prop := {
  pk_len : length ps = NPROC;
  pk_init : forall i, ini = Some i -> (i < NPROC)%nat;
  pk_proc : forall i p, ps !! i = Some p -> proc_ok p
}.

(** The process numbers of the table [ps], when [nx] is the next one. *)
Record nums_ok (ps : list proc) (nx : Z) : Prop := {
  nb_next : 0 < nx < 2 ^ 31;
  nb_proc : forall i p, ps !! i = Some p -> 0 <= p_pid p < nx /\ (p_state p <> UNUSED -> p_pid p <> 0);
  nb_distinct : forall i j p q, ps !! i = Some p -> ps !! j = Some q ->
    p_pid p = p_pid q -> p_pid p <> 0 -> i = j
}.

Definition numbered (s : kstate) : Prop := nums_ok (pt_proc (k_pt s)) (nextpid (k_pt s)).

(** ** The other tables *)

(** At most one buffer caches a block; a buffer that was never used says block
    0 of device 0. *)
Definition cached_once (bs : list buf) : Prop :=
  forall i j b c, (i < NBUF)%nat -> (j < NBUF)%nat -> bs !! i = Some b -> bs !! j = Some c ->
    b_dev b = b_dev c -> b_blockno b = b_blockno c -> (b_dev b, b_blockno b) <> (0, 0) -> i = j.

Definition bc_ok (bs : list buf) : Prop := (exists l, lru bs l) /\ cached_once bs.

(** [r <= w <= e <= r + INPUT_BUF], counted modulo 2^32. *)
Record input_ok (k : input_t) : Prop := {
  ik_buf : length (in_buf k) = 128%nat;
  ik_w : u32 (in_w k - in_r k) <= u32 (in_e k - in_r k);
  ik_e : u32 (in_e k - in_r k) <= INPUT_BUF;
  ik_range : 0 <= in_r k < 2 ^ 32 /\ 0 <= in_w k < 2 ^ 32 /\ 0 <= in_e k < 2 ^ 32
}.

Record kinv (s : kstate) : Prop := {
  kv_pt : pt_ok (pt_proc (k_pt s)) (initproc (k_pt s));
  kv_run : forall j p, proc_at s j = Some p -> p_state p = RUNNING -> c_proc (k_cpu s) = Some j;
  kv_ft : length (file_table (k_ft s)) = NFILE;
  kv_ic : length (ic_inode (k_ic s)) = NINODE;
  kv_bc : bc_ok (bc_buf (k_bc s));
  kv_in : input_ok (input (k_cons s));
  kv_crt : length (crt (k_cons s)) = 2000%nat /\ 0 <= cursor (k_cons s) < 24 * 80
}.

(** ** What a running thread maintains

    [cur]: the current process; the flag says that its state is [RUNNING],
    which a thread that is about to call [sched] has changed already. *)
Definition cur (r : option (nat * bool)) (s : kstate) : Prop :=
  match r with
  | None => c_proc (k_cpu s) = None
  | Some (i, run) =>
      c_proc (k_cpu s) = Some i /\ exists p, proc_at s i = Some p /\ (run = true -> p_state p = RUNNING)
  end.

(** A slot that only this thread uses: a process under construction or an
    exited child being collected. *)
Inductive stage := Fresh | Stacked | Ready.
Definition stage_ok (g : stage) (p : proc) : Prop :=
  match g with
  | Fresh => True
  | Stacked => kstack p <> 0
  | Ready => kstack p <> 0 /\ pgtbl (p_vspace p) <> 0
  end.

Definition own (e : option (nat * procstate * stage)) (s : kstate) : Prop :=
  match e with
  | None => True
  | Some (c, st, g) =>
      (st = EMBRYO \/ st = ZOMBIE) /\ exists p, proc_at s c = Some p /\ p_state p = st /\ stage_ok g p
  end.

(** Process numbers are not exhausted. *)
Definition pids_left (s : kstate) : Prop := nextpid (k_pt s) < 2 ^ 31 - 1.

(** Whether the lemmas speak of process numbers: a proposition that implies that
    their counter has not wrapped around so far.  The rest of the invariant does
    not depend on it. *)
Class Counting := counted : Prop.

Record thread `{NC : Counting} (r : option (nat * bool)) (e : option (nat * procstate * stage)) (b : bool)
    (s : kstate) : Prop := {
  th_inv : kinv s;
  th_cur : cur r s;
  th_own : own e s;
  th_pids : counted -> numbered s /\ (b = true -> pids_left s)
}.

(** Nobody is running: the state of the machine while the scheduler is. *)
Definition idle `{NC : Counting} (s : kstate) : Prop :=
  kinv s /\ (counted -> numbered s) /\ forall j p, proc_at s j = Some p -> p_state p <> RUNNING.

(** The context of the kernel thread of process [w] ([None] for the boot code
    and for an interrupt that found the machine idle), what it guarantees when
    it gives up the processor (which only a process can do), and what it may
    assume when the scheduler resumes it. *)
Definition running (w : option nat) : option (nat * bool) := (fun i => (i, true)) <$> w.
Definition yielded `{NC : Counting} (w : option nat) (s : kstate) : Prop := is_Some w /\ idle s.
Definition resumed `{NC : Counting} (w : option nat) : kstate -> Prop := thread (running w) None true.

Lemma rest_eq s s' :
  rest s' = rest s ->
  pt_proc (k_pt s') = pt_proc (k_pt s) /\ nextpid (k_pt s') = nextpid (k_pt s) /\
  initproc (k_pt s') = initproc (k_pt s) /\ file_table (k_ft s') = file_table (k_ft s) /\
  ic_inode (k_ic s') = ic_inode (k_ic s) /\ bc_buf (k_bc s') = bc_buf (k_bc s) /\
  input (k_cons s') = input (k_cons s) /\ crt (k_cons s') = crt (k_cons s) /\
  cursor (k_cons s') = cursor (k_cons s) /\ c_proc (k_cpu s') = c_proc (k_cpu s).
Proof. unfold rest. intros E. injection E as E1 E2 E3 E4 E5 E6 E7 E8 E9 E10. by split_and!. Qed.

Lemma kinv_rest : rest_only kinv.
Proof.
  intros s s' (E1 & E2 & E3 & E4 & E5 & E6 & E7 & E8 & E9 & E10)%rest_eq [H1 H2 H3 H4 H5 H6 H7].
  split; [by rewrite E1, E3| |by rewrite E4|by rewrite E5|by rewrite E6|by rewrite E7|by rewrite E8, E9].
  intros j p. unfold proc_at. rewrite E1, E10. apply H2.
Qed.

Lemma thread_rest `{NC : Counting} r e b : rest_only (thread r e b).
Proof.
  intros s s' E [H1 H2 H3 H4]. split; [by eapply kinv_rest| | |];
    destruct (rest_eq _ _ E) as (E1 & E2 & E3 & E4 & E5 & E6 & E7 & E8 & E9 & E10).
  - unfold cur, proc_at in *. by rewrite E1, E10.
  - unfold own, proc_at in *. by rewrite E1.
  - unfold numbered, pids_left in *. by rewrite E1, E2.
Qed.
#[export] Hint Resolve thread_rest : keeps.

(** ** Updates of the process table *)

Lemma pt_ok_put ps ini i q : pt_ok ps ini -> proc_ok q -> pt_ok (<[i := q]> ps) ini.
Proof.
  intros [H1 H2 H3] Hq. split; [by rewrite length_insert|done|].
  intros j x [(<- & <- & _)|[? ?]]%list_lookup_insert_Some; [done|by apply (H3 j)].
Qed.

Lemma nums_ok_put ps nx i p q :
  nums_ok ps nx -> ps !! i = Some p -> p_pid q = p_pid p \/ p_pid q = 0 ->
  (p_state q <> UNUSED -> p_pid q = p_pid p /\ p_state p <> UNUSED) -> nums_ok (<[i := q]> ps) nx.
Proof.
  intros [H3 H4 H5] Hi Hpid Hst. split; [done| |].
  - intros j x [(<- & <- & _)|[? ?]]%list_lookup_insert_Some; [|by apply (H4 j)].
    destruct (H4 i p Hi) as (Hr & Hl). split; [destruct Hpid; lia|].
    intros (-> & Hu)%Hst. by apply Hl.
  - intros j k x y Hx Hy E E0.
    apply list_lookup_insert_Some in Hx as [(<- & <- & _)|[Hne Hx]];
      apply list_lookup_insert_Some in Hy as [(<- & <- & _)|[Hne' Hy]]; [done| | |by eapply H5].
    + destruct Hpid as [Hp|Hp]; [|lia]. eapply H5; [exact Hi|exact Hy|congruence|congruence].
    + destruct Hpid as [Hp|Hp]; [|lia]. eapply H5; [exact Hx|exact Hi|congruence|congruence].
Qed.

(** Changes of a process that any thread may make at any time. *)
Record gentle (p q : proc) : Prop := {
  g_ok : proc_ok q;
  g_pid : p_pid q = p_pid p;
  g_kstack : kstack q = kstack p;
  g_pgtbl : pgtbl (p_vspace q) = pgtbl (p_vspace p);
  g_state : p_state q = p_state p \/ (p_state p = SLEEPING /\ p_state q = RUNNABLE)
}.

Lemma kinv_put s i q :
  kinv s -> proc_ok q -> (p_state q = RUNNING -> c_proc (k_cpu s) = Some i) -> kinv (put_proc i q s).
Proof.
  intros [H1 H2 H3 H4 H5 H6 H7] Hq Hrun. split; try done.
  - by apply pt_ok_put.
  - intros j x Hx Hr. unfold proc_at in Hx. cbn in Hx.
    apply list_lookup_insert_Some in Hx as [(<- & <- & _)|[Hne Hx]]; [by apply Hrun|by apply (H2 j x)].
Qed.

(** Putting back a process with its number, or without one in a free slot. *)
Lemma pids_put `{NC : Counting} (b : bool) s i p q :
  (counted -> numbered s /\ (b = true -> pids_left s)) -> proc_at s i = Some p ->
  p_pid q = p_pid p \/ p_pid q = 0 -> (p_state q <> UNUSED -> p_pid q = p_pid p /\ p_state p <> UNUSED) ->
  counted -> numbered (put_proc i q s) /\ (b = true -> pids_left (put_proc i q s)).
Proof. intros Hn Hp Hpid Hst [H1 H2]%Hn. split; [by eapply nums_ok_put|done]. Qed.

Lemma kinv_proc s i p : kinv s -> proc_at s i = Some p -> proc_ok p.
Proof. intros H Hp. by apply (pk_proc _ _ (kv_pt _ H) i). Qed.

Lemma proc_at_put_inv s i q j x :
  proc_at (put_proc i q s) j = Some x -> (i = j /\ x = q) \/ (i <> j /\ proc_at s j = Some x).
Proof.
  unfold proc_at; cbn. intros [(<- & <- & _)|[? ?]]%list_lookup_insert_Some; [by left|by right].
Qed.

Lemma thread_gentle `{NC : Counting} r e b s i p q :
  thread r e b s -> proc_at s i = Some p -> gentle p q -> thread r e b (put_proc i q s).
Proof.
  intros [H1 H2 H3 H4] Hi [G1 G2 G3 G4 G5].
  split; [| | |apply (pids_put b s i p q H4 Hi (or_introl G2)); split; [done|destruct G5 as [|[-> _]]; congruence]].
  - eapply kinv_put; [done|done|].
    intros Hq. apply (kv_run _ H1 i p Hi). destruct G5 as [|[_ E]]; congruence.
  - destruct r as [[j run]|]; [|done]. destruct H2 as (Hc & x & Hx & Hr). split; [done|].
    destruct (decide (i = j)) as [->|Hne].
    + exists q. split; [by eapply proc_at_put|]. intros E. specialize (Hr E). simplify_eq.
      destruct G5 as [|[? ?]]; congruence.
    + exists x. by rewrite proc_at_put_ne.
  - destruct e as [[[c st] g]|]; [|done]. destruct H3 as (Hst & x & Hx & Hxs & Hg). split; [done|].
    destruct (decide (i = c)) as [->|Hne].
    + exists q. simplify_eq. split; [by eapply proc_at_put|]. split.
      * destruct G5 as [|[E _]]; [done|]. rewrite E in Hst. by destruct Hst.
      * destruct g; cbn in *; rewrite ?G3, ?G4; done.
    + exists x. by rewrite proc_at_put_ne.
Qed.

Section procs.
Context `{NC : Counting} (r : option (nat * bool)) (e : option (nat * procstate * stage)) (b : bool) (I R : kstate -> Prop).

Abbreviation maintains m := (gives I R (thread r e b) m (fun _ => True)).

Lemma gives_get_proc i :
  gives I R (thread r e b) (get_proc i) (fun p => proc_ok p /\ (i < NPROC)%nat).
Proof.
  apply gives_intro. intros s Hs. unfold get_proc. msimp. destruct (pt_proc (k_pt s) !! i) as [p|] eqn:E; [|done].
  split; [done|]. pose proof (th_inv _ _ _ _ Hs) as Hk. split; [by apply (kinv_proc s i p Hk)|].
  rewrite <- (pk_len _ _ (kv_pt _ Hk)). by eapply lookup_lt_Some.
Qed.

Lemma gives_me : gives I R (thread r e b) me (fun i => exists run, r = Some (i, run)).
Proof.
  apply gives_intro. intros s Hs. unfold me, myproc. msimp. destruct (c_proc (k_cpu s)) as [i|] eqn:E; [|done].
  split; [done|]. destruct Hs as [_ H _ _]. destruct r as [[j run]|]; cbn in H; [|congruence].
  exists run. destruct H as [? _]. congruence.
Qed.

Lemma keeps_upd_proc i f :
  (forall p, proc_ok p -> (i < NPROC)%nat -> gentle p (f p)) -> maintains (upd_proc i f).
Proof.
  intros H. apply gives_intro. intros s Hs. destruct (proc_at s i) as [p|] eqn:E.
  2: { unfold upd_proc, get_proc, bind, gets. cbn. unfold proc_at in E. by rewrite E. }
  rewrite (upd_proc_eq s i f p E). split; [|done].
  pose proof (th_inv _ _ _ _ Hs) as Hk.
  eapply (thread_gentle _ _ _ _ _ p (f p)); [done|done|]. apply H.
  - by apply (kinv_proc s i p Hk).
  - rewrite <- (pk_len _ _ (kv_pt _ Hk)). by eapply lookup_lt_Some.
Qed.
End procs.

#[export] Hint Resolve gives_get_proc gives_me : keeps.

(** ** Gentle updates *)

Lemma gentle_same p q :
  proc_ok p -> files q = files p -> p_vspace q = p_vspace p -> parent q = parent p ->
  p_state q = p_state p -> kstack q = kstack p -> p_pid q = p_pid p -> gentle p q.
Proof.
  intros [H1 H2 H3 H4 H5] E1 E2 E3 E4 E5 E6.
  split; [split|done|done|by rewrite E2|by left]; by rewrite ?E1, ?E2, ?E3, ?E4, ?E5.
Qed.

Lemma gentle_wake ch p : proc_ok p -> gentle p (wake ch p).
Proof.
  intros H. unfold wake. destruct (decide _) as [[E _]|]; [|by apply gentle_same].
  destruct H as [H1 H2 H3 H4 H5]. rewrite E in H5.
  split; [by split|done|done|done|]. right. by rewrite E.
Qed.

Lemma gentle_files p fd o :
  proc_ok p -> (forall f, o = Some f -> (f < NFILE)%nat) ->
  gentle p (set_files (<[fd := o]> (files p)) p).
Proof.
  intros [H1 H2 H3 H4 H5] Ho. split; [|done|done|done|by left].
  split; [by cbn; rewrite length_insert| |done|done|done]. cbn.
  intros f [i [(_ & E & _)|[_ Hi]]%list_lookup_insert_Some]%list_elem_of_lookup; [by apply Ho|].
  apply H2. by eapply list_elem_of_lookup_2.
Qed.

Lemma gentle_parent p o :
  proc_ok p -> (forall i, o = Some i -> (i < NPROC)%nat) -> gentle p (set_parent o p).
Proof. intros [H1 H2 H3 H4 H5] Ho. split; [by split|done|done|done|by left]. Qed.

(** The updates of a process that change none of what [proc_ok] is about. *)
Ltac gentle := intros ? ? ?; apply gentle_same; done.

Lemma thread_wake `{NC : Counting} r e b s ch :
  thread r e b s -> thread r e b (set_k_pt (set_pt_proc (wake ch <$> pt_proc (k_pt s)) (k_pt s)) s).
Proof.
  intros [H1 H2 H3 H4].
  assert (Hat : forall j, proc_at (set_k_pt (set_pt_proc (wake ch <$> pt_proc (k_pt s)) (k_pt s)) s) j
                = wake ch <$> proc_at s j) by (intros j; unfold proc_at; cbn; apply list_lookup_fmap).
  assert (Hst : forall p, p_state (wake ch p) = p_state p \/
            (p_state p = SLEEPING /\ p_state (wake ch p) = RUNNABLE)).
  { intros p. unfold wake. destruct (decide _) as [[? _]|]; [by right|by left]. }
  assert (Hid : forall p, p_pid (wake ch p) = p_pid p /\ kstack (wake ch p) = kstack p /\
                 p_vspace (wake ch p) = p_vspace p).
  { intros p. unfold wake. by destruct (decide _). }
  split.
  - destruct H1 as [[P1 P2 P4] K2 K3 K4 K5 K6 K7]. split; try done.
    + split; [by cbn; rewrite length_fmap|done|]; cbn.
      intros i p. rewrite list_lookup_fmap. intros (x & Hx & ->)%fmap_Some. apply gentle_wake. by apply (P4 i).
    + intros j p. rewrite Hat. intros (x & Hx & ->)%fmap_Some Hr.
      apply (K2 j x Hx). destruct (Hst x) as [<-|[_ E]]; congruence.
  - destruct r as [[j run]|]; [|done]. destruct H2 as (Hc & x & Hx & Hr). split; [done|].
    exists (wake ch x). rewrite Hat, Hx. split; [done|]. intros E. specialize (Hr E).
    destruct (Hst x) as [|[? _]]; congruence.
  - destruct e as [[[c st] g]|]; [|done]. destruct H3 as (Hs & x & Hx & Hxs & Hg). split; [done|].
    exists (wake ch x). rewrite Hat, Hx. destruct (Hid x) as (_ & E1 & E2). split_and!; [done| |].
    + destruct (Hst x) as [|[E _]]; [congruence|]. destruct Hs; congruence.
    + destruct g; cbn in *; by rewrite ?E1, ?E2.
  - intros [[P3 P4 P5] Hl]%H4. split; [|done]. split; [done| |]; cbn.
    + intros i p. rewrite list_lookup_fmap. intros (x & Hx & ->)%fmap_Some.
      destruct (P4 i x Hx) as (Hp & Hu). destruct (Hid x) as (-> & _ & _). split; [done|].
      destruct (Hst x) as [->|[E _]]; [done|]. intros _. apply Hu. by rewrite E.
    + intros i j p q. rewrite !list_lookup_fmap.
      intros (x & Hx & ->)%fmap_Some (y & Hy & ->)%fmap_Some.
      destruct (Hid x) as (-> & _ & _), (Hid y) as (-> & _ & _). by apply P5.
Qed.

#[export] Hint Extern 1 (lock_ok (thread _ _ _) _) =>
  solve [apply lock_frame_ok; [apply thread_rest|apply _]] : keeps.
#[export] Hint Extern 1 (gives _ _ (thread _ _ _) (upd_proc _ _) _) =>
  solve [apply keeps_upd_proc; gentle] : keeps.

(** ** The scheduler's interface *)

Lemma keeps_wakeups I R J : gives I R J wakeups (fun _ => True).
Proof. by apply gives_gets. Qed.
#[export] Hint Resolve keeps_wakeups : keeps.

(** What [sched] does, whatever the state. *)
Lemma sched_cases s :
  (exists msg, sched s = Panic msg \/ sched s = Fault msg) \/
  exists i p, c_proc (k_cpu s) = Some i /\ proc_at s i = Some p /\ p_state p <> RUNNING /\
    sched s = Block (put_proc i (save_context p) s)
                (fun s' => Done tt (set_k_cpu (set_intena (intena (k_cpu s)) (k_cpu s')) s')).
Proof.
  unfold sched. rewrite (bind_done _ _ _ _ _ (eq_refl : holding ptable_lk s = Done _ s)).
  destruct (negb _); [left; eexists; by left|]. msimp.
  destruct (negb _); [left; eexists; by left|].
  destruct (c_proc (k_cpu s)) as [i|] eqn:Hc.
  2: { left. exists "null proc pointer"%string. right. unfold my, me, myproc, bind, gets. cbn. by rewrite Hc. }
  destruct (proc_at s i) as [p|] eqn:Hp.
  2: { left. exists "proc pointer"%string. right. unfold bind at 1. unfold my.
       rewrite (bind_done _ _ _ _ _ (me_eq s i Hc)). unfold get_proc. msimp.
       unfold proc_at in Hp. by rewrite Hp. }
  mstep (my_eq s i p Hc Hp). destruct (decide _); [left; eexists; by left|].
  unfold readeflags_if; msimp. destruct (eflags_if _); [left; eexists; by left|].
  right. exists i, p. split_and!; try done.
  mstep (me_eq s i Hc). mstep (upd_proc_eq s i save_context p Hp). done.
Qed.

Lemma hoare_sched `{NC : Counting} i b :
  hoare (yielded (Some i)) (resumed (Some i)) (thread (Some (i, false)) None b) sched (fun _ => resumed (Some i)).
Proof.
  intros s Hs. destruct (sched_cases s) as [(msg & [->| ->])|(j & p & Hc & Hp & Hst & ->)]; [done..|].
  assert (Hg : thread (Some (i, false)) None b (put_proc j (save_context p) s)).
  { eapply thread_gentle; [done..|]. apply gentle_same; try done.
    by apply (kinv_proc s j p (th_inv _ _ _ _ Hs) Hp). }
  cbn [runs]. split.
  - split; [done|]. split; [by apply Hg|]. split; [by intros Hn; apply Hg|]. intros k x Hx Hr.
    pose proof (kv_run _ (th_inv _ _ _ _ Hg) k x Hx Hr) as Hk. cbn in Hk. simplify_eq.
    apply proc_at_put_inv in Hx as [[_ ->]|[? _]]; [|done]. by apply Hst.
  - intros s' Hs'. cbn [runs]. eapply thread_rest; [|exact Hs']. done.
Qed.

(** The current process stops running. *)
Lemma hoare_stop `{NC : Counting} I R i st b :
  started st = true -> st <> RUNNING ->
  hoare I R (thread (Some (i, true)) None b) (upd_proc i (set_p_state st))
    (fun _ => thread (Some (i, false)) None b).
Proof.
  intros Hst Hne s [H1 H2 H3 H4]. destruct H2 as (Hc & p & Hp & Hr). specialize (Hr eq_refl).
  destruct (kinv_proc _ _ _ H1 Hp) as [P1 P2 P3 P4 P5].
  rewrite (upd_proc_eq s i _ p Hp). cbn [runs]. split; [| |done|].
  - eapply kinv_put; [done| |by intros E; cbn in E]. split; try done. intros _. apply P5. by rewrite Hr.
  - split; [done|]. eexists. split; [by eapply proc_at_put|done].
  - eapply pids_put; [done|done|by left|]. intros _. by rewrite Hr.
Qed.

(** ** Sleeping and waking *)

Lemma thread_weaken `{NC : Counting} r e b s : thread r e true s -> thread r e b s.
Proof. intros [H1 H2 H3 H4]. split; [done..|]. intros [Hn Hl]%H4. auto. Qed.

Lemma keeps_wakeup1 `{NC : Counting} I R r e b ch : gives I R (thread r e b) (wakeup1 ch) (fun _ => True).
Proof. apply gives_modify. intros s. apply thread_wake. Qed.
#[export] Hint Resolve keeps_wakeup1 : keeps.

Lemma keeps_wakeup `{NC : Counting} I R r e b ch : gives I R (thread r e b) (wakeup ch) (fun _ => True).
Proof. unfold wakeup. kauto. Qed.
#[export] Hint Resolve keeps_wakeup : keeps.

(** Giving up the processor after the state changed to [st]. *)
Lemma gives_stop_sched `{NC : Counting} {A} w b st i (k : K A) Q :
  started st = true -> st <> RUNNING -> running w = Some (i, true) ->
  gives (yielded w) (resumed w) (thread (running w) None b) k Q ->
  gives (yielded w) (resumed w) (thread (running w) None b) (upd_proc i (set_p_state st) ;; sched ;; k) Q.
Proof.
  intros Hst Hne Hr Hk. destruct w as [j|]; [|done]. cbn in Hr. simplify_eq. apply gives_intro.
  change (hoare (yielded (Some i)) (resumed (Some i)) (thread (running (Some i)) None b)
    (upd_proc i (set_p_state st) ;; sched ;; k)
    (fun a s' => thread (running (Some i)) None b s' /\ Q a)).
  eapply hoare_bind; [by apply hoare_stop|]. intros [].
  eapply hoare_bind; [apply (hoare_sched i b)|]. intros [] s' H.
  apply (gives_elim _ _ _ _ _ _ Hk). by apply thread_weaken.
Qed.

Lemma running_run w i run : running w = Some (i, run) -> run = true.
Proof. destruct w; cbn; congruence. Qed.

(** What [me] returned. *)
Ltac me_running :=
  match goal with
  | H : exists run, running _ = Some (_, run) |- _ =>
      destruct H as [? H]; rewrite (running_run _ _ _ H) in H
  end.

Lemma keeps_sleep `{NC : Counting} w b ch lk :
  match lk with sl_ptable => True | sl_other L => lock_ok (thread (running w) None b) L end ->
  gives (yielded w) (resumed w) (thread (running w) None b) (sleep ch lk) (fun _ => True).
Proof.
  intros HL. unfold sleep, myproc. kstep. 1: apply gives_gets; intros s Hs; exact I.
  destruct a as [a|]; [|kauto].
  simple eapply gives_bind; [destruct lk; kauto|]. intros [] _.
  kstep. kstep. kstep. me_running.
  apply gives_stop_sched; [done..|]. destruct lk; kauto.
Qed.

Lemma keeps_yield `{NC : Counting} w b : gives (yielded w) (resumed w) (thread (running w) None b) yield (fun _ => True).
Proof.
  unfold yield. kstep. kstep. me_running.
  apply gives_stop_sched; [done..|]. kauto.
Qed.
#[export] Hint Resolve keeps_yield : keeps.
#[export] Hint Extern 1 (gives _ _ _ (sleep _ (sl_other _)) _) =>
  solve [apply keeps_sleep; eauto 2 with keeps] : keeps.
#[export] Hint Extern 1 (gives _ _ _ (sleep _ sl_ptable) _) =>
  solve [apply keeps_sleep; exact I] : keeps.

Lemma keeps_kill `{NC : Counting} I R r e b pid : gives I R (thread r e b) (kill pid) (fun _ => True).
Proof.
  unfold kill. kauto. apply keeps_upd_proc. intros p Hp _.
  assert (G : gentle p (set_killed 1 p)) by (by apply gentle_same).
  destruct (decide _) as [E|]; [|done]. destruct G as [[G1 G2 G3 G4 G5] ? ? ? ?].
  split; [|done|done|done|by right]. split; [done..|]. intros _. apply G5. by rewrite E.
Qed.
#[export] Hint Resolve keeps_kill : keeps.

(** ** The console *)

Definition cons_ok (k : console) : Prop :=
  input_ok (input k) /\ length (crt k) = 2000%nat /\ 0 <= cursor k < 24 * 80.

Lemma thread_cons `{NC : Counting} r e b s k :
  thread r e b s -> cons_ok k -> thread r e b (set_k_cons k s).
Proof.
  intros [H1 H2 H3 H4] (K1 & K2 & K3). split; [|done..].
  destruct H1. by split.
Qed.

Lemma thread_cons_ok `{NC : Counting} r e b s : thread r e b s -> cons_ok (k_cons s).
Proof. intros [H _ _ _]. exact (conj (kv_in _ H) (kv_crt _ H)). Qed.

(** Predicates that know that the console is in order and nothing else about it. *)
Definition cons_known (J : kstate -> Prop) : Prop := forall s, J s -> cons_ok (k_cons s).
Definition cons_closed (J : kstate -> Prop) : Prop :=
  forall s k, J s -> cons_ok k -> J (set_k_cons k s).

Section console.
Context (I R J : kstate -> Prop) (HJ : rest_only J) (HK : cons_known J) (HC : cons_closed J).

Abbreviation maintains m := (gives I R J m (fun _ => True)).

Lemma keeps_upd_cons f : (forall k, cons_ok k -> cons_ok (f k)) -> maintains (upd_cons f).
Proof.
  intros H. apply gives_modify. intros s Hs. apply HC; [done|]. apply H, HK, Hs.
Qed.

Lemma keeps_uartputc c : maintains (uartputc c).
Proof. unfold uartputc. kauto. by apply keeps_upd_cons. Qed.

Lemma keeps_crt_set pos v : maintains (crt_set pos v).
Proof.
  apply keeps_upd_cons. intros k (K1 & K2 & K3). split; [done|].
  split; [by cbn; rewrite length_insert|done].
Qed.
Hint Resolve keeps_uartputc keeps_crt_set : keeps.

Lemma length_scroll pos cells :
  length cells = 2000%nat -> 0 <= pos <= 24 * 80 -> length (scroll pos cells) = 2000%nat.
Proof.
  intros H Hp. unfold scroll. rewrite !length_app, length_replicate, !length_take, !length_drop.
  rewrite !length_app, !length_take, !length_drop. lia.
Qed.

(** The cursor after a character is on the screen or one past it. *)
Lemma keeps_cgaputc c : maintains (cgaputc c).
Proof.
  unfold cgaputc. simple eapply gives_bind.
  { apply (gives_gets _ _ _ _ (fun k => cons_ok k)). intros s Hs. by apply HK. }
  intros k (K1 & K2 & K3). simple eapply (gives_bind _ _ _ _ _ (fun _ => True)); [kauto|].
  intros _ _. pose proof (proj1 (advance_range c _ K3)) as Ha. cbv zeta.
  destruct (_ || _) eqn:E; [kauto|]. simple eapply (gives_bind _ _ _ _ _ (fun p => 0 <= p < 24 * 80)).
  - destruct (24 <=? _) eqn:E2; [|apply gives_ret; bprop; dlia].
    simple eapply (gives_bind _ _ _ _ _ (fun _ => True)); [|intros; apply gives_ret; bprop; dlia].
    apply keeps_upd_cons. intros k' (? & ? & ?). split; [done|]. split; [|done]. cbn. apply length_scroll; [done|].
    bprop. dlia.
  - intros pos Hpos. simple eapply (gives_bind _ _ _ _ _ (fun _ => True)); [|intros; kauto].
    apply keeps_upd_cons. intros k' (? & ? & ?). split; [done|]. split; [done|]. cbn. word.
Qed.
Hint Resolve keeps_cgaputc : keeps.

Lemma keeps_consputc c : maintains (consputc c).
Proof. unfold consputc. kauto. Qed.
Hint Resolve keeps_consputc : keeps.

Lemma keeps_puts cs : maintains (puts cs).
Proof. unfold puts. kauto. Qed.
Hint Resolve keeps_puts : keeps.

Lemma keeps_cprintf_loop fmt pct args : maintains (cprintf_loop fmt pct args).
Proof.
  revert pct args. induction fmt as [|c fmt IH]; intros; cbn [cprintf_loop];
    unfold printint, printint64; kauto.
Qed.
Hint Resolve keeps_cprintf_loop : keeps.

Lemma keeps_cprintf fmt args : maintains (cprintf fmt args).
Proof.
  assert (lock_ok J cons_lk) by (apply lock_frame_ok; [done|apply _]). unfold cprintf. kauto.
Qed.
End console.

Lemma thread_known `{NC : Counting} r e b : cons_known (thread r e b).
Proof. intros s. apply thread_cons_ok. Qed.

Lemma thread_closed `{NC : Counting} r e b : cons_closed (thread r e b).
Proof. intros s k. apply thread_cons. Qed.
#[export] Hint Resolve thread_known thread_closed : keeps.
#[export] Hint Resolve keeps_consputc keeps_puts keeps_cprintf keeps_uartputc : keeps.

(** ** Console input *)

Lemma input_erase k :
  input_ok k -> in_e k <> in_w k -> input_ok (set_in_e (u32 (in_e k - 1)) k).
Proof. intros [H1 H2 H3 H4] Hne. split; cbn; [done| | |]; unfold INPUT_BUF in *; word. Qed.

Lemma input_store k c :
  input_ok k -> u32 (in_e k - in_r k) < INPUT_BUF ->
  input_ok (set_in_e (u32 (in_e k + 1))
              (set_in_buf (<[Z.to_nat (in_e k mod INPUT_BUF) := c]> (in_buf k)) k)).
Proof.
  intros [H1 H2 H3 H4] Hr. split; cbn; [by rewrite length_insert| | |]; unfold INPUT_BUF in *; word.
Qed.

Lemma input_commit k : input_ok k -> input_ok (set_in_w (in_e k) k).
Proof. intros [H1 H2 H3 H4]. split; cbn; [done|lia|done|lia]. Qed.

Lemma input_take k : input_ok k -> in_r k <> in_w k -> input_ok (set_in_r (u32 (in_r k + 1)) k).
Proof. intros [H1 H2 H3 H4] Hne. split; cbn; [done| | |]; unfold INPUT_BUF in *; word. Qed.

Section input.
Context `{NC : Counting} (r : option (nat * bool)) (e : option (nat * procstate * stage)) (b : bool) (I R : kstate -> Prop).

Abbreviation maintains m := (gives I R (thread r e b) m (fun _ => True)).

(** In a state whose input buffer is [k]. *)
Definition at_input (J : kstate -> Prop) (k : input_t) (s : kstate) : Prop :=
  J s /\ input (k_cons s) = k.

Lemma gives_get_input {A} (f : input_t -> K A) Q :
  (forall k, input_ok k -> hoare I R (at_input (thread r e b) k) (f k)
     (fun a s => thread r e b s /\ Q a)) ->
  gives I R (thread r e b) (bind (gets (fun s => input (k_cons s))) f) Q.
Proof.
  intros H. apply gives_intro. intros s Hs. msimp. apply H; [|by split].
  by apply (kv_in _ (th_inv _ _ _ _ Hs)).
Qed.

Lemma hoare_in_char {A} k i (f : Z -> K A) Q :
  (forall c, hoare I R (at_input (thread r e b) k) (f c) Q) ->
  hoare I R (at_input (thread r e b) k) (bind (in_char k i) f) Q.
Proof.
  intros H s Hs. unfold in_char. destruct (in_buf k !! _); [|done]. by apply H.
Qed.

(** Forget the value read. *)
Lemma hoare_forget {A} k (m : K A) Q :
  gives I R (thread r e b) m Q ->
  hoare I R (at_input (thread r e b) k) m (fun a s => thread r e b s /\ Q a).
Proof. intros H s [Hs _]. by apply gives_elim. Qed.

Lemma hoare_upd_input {A} k f (m : K A) Q :
  input_ok (f k) -> gives I R (thread r e b) m Q ->
  hoare I R (at_input (thread r e b) k) (upd_input f ;; m) (fun a s => thread r e b s /\ Q a).
Proof.
  intros Hk Hm s [Hs <-]. unfold upd_input, upd_cons. msimp. apply gives_elim; [done|].
  apply thread_cons; [done|]. destruct (thread_cons_ok _ _ _ _ Hs) as (_ & K2 & K3). by split.
Qed.

Lemma keeps_upd_input f : (forall k, input_ok k -> input_ok (f k)) -> maintains (upd_input f).
Proof.
  intros H. apply keeps_upd_cons; [apply thread_known|apply thread_closed|].
  intros k (K1 & K2 & K3). split; [by apply H|done].
Qed.

Lemma keeps_kill_line fuel : maintains (kill_line fuel).
Proof.
  induction fuel as [|fuel IH]; cbn [kill_line]; [kauto|].
  apply gives_get_input. intros k Hk. destruct (_ =? _) eqn:E; [apply hoare_forget; kauto|].
  apply hoare_in_char. intros c. destruct (c =? NL); [apply hoare_forget; kauto|].
  bprop. apply (hoare_upd_input _ _ (consputc BACKSPACE ;; kill_line fuel)); [by apply input_erase|].
  kauto.
Qed.
Hint Resolve keeps_kill_line : keeps.

Lemma keeps_console_char c : maintains (console_char c).
Proof.
  unfold console_char. apply gives_get_input. intros k Hk.
  destruct (c =? ctrl 85); [apply hoare_forget; kauto|].
  destruct ((c =? ctrl 72) || (c =? 127)).
  - destruct (in_e k =? in_w k) eqn:E2; [apply hoare_forget; kauto|]. bprop.
    apply hoare_upd_input; [by apply input_erase|kauto].
  - destruct (_ || _) eqn:E3; [apply hoare_forget; kauto|]. cbv zeta.
    apply hoare_upd_input; [bprop; by apply input_store|]. kauto.
    apply keeps_upd_input, input_commit.
Qed.
Hint Resolve keeps_console_char : keeps.

Lemma keeps_procdump : maintains procdump.
Proof. unfold procdump. kauto. Qed.
Hint Resolve keeps_procdump : keeps.

Lemma keeps_consoleintr n getc : maintains getc -> maintains (consoleintr n getc).
Proof.
  intros H. unfold consoleintr. kauto. generalize (S n) as fuel, false as dump. intros fuel.
  induction fuel as [|fuel IH]; intros dump; cbn [consoleintr_loop]; kauto.
Qed.

Lemma keeps_uartintr : maintains uartintr.
Proof.
  unfold uartintr. kauto. apply keeps_consoleintr. unfold uartgetc. kauto. by apply keeps_upd_cons; eauto with keeps.
Qed.

Lemma keeps_kbdintr : maintains kbdintr.
Proof.
  unfold kbdintr. kauto. apply keeps_consoleintr. unfold kbdgetc. kauto. by apply keeps_upd_cons; eauto with keeps.
Qed.

Lemma keeps_consolewrite buf n : maintains (consolewrite buf n).
Proof. unfold consolewrite. kauto. Qed.
End input.
#[export] Hint Resolve keeps_uartintr keeps_kbdintr keeps_consolewrite : keeps.

Section consoleread.
Context `{NC : Counting} (w : option nat) (b : bool).

Abbreviation J := (thread (running w) None b).
Abbreviation hoare' := (hoare (yielded w) (resumed w)).
Abbreviation maintains m := (gives (yielded w) (resumed w) J m (fun _ => True)).

Lemma hoare_consoleread_wait fuel :
  hoare' J (consoleread_wait fuel) (fun dead s => J s /\
    (dead = false -> in_r (input (k_cons s)) <> in_w (input (k_cons s)))).
Proof.
  induction fuel as [|fuel IH]; cbn [consoleread_wait]; [done|].
  apply hoare_gets. intros k. destruct (in_r k =? in_w k) eqn:E.
  - eapply hoare_pre; [|intros s [Hs _]; exact Hs].
    eapply (hoare_bind _ _ _ _ _ (fun _ => J)).
    + apply (hoare_gives _ _ _ _ (fun _ => True)). unfold my. kauto.
    + intros p. destruct (truthy _); [by intros s Hs|].
      eapply (hoare_bind _ _ _ _ _ (fun _ => J)); [|by intros _].
      apply (hoare_gives _ _ _ _ (fun _ => True)). kauto.
  - intros s [Hs <-]. split; [done|]. intros _. by bprop.
Qed.

Lemma keeps_consoleread_loop n target : maintains (consoleread_loop n target).
Proof.
  induction n as [|n IH]; cbn [consoleread_loop]; [kauto|].
  kstep.
  change (hoare' J (dead <- consoleread_wait a ;;
      if (dead : bool) then ret (true, []) else
      k <- gets (fun s => input (k_cons s)) ;;
      c <- in_char k (in_r k) ;;
      upd_input (fun k => set_in_r (u32 (in_r k + 1)) k) ;;
      if c =? ctrl 68 then
        (if (S n <? target)%nat then upd_input (fun k => set_in_r (u32 (in_r k - 1)) k) else ret tt) ;;
        ret (false, [])
      else if c =? NL then ret (false, [c]) else
      let* (dead, l) := consoleread_loop n target in ret (dead, c :: l))
    (fun _ s => J s /\ True)).
  eapply hoare_bind; [apply hoare_consoleread_wait|]. intros [|].
  { intros s [Hs _]. by split. }
  intros s [Hs Hne]. specialize (Hne eq_refl). msimp.
  pose proof (kv_in _ (th_inv _ _ _ _ Hs)) as Hk. unfold in_char.
  destruct (_ !! _) as [c|]; [|done]. msimp. unfold upd_input, upd_cons. msimp.
  set (s1 := set_k_cons _ s).
  assert (H1 : J s1).
  { apply thread_cons; [done|]. destruct (thread_cons_ok _ _ _ _ Hs) as (_ & K2 & K3).
    split; [by apply input_take|done]. }
  destruct (c =? ctrl 68).
  - destruct (_ <? _)%nat; [|by split]. msimp. split; [|done]. eapply thread_cons; [done|].
    destruct (thread_cons_ok _ _ _ _ Hs) as (_ & K2 & K3). split; [|done]. cbn.
    assert (E : u32 (u32 (in_r (input (k_cons s)) + 1) - 1) = in_r (input (k_cons s)))
      by (destruct Hk; word).
    rewrite E. by destruct (input (k_cons s)).
  - destruct (c =? NL); [by split|]. apply gives_elim; [|done]. kauto.
Qed.
Hint Resolve keeps_consoleread_loop : keeps.

Lemma keeps_consoleread n : maintains (consoleread n).
Proof. unfold consoleread. kauto. Qed.
End consoleread.
#[export] Hint Resolve keeps_consoleread : keeps.

(** ** Buffers and inodes *)

Lemma thread_bufs `{NC : Counting} r e b s bs : thread r e b s -> bc_ok bs -> thread r e b (with_bufs bs s).
Proof. intros [H1 H2 H3 H4] Hb. split; [|done..]. destruct H1. by split. Qed.

Lemma thread_bufs_ok `{NC : Counting} r e b s : thread r e b s -> bc_ok (bufs s).
Proof. intros [H _ _ _]. apply (kv_bc _ H). Qed.

(** Changes of a buffer that keep its place in the list and its block. *)
Definition tame (f : buf -> buf) : Prop :=
  forall x, b_next (f x) = b_next x /\ b_prev (f x) = b_prev x /\
            b_dev (f x) = b_dev x /\ b_blockno (f x) = b_blockno x.

Lemma bc_ok_tame bs i f : tame f -> bc_ok bs -> bc_ok (alter f i bs).
Proof.
  intros Hf [[l Hl] Hc]. split.
  - exists l. apply lru_alter; [apply Hf..|done].
  - assert (Hinv : forall j x, alter f i bs !! j = Some x ->
      exists y, bs !! j = Some y /\ b_dev x = b_dev y /\ b_blockno x = b_blockno y).
    { intros j x Hx. destruct (decide (i = j)) as [->|Hne].
      - rewrite list_lookup_alter_eq in Hx. apply fmap_Some in Hx as (y & Hy & ->).
        exists y. split; [done|]. apply Hf.
      - rewrite list_lookup_alter_ne in Hx by done. by exists x. }
    intros j k x y Hj Hk (x' & Hx & Ex1 & Ex2)%Hinv (y' & Hy & Ey1 & Ey2)%Hinv E1 E2 Hne.
    eapply (Hc j k x' y'); congruence.
Qed.

Lemma thread_inodes `{NC : Counting} r e b s c :
  thread r e b s -> length (ic_inode c) = NINODE -> thread r e b (set_k_ic c s).
Proof. intros [H1 H2 H3 H4] Hl. split; [|done..]. destruct H1. by split. Qed.

(** A sleep lock whose setting maintains [J]. *)
Definition slp_ok (J : kstate -> Prop) (L : slpref) : Prop := forall s k, J s -> J (sp_set L k s).

Lemma slp_ok_spin J L : slp_ok J L -> lock_ok J (slp_spin L).
Proof. intros H s l Hs. cbn. destruct (sp_get L s); [by apply H|done]. Qed.

Lemma slp_ok_buf `{NC : Counting} r e b i : slp_ok (thread r e b) (buf_slp i).
Proof.
  intros s k Hs. apply (thread_bufs _ _ _ s); [done|]. apply bc_ok_tame; [done|].
  by eapply thread_bufs_ok.
Qed.

Lemma slp_ok_inode `{NC : Counting} r e b ip : slp_ok (thread r e b) (inode_slp ip).
Proof.
  destruct ip; intros s k Hs; cbn.
  - apply thread_inodes; [done|]. cbn. rewrite length_alter. apply (kv_ic _ (th_inv _ _ _ _ Hs)).
  - apply thread_inodes; [done|]. apply (kv_ic _ (th_inv _ _ _ _ Hs)).
Qed.
#[export] Hint Resolve slp_ok_spin slp_ok_buf slp_ok_inode : keeps.

Section buffers.
Context `{NC : Counting} (r : option (nat * bool)) (e : option (nat * procstate * stage)) (b : bool) (I R : kstate -> Prop).

Abbreviation maintains m := (gives I R (thread r e b) m (fun _ => True)).

Lemma keeps_get_buf i : maintains (get_buf i).
Proof. unfold get_buf. kauto. Qed.

Lemma keeps_upd_buf i f : tame f -> maintains (upd_buf i f).
Proof.
  intros Hf. apply gives_intro. intros s Hs. destruct (bufs s !! i) as [x|] eqn:E.
  - rewrite upd_buf_eq by (by rewrite E). split; [|done]. apply thread_bufs; [done|].
    apply bc_ok_tame; [done|]. by eapply thread_bufs_ok.
  - unfold upd_buf, get_buf, bind, gets. cbn. unfold bufs in E. by rewrite E.
Qed.

Lemma keeps_upd_bc f : (forall c, bc_buf (f c) = bc_buf c) -> maintains (upd_bc f).
Proof.
  intros H. apply (gives_modify_rest _ _ _ (thread_rest r e b)). intros s. unfold rest; cbn. by rewrite H.
Qed.

Lemma keeps_upd_ide f : maintains (upd_ide f).
Proof. by apply (gives_modify_rest _ _ _ (thread_rest r e b)). Qed.

Lemma keeps_get_inode ip : maintains (get_inode ip).
Proof. unfold get_inode. kauto. Qed.

Lemma keeps_upd_inode ip f : maintains (upd_inode ip f).
Proof.
  unfold upd_inode. simple eapply (gives_bind _ _ _ _ _ (fun _ => True)); [apply keeps_get_inode|].
  intros x _. apply gives_modify. intros s Hs.
  apply thread_inodes; [done|]. pose proof (kv_ic _ (th_inv _ _ _ _ Hs)).
  destruct ip; cbn; [by rewrite length_insert|done].
Qed.

Lemma keeps_slp_deref L : maintains (slp_deref L).
Proof. unfold slp_deref. kauto. Qed.

Lemma keeps_slp_upd L f : slp_ok (thread r e b) L -> maintains (slp_upd L f).
Proof.
  intros H. unfold slp_upd. simple eapply (gives_bind _ _ _ _ _ (fun _ => True)); [apply keeps_slp_deref|].
  intros k _. apply gives_modify. intros s. apply H.
Qed.
End buffers.
#[export] Hint Resolve keeps_get_buf keeps_upd_ide keeps_get_inode keeps_upd_inode keeps_slp_deref
  keeps_slp_upd : keeps.
#[export] Hint Extern 1 (gives _ _ (thread _ _ _) (upd_buf _ _) _) =>
  solve [apply keeps_upd_buf; done] : keeps.
#[export] Hint Extern 1 (gives _ _ (thread _ _ _) (upd_bc _) _) =>
  solve [apply keeps_upd_bc; done] : keeps.
