(* ===== verification/Maintain.v ===== *)
(** * Every operation maintains the invariant

    The sleep locks, the disk driver, the buffer cache, the file system, the
    open files and the processes: each function maintains [thread], the
    invariant of the kernel as seen by the thread that runs it. *)

From S2P Require Import Prelude Logic Types Strings Spinlock Mmu Kalloc X86vm Umem Vspace Frame Sched.
From S2P Require Import Console Kbd Sleeplock Ide Bio Fs File Proc Syscall Invariant.

(** ** The buffer cache's table *)

Definition has_key (dev blockno : Z) (x : buf) : bool := (b_dev x =? dev) && (b_blockno x =? blockno).

Definition recycle (dev blockno : Z) (x : buf) : buf :=
  set_b_refcnt 1 (set_b_flags 0 (set_b_blockno blockno (set_b_dev dev x))).

Lemma bfind_none bs test l i x :
  bfind bs test l = None -> i ∈ l -> bs !! i = Some x -> test x = false.
Proof.
  intros H Hi Hx. pose proof (List.find_none _ _ H i (proj1 (list_elem_of_In _ _) Hi)) as E. cbn in E. by rewrite Hx in E.
Qed.

Lemma lru_in bs l i : lru bs l -> (i < NBUF)%nat <-> i ∈ l.
Proof. intros H. rewrite (lru_perm _ _ H), elem_of_seq. lia. Qed.

(** A block that no buffer caches may be given to any buffer. *)
Lemma bc_ok_recycle bs l b dev blockno :
  lru bs l -> cached_once bs -> bfind bs (has_key dev blockno) l = None ->
  bc_ok (alter (recycle dev blockno) b bs).
Proof.
  intros Hl Hc Hn. split; [exists l; by apply lru_alter|].
  assert (Hk : forall i x, (i < NBUF)%nat -> bs !! i = Some x ->
             ~ (b_dev x = dev /\ b_blockno x = blockno)).
  { intros i x Hi Hx [E1 E2]. apply (lru_in _ _ _ Hl) in Hi.
    pose proof (bfind_none _ _ _ _ _ Hn Hi Hx) as E. unfold has_key in E.
    by rewrite E1, E2, !Z.eqb_refl in E. }
  intros i j x y Hi Hj Hx Hy E1 E2 Hne.
  destruct (decide (b = i)) as [Hbi|Hbi], (decide (b = j)) as [Hbj|Hbj]; [congruence| | |].
  - subst i. rewrite list_lookup_alter_eq in Hx. rewrite list_lookup_alter_ne in Hy by done.
    apply fmap_Some in Hx as (x' & _ & ->). cbn in *. destruct (Hk j y Hj Hy). by split.
  - subst j. rewrite list_lookup_alter_eq in Hy. rewrite list_lookup_alter_ne in Hx by done.
    apply fmap_Some in Hy as (y' & _ & ->). cbn in *. by destruct (Hk i x Hi Hx).
  - rewrite list_lookup_alter_ne in Hx, Hy by done. by eapply Hc.
Qed.

(** ** Sleep locks, the disk and the buffer cache *)

Section blocking.
Context `{NC : Counting} (w : option nat) (b : bool).

Abbreviation J := (thread (running w) None b).
Abbreviation maintains m := (gives (yielded w) (resumed w) J m (fun _ => True)).

Lemma gives_my : gives (yielded w) (resumed w) J my proc_ok.
Proof. unfold my. kauto. by destruct H0. Qed.
Hint Resolve gives_my : keeps.

Lemma keeps_acquiresleep L : slp_ok J L -> maintains (acquiresleep L).
Proof.
  intros HL. unfold acquiresleep. kauto.
  match goal with |- gives _ _ _ (acquiresleep_wait ?w _) _ => generalize w as fuel end. intros fuel.
  induction fuel as [|fuel IH]; cbn [acquiresleep_wait]; kauto.
Qed.

Lemma keeps_releasesleep L : slp_ok J L -> maintains (releasesleep L).
Proof. intros HL. unfold releasesleep. kauto. Qed.

Lemma keeps_holdingsleep L : slp_ok J L -> maintains (holdingsleep L).
Proof. intros HL. unfold holdingsleep. kauto. Qed.

Lemma keeps_initsleeplock L : slp_ok J L -> maintains (initsleeplock L).
Proof. intros HL. unfold initsleeplock. kauto. Qed.
Hint Resolve keeps_acquiresleep keeps_releasesleep keeps_holdingsleep keeps_initsleeplock : keeps.

Lemma keeps_idestart i : maintains (idestart i).
Proof. unfold idestart, idewait. kauto. Qed.
Hint Resolve keeps_idestart : keeps.

Lemma keeps_ide_append fuel j i : maintains (ide_append fuel j i).
Proof. revert j. induction fuel as [|fuel IH]; intros; cbn [ide_append]; kauto. Qed.
Hint Resolve keeps_ide_append : keeps.

Lemma keeps_iderw_wait fuel i : maintains (iderw_wait fuel i).
Proof. induction fuel as [|fuel IH]; intros; cbn [iderw_wait]; kauto. Qed.
Hint Resolve keeps_iderw_wait : keeps.

Lemma keeps_iderw i : maintains (iderw i).
Proof. unfold iderw. kauto. Qed.
Hint Resolve keeps_iderw : keeps.

Lemma keeps_ideintr : maintains ideintr.
Proof. unfold ideintr, idewait. kauto. Qed.

(** Both scans of [bget] return what [bfind] finds in the list. *)
Lemma gives_bget dev blockno : gives (yielded w) (resumed w) J (bget dev blockno) (fun i => (i < NBUF)%nat).
Proof.
  unfold bget. kstep. apply gives_intro. intros s Hs.
  destruct (thread_bufs_ok _ _ _ _ Hs) as [[l Hl] Hc].
  destruct (lru_some _ _ bhead Hl ltac:(left)) as [h Hh].
  mstep (get_buf_eq s bhead h Hh). mstep (bscan_next s l _ h Hl Hh).
  destruct (bfind _ _ l) as [i|] eqn:E.
  { apply bfind_some in E as [Hi _]. apply (lru_in _ _ _ Hl) in Hi.
    apply gives_elim; [|done]. kauto. }
  mstep (get_buf_eq s bhead h Hh). mstep (bscan_prev s l _ h Hl Hh).
  destruct (bfind _ _ (reverse l)) as [i|] eqn:E'; [|done].
  apply bfind_some in E' as [Hi (x & Hx & _)]. rewrite elem_of_reverse in Hi.
  apply (lru_in _ _ _ Hl) in Hi. mstep upd_buf_eq; [|by rewrite Hx].
  apply gives_elim; [kauto|]. apply thread_bufs; [done|]. by eapply bc_ok_recycle.
Qed.
Hint Resolve gives_bget : keeps.

Lemma gives_bread dev blockno : gives (yielded w) (resumed w) J (bread dev blockno) (fun i => (i < NBUF)%nat).
Proof. unfold bread. kauto. Qed.

Lemma keeps_bwrite i : maintains (bwrite i).
Proof. unfold bwrite, reboot. kauto. Qed.

Lemma keeps_move_to_front i : (i < NBUF)%nat -> maintains (move_to_front i).
Proof.
  intros Hi. apply gives_intro. intros s Hs. destruct (thread_bufs_ok _ _ _ _ Hs) as [[l Hl] Hc].
  apply (lru_in _ _ _ Hl) in Hi as (l1 & l2 & ->)%list_elem_of_split.
  destruct (move_to_front_lru s l1 i l2 Hl) as (bs & -> & Hl' & Hcore). split; [|done].
  apply thread_bufs; [done|]. split; [by eexists|].
  assert (Hinv : forall j x, bs !! j = Some x ->
    exists y, bufs s !! j = Some y /\ b_dev x = b_dev y /\ b_blockno x = b_blockno y).
  { intros j x Hx. assert (Hf : (buf_core <$> bs) !! j = Some (buf_core x))
      by (by rewrite list_lookup_fmap, Hx).
    rewrite Hcore, list_lookup_fmap in Hf. apply fmap_Some in Hf as (y & Hy & E). exists y.
    split; [done|]. split; [exact (f_equal b_dev E)|exact (f_equal b_blockno E)]. }
  intros j k x y Hj Hk (x' & Hx & Ex1 & Ex2)%Hinv (y' & Hy & Ey1 & Ey2)%Hinv E1 E2 Hne.
  eapply (Hc j k x' y'); congruence.
Qed.
Hint Resolve keeps_move_to_front : keeps.

Lemma keeps_brelse i : (i < NBUF)%nat -> maintains (brelse i).
Proof. intros Hi. unfold brelse. kauto. Qed.
End blocking.
#[export] Hint Resolve gives_my keeps_acquiresleep keeps_releasesleep keeps_holdingsleep
  keeps_initsleeplock keeps_iderw keeps_ideintr gives_bread keeps_bwrite keeps_brelse : keeps.

(** ** The file system *)

Section fs.
Context `{NC : Counting} (w : option nat) (b : bool).

Abbreviation J := (thread (running w) None b).
Abbreviation maintains m := (gives (yielded w) (resumed w) J m (fun _ => True)).

Lemma keeps_readsb dev : maintains (readsb dev).
Proof. unfold readsb. kauto. Qed.

Lemma keeps_upd_byte bp bi f : maintains (upd_byte bp bi f).
Proof. unfold upd_byte. kauto. Qed.
Hint Resolve keeps_readsb keeps_upd_byte : keeps.

Lemma keeps_bmark bp start last used' : maintains (bmark bp start last used').
Proof.
  unfold bmark. kauto. generalize (S (Z.to_nat (last - start + 1))) as fuel.
  generalize (i32 start) as bi. intros bi fuel. revert bi.
  induction fuel as [|fuel IH]; intros; cbn [bmark_loop]; kauto.
Qed.
Hint Resolve keeps_bmark : keeps.

Lemma keeps_balloc dev n : maintains (balloc dev n).
Proof.
  unfold balloc. kauto. generalize (S (S (Z.to_nat (sb_size a / BPB)))) as fuel. intros fuel.
  generalize 0 as c. induction fuel as [|fuel IH]; intros; cbn [balloc_loop]; kauto.
Qed.

Lemma keeps_bfree dev c n : maintains (bfree dev c n).
Proof. unfold bfree. kauto. Qed.

Lemma keeps_iget dev inum : maintains (iget dev inum).
Proof. unfold iget. kauto. Qed.

Lemma keeps_idup ip : maintains (idup ip).
Proof. unfold idup. kauto. Qed.

Lemma keeps_irelease ip : maintains (irelease ip).
Proof. unfold irelease. kauto. Qed.

Lemma keeps_dev_driver x : maintains (dev_driver x).
Proof. unfold dev_driver. kauto. Qed.

Lemma keeps_readi_loop fuel x off tot n : maintains (readi_loop fuel x off tot n).
Proof. revert off tot. induction fuel as [|fuel IH]; intros; cbn [readi_loop]; kauto. Qed.
Hint Resolve keeps_iget keeps_idup keeps_irelease keeps_dev_driver keeps_readi_loop : keeps.

Lemma keeps_readi ip off n : maintains (readi ip off n).
Proof. unfold readi. kauto. Qed.

Lemma keeps_writei ip src off n : maintains (writei ip src off n).
Proof. unfold writei. kauto. Qed.

Lemma keeps_unlocki ip : maintains (unlocki ip).
Proof. unfold unlocki. kauto. Qed.
Hint Resolve keeps_readi keeps_writei keeps_unlocki : keeps.

Lemma keeps_locki_rec fuel ip : maintains (locki_rec fuel ip).
Proof.
  revert ip. induction fuel as [|fuel IH]; intros; cbn [locki_rec]; unfold read_dinode; kauto.
Qed.

Lemma keeps_locki ip : maintains (locki ip).
Proof. apply keeps_locki_rec. Qed.
Hint Resolve keeps_locki : keeps.

Lemma keeps_concurrent_stati ip : maintains (concurrent_stati ip).
Proof. unfold concurrent_stati, stati. kauto. Qed.

Lemma keeps_concurrent_readi ip off n : maintains (concurrent_readi ip off n).
Proof. unfold concurrent_readi. kauto. Qed.

Lemma keeps_concurrent_writei ip src off n : maintains (concurrent_writei ip src off n).
Proof. unfold concurrent_writei. kauto. Qed.

Lemma keeps_dirlookup dp name : maintains (dirlookup dp name).
Proof.
  unfold dirlookup. kauto. generalize (S (S (Z.to_nat (i_size a / sizeof_dirent)))) as fuel.
  intros fuel. generalize 0 as off.
  induction fuel as [|fuel IH]; intros; cbn [dirlookup_loop]; kauto.
Qed.
Hint Resolve keeps_dirlookup : keeps.

Lemma keeps_namex_loop fuel ip path parent' name : maintains (namex_loop fuel ip path parent' name).
Proof.
  revert ip path name. induction fuel as [|fuel IH]; intros; cbn [namex_loop]; kauto.
Qed.
Hint Resolve keeps_namex_loop : keeps.

Lemma keeps_namex path parent' : maintains (namex path parent').
Proof. unfold namex, namei_root. kauto. Qed.
Hint Resolve keeps_namex : keeps.

Lemma keeps_iopen path : maintains (iopen path).
Proof. unfold iopen, namei. kauto. Qed.

Lemma keeps_iinit dev : maintains (iinit dev).
Proof.
  unfold iinit, init_inodefile. kauto. apply (gives_modify_rest _ _ _ (thread_rest _ _ _)). done.
Qed.
End fs.
#[export] Hint Resolve keeps_iget keeps_irelease keeps_concurrent_stati keeps_concurrent_readi
  keeps_concurrent_writei keeps_iopen keeps_iinit : keeps.

(** ** Open files and pipes *)

#[global] Instance pipe_lk_frame p : LockFrame (pipe_lk p).
Proof. intros s l. unfold rest. cbn. by destruct (pipe_of s p). Qed.

Section table.
Context `{NC : Counting} (r : option (nat * bool)) (e : option (nat * procstate * stage)) (b : bool) (I R : kstate -> Prop).

Abbreviation maintains m := (gives I R (thread r e b) m (fun _ => True)).

Lemma gives_get_fi i : gives I R (thread r e b) (get_fi i) (fun _ => (i < NFILE)%nat).
Proof.
  apply gives_intro. intros s Hs. unfold get_fi. msimp.
  destruct (file_table (k_ft s) !! i) as [x|] eqn:E; [|done]. split; [done|].
  rewrite <- (kv_ft _ (th_inv _ _ _ _ Hs)). by eapply lookup_lt_Some.
Qed.

Lemma gives_upd_fi i f : gives I R (thread r e b) (upd_fi i f) (fun _ => (i < NFILE)%nat).
Proof.
  unfold upd_fi. simple eapply gives_bind; [apply gives_get_fi|]. intros x Hi.
  simple eapply gives_mono; [|intros ? _; exact Hi]. apply gives_modify. intros s [H1 H2 H3 H4]. split; [|done..]. destruct H1. split; try done.
  cbn. by rewrite length_insert.
Qed.

Lemma keeps_get_pipe p : maintains (get_pipe p).
Proof. unfold get_pipe. kauto. Qed.
Hint Resolve gives_get_fi gives_upd_fi keeps_get_pipe : keeps.

Lemma keeps_upd_pipe p f : maintains (upd_pipe p f).
Proof. unfold upd_pipe. kauto. Qed.
End table.
#[export] Hint Resolve gives_get_fi gives_upd_fi keeps_get_pipe keeps_upd_pipe : keeps.

(** An entry of a process's table of descriptors. *)
Definition fd_ok (o : option nat) : Prop := forall f, o = Some f -> (f < NFILE)%nat.

Lemma fd_ok_none : fd_ok None.
Proof. by intros f. Qed.

Lemma fd_ok_some f : (f < NFILE)%nat -> fd_ok (Some f).
Proof. by intros ? ? [= <-]. Qed.
#[export] Hint Resolve fd_ok_none fd_ok_some : keeps.

Section files.
Context `{NC : Counting} (w : option nat) (b : bool).

Abbreviation J := (thread (running w) None b).
Abbreviation maintains m := (gives (yielded w) (resumed w) J m (fun _ => True)).

Lemma gives_get_fd fd :
  gives (yielded w) (resumed w) J (get_fd fd) fd_ok.
Proof.
  unfold get_fd. kauto. intros f ->. eapply po_fd; [done|]. by eapply list_elem_of_lookup_2.
Qed.

Lemma keeps_set_fd fd o : fd_ok o -> maintains (set_fd fd o).
Proof.
  intros Ho. unfold set_fd. kauto. apply keeps_upd_proc. intros p Hp _. by apply gentle_files.
Qed.
Hint Resolve gives_get_fd keeps_set_fd : keeps.

Lemma keeps_file_stat fd p : maintains (file_stat fd p).
Proof. unfold file_stat, store_stat. kauto. Qed.

Lemma keeps_file_dup fd : maintains (file_dup fd).
Proof. unfold file_dup. kauto. Qed.

Lemma keeps_pipe_write fd buf n : maintains (pipe_write fd buf n).
Proof.
  unfold pipe_write, pipe_put. kauto.
  match goal with |- gives _ _ _ (pipe_write_wait ?w _ _) _ => generalize w as fuel end. intros fuel.
  induction fuel as [|fuel IH]; cbn [pipe_write_wait]; kauto.
Qed.

Lemma keeps_pipe_read fd buf n : maintains (pipe_read fd buf n).
Proof.
  unfold pipe_read, pipe_get. kauto.
  match goal with |- gives _ _ _ (pipe_read_wait ?w _ _) _ => generalize w as fuel end. intros fuel.
  induction fuel as [|fuel IH]; cbn [pipe_read_wait]; kauto.
Qed.
Hint Resolve keeps_pipe_write keeps_pipe_read : keeps.

Lemma keeps_file_write fd buf n : maintains (file_write fd buf n).
Proof. unfold file_write. kauto. Qed.

Lemma keeps_file_read fd buf n : maintains (file_read fd buf n).
Proof. unfold file_read. kauto. Qed.

Lemma keeps_file_close fd : maintains (file_close fd).
Proof. unfold file_close, close_pipe, close_end. kauto. Qed.

Lemma keeps_file_open m p path : maintains (file_open m p path).
Proof. unfold file_open. kauto. Qed.

Lemma keeps_store_fds fd_arr l : maintains (store_fds fd_arr l).
Proof. revert fd_arr. induction l as [|i l IH]; intros; cbn [store_fds]; kauto. Qed.
Hint Resolve keeps_store_fds : keeps.

Lemma keeps_pipe_open fd_arr : maintains (pipe_open fd_arr).
Proof. unfold pipe_open. kauto. Qed.
End files.
#[export] Hint Resolve keeps_file_stat keeps_file_dup keeps_file_write keeps_file_read keeps_file_close
  keeps_file_open keeps_pipe_open : keeps.
