(* ===== verification/MaintainProc.v ===== *)
(** * Processes and traps maintain the invariant

    [allocproc] hands out a slot that only its caller uses, [fork] and
    [userinit] make it runnable, [exit] and [wait] give it back; system calls
    and interrupts put it all together. *)

From S2P Require Import Prelude Logic Types Strings Spinlock Mmu Kalloc X86vm Umem Vspace Frame Sched.
From S2P Require Import Console Kbd Sleeplock Ide Bio Fs File Proc Syscall Invariant Maintain.

(** ** Slots with one user *)

Lemma thread_own_put `{NC : Counting} r c st g e' b s p q :
  thread r (Some (c, st, g)) b s -> proc_at s c = Some p -> proc_ok q ->
  p_pid q = p_pid p \/ (p_pid q = 0 /\ p_state q = UNUSED) -> p_state q <> RUNNING ->
  own e' (put_proc c q s) -> thread r e' b (put_proc c q s).
Proof.
  intros [H1 H2 H3 H4] Hp Hq Hpid Hrun Ho. destruct H3 as (Hst & x & Hx & Hxs & Hg). simplify_eq.
  split; [by apply kinv_put|clear Ho|done|].
  - destruct r as [[j run]|]; [|done]. destruct H2 as (Hc & y & Hy & Hyr). split; [done|].
    destruct (decide (c = j)) as [->|Hne].
    + exists q. split; [by eapply proc_at_put|]. intros E. specialize (Hyr E). simplify_eq.
      destruct Hst; congruence.
    + exists y. by rewrite proc_at_put_ne.
  - eapply pids_put; [done|done|destruct Hpid as [|[? _]]; auto|].
    intros Hu. destruct Hpid as [->|[_ ?]]; [|done]. split; [done|]. destruct Hst; congruence.
Qed.

Section own.
Context `{NC : Counting} (r : option (nat * bool)) (b : bool) (I R : kstate -> Prop).

(** The user of a slot changes the process in it. *)
Lemma hoare_own_upd c st g g' f :
  (forall p, proc_ok p -> p_state p = st -> stage_ok g p ->
     proc_ok (f p) /\ p_pid (f p) = p_pid p /\ p_state (f p) = st /\ stage_ok g' (f p)) ->
  hoare I R (thread r (Some (c, st, g)) b) (upd_proc c f) (fun _ => thread r (Some (c, st, g')) b).
Proof.
  intros Hf s Hs. pose proof (th_own _ _ _ _ Hs) as (Hst & p & Hp & Hps & Hg).
  pose proof (th_inv _ _ _ _ Hs) as Hk. pose proof (kinv_proc _ _ _ Hk Hp) as Hok.
  destruct (Hf p Hok Hps Hg) as (F1 & F2 & F3 & F4). rewrite (upd_proc_eq s c f p Hp). cbn [runs].
  eapply thread_own_put; [done|done|done|by left| |].
  - rewrite F3. by destruct Hst as [-> | ->].
  - split; [done|]. exists (f p). split; [by eapply proc_at_put|done].
Qed.

(** The user of a slot gives it to everybody. *)
Lemma hoare_own_end c st g f :
  (forall p, proc_ok p -> p_state p = st -> stage_ok g p ->
     proc_ok (f p) /\ (p_pid (f p) = p_pid p \/ p_pid (f p) = 0 /\ p_state (f p) = UNUSED) /\
     p_state (f p) <> RUNNING) ->
  hoare I R (thread r (Some (c, st, g)) b) (upd_proc c f) (fun _ => thread r None b).
Proof.
  intros Hf s Hs. pose proof (th_own _ _ _ _ Hs) as (Hst & p & Hp & Hps & Hg).
  pose proof (th_inv _ _ _ _ Hs) as Hk. pose proof (kinv_proc _ _ _ Hk Hp) as Hok.
  destruct (Hf p Hok Hps Hg) as (F1 & F2 & F3). rewrite (upd_proc_eq s c f p Hp). cbn [runs].
  by eapply thread_own_put.
Qed.

Lemma gives_get_own c st g :
  gives I R (thread r (Some (c, st, g)) b) (get_proc c) (fun p => proc_ok p /\ p_state p = st).
Proof.
  apply gives_intro. intros s Hs. pose proof (th_own _ _ _ _ Hs) as (Hst & p & Hp & Hps & Hg).
  rewrite (get_proc_eq s c p Hp). split; [done|]. split; [|done].
  by apply (kinv_proc s c p (th_inv _ _ _ _ Hs)).
Qed.
End own.

(** A new process number is unused. *)
Lemma thread_alloc `{NC : Counting} r s i p :
  thread r None true s -> proc_at s i = Some p -> p_state p = UNUSED ->
  let q := set_killed 0 (set_p_pid (nextpid (k_pt s)) (set_p_state EMBRYO p)) in
  thread r (Some (i, EMBRYO, Fresh)) false
    (set_k_pt (set_nextpid (i32 (nextpid (k_pt s) + 1)) (k_pt (put_proc i q s))) (put_proc i q s)).
Proof.
  intros [H1 H2 _ H4] Hp Hu q. destruct H1 as [[P1 P2 P4] K2 K3 K4 K5 K6 K7].
  assert (Hlt : forall j x, <[i := q]> (pt_proc (k_pt s)) !! j = Some x ->
    (j = i /\ x = q) \/ (j <> i /\ pt_proc (k_pt s) !! j = Some x)).
  { intros j x [(<- & <- & _)|[? ?]]%list_lookup_insert_Some; auto. }
  destruct (P4 i p Hp) as [O1 O2 O3 O4 O5].
  split; [split; try done|clear K2| |].
  - split; [by cbn; rewrite length_insert|done|]; cbn.
    intros j x [[-> ->]|[Hne Hx]]%Hlt; [by split|by apply (P4 j)].
  - intros j x [[-> ->]|[Hne Hx]]%Hlt Hr; [done|]. by apply (K2 j x).
  - destruct r as [[j run]|]; [|done]. destruct H2 as (Hc & x & Hx & Hr). split; [done|].
    destruct (decide (i = j)) as [->|Hne].
    + exists q. split; [|intros E; specialize (Hr E); congruence]. unfold proc_at; cbn.
      apply list_lookup_insert_eq. by eapply lookup_lt_Some.
    + exists x. unfold proc_at; cbn. by rewrite list_lookup_insert_ne.
  - split; [by left|]. exists q. split; [|done]. unfold proc_at; cbn.
    apply list_lookup_insert_eq. by eapply lookup_lt_Some.
  - intros [[N1 N2 N3] Hl]%H4. specialize (Hl eq_refl). unfold pids_left in Hl. split; [|done].
    unfold numbered; cbn. rewrite i32_small by lia. split; [lia| |].
    + intros j x [[-> ->]|[Hne Hx]]%Hlt; [cbn; lia|]. destruct (N2 j x Hx) as (? & ?). split; [lia|done].
    + intros j k x y [[-> ->]|[Hj Hx]]%Hlt [[-> ->]|[Hk Hy]]%Hlt E E0; [done| | |by eapply N3].
      * cbn in E. destruct (N2 k y Hy) as (? & _). lia.
      * cbn in E. destruct (N2 j x Hx) as (? & _). lia.
Qed.

Lemma hoare_allocproc `{NC : Counting} r I R :
  hoare I R (thread r None true) allocproc (fun o s =>
    match o with
    | None => thread r None false s
    | Some c => thread r (Some (c, EMBRYO, Stacked)) false s
    end).
Proof.
  unfold allocproc. hstep. intros s Hs. msimp. destruct (list_find _ _) as [[i p]|] eqn:E.
  2: { assert (G : gives I R (thread r None true) (release ptable_lk ;; ret (@None nat))
                     (fun o => o = None)) by kauto.
       eapply runs_mono; [|apply (gives_elim _ _ _ _ _ _ G Hs)].
       intros o s' [Hs' ->]. by apply thread_weaken. }
  apply list_find_Some in E as (Hp & Hu & _). mstep (upd_proc_eq s i _ p Hp).
  unfold upd_pt at 1. msimp.
  set (s1 := set_k_pt _ _). assert (H1 : thread r (Some (i, EMBRYO, Fresh)) false s1)
    by exact (thread_alloc r s i p Hs Hp Hu). clearbody s1. clear s Hs Hp.
  revert s1 H1. change (hoare I R (thread r (Some (i, EMBRYO, Fresh)) false)
    (release ptable_lk ;; sp <- kalloc ;; upd_proc i (set_kstack sp) ;;
      if sp =? 0 then upd_proc i (set_p_state UNUSED) ;; ret None else
      upd_proc i (set_p_context new_context) ;; ret (Some i))
    (fun o s => match o with
      | None => thread r None false s
      | Some c => thread r (Some (c, EMBRYO, Stacked)) false s
      end)).
  hstep. hstep.
  destruct (_ =? 0) eqn:Esp.
  - eapply hoare_bind; [apply (hoare_own_upd _ _ _ _ _ _ Fresh Fresh)|].
    { intros q [Q1 Q2 Q3 Q4 Q5] Hq _. split_and!; try done. split; try done. cbn. by rewrite Hq. }
    intros []. eapply hoare_bind; [apply hoare_own_end|by intros [] s Hs].
    intros q [Q1 Q2 Q3 Q4 Q5] Hq _. split_and!; [by split|by left|done].
  - eapply hoare_bind; [apply (hoare_own_upd _ _ _ _ _ _ Fresh Stacked)|].
    { intros q [Q1 Q2 Q3 Q4 Q5] Hq _. bprop. split_and!; try done. split; try done. cbn. by rewrite Hq. }
    intros []. hstep. by intros s Hs.
Qed.

(** ** [fork] *)

Lemma keeps_fork_files `{NC : Counting} I R r e b c fd fds :
  (forall f, Some f ∈ fds -> (f < NFILE)%nat) ->
  gives I R (thread r e b) (fork_files c fd fds) (fun _ => True).
Proof.
  revert fd. induction fds as [|o fds IH]; intros fd H; cbn [fork_files]; [kauto|].
  assert (IH' : forall fd, gives I R (thread r e b) (fork_files c fd fds) (fun _ => True)).
  { intros fd'. apply IH. intros f Hf. apply H. by right. }
  destruct o as [f|]; unfold fork_file; kauto.
  apply keeps_upd_proc. intros p Hp _. apply gentle_files; [done|]. intros f' [= <-]. apply H. left.
Qed.

Lemma proc_ok_vspace p vs :
  proc_ok p -> length (regions vs) = NREGIONS -> (started (p_state p) = true -> pgtbl vs <> 0) ->
  proc_ok (set_p_vspace vs p).
Proof. intros [Q1 Q2 Q3 Q4 Q5] H1 H2. split; try done. intros H. split; [by apply Q5|by apply H2]. Qed.

Lemma proc_ok_state p st :
  proc_ok p -> kstack p <> 0 /\ pgtbl (p_vspace p) <> 0 -> proc_ok (set_p_state st p).
Proof. intros [Q1 Q2 Q3 Q4 Q5] H. by split. Qed.

Lemma hoare_fork `{NC : Counting} w :
  hoare (yielded w) (resumed w) (thread (running w) None true) fork (fun _ => thread (running w) None false).
Proof.
  unfold fork. hstep.
  eapply hoare_bind; [apply hoare_allocproc|]. intros [c|]; [|by intros s Hs].
  simple eapply hoare_gives_bind; [apply gives_get_own|]. intros cp [Hcp Hst].
  simple eapply hoare_gives_bind; [kcall|]. intros [vs r'] [Hlen Hr]. cbv beta iota.
  specialize (Hlen (po_regions _ Hcp)). destruct (r' =? 0) eqn:Er.
  2: { intros s Hs. pose proof (th_own _ _ _ _ Hs) as (_ & p & Hp & _).
       by mstep (upd_proc_eq s c _ p Hp). }
  bprop. specialize (Hr Er). eapply hoare_bind; [apply (hoare_own_upd _ _ _ _ _ _ Stacked Ready)|].
  { intros q Hq Hqs Hg. split_and!; [|done..]. apply proc_ok_vspace; [done|done|]. by rewrite Hqs. }
  intros []. hstep. simple eapply hoare_gives_bind; [kcall|]. intros pp [Hpp Hlt].
  simple eapply hoare_gives_bind; [kcall|]. intros [vs' r''] [Hlen' Hpg]. cbn [fst] in *. cbv beta iota.
  eapply hoare_bind; [apply (hoare_own_upd _ _ _ _ _ _ Ready Ready)|].
  { intros q Hq Hqs [Hg _]. split; [|split_and!; try done; cbn; by rewrite Hpg].
    apply proc_ok_vspace; [done|by rewrite Hlen'; apply Hpp|congruence]. }
  intros []. hstep. hstep. hstep.
  { apply keeps_upd_proc. intros q [Q1 Q2 Q3 Q4 Q5] _. split; [|done..|by left].
    split; try done. by intros i [= <-]. }
  hstep. { apply keeps_fork_files. intros f Hf. eapply po_fd; [exact Hpp|].
    eapply elem_of_sublist; [exact Hf|apply sublist_take]. }
  eapply hoare_bind; [apply (hoare_own_end _ _ _ _ _ _ Ready)|].
  { intros q Hq Hqs Hg. split_and!; [by apply proc_ok_state|by left|done]. }
  intros []. apply (hoare_gives _ _ _ _ (fun _ => True)). kauto.
Qed.

(** ** [exit] and [wait] *)

Lemma keeps_reparent `{NC : Counting} I R r e b p i : gives I R (thread r e b) (reparent p i) (fun _ => True).
Proof.
  unfold reparent. kstep. kstep. 2: kauto. kstep. kstep. kstep. 2: kauto.
  simple eapply (gives_bind _ _ _ _ _ (fun t => forall k, initproc t = Some k -> (k < NPROC)%nat)).
  { apply gives_gets. intros s Hs. apply (pk_init _ _ (kv_pt _ (th_inv _ _ _ _ Hs))). }
  intros t Ht. kauto. apply keeps_upd_proc. intros q Hq _. by apply gentle_parent.
Qed.

Lemma keeps_exit `{NC : Counting} w b : gives (yielded w) (resumed w) (thread (running w) None b) exit (fun _ => True).
Proof.
  unfold exit. simple eapply gives_bind; [kcall|]. intros i Hi. cbv beta in Hi. me_running.
  simple eapply (gives_bind _ _ _ _ _ (fun _ => True)).
  { unfold exit_close. kauto. }
  intros _ _. kstep. destruct w as [j|]; [|done]. cbn in Hi. simplify_eq.
  apply gives_intro. change (hoare (yielded (Some i)) (resumed (Some i)) (thread (running (Some i)) None b)
    (upd_proc i (set_p_state ZOMBIE) ;; mfor (seq 0 NPROC) (reparent i) ;;
     q <- get_proc i ;; wakeup1 (ch_proc <$> parent q) ;; sched ;; release ptable_lk)
    (fun _ s' => thread (running (Some i)) None b s' /\ True)).
  eapply hoare_bind; [by apply hoare_stop|]. intros [].
  hstep; [apply gives_mfor; intros k; apply keeps_reparent|]. hstep. hstep.
  eapply hoare_bind; [apply hoare_sched|]. intros [] s Hs.
  apply gives_elim; [kauto|]. by apply thread_weaken.
Qed.

Lemma hoare_reap `{NC : Counting} w b i :
  hoare (yielded w) (resumed w) (thread (running w) (Some (i, ZOMBIE, Ready)) b) (reap i)
    (fun _ => thread (running w) None b).
Proof.
  unfold reap. simple eapply hoare_gives_bind; [apply gives_get_own|]. intros q [Hq Hst].
  simple eapply hoare_gives_bind; [kcall|]. intros vs [Hlen Hpg].
  assert (Hpt : pgtbl vs <> 0) by (rewrite Hpg; apply (po_started _ Hq); by rewrite Hst).
  eapply hoare_bind; [apply (hoare_own_upd _ _ _ _ _ _ Ready Ready)|].
  { intros x Hx Hxs [Hg _]. split; [|by split_and!]. by apply proc_ok_vspace. }
  intros []. hstep. eapply hoare_bind; [apply (hoare_own_end _ _ _ _ _ _ Ready)|].
  { intros x [X1 X2 X3 X4 X5] Hxs _. split; [by split|]. split; [by right|done]. }
  intros []. apply (hoare_gives _ _ _ _ (fun _ => True)). kauto.
Qed.

Lemma keeps_wait `{NC : Counting} w b : gives (yielded w) (resumed w) (thread (running w) None b) wait (fun _ => True).
Proof.
  unfold wait. kstep. kstep. match goal with |- gives _ _ _ (_ ?w _) _ => generalize w as fuel end. generalize false as hc. intros hc fuel. revert hc.
  induction fuel as [|fuel IH]; intros hc; cbn [wait_loop]; [kauto|].
  unfold myproc. kstep; [apply gives_gets; intros; exact I|]. apply gives_intro. intros s Hs. msimp.
  destruct (list_find _ _) as [[i q]|] eqn:E.
  - apply list_find_Some in E as (Hq & [_ Hz] & _).
    eapply runs_mono; [|apply (hoare_reap w b i s)]; [by intros ? s' Hs'|].
    destruct Hs as [H1 H2 H3 H4]. split; [done|done| |done]. split; [by right|].
    exists q. split_and!; [done|done|..]; apply (po_started q); rewrite ?Hz; try done;
      by apply (kinv_proc s i q H1).
  - apply gives_elim; [|done]. kauto.
Qed.

Lemma keeps_forkret `{NC : Counting} w b : gives (yielded w) (resumed w) (thread (running w) None b) forkret (fun _ => True).
Proof. unfold forkret. kauto. by apply (gives_modify_rest _ _ _ (thread_rest _ _ _)). Qed.

(** ** The first process *)

Lemma hoare_userinit `{NC : Counting} init size :
  hoare (yielded None) (resumed None) (thread None None true) (userinit init size) (fun _ => thread None None false).
Proof.
  unfold userinit. eapply hoare_bind; [apply hoare_allocproc|]. intros [c|]; [|by intros s Hs].
  hstep.
  { apply gives_modify. intros s Hs.
    pose proof (th_own _ _ _ _ Hs) as (_ & p & Hp & _). apply lookup_lt_Some in Hp.
    destruct Hs as [[[P1 P2 P3] K2 K3 K4 K5 K6 K7] H2 H3 H4].
    split; [|done..]. split; try done. split; try done. intros i [= <-]. cbn. by rewrite <- P1. }
  hstep. simplify_eq. simple eapply hoare_gives_bind; [apply gives_get_own|]. intros cp [Hcp Hst].
  simple eapply hoare_gives_bind; [kcall|]. intros [vs r'] [Hlen Hr]. cbv beta iota.
  specialize (Hlen (po_regions _ Hcp)). destruct (r' =? 0) eqn:Er.
  2: { intros s Hs. pose proof (th_own _ _ _ _ Hs) as (_ & p & Hp & _).
       by mstep (upd_proc_eq s a0 _ p Hp). }
  bprop. specialize (Hr Er). eapply hoare_bind; [apply (hoare_own_upd _ _ _ _ _ _ Stacked Ready)|].
  { intros q Hq Hqs Hg. split_and!; [|done..]. apply proc_ok_vspace; [done|done|]. by rewrite Hqs. }
  intros []. hstep. simple eapply hoare_gives_bind; [kcall|]. intros vs' [Hlen' Hpg].
  eapply hoare_bind; [apply (hoare_own_upd _ _ _ _ _ _ Ready Ready)|].
  { intros q Hq Hqs [Hg _]. split; [|split_and!; try done; cbn; by rewrite Hpg].
    apply proc_ok_vspace; [done|by rewrite Hlen'|congruence]. }
  intros []. hstep. hstep. hstep. hstep. hstep.
  eapply hoare_bind; [apply (hoare_own_end _ _ _ _ _ _ Ready)|].
  { intros q Hq Hqs Hg. split_and!; [by apply proc_ok_state|by left|done]. }
  intros []. apply (hoare_gives _ _ _ _ (fun _ => True)). kauto.
Qed.

(** ** System calls *)

Section calls.
Context `{NC : Counting} (w : option nat) (b : bool).

Abbreviation J := (thread (running w) None b).
Abbreviation maintains m := (gives (yielded w) (resumed w) J m (fun _ => True)).

Lemma keeps_fetcharg n : maintains (fetcharg n).
Proof. unfold fetcharg. kauto. Qed.
Hint Resolve keeps_fetcharg : keeps.

Lemma keeps_argint n : maintains (argint n).
Proof. unfold argint. kauto. Qed.

Lemma keeps_argint64 n : maintains (argint64 n).
Proof. unfold argint64. kauto. Qed.
Hint Resolve keeps_argint keeps_argint64 : keeps.

Lemma keeps_argptr n size : maintains (argptr n size).
Proof. unfold argptr. kauto. Qed.

Lemma keeps_strscan fuel s ep n : maintains (strscan fuel s ep n).
Proof. revert s n. induction fuel as [|fuel IH]; intros; cbn [strscan]; kauto. Qed.
Hint Resolve keeps_strscan : keeps.

Lemma keeps_fetchstr addr : maintains (fetchstr addr).
Proof.
  unfold fetchstr. kstep. generalize (take NREGIONS (regions (p_vspace a))) as rs. intros rs.
  induction rs as [|x rs IH]; cbn [fetchstr_regions]; kauto.
Qed.
Hint Resolve keeps_argptr keeps_fetchstr : keeps.

Lemma keeps_argstr n : maintains (argstr n).
Proof. unfold argstr. kauto. Qed.
Hint Resolve keeps_argstr : keeps.

Lemma keeps_sleep_loop fuel t0 n : maintains (sleep_loop fuel t0 n).
Proof. induction fuel as [|fuel IH]; cbn [sleep_loop]; kauto. Qed.
Hint Resolve keeps_sleep_loop keeps_exit keeps_wait : keeps.

(** Every handler but [sys_fork]. *)
Lemma keeps_handler num h : syscalls num = Some h -> num <> 1 -> maintains h.
Proof.
  intros E Hn. unfold syscalls in E. repeat case_match; simplify_eq;
    unfold sys_exit, sys_wait, sys_pipe, sys_read, sys_kill, sys_exec, sys_fstat, sys_dup, sys_getpid,
      sys_sbrk, sys_sleep, sys_uptime, sys_open, sys_write, sys_unlink, sys_close, sys_sysinfo,
      sys_crashn; kauto.
Qed.

Lemma keeps_set_result r : maintains (set_result r).
Proof. unfold set_result. kauto. Qed.
End calls.
#[export] Hint Resolve keeps_exit keeps_wait keeps_set_result : keeps.

Lemma hoare_syscall `{NC : Counting} w :
  hoare (yielded w) (resumed w) (thread (running w) None true) syscall
    (fun _ => thread (running w) None false).
Proof.
  unfold syscall. hstep. cbv zeta. destruct (syscalls _) as [h|] eqn:E.
  - eapply (hoare_bind _ _ _ _ _ (fun _ => thread (running w) None false)).
    + destruct (decide (i32 (tf_rax (p_tf a)) = 1)) as [E1|Hn].
      * rewrite E1 in E. cbn in E. simplify_eq. apply hoare_fork.
      * eapply hoare_cons; [apply (hoare_gives _ _ _ _ (fun _ => True)), (keeps_handler _ true _ _ E Hn)
                           |done|]. intros x s. apply thread_weaken.
    + intros x. apply (hoare_gives _ _ _ _ (fun _ => True)). kauto.
  - eapply hoare_cons; [apply (hoare_gives _ _ _ _ (fun _ => True))|done|intros x s; apply thread_weaken].
    kauto.
Qed.

(** ** Traps *)

Lemma keeps_exit_if_killed `{NC : Counting} w b tf :
  gives (yielded w) (resumed w) (thread (running w) None b) (exit_if_killed tf) (fun _ => True).
Proof. unfold exit_if_killed, myproc. kauto. Qed.

Lemma keeps_upd_time `{NC : Counting} I R r e b f : gives I R (thread r e b) (upd_time f) (fun _ => True).
Proof. by apply (gives_modify_rest _ _ _ (thread_rest _ _ _)). Qed.
#[export] Hint Resolve keeps_exit_if_killed keeps_upd_time : keeps.

Lemma keeps_trap_switch `{NC : Counting} w b tf addr :
  gives (yielded w) (resumed w) (thread (running w) None b) (trap_switch tf addr) (fun _ => True).
Proof. unfold trap_switch, eoi, myproc. kauto. Qed.
#[export] Hint Resolve keeps_trap_switch : keeps.

(** A trap, whatever it is, from user mode or while the machine is idle. *)
Lemma hoare_trap `{NC : Counting} w tf addr :
  hoare (yielded w) (resumed w) (thread (running w) None true) (trap tf addr)
    (fun _ => thread (running w) None false).
Proof.
  unfold trap. destruct (_ =? TRAP_SYSCALL).
  - unfold trap_syscall. hstep. hstep; [kauto|]. hstep. hstep.
    eapply hoare_bind; [apply hoare_syscall|]. intros [].
    apply (hoare_gives _ _ _ _ (fun _ => True)). kauto.
  - eapply hoare_cons; [apply (hoare_gives _ _ _ _ (fun _ => True))|done|intros x s; apply thread_weaken].
    unfold myproc. kauto.
Qed.
