(* ===== verification/System.v ===== *)
(** * The machine

    One processor runs the kernel threads of the processes and the scheduler,
    one at a time.  A configuration says who has the processor: a process in
    user mode, a process in the kernel, or the scheduler; the threads that do
    not have it are kept as what remains of them.  A process in user mode can
    trap at any time, with any registers; interrupts also arrive while the
    scheduler has nothing to run.  Kernel code runs without being interrupted
    from one call of [swtch] to the next, and a panic or a fault stops the
    machine. *)

From S2P Require Import Prelude Logic Types Strings Spinlock Mmu Kalloc X86vm Umem Vspace Frame Sched.
From S2P Require Import Console Cpuid Kbd Sleeplock Ide Bio Fs File Proc Syscall Main.
From S2P Require Import Invariant Maintain MaintainProc.

(** ** Configurations and steps *)

(** What remains of a thread that gave up the processor. *)
Abbreviation cont := (kstate -> res kstate unit).

Inductive config :=
| InUser (s : kstate) (i : nat) (sk : cont) (cs : gmap nat cont)
| InKernel (r : res kstate unit) (i : nat) (sk : cont) (cs : gmap nat cont)
| InSched (r : res kstate unit) (cs : gmap nat cont).

(** Where [swtch] takes the processor to: a new process starts in [forkret], any
    other continues after its own call of [swtch]. *)
Definition resume (cs : gmap nat cont) (i : nat) (s : kstate) : option (res kstate unit) :=
  match cx_rip ∘ p_context <$> proc_at s i with
  | Some at_forkret => Some (forkret s)
  | Some at_sched => (fun k => k s) <$> cs !! i
  | _ => None
  end.

Inductive step : config -> config -> Prop :=
| step_trap s i sk cs tf addr : step (InUser s i sk cs) (InKernel (trap tf addr s) i sk cs)
| step_return s i sk cs : step (InKernel (Done tt s) i sk cs) (InUser s i sk cs)
| step_yield s k i sk cs : step (InKernel (Block s k) i sk cs) (InSched (sk s) (<[i := k]> cs))
| step_dispatch s sk cs j r :
    c_proc (k_cpu s) = Some j -> resume cs j s = Some r ->
    step (InSched (Block s sk) cs) (InKernel r j sk cs)
| step_round s cs : step (InSched (Done tt s) cs) (InSched (scheduler_round s) cs)
| step_interrupt s cs tf addr :
    eflags_if (k_cpu s) = true ->
    step (InSched (Done tt s) cs) (InSched (trap tf addr s) cs).

(** The counter of process numbers does not wrap around when the kernel is
    entered or resumed from this configuration and allocates one. *)
Definition in_count (c : config) : bool :=
  match c with
  | InUser s _ _ _ | InSched (Done _ s) _ | InSched (Block s _) _ => nextpid (k_pt s) <? 2 ^ 31 - 1
  | _ => true
  end.

(** What the machine can do from the moment [main] calls the scheduler in [s0];
    the flag says that the counter has never been at its end on the way. *)
Inductive reachable (s0 : kstate) : bool -> config -> Prop :=
| reach_boot : reachable s0 true (InSched (Done tt s0) ∅)
| reach_step n c c' : reachable s0 n c -> step c c' -> reachable s0 (n && in_count c) c'.

(** ** The scheduler *)

(** The scheduler has the processor. *)
Definition scheduling (s : kstate) : Prop :=
  kinv s /\ c_proc (k_cpu s) = None /\ forall j p, proc_at s j = Some p -> p_state p <> RUNNING.

Section scheduler.
Context `{NC : Counting}.

Definition sched_inv (s : kstate) : Prop := idle s /\ c_proc (k_cpu s) = None.

(** The scheduler has chosen a process. *)
Definition dispatched (s : kstate) : Prop := exists j, thread (running (Some j)) None false s.

Lemma idle_rest : rest_only idle.
Proof.
  intros s s' E (H1 & Hn & H2). split; [by eapply kinv_rest|].
  destruct (rest_eq _ _ E) as (E1 & E2 & _). unfold numbered, proc_at. rewrite E1, E2. by split.
Qed.

Lemma sched_inv_rest : rest_only sched_inv.
Proof.
  intros s s' E [H1 H2]. split; [by eapply idle_rest|].
  destruct (rest_eq _ _ E) as (_ & _ & _ & _ & _ & _ & _ & _ & _ & E10). by rewrite E10.
Qed.

(** Process [i] is about to be run. *)
Definition choosing (i : nat) (s : kstate) : Prop :=
  idle s /\ c_proc (k_cpu s) = Some i /\ exists p, proc_at s i = Some p /\ p_state p = RUNNABLE.

Lemma choosing_rest i : rest_only (choosing i).
Proof.
  intros s s' E (H1 & H2 & H3). split; [by eapply idle_rest|].
  destruct (rest_eq _ _ E) as (E1 & _ & _ & _ & _ & _ & _ & _ & _ & E10).
  unfold proc_at in *. by rewrite E1, E10.
Qed.

Lemma idle_set_c_proc s o : idle s -> idle (set_k_cpu (set_c_proc o (k_cpu s)) s).
Proof.
  intros ([H1 H2 H3 H4 H5 H6 H7] & Hn & Hr). split; [|done]. split; try done.
  intros j p Hp E. by destruct (Hr j p Hp).
Qed.

Lemma choosing_run i s p :
  choosing i s -> proc_at s i = Some p -> thread (running (Some i)) None false (put_proc i (set_p_state RUNNING p) s).
Proof.
  intros ((H1 & Hn & H2) & Hc & q & Hq & Hst) Hp. simplify_eq.
  destruct (kinv_proc _ _ _ H1 Hq) as [P1 P2 P3 P4 P5]. split; [| |done|].
  - eapply kinv_put; [done| |done]. split; try done. intros _. apply P5. by rewrite Hst.
  - split; [done|]. eexists. split; [by eapply proc_at_put|done].
  - eapply pids_put; [by split; [apply Hn|]|done|by left|]. intros _. by rewrite Hst.
Qed.

Abbreviation hoare_sched' := (hoare dispatched idle).

Lemma hoare_scheduler_slot i : hoare_sched' sched_inv (scheduler_slot i) (fun _ => sched_inv).
Proof.
  intros s Hs. unfold scheduler_slot. destruct (proc_at s i) as [p|] eqn:Hp.
  2: { unfold get_proc, bind, gets. cbn. unfold proc_at in Hp. by rewrite Hp. }
  mstep (get_proc_eq s i p Hp). destruct (decide _) as [|Hst]; [done|].
  apply dec_stable in Hst. unfold upd_cpu at 1. msimp.
  set (s1 := set_k_cpu _ s). assert (H1 : choosing i s1).
  { split; [by apply idle_set_c_proc, Hs|]. split; [done|]. by exists p. }
  clearbody s1. clear s Hs Hp Hst. revert s1 H1.
  change (hoare_sched' (choosing i) (vspaceinstall (Some i) ;; upd_proc i (set_p_state RUNNING) ;;
    swtch ;; vspaceinstallkern ;; upd_cpu (set_c_proc None)) (fun _ => sched_inv)).
  simple eapply hoare_gives_bind; [apply keeps_vspaceinstall, choosing_rest|]. intros _ _ s Hs.
  pose proof Hs as (_ & _ & q & Hq & _). mstep (upd_proc_eq s i _ q Hq).
  unfold swtch at 1. unfold bind at 1. cbn [bindr runs]. split; [exists i; by apply choosing_run|].
  clear s Hs Hq. intros s Hs.
  assert (G : gives dispatched idle idle vspaceinstallkern (fun _ => True))
    by (apply keeps_vspaceinstallkern, idle_rest).
  eapply runs_bind; [apply (gives_elim _ _ _ _ _ _ G Hs)|]. intros [] s' [Hs' _].
  split; [by apply idle_set_c_proc|done].
Qed.

Lemma hoare_scheduler_round : hoare_sched' sched_inv scheduler_round (fun _ => sched_inv).
Proof.
  assert (HL : lock_ok sched_inv ptable_lk)
    by (apply lock_frame_ok; [apply sched_inv_rest|exact ptable_lk_frame]).
  pose proof sched_inv_rest as HR. unfold scheduler_round.
  simple eapply hoare_gives_bind; [apply keeps_sti, HR|]. intros _ _.
  simple eapply hoare_gives_bind; [by apply keeps_acquire|]. intros _ _.
  eapply (hoare_bind _ _ _ _ _ (fun _ => sched_inv)).
  - generalize (seq 0 NPROC) as l. intros l. induction l as [|i l IH]; [by intros s Hs|].
    cbn [mfor]. eapply hoare_bind; [apply hoare_scheduler_slot|]. by intros [].
  - intros []. by apply (hoare_gives _ _ _ _ (fun _ => True)), keeps_release.
Qed.

End scheduler.

(** ** Boot *)

(** The tables have not been touched since power-on. *)
Definition booting (s : kstate) : Prop :=
  cons_ok (k_cons s) /\
  pt_proc (k_pt s) = replicate NPROC zero_proc /\ nextpid (k_pt s) = 1 /\ initproc (k_pt s) = None /\
  file_table (k_ft s) = replicate NFILE zero_file /\ ic_inode (k_ic s) = replicate NINODE zero_inode /\
  bufs s = replicate (S NBUF) zero_buf /\ c_proc (k_cpu s) = None.

Lemma booting_rest : rest_only booting.
Proof.
  intros s s' (E1 & E2 & E3 & E4 & E5 & E6 & E7 & E8 & E9 & E10)%rest_eq.
  unfold booting, bufs, cons_ok. by rewrite E1, E2, E3, E4, E5, E6, E7, E8, E9, E10.
Qed.

Lemma booting_known : cons_known booting.
Proof. by intros s [H _]. Qed.

Lemma booting_closed : cons_closed booting.
Proof. intros s k [_ H] Hk. by split. Qed.

Lemma booting_zero ev end_ disk : booting (set_k_env ev (zero_state end_ disk)).
Proof. by repeat split. Qed.

Lemma binit_ok : bc_ok binit_bufs.
Proof.
  split; [exists (reverse (seq 0 NBUF)); exact binit_lru|].
  intros i j x y _ _ Hx Hy _ _ Hne. destruct (binit_keys i x Hx) as [E1 E2].
  exfalso. apply Hne. by rewrite E1, E2.
Qed.

(** [binit] completes the invariant. *)
Lemma booted `{NC : Counting} s : booting s -> thread None None true (with_bufs binit_bufs (lk_set bcache_lk zero_lock s)).
Proof.
  intros ([K1 [K2 K3]] & P1 & P2 & P3 & F & I & B & C).
  assert (Hz : forall j p, proc_at s j = Some p -> p = zero_proc).
  { intros j p Hp. unfold proc_at in Hp. rewrite P1 in Hp. by apply lookup_replicate in Hp as [-> _]. }
  split; [|done|done|].
  2: { intros _. unfold numbered, pids_left; cbn. rewrite P1, P2. split; [|lia]. split; [lia| |].
       - by intros i p [-> _]%lookup_replicate.
       - by intros i j p q [-> _]%lookup_replicate [-> _]%lookup_replicate. }
  split; [| | | | |done|done].
  - cbn. rewrite P1, P3. split; [done|done|].
    intros i p [-> _]%lookup_replicate.
    split; try done. by intros f [n [? ?]%lookup_replicate]%list_elem_of_lookup.
  - intros j p Hp. by rewrite (Hz j p Hp).
  - cbn. by rewrite F.
  - cbn. by rewrite I.
  - exact binit_ok.
Qed.

Section boot.
Context `{NC : Counting}.
Abbreviation maintains m := (gives (yielded None) (resumed None) booting m (fun _ => True)).
Hint Resolve booting_rest booting_known booting_closed : keeps.

Lemma booting_lock L : LockFrame L -> lock_ok booting L.
Proof. intros H. apply lock_frame_ok; [apply booting_rest|done]. Qed.
Hint Extern 1 (lock_ok booting _) => apply booting_lock; apply _ : keeps.

Lemma keeps_vspacebootinit : maintains vspacebootinit.
Proof.
  unfold vspacebootinit. kauto.
  - by apply (gives_modify_rest _ _ _ booting_rest).
  - apply gives_modify. intros s (H1 & H2 & H3 & H4 & H5 & H6 & H7 & H8). by split_and!.
Qed.

Lemma keeps_consoleinit : maintains consoleinit.
Proof.
  unfold consoleinit. kauto.
  - by apply (gives_modify_rest _ _ _ booting_rest).
  - by apply (keeps_upd_cons _ _ _ booting_known booting_closed).
Qed.

Lemma keeps_uartinit p : maintains (uartinit p).
Proof. unfold uartinit. kauto. by apply (keeps_upd_cons _ _ _ booting_known booting_closed). Qed.

Lemma keeps_e820_print m : maintains (e820_print m).
Proof. unfold e820_print, print_e820_map_type. kauto. Qed.

Lemma keeps_cpuid_print c : maintains (cpuid_print c).
Proof.
  unfold cpuid_print, brand_string, print_feature. destruct (c 0x80000000) as [[[? ?] ?] ?]. kauto.
Qed.
Hint Resolve keeps_cpuid_print keeps_vspacebootinit keeps_consoleinit keeps_uartinit keeps_e820_print : keeps.

(** [main] establishes the invariant. *)
Lemma hoare_main m :
  hoare (yielded None) (resumed None) booting (main m) (fun _ => thread None None false).
Proof.
  unfold main, memory_report, pinit, tvinit. do 14 (hstep; try solve [kauto]). intros s Hs.
  mstep (binit_eq s (ltac:(apply Hs))).
  apply booted in Hs. revert Hs. generalize (with_bufs binit_bufs (lk_set bcache_lk zero_lock s)).
  clear s. change (hoare (yielded None) (resumed None) (thread None None true)
    (ideinit (m_disk1 m) ;; userinit (m_init m) (m_init_size m) ;;
     cprintf (String.append "cpu%d: starting" nl) [va_int 0]) (fun _ => thread None None false)).
  hstep; [unfold ideinit, idewait; kauto|].
  eapply hoare_bind; [apply hoare_userinit|]. intros [].
  apply (hoare_gives _ _ _ _ (fun _ => True)). kauto.
Qed.
End boot.

(** ** Every configuration *)

Section configs.
Context `{NC : Counting}.

Lemma sched_inv_thread s : thread None None false s <-> sched_inv s.
Proof.
  split.
  - intros [H1 H2 _ Hn]. split; [|done]. split; [done|]. split; [by intros [? _]%Hn|]. intros j p Hp Hr.
    pose proof (kv_run _ H1 j p Hp Hr) as E. cbn in H2. congruence.
  - intros [(H1 & Hn & H2) H3]. split; [done..|]. intros Hc. by split; [apply Hn|].
Qed.

Lemma sched_inv_intro s : scheduling s -> (counted -> numbered s) -> sched_inv s.
Proof. by intros (H1 & H2 & H3) Hn. Qed.

(** A thread that cannot give up the processor keeps every promise about it. *)
Lemma runs_noblock {A} (I R I' R' : kstate -> Prop) (Q Q' : A -> kstate -> Prop) r :
  (forall s, I s -> False) -> (forall a s, Q a s -> Q' a s) -> runs I R Q r -> runs I' R' Q' r.
Proof. intros HI HQ. destruct r; cbn; auto. intros [? _]. exfalso. eauto. Qed.

Definition user_thread (i : nat) (r : res kstate unit) : Prop :=
  runs (yielded (Some i)) (resumed (Some i)) (fun _ => thread (running (Some i)) None false) r.

Definition sched_thread (r : res kstate unit) : Prop := runs dispatched idle (fun _ => sched_inv) r.

Definition conts_ok (cs : gmap nat cont) : Prop :=
  forall j k, cs !! j = Some k -> forall s, resumed (Some j) s -> user_thread j (k s).

Definition sched_ok (sk : cont) : Prop := forall s, idle s -> sched_thread (sk s).

Definition config_ok (c : config) : Prop :=
  match c with
  | InUser s i sk cs => thread (running (Some i)) None false s /\ sched_ok sk /\ conts_ok cs
  | InKernel r i sk cs => user_thread i r /\ sched_ok sk /\ conts_ok cs
  | InSched r cs => sched_thread r /\ conts_ok cs
  end.

Lemma thread_pids r e s : thread r e false s -> (counted -> (nextpid (k_pt s) <? 2 ^ 31 - 1) = true) -> thread r e true s.
Proof. intros [H1 H2 H3 Hn] Hp. split; [done..|]. intros Hc. split; [by apply Hn|]. intros _. by apply Z.ltb_lt, Hp. Qed.

Lemma resume_ok cs j s r :
  conts_ok cs -> resumed (Some j) s -> resume cs j s = Some r -> user_thread j r.
Proof.
  intros Hcs Hs. unfold resume. destruct (_ <$> _) as [[| |]|]; [done| | |done].
  - intros [= <-]. eapply runs_mono; [|apply (gives_elim _ _ _ _ _ _ (keeps_forkret (Some j) true) Hs)].
    intros [] s' [H _]. by apply thread_weaken.
  - destruct (cs !! j) as [k|] eqn:E; [|done]. intros [= <-]. by apply (Hcs j k E).
Qed.

Lemma step_ok c c' : (counted -> in_count c = true) -> config_ok c -> step c c' -> config_ok c'.
Proof.
  intros Hp H St. destruct St as [s i sk cs tf addr|s i sk cs|s k i sk cs|s sk cs j r Hc Hr|s cs
                              |s cs tf addr Hi]; cbn in *.
  - destruct H as (Hs & Hsk & Hcs). split_and!; [|done|done].
    apply (hoare_trap (Some i) tf addr s). by apply thread_pids.
  - by destruct H as (Hs & Hsk & Hcs).
  - destruct H as ((Hs & Hk) & Hsk & Hcs). split; [by apply Hsk, Hs|].
    intros j k'. destruct (decide (i = j)) as [->|Hne].
    + rewrite lookup_insert_eq. intros [= <-]. exact Hk.
    + rewrite lookup_insert_ne by done. apply Hcs.
  - destruct H as ((Hd & Hsk) & Hcs). destruct Hd as [j' Hd].
    assert (j' = j) as -> by (destruct (th_cur _ _ _ _ Hd) as [E _]; congruence).
    split_and!; [|done|done]. eapply resume_ok; [done| |done]. by apply thread_pids.
  - destruct H as (Hs & Hcs). split; [|done]. by apply hoare_scheduler_round.
  - destruct H as (Hs & Hcs). split; [|done].
    eapply runs_noblock; [| |apply (hoare_trap None tf addr s)].
    + by intros s' [[? ?] _].
    + intros a s'. apply sched_inv_thread.
    + apply thread_pids; [by apply sched_inv_thread|done].
Qed.
End configs.

(** With the flag of the run for the proposition that the counter never wrapped. *)
Lemma reachable_ok s0 n c :
  scheduling s0 -> numbered s0 -> reachable s0 n c -> forall NC : Counting, (NC -> n = true) -> config_ok c.
Proof.
  intros H0 Hn. induction 1 as [|n c c' _ IH St]; intros NC HNC.
  - split; [by apply sched_inv_intro|]. intros j k Hk. by rewrite lookup_empty in Hk.
  - assert (NC -> n = true /\ in_count c = true) as Hs by (intros [? ?]%HNC%andb_true_iff; done).
    eapply step_ok; [|apply IH|exact St]; intros H; by apply Hs.
Qed.

(** ** Properties *)

(** C2: The boot sequence establishes the invariant: from a zeroed kernel, with
    whatever the machine hands over, if [main] gets as far as calling the
    scheduler then it does so in a state where the invariant holds, process
    numbers are distinct and nothing is running, and it never gives up the
    processor before.  (It can also stop with a panic, for example when the memory
    is too small; that is not excluded here.) *)
Theorem boot_establishes_invariant (m : machine) (ev : kenv) (end_ : Z) (disk : gmap (Z * Z) (list Z)) :
  match main m (set_k_env ev (zero_state end_ disk)) with
  | Done _ s => scheduling s /\ numbered s
  | Block _ _ => False
  | Panic _ | Fault _ | Diverge => True
  end.
Proof.
  pose proof (hoare_main (NC := True) m _ (booting_zero ev end_ disk)) as H.
  destruct (main m _) as [a s| | | |s k]; try done.
  - apply sched_inv_thread in H as [(H1 & Hn & H2) H3]. by split; [|apply Hn].
  - by destruct H as [[[? ?] _] _].
Qed.

(** C1: The kernel's invariant holds at every point where user code runs, where a
    thread gives up the processor and where the scheduler looks for work, for
    every sequence of traps and every interleaving of the processes: parents and
    descriptors are valid, every process that can run has a stack and a page
    table; the running process is the current one and the only one; no disk block
    is cached twice; the console's buffer and cursor are in range.  And as long as
    the counter of process numbers was never at its end, 2^31 - 1, when the kernel
    was entered or a thread resumed, the process numbers are distinct.  (Kernel
    code is not interrupted between two calls of [swtch], and what remains of a
    thread after a panic or a fault is not continued.) *)
Theorem kernel_invariant (s0 : kstate) (n : bool) (c : config)
    (H0 : scheduling s0) (Hn : numbered s0) (Hc : reachable s0 n c) :
  match c with
  | InUser s i _ _ =>
      kinv s /\ (n = true -> numbered s) /\ c_proc (k_cpu s) = Some i /\
      forall j p, proc_at s j = Some p -> (p_state p = RUNNING <-> j = i)
  | InSched (Done _ s) _ =>
      kinv s /\ (n = true -> numbered s) /\ c_proc (k_cpu s) = None /\
      forall j p, proc_at s j = Some p -> p_state p <> RUNNING
  | InKernel (Block s _) _ _ _ =>
      kinv s /\ (n = true -> numbered s) /\ forall j p, proc_at s j = Some p -> p_state p <> RUNNING
  | _ => True
  end.
Proof.
  pose proof (reachable_ok s0 n c H0 Hn Hc (n = true) (fun H => H)) as Hok.
  destruct c as [s i sk cs|r i sk cs|r cs]; cbn in Hok.
  - destruct Hok as ([H1 (Hcp & p & Hp & Hr) _ H4] & _ & _). split_and!; [done|by intros [? _]%H4|done|].
    intros j q Hq. split.
    + intros E. pose proof (kv_run _ H1 j q Hq E). congruence.
    + intros ->. simplify_eq. by apply Hr.
  - destruct r; try done. by destruct Hok as (([_ Hi] & _) & _ & _).
  - destruct r; try done. by destruct Hok as ([(H1 & H2 & H3) H4] & _).
Qed.

(** A machine whose process 0 is ready to start. *)
Definition ready_demo : kstate :=
  put_proc 0 (set_p_context new_context (set_p_vspace (set_pgtbl 0x1000 zero_vspace)
                (set_kstack 0x1000 (set_p_state RUNNABLE (set_p_pid 1 zero_proc)))))
    (with_bufs binit_bufs
       (set_k_pt (set_pt_first false (set_nextpid 2 zero_ptable)) (zero_state 0x200000 ∅))).

Lemma ready_demo_ok : scheduling ready_demo /\ numbered ready_demo.
Proof.
  assert (Hat : forall j p, proc_at ready_demo j = Some p ->
    (j = 0%nat /\ p_state p = RUNNABLE /\ p_pid p = 1 /\ proc_ok p) \/ p = zero_proc).
  { intros j p [[<- ->]|[_ Hp]]%proc_at_put_inv.
    - left. split_and!; try done. split; try done.
      by intros f [n [? ?]%lookup_replicate]%list_elem_of_lookup.
    - right. change (replicate NPROC zero_proc !! j = Some p) in Hp. by apply lookup_replicate in Hp as [-> _]. }
  split.
  - split_and!; [|done|intros j p [(_ & E & _)| ->]%Hat; [congruence|done]].
    split; [| |done|done| |done|done].
    + split; [done|done|]. intros i p [(-> & H1 & H2 & H3)| ->]%Hat; [done|].
      split; try done. by intros f [n [? ?]%lookup_replicate]%list_elem_of_lookup.
    + intros j p [(_ & E & _)| ->]%Hat; [congruence|done].
    + exact binit_ok.
  - split; [done| |].
    + intros i p [(-> & H1 & H2 & H3)| ->]%Hat; [by rewrite H2|done].
    + intros i j p q [(-> & _ & Ei & _)| ->]%Hat [(-> & _ & Ej & _)| ->]%Hat; done.
Qed.

(** The state of the process that a round of the scheduler starts, in user mode. *)
Definition started_by (r : res kstate unit) : option kstate :=
  match r with
  | Block s _ =>
      match resume ∅ 0 s with
      | Some (Done _ s') => if decide (pids_left s /\ c_proc (k_cpu s) = Some 0%nat) then Some s' else None
      | _ => None
      end
  | _ => None
  end.

Lemma kernel_invariant_witness :
  exists s sk, reachable ready_demo true (InUser s 0 sk ∅) /\ kinv s /\ numbered s /\ c_proc (k_cpu s) = Some 0%nat.
Proof.
  assert (Hb : is_Some (started_by (scheduler_round ready_demo))) by (vm_compute; by eexists).
  destruct (scheduler_round ready_demo) as [| | | |s1 sk] eqn:E; try (by destruct Hb).
  destruct Hb as [s2 Hb]. unfold started_by in Hb.
  destruct (resume ∅ 0 s1) as [[[] s'| | | |]|] eqn:Er; try done.
  destruct (decide _) as [[Hp%Z.ltb_lt Hc]|]; [|done].
  assert (Hr : reachable ready_demo true (InUser s' 0 sk ∅)).
  { assert (H1 : reachable ready_demo true (InSched (Block s1 sk) ∅))
      by (rewrite <- E; exact (reach_step _ _ _ _ (reach_boot ready_demo) (step_round ready_demo ∅))).
    assert (H2 : reachable ready_demo true (InKernel (Done tt s') 0 sk ∅)).
    { replace true with (true && in_count (InSched (Block s1 sk) ∅)) by exact Hp.
      eapply reach_step; [exact H1|by apply step_dispatch]. }
    exact (reach_step _ _ _ _ H2 (step_return s' 0 sk ∅)). }
  exists s', sk. split; [done|]. destruct ready_demo_ok as [H0 Hn].
  destruct (kernel_invariant ready_demo true (InUser s' 0 sk ∅) H0 Hn Hr) as (H1 & H2 & H3 & _). auto.
Defined.
